(* ===== verification/_CoqProject ===== *)
-Q . S2P
Prelude.v
GoStrings.v
GoText.v
Casemapping.v
Xirc.v
Whox.v
Base64.v
Genmsg.v
Sasl.v
Irc.v
Rate.v
MsgStore.v
Database.v
Handler.v
Session.v
PathMatch.v
Network.v
Ignore.v
Pending.v
Upstream.v
UpstreamHandlers.v
UpstreamSafety.v
Membership.v
User.v
UserNetworks.v
UserRefinement.v
Downstream.v
DownstreamLabels.v
Registration.v
DownstreamCaps.v
DownstreamIsupport.v
Client.v
ClientHandlers.v
ClientMessages.v
ClientHistory.v
ClientBouncer.v
SessionSound.v
ClientSound.v
ServiceFlags.v
Service.v
ServiceCommands.v
ServiceSound.v
ClientPolicy.v
UserLoop.v
ClientRun.v
HistoryProps.v
BouncerProps.v
ServiceProps.v
LoopProps.v
LoopSound.v
