(* ===== verification/Prelude.v ===== *)
(** * sake: a verification library for the sake IRC bouncer

    sake keeps one connection to each IRC network of a user (an upstream
    connection) and serves any number of clients (downstream connections) from
    it. Each user has an event loop that owns the networks, the upstream and the
    downstream connections of the user and handles one event at a time, so the
    handlers are sequential programs on the state of the user: that is how they
    are modelled.

    ** Conventions

    - Go code that can fail or panic is in [res] (this file): [Ok], [Err] with
      the error of the code, [Panic] for a run-time panic. Code that also changes
      state is in the monad [handler S E] of Handler.v, state passing with [res];
      a failed handler keeps the changes made before the failure, as Go does.
    - Go maps are [gmap]; iteration over a map follows [map_order], an arbitrary
      permutation of the entries (class [MapOrder], Session.v), so the theorems
      hold for every iteration order. Case-mapped maps are the record
      [CaseMappingMap] of Casemapping.v.
    - Strings are Go byte strings (stdpp [string]); GoStrings.v and GoText.v
      translate what the code uses of strings, strconv, unicode/utf8 and net.
      Integers are [Z], with wrap-around written out where it can happen.
    - Code that is not in the repository (irc.v4, go-sasl, go-bare, bcrypt,
      net/url, the clock, random numbers, the databases, the sockets) is a field
      of a class ([Env], [UserEnv], [SrvEnv], ...) or an argument, with the
      hypotheses a theorem needs; the witnesses instantiate them.
    - What a connection asks another component to do is an effect in the state
      ([effect], [down_call]): messages sent, calls of methods of the clients,
      timers, database writes. Client.v puts the parts together: the calls that a
      method of a network or of the user makes on clients run, in order, when the
      method returns.
    - [Panic] also stands for a call that never returns (the deletion of the own
      user, which waits for its own goroutine). A panic ends the event loop of
      the user: server.go recovers it and removes the user.

    ** Files

    - Prelude, GoStrings, GoText, Handler: shared results, lists, strings, the
      handler monad and its program logic ([keeps], [wpe], [safee]).
    - Casemapping, Xirc, Whox, Genmsg: the package src/xirc (case mappings,
      memberships, CTCP, ISUPPORT values, WHOX, message generation).
    - Base64, Sasl: [handleAuthenticate] of src/downstream.go.
    - Irc: src/irc.go (user and channel modes, highlights, parameters).
    - Rate: src/rate.go and src/webadmin/ratelimit.go.
    - MsgStore: src/msgstore/memory.go and the identifiers of msgstore.go.
    - Database: the records of src/database/database.go and the attributes of
      BOUNCER of src/downstream.go.
    - Session: the state shared by the handlers ([upstreamConn], [network],
      [downstreamConn]), the effects and the access to them.
    - PathMatch, Ignore: path.Match of the Go library and [network.isIgnored].
    - Network: the methods of [network] and [deliveredStore] of src/user.go.
    - Pending, Upstream, UpstreamHandlers: src/upstream.go (queues of pending
      commands and labels, methods, [handleMessage] with its whole switch).
    - UpstreamSafety, Membership: the theorems about [handleMessage].
    - User: the operations of src/user.go on the networks of a user;
      UserNetworks, UserRefinement: their specification and refinement.
    - Downstream: src/downstream.go up to the registration (sending, labels,
      capabilities, ISUPPORT, registration); DownstreamLabels, Registration,
      DownstreamCaps, DownstreamIsupport: the theorems about it.
    - Client: the state [cst] of a user with its clients, and how methods of a
      client, a network and the user run on it. ClientHandlers, ClientMessages,
      ClientHistory, ClientBouncer: every case of [handleMessageRegistered].
    - ServiceFlags, Service, ServiceCommands: src/service.go and src/certfp.go
      (words, package flag, the tree of commands and each command).
    - UserLoop: [welcome] of a new client, the state [user.run] loads, and every
      event of its loop but [eventInspect].
    - SessionSound, ClientSound, ServiceSound, ClientPolicy, LoopSound: what every
      method of the user, of a client, every command, message and event keeps,
      whatever its outcome, for a policy on the stored records and the effects. ClientRun: how
      the handlers run for a client outside of a batch.
    - HistoryProps, BouncerProps, ServiceProps, LoopProps: the theorems about the
      handlers of clients, the service and the loop.

    ** What the theorems show

    - Upstream: [upstream_safety] (no server message with a well-formed source
      makes the loop panic and the invariant of the connection is kept,
      [upstream_init] that it holds at the start, [empty_source_panics] the
      input that is excluded); [membership_refines] (the channels and members
      kept are those of an abstract observer); [pending_fifo], [label_roundtrip]
      and [pending_timeout_stuck] (replies reach the client that asked).
    - Users: [networks_refine] (networks and client bindings follow the abstract
      operations; failures change nothing).
    - Clients: [registration_authenticated], [registration_completes],
      [unmarshalUsername_roundtrip], [labeled_response], [cap_req_atomic],
      [caps_invariant], [cap_notify_sync], [isupport_sync], [sasl_roundtrip],
      [sasl_buffer_bounded]; [chathistory_one_batch] and [markread_forward] (the
      answers to history and marker requests), [clientcert_roundtrip].
    - Service: [client_confined] (the messages and commands of a user that is not
      an admin change only what is its own), [service_command_terminates],
      [splitWords_roundtrip], [help_lists_commands].
    - Event loop: [loop_invariant] (clients have distinct IDs, consistent
      capabilities and networks that exist in every reachable state);
      [attach_partial_channel_panics] and [sasl_restart_panics] are two runs that
      end in a panic.
    - Helpers: round trips of modes, WHOX, message identifiers; correctness and
      bounds of the generated messages; the case-mapped maps refine a log; the
      back-off and the login limiter; ignore masks equal to their declarative
      match.

    ** Bounds and fuel

    Recursion follows the data. Loops over runes, fields and digits (GoStrings,
    GoText, Xirc) take the length of the text, or one more, as fuel: each step
    consumes a byte. [isupport_loop] and [sasl_loop] of Genmsg.v take the number
    of tokens, and that of bytes plus one; [GenerateIsupport_correct] and [sasl_roundtrip]
    show that nothing is cut off. [highlight_loop] of Irc.v and [path_match] of
    PathMatch.v take the length of the text plus one, which [isHighlight_correct]
    and [isIgnored_glob] show to be enough. [service_command] takes the number of
    words plus one, which [service_command_terminates] shows to be enough.

    ** Not modelled

    - Sockets, TLS, timers and goroutines: conn.go, identd, dialling, the loop
      that connects a network ([network.run]), the channel of events; the events
      are a list, in any order. [eventInspect] runs an arbitrary function.
    - server.go: listeners, the table of users, statistics. What a command of the
      service does to other users is recorded as an effect.
    - The message stores on files and in the database (msgstore/fs.go, db.go):
      the clients use the interface of a store ([HistoryStore]), and memory.go
      is the implementation that is modelled.
    - Messages of a client that was refused because its account is disabled: its
      connection has no user.
    - SQL backends and migrations, PAM and HTTP authenticators, file uploads,
      Web Push delivery, metrics, the web administration pages and commands: glue
      around libraries and protocols that are not in the repository.
    - The tags of a message are values: [SendMessage] can write to a tag map that
      copies of the message share, which the model does not show.
*)

From stdpp Require Import base list gmap strings sorting.
From Stdlib Require Import ZArith.

(** ** Results of fallible Go code

    A Go function that returns [(T, error)] is a function into [res E T]:
    [Ok] for a nil error, [Err] for an error value and [Panic] for a run-time
    panic (an out-of-range index, an explicit [panic] call). *)
Inductive res (E A : Type) : Type :=
| Ok (a : A)
| Err (e : E)
| Panic.
Arguments Ok {E A} a.
Arguments Err {E A} e.
Arguments Panic {E A}.

Definition res_bind {E A B} (m : res E A) (k : A -> res E B) : res E B :=
  match m with
  | Ok a => k a
  | Err e => Err e
  | Panic => Panic
  end.

Definition is_ok {E A} (m : res E A) : bool :=
  match m with Ok _ => true | _ => false end.

Declare Scope sake_scope.
Delimit Scope sake_scope with sake.

Notation "'let?' x := m 'in' k" :=
  (res_bind m (fun x => k))
    (at level 10, x pattern, m at level 100, k at level 200)
  : sake_scope.

Open Scope sake_scope.

Lemma res_bind_ok {E A B} (m : res E A) (k : A -> res E B) b :
  res_bind m k = Ok b <-> exists a, m = Ok a /\ k a = Ok b.
Proof. destruct m; simpl; naive_solver. Qed.

Lemma res_bind_assoc {E A B C} (m : res E A) (k : A -> res E B) (h : B -> res E C) :
  res_bind (res_bind m k) h = res_bind m (fun a => res_bind (k a) h).
Proof. by destruct m. Qed.

(** ** Automation of the development *)

Create HintDb sake discriminated.

(** Split every boolean conjunction/disjunction/negation and every boolean
    test of the context into the proposition it decides. *)
Ltac bool_to_prop :=
  repeat match goal with
  | H : _ && _ = true |- _ => apply andb_true_iff in H; destruct H
  | H : _ || _ = false |- _ => apply orb_false_iff in H; destruct H
  | H : negb _ = true |- _ => apply negb_true_iff in H
  | H : negb _ = false |- _ => apply negb_false_iff in H
  | H : bool_decide _ = true |- _ => apply bool_decide_eq_true in H
  | H : bool_decide _ = false |- _ => apply bool_decide_eq_false in H
  end.

(** Case analysis on the scrutinee of every [match]/[if] of the goal. *)
Ltac cases := repeat (case_match; simplify_eq/=).

(** Close goals about one step of a handler: unfold by [simpl], case on the
    guards, finish by congruence or arithmetic. *)
Ltac step_solver := simpl in *; cases; try done; try lia; eauto with sake.

(** Prove a decidable closed proposition by evaluation. *)
Ltac by_eval := apply (bool_decide_unpack _); vm_compute; exact I.

(** Linear arithmetic with division and modulo by constants. *)
Ltac zlia := Z.div_mod_to_equations; lia.

(** ** Lists *)

Lemma list_filter_length_le {A} (P : A -> Prop) `{!forall x, Decision (P x)} (l : list A) :
  (length (filter P l) <= length l)%nat.
Proof. induction l; [done|]. rewrite filter_cons. case_decide; simpl; lia. Qed.

Lemma Forall_filter {A} (P Q : A -> Prop) `{!forall x, Decision (Q x)} (l : list A) :
  Forall P l -> Forall P (filter Q l).
Proof. rewrite !Forall_forall. intros HP x [_ Hx]%list_elem_of_filter. auto. Qed.

Lemma Forall_filter_pred {A} (Q : A -> Prop) `{!forall x, Decision (Q x)} (l : list A) :
  Forall Q (filter Q l).
Proof. rewrite Forall_forall. by intros x [Hx _]%list_elem_of_filter. Qed.

(** Remove the first element equal to [x]: what the Go idiom
    [l = append(l[:i], l[i+1:]...); break] does at the first match. *)
Fixpoint remove_first {A} (p : A -> bool) (l : list A) : list A :=
  match l with
  | [] => []
  | x :: l' => if p x then l' else x :: remove_first p l'
  end.

Lemma remove_first_sublist {A} (p : A -> bool) (l : list A) :
  remove_first p l `sublist_of` l.
Proof. induction l; simpl; [done|]. case_match; by constructor. Qed.

Lemma elem_of_remove_first {A} (p : A -> bool) (l : list A) x :
  p x = false -> x ∈ remove_first p l <-> x ∈ l.
Proof.
  intros Hx. induction l as [|y l IH]; simpl; [done|].
  destruct (p y) eqn:Hy; rewrite !elem_of_cons; naive_solver congruence.
Qed.

Lemma remove_first_none {A} (p : A -> bool) (l : list A) :
  Forall (fun x => p x = false) l -> remove_first p l = l.
Proof. induction 1 as [|x l Hx _ IH]; simpl; [done|]. by rewrite Hx, IH. Qed.

Lemma remove_first_length {A} (p : A -> bool) (l : list A) x :
  x ∈ l -> p x = true -> length l = S (length (remove_first p l)).
Proof.
  intros Hin Hp. induction Hin as [|y x l _ IH]; simpl; [by rewrite Hp|].
  case_match; simpl; auto.
Qed.

Lemma NoDup_fmap_remove_first {A B} (f : A -> B) (p : A -> bool) (l : list A) :
  NoDup (f <$> l) -> NoDup (f <$> remove_first p l).
Proof.
  induction l as [|x l IH]; simpl; [done|].
  rewrite NoDup_cons. intros [Hx Hl]. case_match; [done|]. simpl.
  constructor; [|auto]. rewrite list_elem_of_fmap. intros (y & Hy & Hin).
  apply Hx. rewrite Hy. apply list_elem_of_fmap_2.
  eapply elem_of_sublist; [done|apply remove_first_sublist].
Qed.

#[export] Hint Resolve remove_first_sublist NoDup_fmap_remove_first : sake.

(** ** Fixed-width integers *)

Definition int64_min : Z := - 2 ^ 63.
Definition int64_max : Z := 2 ^ 63 - 1.

(** Two's-complement wrap of an exact result into [int64]. *)
Definition wrap64 (z : Z) : Z := (z + 2 ^ 63) `mod` 2 ^ 64 - 2 ^ 63.

(** Wrap of an exact result into [uint64]. *)
Definition wrapu64 (z : Z) : Z := z `mod` 2 ^ 64.

Lemma wrap64_id z : (int64_min <= z <= int64_max)%Z -> wrap64 z = z.
Proof. unfold wrap64, int64_min, int64_max. intros. rewrite Z.mod_small; lia. Qed.

Lemma wrapu64_id z : (0 <= z < 2 ^ 64)%Z -> wrapu64 z = z.
Proof. apply Z.mod_small. Qed.

Create Rewrite HintDb sake_int.
#[export] Hint Rewrite @wrap64_id @wrapu64_id using lia : sake_int.
