(* ===== verification/GoStrings.v ===== *)
(** * Go strings and the parts of the Go standard library the code uses

    A Go string is a sequence of bytes: [string] (a list of 8-bit [ascii]).
    This file models the functions of the packages [strings], [strconv],
    [unicode/utf8] and [sort] that the modelled code calls, with the lemmas
    the components share.  The Unicode tables of package [unicode] are the
    fields of the class [Unicode]; the ASCII range of each table is fixed by
    the definitions that use it. *)

From stdpp Require Import base list strings sorting.
From Stdlib Require Import ZArith Ascii.
From S2P Require Import Prelude.

Open Scope stdpp_scope.

(** ** Bytes *)

Definition byteN (c : ascii) : N := N_of_ascii c.
Definition byteZ (c : ascii) : Z := Z.of_N (N_of_ascii c).
Definition byte_of_Z (z : Z) : ascii := ascii_of_N (Z.to_N z).

Definition byte_eqb (a b : ascii) : bool := bool_decide (a = b).

(** [lo <= c && c <= hi] on bytes. *)
Definition byte_between (lo c hi : ascii) : bool :=
  (byteZ lo <=? byteZ c)%Z && (byteZ c <=? byteZ hi)%Z.

Lemma byteZ_range c : (0 <= byteZ c < 256)%Z.
Proof.
  unfold byteZ. pose proof (N_ascii_bounded c). lia.
Qed.

Lemma byteZ_inj a b : byteZ a = byteZ b -> a = b.
Proof.
  unfold byteZ. intros H%N2Z.inj.
  by rewrite <- (ascii_N_embedding a), <- (ascii_N_embedding b), H.
Qed.

Lemma byteZ_of_Z z : (0 <= z < 256)%Z -> byteZ (byte_of_Z z) = z.
Proof.
  intros. unfold byteZ, byte_of_Z. rewrite N_ascii_embedding; lia.
Qed.

Lemma byte_of_byteZ c : byte_of_Z (byteZ c) = c.
Proof. apply byteZ_inj, byteZ_of_Z, byteZ_range. Qed.

(** A string between double quotes, as it is written in some messages. *)
Definition dquote : string := String "034" "".
Definition quote (s : string) : string := dquote +:+ s +:+ dquote.

(** ** Slices and concatenation *)

(** [len(s)]. *)
Definition slen (s : string) : nat := String.length s.

(** [s[:n]] and [s[n:]]. *)
Fixpoint stake (n : nat) (s : string) : string :=
  match n, s with
  | S n', String c s' => String c (stake n' s')
  | _, _ => ""
  end.

Fixpoint sdrop (n : nat) (s : string) : string :=
  match n, s with
  | S n', String _ s' => sdrop n' s'
  | O, _ => s
  | _, EmptyString => ""
  end.

Fixpoint srev_append (s acc : string) : string :=
  match s with
  | EmptyString => acc
  | String c s' => srev_append s' (String c acc)
  end.
Definition srev (s : string) : string := srev_append s "".

Definition schars (s : string) : list ascii := String.list_ascii_of_string s.
Definition of_chars (l : list ascii) : string := String.string_of_list_ascii l.

Lemma of_schars s : of_chars (schars s) = s.
Proof. apply String.string_of_list_ascii_of_string. Qed.

Lemma schars_of l : schars (of_chars l) = l.
Proof. apply String.list_ascii_of_string_of_list_ascii. Qed.

Lemma sapp_nil_r s : s +:+ "" = s.
Proof. induction s; [done|]. unfold String.app in *; simpl. by f_equal. Qed.

Lemma sapp_cons c s t : String c s +:+ t = String c (s +:+ t).
Proof. done. Qed.

Lemma sapp_nil_l s : "" +:+ s = s.
Proof. done. Qed.

Lemma sapp_assoc s t u : s +:+ (t +:+ u) = (s +:+ t) +:+ u.
Proof. induction s as [|c s IH]; [done|]. by rewrite !sapp_cons, IH. Qed.

Lemma slen_app s t : slen (s +:+ t) = slen s + slen t.
Proof. induction s as [|c s IH]; [done|]. rewrite sapp_cons; simpl. unfold slen in *; simpl; lia. Qed.

Lemma schars_app s t : schars (s +:+ t) = schars s ++ schars t.
Proof. induction s as [|c s IH]; [done|]. rewrite sapp_cons; simpl. by f_equal. Qed.

Lemma length_schars s : length (schars s) = slen s.
Proof. induction s; simpl; auto. Qed.

Lemma schars_inj s t : schars s = schars t -> s = t.
Proof. intros H. by rewrite <- (of_schars s), <- (of_schars t), H. Qed.

Lemma sapp_inv_head s t u : s +:+ t = s +:+ u -> t = u.
Proof. induction s as [|c s IH]; [done|]. rewrite !sapp_cons. intros; simplify_eq; auto. Qed.

Lemma stake_sdrop n s : stake n s +:+ sdrop n s = s.
Proof.
  revert s; induction n as [|n IH]; intros [|c s]; simpl; try done.
  by rewrite sapp_cons, IH.
Qed.

Lemma stake_app s t : stake (slen s) (s +:+ t) = s.
Proof. induction s as [|c s IH]; [by destruct t|]. rewrite sapp_cons; simpl. by f_equal. Qed.

Lemma sdrop_app s t : sdrop (slen s) (s +:+ t) = t.
Proof. induction s as [|c s IH]; [by destruct t|]. rewrite sapp_cons; simpl. done. Qed.

Lemma slen_stake n s : slen (stake n s) = min n (slen s).
Proof. revert s; induction n; intros [|c s]; simpl; unfold slen in *; simpl; auto. Qed.

Lemma slen_sdrop n s : slen (sdrop n s) = slen s - n.
Proof. revert s; induction n; intros [|c s]; simpl; auto. Qed.

Lemma slen_0 s : slen s = 0 <-> s = "".
Proof. destruct s; simpl; split; intros; simplify_eq; done. Qed.

Lemma sapp_eq_nil s t : s +:+ t = "" <-> s = "" /\ t = "".
Proof. destruct s; rewrite ?sapp_cons, ?sapp_nil_l; naive_solver. Qed.

Create Rewrite HintDb sake_str.
#[export] Hint Rewrite sapp_nil_r slen_app slen_stake slen_sdrop length_schars : sake_str.

(** ** Package strings *)

(** [strings.HasPrefix]. *)
Fixpoint HasPrefix (s p : string) {struct p} : bool :=
  match p, s with
  | EmptyString, _ => true
  | String a p', String b s' => byte_eqb a b && HasPrefix s' p'
  | String _ _, EmptyString => false
  end.

#[global] Arguments HasPrefix !s !p.

Lemma HasPrefix_spec s p : HasPrefix s p = true <-> exists t, s = p +:+ t.
Proof.
  revert s; induction p as [|a p IH]; intros s; simpl.
  - split; [|by destruct s]. intros _. by exists s.
  - destruct s as [|b s]; simpl.
    + split; [done|]. intros [t Ht]. by rewrite sapp_cons in Ht.
    + unfold byte_eqb. rewrite andb_true_iff, bool_decide_eq_true, IH.
      split; [intros [-> [t ->]]; by exists t|].
      intros [t Ht]. rewrite sapp_cons in Ht. simplify_eq. eauto.
Qed.

Lemma HasPrefix_app p t : HasPrefix (p +:+ t) p = true.
Proof. apply HasPrefix_spec. by exists t. Qed.

(** [strings.Index]: offset of the first occurrence of [sub], if any. *)
Fixpoint Index (s sub : string) : option nat :=
  if HasPrefix s sub then Some 0
  else match s with
       | EmptyString => None
       | String _ s' => S <$> Index s' sub
       end.

Lemma Index_Some s sub i :
  Index s sub = Some i ->
  s = stake i s +:+ sub +:+ sdrop (i + slen sub) s /\ slen (stake i s) = i.
Proof.
  revert i; induction s as [|c s IH]; intros i; simpl.
  - destruct (HasPrefix "" sub) eqn:E; [|done]. intros; simplify_eq.
    apply HasPrefix_spec in E as [t Ht]. symmetry in Ht.
    apply sapp_eq_nil in Ht as [-> ->]. done.
  - destruct (HasPrefix (String c s) sub) eqn:E.
    + intros [= <-]. apply HasPrefix_spec in E as [t Ht]. rewrite Ht.
      change (0 + slen sub) with (slen sub). by rewrite sdrop_app.
    + destruct (Index s sub) as [j|] eqn:Ej; simpl; [|done].
      intros; simplify_eq/=. destruct (IH j eq_refl) as [H1 H2].
      rewrite sapp_cons. rewrite <- H1. split; [done|]. unfold slen in *; simpl; lia.
Qed.

(** No earlier occurrence exists. *)
Lemma Index_first s sub i j :
  Index s sub = Some i -> j < i -> HasPrefix (sdrop j s) sub = false.
Proof.
  revert i j; induction s as [|c s IH]; intros i j; simpl.
  - case_match; intros; simplify_eq; lia.
  - destruct (HasPrefix (String c s) sub) eqn:E; [intros; simplify_eq; lia|].
    destruct (Index s sub) as [k|] eqn:Ek; simpl; intros; simplify_eq.
    destruct j as [|j]; simpl; [done|]. apply (IH k j eq_refl). lia.
Qed.

Lemma Index_None s sub j : Index s sub = None -> j <= slen s -> HasPrefix (sdrop j s) sub = false.
Proof.
  revert j; induction s as [|c s IH]; intros j; simpl.
  - case_match; [done|]. by destruct j.
  - destruct (HasPrefix (String c s) sub) eqn:E; [done|].
    destruct (Index s sub) eqn:Ei; simpl; [done|]. intros _ Hj.
    destruct j; simpl; [done|]. apply IH; [done|]. unfold slen in *; simpl in *; lia.
Qed.

(** [strings.Contains]. *)
Definition Contains (s sub : string) : bool :=
  match Index s sub with Some _ => true | None => false end.

(** [strings.IndexByte]. *)
Fixpoint IndexByte (s : string) (c : ascii) : option nat :=
  match s with
  | EmptyString => None
  | String b s' => if byte_eqb b c then Some 0 else S <$> IndexByte s' c
  end.

(** [strings.SplitN(s, sep, 2)]: the part before the first [sep] and, when
    [sep] occurs, the rest after it ([len(parts) == 2]). *)
Definition Split2 (s sep : string) : string * option string :=
  match Index s sep with
  | Some i => (stake i s, Some (sdrop (i + slen sep) s))
  | None => (s, None)
  end.

(** [strings.Split(s, sep)] for a one-byte separator. *)
Fixpoint Split (s : string) (sep : ascii) : list string :=
  match s with
  | EmptyString => [""]
  | String c s' =>
      if byte_eqb c sep then "" :: Split s' sep
      else match Split s' sep with
           | w :: ws => String c w :: ws
           | [] => [String c ""]
           end
  end.

(** [strings.Join]. *)
Fixpoint Join (l : list string) (sep : string) : string :=
  match l with
  | [] => ""
  | [w] => w
  | w :: l' => w +:+ sep +:+ Join l' sep
  end.

Definition byte_in (c : ascii) (s : string) : bool :=
  match IndexByte s c with Some _ => true | None => false end.

Fixpoint TrimLeft (s cutset : string) : string :=
  match s with
  | EmptyString => ""
  | String c s' => if byte_in c cutset then TrimLeft s' cutset else s
  end.

Definition TrimRight (s cutset : string) : string := srev (TrimLeft (srev s) cutset).

(** [strings.Trim] for a cutset of ASCII bytes. *)
Definition Trim (s cutset : string) : string := TrimRight (TrimLeft s cutset) cutset.

Lemma Split_nonempty s sep : Split s sep <> [].
Proof. induction s as [|c s IH]; simpl; [done|]. cases; done. Qed.

Lemma Join_cons w l sep : l <> [] -> Join (w :: l) sep = w +:+ sep +:+ Join l sep.
Proof. by destruct l. Qed.

(** Splitting and joining with the same byte is the identity. *)
Lemma Join_Split s sep : Join (Split s sep) (String sep "") = s.
Proof.
  induction s as [|c s IH]; [done|]. simpl. unfold byte_eqb.
  pose proof (Split_nonempty s sep) as Hne.
  destruct (bool_decide (c = sep)) eqn:E; bool_to_prop.
  - subst. rewrite Join_cons by done. rewrite IH. done.
  - destruct (Split s sep) as [|w ws]; [done|].
    destruct ws as [|w' ws]; simpl in *; [by rewrite IH|].
    rewrite sapp_cons. by rewrite IH.
Qed.

Lemma IndexByte_None s c : IndexByte s c = None <-> c ∉ schars s.
Proof.
  induction s as [|b s IH]; simpl; [split; [intros _; apply not_elem_of_nil|done]|].
  rewrite not_elem_of_cons. unfold byte_eqb. case_bool_decide; [naive_solver|].
  destruct (IndexByte s c); simpl; naive_solver.
Qed.

Lemma byte_in_spec c s : byte_in c s = true <-> c ∈ schars s.
Proof.
  unfold byte_in. pose proof (IndexByte_None s c).
  destruct (IndexByte s c) eqn:E; split; try done; [|naive_solver].
  intros _. destruct (decide (c ∈ schars s)); naive_solver.
Qed.

Lemma Split_no_sep s sep : sep ∉ schars s -> Split s sep = [s].
Proof.
  induction s as [|c s IH]; simpl; [done|]. rewrite not_elem_of_cons. intros [? Hs].
  rewrite IH by done. unfold byte_eqb. by rewrite bool_decide_false by congruence.
Qed.

(** Joining words that do not contain the separator and splitting again. *)
Lemma Split_Join l sep :
  l <> [] -> Forall (fun w => sep ∉ schars w) l ->
  Split (Join l (String sep "")) sep = l.
Proof.
  intros Hne Hl. induction Hl as [|w l Hw Hl IH]; [done|].
  destruct l as [|w' l]; [by apply Split_no_sep|].
  rewrite Join_cons by done. specialize (IH ltac:(done)).
  remember (Join (w' :: l) (String sep "")) as r eqn:Hr. clear Hr.
  induction w as [|c w IHw].
  - rewrite sapp_nil_l, sapp_cons, sapp_nil_l. simpl. unfold byte_eqb.
    rewrite bool_decide_true by done. by rewrite IH.
  - simpl in Hw. rewrite not_elem_of_cons in Hw. destruct Hw as [Hc Hw].
    rewrite sapp_cons. simpl. unfold byte_eqb. rewrite bool_decide_false by congruence.
    by rewrite IHw by done.
Qed.

(** ** Package unicode/utf8 *)

Definition RuneError : Z := 65533. (* U+FFFD *)

Definition in_range (lo x hi : Z) : bool := (lo <=? x)%Z && (x <=? hi)%Z.

(** The range of the second byte, by the first byte of a multi-byte rune, with
    the length of the encoding. *)
Definition utf8_class (b0 : Z) : option (nat * Z * Z) :=
  if in_range 194 b0 223 then Some (2%nat, 128, 191)%Z
  else if (b0 =? 224)%Z then Some (3%nat, 160, 191)%Z
  else if in_range 225 b0 236 then Some (3%nat, 128, 191)%Z
  else if (b0 =? 237)%Z then Some (3%nat, 128, 159)%Z
  else if in_range 238 b0 239 then Some (3%nat, 128, 191)%Z
  else if (b0 =? 240)%Z then Some (4%nat, 144, 191)%Z
  else if in_range 241 b0 243 then Some (4%nat, 128, 191)%Z
  else if (b0 =? 244)%Z then Some (4%nat, 128, 143)%Z
  else None.

(** [utf8.DecodeRuneInString]: the first rune and its width; [(RuneError, 0)]
    for the empty string, [(RuneError, 1)] for an invalid encoding. *)
Definition DecodeRuneInString (s : string) : Z * nat :=
  match schars s with
  | [] => (RuneError, 0)
  | c0 :: rest =>
      let b0 := byteZ c0 in
      if (b0 <? 128)%Z then (b0, 1)
      else match utf8_class b0 with
           | None => (RuneError, 1)
           | Some (n, lo, hi) =>
               match n, map byteZ rest with
               | 2, b1 :: _ =>
                   if in_range lo b1 hi
                   then ((Z.land b0 31 * 64 + Z.land b1 63)%Z, 2)
                   else (RuneError, 1)
               | 3, b1 :: b2 :: _ =>
                   if in_range lo b1 hi && in_range 128 b2 191
                   then ((Z.land b0 15 * 4096 + Z.land b1 63 * 64 + Z.land b2 63)%Z, 3)
                   else (RuneError, 1)
               | 4, b1 :: b2 :: b3 :: _ =>
                   if in_range lo b1 hi && in_range 128 b2 191 && in_range 128 b3 191
                   then ((Z.land b0 7 * 262144 + Z.land b1 63 * 4096
                          + Z.land b2 63 * 64 + Z.land b3 63)%Z, 4)
                   else (RuneError, 1)
               | _, _ => (RuneError, 1)
               end
           end
  end.

(** [utf8.RuneStart]. *)
Definition RuneStart (c : ascii) : bool := negb (Z.land (byteZ c) 192 =? 128)%Z.

(** [utf8.DecodeLastRuneInString]: the search goes back over at most four
    bytes for the first byte of a rune, whose encoding must end the string. *)
Definition DecodeLastRuneInString (s : string) : Z * nat :=
  let n := slen s in
  let start i := (i <=? n)%nat &&
                 match schars (sdrop (n - i) s) with c :: _ => RuneStart c | [] => false end in
  let at_ i := let '(r, w) := DecodeRuneInString (sdrop (n - i) s) in
               if (w =? i)%nat then (r, w) else (RuneError, 1) in
  match schars (sdrop (n - 1) s) with
  | [] => (RuneError, 0)
  | c :: _ =>
      if (byteZ c <? 128)%Z then (byteZ c, 1)
      else if start 2 then at_ 2
      else if start 3 then at_ 3
      else if start 4 then at_ 4
      else (RuneError, 1)
  end.

(** [utf8.AppendRune] to the empty string. *)
Definition EncodeRune (r0 : Z) : string :=
  let r := if (r0 <? 0)%Z || (1114111 <? r0)%Z || in_range 55296 r0 57343
           then RuneError else r0 in
  let tail k := byte_of_Z (128 + Z.land (Z.shiftr r k) 63) in
  if (r <? 128)%Z then String (byte_of_Z r) ""
  else if (r <? 2048)%Z then
    String (byte_of_Z (192 + Z.shiftr r 6)) (String (tail 0%Z) "")
  else if (r <? 65536)%Z then
    String (byte_of_Z (224 + Z.shiftr r 12)) (String (tail 6%Z) (String (tail 0%Z) ""))
  else
    String (byte_of_Z (240 + Z.shiftr r 18))
      (String (tail 12%Z) (String (tail 6%Z) (String (tail 0%Z) ""))).

(** The runes of a string, as [for _, r := range s] visits them.  Each step
    consumes at least one byte, so [slen s] steps are enough. *)
Fixpoint runes_fuel (fuel : nat) (s : string) : list Z :=
  match fuel, s with
  | S fuel', String _ _ =>
      let '(r, w) := DecodeRuneInString s in r :: runes_fuel fuel' (sdrop w s)
  | _, _ => []
  end.
Definition runes (s : string) : list Z := runes_fuel (slen s) s.

(** [strings.Map]: a negative result drops the rune. *)
Definition Map (f : Z -> Z) (s : string) : string :=
  foldr (fun r acc => let r' := f r in
                      if (r' <? 0)%Z then acc else EncodeRune r' +:+ acc)
        "" (runes s).

(** ** Package unicode

    The tables beyond ASCII are data of the Go distribution. *)
Class Unicode := {
  uni_letter : Z -> bool;
  uni_number : Z -> bool;
  uni_space : Z -> bool;
  uni_lower : Z -> Z;
  uni_upper : Z -> Z;
  (** equality of two runes, not both ASCII, under [unicode.SimpleFold] *)
  uni_fold_eq : Z -> Z -> bool
}.

(** The tables restricted to ASCII, for evaluation on concrete inputs. *)
Definition ascii_unicode : Unicode := {|
  uni_letter _ := false; uni_number _ := false; uni_space _ := false;
  uni_lower r := r; uni_upper r := r;
  uni_fold_eq _ _ := false |}.

Section Tables.
Context {U : Unicode}.

Definition is_upperZ (r : Z) : bool := in_range 65 r 90.
Definition is_lowerZ (r : Z) : bool := in_range 97 r 122.

Definition IsLetter (r : Z) : bool :=
  if (r <? 128)%Z then is_upperZ r || is_lowerZ r else uni_letter r.
Definition IsNumber (r : Z) : bool :=
  if (r <? 128)%Z then in_range 48 r 57 else uni_number r.
Definition IsSpace (r : Z) : bool :=
  if (r <? 128)%Z then in_range 9 r 13 || (r =? 32)%Z else uni_space r.

Definition runeToLower (r : Z) : Z :=
  if (r <? 128)%Z then (if is_upperZ r then r + 32 else r)%Z else uni_lower r.
Definition runeToUpper (r : Z) : Z :=
  if (r <? 128)%Z then (if is_lowerZ r then r - 32 else r)%Z else uni_upper r.

Definition ToLower (s : string) : string := Map runeToLower s.
Definition ToUpper (s : string) : string := Map runeToUpper s.

(** [strings.TrimSpace]. *)
Fixpoint trim_space_left (fuel : nat) (s : string) : string :=
  match fuel with
  | O => s
  | S fuel' =>
      let '(r, w) := DecodeRuneInString s in
      if (0 <? w)%nat && IsSpace r then trim_space_left fuel' (sdrop w s) else s
  end.
Fixpoint trim_space_right (fuel : nat) (s : string) : string :=
  match fuel with
  | O => s
  | S fuel' =>
      let '(r, w) := DecodeLastRuneInString s in
      if (0 <? w)%nat && IsSpace r then trim_space_right fuel' (stake (slen s - w) s) else s
  end.
Definition TrimSpace (s : string) : string :=
  let s' := trim_space_left (slen s) s in trim_space_right (slen s') s'.

(** [strings.LastIndexFunc(s, unicode.IsSpace)]: the byte offset of the last
    white-space rune. *)
Fixpoint last_space_fuel (fuel : nat) (s : string) : option nat :=
  match fuel with
  | O => None
  | S fuel' =>
      let '(r, w) := DecodeLastRuneInString s in
      if (w =? 0)%nat then None
      else if IsSpace r then Some (slen s - w)
      else last_space_fuel fuel' (stake (slen s - w) s)
  end.
Definition LastIndexSpace (s : string) : option nat := last_space_fuel (slen s) s.

End Tables.

(** ** Package strconv *)

(** The value of a non-empty string of decimal digits. *)
Fixpoint digits_value (acc : Z) (s : string) : option Z :=
  match s with
  | EmptyString => Some acc
  | String c s' =>
      if byte_between "0" c "9"
      then digits_value (acc * 10 + (byteZ c - 48))%Z s'
      else None
  end.

(** [strconv.Atoi] / [strconv.ParseInt(s, 10, 64)]: [None] is a syntax or a
    range error. *)
Definition Atoi (s : string) : option Z :=
  let '(neg, ds) := match s with
                    | String "+" s' => (false, s')
                    | String "-" s' => (true, s')
                    | _ => (false, s)
                    end in
  match ds with
  | EmptyString => None
  | _ => v ← digits_value 0 ds;
         let z := if neg : bool then (- v)%Z else v in
         if in_range int64_min z int64_max then Some z else None
  end.

Lemma Atoi_range s z : Atoi s = Some z -> (int64_min <= z <= int64_max)%Z.
Proof.
  unfold Atoi. intros H.
  destruct (match s with String "+" s' => (false, s') | String "-" s' => (true, s')
            | _ => (false, s) end) as [neg ds].
  destruct ds as [|c ds]; [done|].
  destruct (digits_value 0 (String c ds)) as [v|]; simpl in H; [|done].
  destruct (in_range _ _ _) eqn:E; simplify_eq. unfold in_range in E. bool_to_prop. lia.
Qed.

(** ** Package net *)

(** [strings.LastIndexByte]. *)
Definition LastIndexByte (s : string) (c : ascii) : option nat :=
  (fun i => slen s - S i) <$> IndexByte (srev s) c.

(** [net.SplitHostPort]: [None] is an address error. *)
Definition SplitHostPort (hostport : string) : option (string * string) :=
  i ← LastIndexByte hostport ":";
  '(host, j, k) ←
    (if HasPrefix hostport "[" then
       e ← IndexByte hostport "]";
       if (e + 1 =? slen hostport)%nat then None
       else if (e + 1 =? i)%nat then Some (stake (e - 1) (sdrop 1 hostport), 1, e + 1)
       else None
     else
       let host := stake i hostport in
       if byte_in ":" host then None else Some (host, 0, 0));
  if byte_in "[" (sdrop j hostport) || byte_in "]" (sdrop k hostport) then None
  else Some (host, sdrop (i + 1) hostport).

(** ** Byte-wise string comparison *)

(** [s < t] on Go strings. *)
Definition string_lt (s t : string) : bool := String.ltb s t.

(** Checks of the library functions on concrete inputs. *)
Example DecodeRune_euro : DecodeRuneInString "€uro" = (8364%Z, 3).
Proof. reflexivity. Qed.
Example DecodeLastRune_euro : DecodeLastRuneInString "10€" = (8364%Z, 3).
Proof. reflexivity. Qed.
Example runes_encode : Map (fun r => r) "a€b" = "a€b".
Proof. reflexivity. Qed.
Example Atoi_checks :
  map Atoi ["42"; "-7"; "+3"; ""; "-"; "1x"; "9223372036854775808"]
  = [Some 42; Some (-7); Some 3; None; None; None; None]%Z.
Proof. reflexivity. Qed.
Example SplitHostPort_checks :
  map SplitHostPort ["127.0.0.1:80"; "[::1]:6697"; "::1:80"; "host"; "[::1]"; ":0"]
  = [Some ("127.0.0.1", "80"); Some ("::1", "6697"); None; None; None; Some ("", "0")].
Proof. reflexivity. Qed.
