(* ===== verification/GoText.v ===== *)
(** * More of packages strings, strconv and fmt

    The functions the upstream handlers use to cut and print text. *)

From stdpp Require Import base list strings.
From Stdlib Require Import ZArith Ascii Bool.
From S2P Require Import Prelude GoStrings.

(** [strings.SplitN(s, sep, n)] for a one-byte separator and [n > 0]. *)
Fixpoint SplitN (s : string) (sep : ascii) (n : nat) : list string :=
  match n with
  | O => []
  | S O => [s]
  | S n' =>
      match IndexByte s sep with
      | None => [s]
      | Some i => stake i s :: SplitN (sdrop (S i) s) sep n'
      end
  end.

(** [strings.FieldsFunc(s, func(r) bool { return r == sep })] for an ASCII
    rune: the non-empty parts. *)
Definition FieldsByte (s : string) (sep : ascii) : list string := filter (fun w => w <> "") (Split s sep).

(** [strings.CutPrefix] *)
Definition CutPrefix (s p : string) : string * bool :=
  if HasPrefix s p then (sdrop (slen p) s, true) else (s, false).

Definition TrimPrefix (s p : string) : string := fst (CutPrefix s p).

(** [strings.Cut]: before, after, found. *)
Definition Cut (s sep : string) : string * string * bool :=
  match Split2 s sep with
  | (before, Some after) => (before, after, true)
  | (before, None) => (before, "", false)
  end.

(** [strings.ReplaceAll] of one byte by another. *)
Definition replace_byte (a b : ascii) (s : string) : string :=
  of_chars ((fun c => if byte_eqb c a then b else c) <$> schars s).

Section Fields.
Context {U : Unicode}.

(** The runs of runes that are not white space. *)
Fixpoint fields_fuel (fuel : nat) (s : string) (cur : string) : list string :=
  match fuel with
  | O => if (slen cur =? 0)%nat then [] else [cur]
  | S fuel' =>
      match s with
      | EmptyString => if (slen cur =? 0)%nat then [] else [cur]
      | _ =>
          let '(r, w) := DecodeRuneInString s in
          let rest := sdrop w s in
          if IsSpace r then
            if (slen cur =? 0)%nat then fields_fuel fuel' rest "" else cur :: fields_fuel fuel' rest ""
          else fields_fuel fuel' rest (cur +:+ stake w s)
      end
  end.

(** [strings.Fields] *)
Definition Fields (s : string) : list string := fields_fuel (S (slen s)) s "".

(** Equality of two runes under simple case folding. *)
Definition fold_eq (r r' : Z) : bool :=
  Z.eqb r r'
  || (if (r <? 128)%Z && (r' <? 128)%Z then Z.eqb (runeToLower r) (runeToLower r') else uni_fold_eq r r').

Fixpoint runes_fold_eq (l l' : list Z) : bool :=
  match l, l' with
  | [], [] => true
  | r :: l, r' :: l' => fold_eq r r' && runes_fold_eq l l'
  | _, _ => false
  end.

(** [strings.EqualFold] *)
Definition EqualFold (s t : string) : bool := runes_fold_eq (runes s) (runes t).

End Fields.

(** ** Decimal numbers *)

(** [strconv.ParseUint(s, 10, 64)] *)
Definition ParseUint (s : string) : option Z :=
  match s with
  | EmptyString => None
  | _ => v ← digits_value 0 s; if (v <? 2 ^ 64)%Z then Some v else None
  end.

(** The digits of [n] in front of [acc]; [fuel] bounds their number. *)
Fixpoint digits (fuel : nat) (n : Z) (acc : string) : string :=
  match fuel with
  | O => acc
  | S fuel' =>
      let acc := String (byte_of_Z (48 + n mod 10)) acc in
      if (n <? 10)%Z then acc else digits fuel' (n / 10) acc
  end.

(** [%d] of an unsigned number: twenty digits are enough for 64 bits. *)
Definition fmt_uint (n : Z) : string := digits 20 n "".
(** [%v] of an int64. *)
Definition fmt_int (n : Z) : string := if (n <? 0)%Z then "-" +:+ fmt_uint (- n) else fmt_uint n.

Lemma digit_byte d : (0 <= d < 10)%Z ->
  byte_between "0" (byte_of_Z (48 + d)) "9" = true /\ byteZ (byte_of_Z (48 + d)) = (48 + d)%Z.
Proof.
  intros Hd. assert (Hb : byteZ (byte_of_Z (48 + d)) = (48 + d)%Z) by (apply byteZ_of_Z; lia).
  split; [|done]. unfold byte_between. rewrite Hb.
  change (byteZ "0") with 48%Z. change (byteZ "9") with 57%Z. apply andb_true_iff. lia.
Qed.

Lemma digits_spec fuel n acc : (0 < fuel)%nat -> (0 <= n < 10 ^ Z.of_nat fuel)%Z ->
  exists ds, digits fuel n acc = ds +:+ acc /\ ds <> "" /\
    Forall (fun c => byte_between "0" c "9" = true) (schars ds) /\
    exists k, forall a s, digits_value a (ds +:+ s) = digits_value (a * k + n) s.
Proof.
  revert n acc; induction fuel as [|fuel IH]; intros n acc Hf Hn; [lia|]. cbn [digits].
  destruct (digit_byte (n mod 10)) as [Hd Hb]; [apply Z.mod_pos_bound; lia|].
  destruct (Z.ltb_spec n 10).
  - exists (String (byte_of_Z (48 + n mod 10)) ""). split_and!; [done|done|by constructor|].
    exists 10%Z. intros a s. rewrite sapp_cons, sapp_nil_l. cbn [digits_value]. rewrite Hd, Hb.
    rewrite Z.mod_small by lia. f_equal. lia.
  - assert (Hfuel : (0 < fuel)%nat). { destruct fuel; [|lia]. simpl in Hn. lia. }
    rewrite Nat2Z.inj_succ, Z.pow_succ_r in Hn by lia.
    destruct (IH (n / 10)%Z (String (byte_of_Z (48 + n mod 10)) acc)) as (ds & -> & Hne & Hall & k & Hk);
      [done|split; [apply Z.div_pos; lia|apply Z.div_lt_upper_bound; lia]|].
    exists (ds +:+ String (byte_of_Z (48 + n mod 10)) ""). split_and!.
    + by rewrite <- sapp_assoc, sapp_cons, sapp_nil_l.
    + intros [? ?]%sapp_eq_nil. done.
    + rewrite schars_app. apply Forall_app. split; [done|]. by constructor.
    + exists (k * 10)%Z. intros a s. rewrite <- sapp_assoc, Hk, sapp_cons, sapp_nil_l.
      cbn [digits_value]. rewrite Hd, Hb. f_equal. pose proof (Z.div_mod n 10). lia.
Qed.

Lemma fmt_uint_spec n : (0 <= n < 2 ^ 64)%Z ->
  fmt_uint n <> "" /\ Forall (fun c => byte_between "0" c "9" = true) (schars (fmt_uint n)) /\
  ParseUint (fmt_uint n) = Some n.
Proof.
  intros Hn. unfold fmt_uint.
  destruct (digits_spec 20 n "") as (ds & -> & Hne & Hall & k & Hk); [lia|lia|].
  rewrite sapp_nil_r. split_and!; [done|done|].
  unfold ParseUint. destruct ds as [|c ds]; [done|].
  specialize (Hk 0%Z ""). rewrite sapp_nil_r in Hk. rewrite Hk. simpl.
  case_match eqn:E; [done|]. apply Z.ltb_ge in E. lia.
Qed.

Lemma IndexByte_app s c t : c ∉ schars s -> IndexByte (s +:+ String c t) c = Some (slen s).
Proof.
  induction s as [|b s IH]; intros H; simpl.
  - unfold byte_eqb. by rewrite bool_decide_true.
  - change (schars (String b s)) with (b :: schars s) in H. apply not_elem_of_cons in H as [? ?].
    unfold byte_eqb. rewrite bool_decide_false by done. by rewrite IH.
Qed.

Lemma SplitN_app s sep t n : sep ∉ schars s ->
  SplitN (s +:+ String sep t) sep (S (S n)) = s :: SplitN t sep (S n).
Proof.
  intros H. cbn [SplitN]. rewrite IndexByte_app by done. f_equal; [apply stake_app|].
  f_equal. replace (S (slen s)) with (slen (s +:+ String sep "")).
  - change (String sep t) with (String sep "" +:+ t). by rewrite sapp_assoc, sdrop_app.
  - rewrite slen_app. unfold slen. simpl. lia.
Qed.

Example SplitN_checks : (SplitN "a,b,c,d,e" "," 3, SplitN "" "," 2, SplitN "x" "," 5)
  = (["a"; "b"; "c,d,e"], [""], ["x"]).
Proof. reflexivity. Qed.
Example fmt_checks : (fmt_uint 0, fmt_uint 907, fmt_int (-15)) = ("0", "907", "-15").
Proof. reflexivity. Qed.
