(* ===== verification/Casemapping.v ===== *)
(** * Case mappings and case-mapped maps (xirc/casemapping.go)

    The three IRC case mappings, and [CaseMappingMap], the map keyed by names
    up to a case mapping that the bouncer uses for channels, users, monitors
    and delivery receipts. *)

From stdpp Require Import base list gmap strings.
From Stdlib Require Import ZArith Ascii.
From S2P Require Import Prelude GoStrings.

(** ** Case mappings *)

(** The loop [for i, r := range nameBytes { nameBytes[i] = f r }]. *)
Fixpoint map_bytes (f : ascii -> ascii) (s : string) : string :=
  match s with
  | EmptyString => ""
  | String c s' => String (f c) (map_bytes f s')
  end.

(** [r + 'a' - 'A'] for a byte in ['A'..'Z'], unchanged otherwise. *)
Definition fold_ascii (r : ascii) : ascii :=
  if byte_between "A" r "Z" then byte_of_Z ((byteZ r + 97 - 65) `mod` 256) else r.

Definition fold_rfc1459 (r : ascii) : ascii :=
  if byte_between "A" r "Z" then byte_of_Z ((byteZ r + 97 - 65) `mod` 256)
  else if byte_eqb r "{" then "["%char
  else if byte_eqb r "}" then "]"%char
  else if byte_eqb r "\" then "|"%char
  else if byte_eqb r "~" then "^"%char
  else r.

Definition fold_rfc1459_strict (r : ascii) : ascii :=
  if byte_between "A" r "Z" then byte_of_Z ((byteZ r + 97 - 65) `mod` 256)
  else if byte_eqb r "{" then "["%char
  else if byte_eqb r "}" then "]"%char
  else if byte_eqb r "\" then "|"%char
  else r.

Definition CaseMapping : Type := string -> string.

Definition casemapASCII : CaseMapping := map_bytes fold_ascii.
Definition casemapRFC1459 : CaseMapping := map_bytes fold_rfc1459.
Definition casemapRFC1459Strict : CaseMapping := map_bytes fold_rfc1459_strict.

(** [None] is the nil [CaseMapping] of an unknown name. *)
Definition ParseCaseMapping (s : string) : option CaseMapping :=
  if bool_decide (s = "ascii") then Some casemapASCII
  else if bool_decide (s = "rfc1459") then Some casemapRFC1459
  else if bool_decide (s = "rfc1459-strict") then Some casemapRFC1459Strict
  else None.

(** Equality of names under a case mapping. *)
Definition cm_equiv (cm : CaseMapping) (a b : string) : Prop := cm a = cm b.

#[export] Instance cm_equiv_equivalence cm : Equivalence (cm_equiv cm).
Proof. split; unfold cm_equiv; [by intros ?|by intros ??|by intros ??? -> ]. Qed.

#[export] Instance cm_equiv_dec cm : RelDecision (cm_equiv cm).
Proof. intros a b. unfold cm_equiv. apply _. Defined.

(** [fine] distinguishes at least the names that [coarse] distinguishes. *)
Definition cm_refines (fine coarse : CaseMapping) : Prop :=
  forall a b, cm_equiv fine a b -> cm_equiv coarse a b.

Lemma map_bytes_idem f s : (forall c, f (f c) = f c) -> map_bytes f (map_bytes f s) = map_bytes f s.
Proof. intros Hf. induction s; simpl; [done|]. by rewrite Hf, IHs. Qed.

Lemma map_bytes_refines f g :
  (forall c, g (f c) = g c) -> cm_refines (map_bytes f) (map_bytes g).
Proof.
  intros Hfg a b. unfold cm_equiv.
  revert b; induction a as [|c a IH]; intros [|d b]; simpl; try done.
  intros [= Hc Hab]. f_equal; [|auto]. by rewrite <- (Hfg c), <- (Hfg d), Hc.
Qed.

Lemma slen_map_bytes f s : slen (map_bytes f s) = slen s.
Proof. unfold slen. induction s; simpl; auto. Qed.

(** Decide a statement about one byte by evaluation on the 256 bytes. *)
Ltac by_bytes := intros [[] [] [] [] [] [] [] []]; reflexivity.

Lemma fold_ascii_idem c : fold_ascii (fold_ascii c) = fold_ascii c.
Proof. revert c; by_bytes. Qed.
Lemma fold_rfc1459_idem c : fold_rfc1459 (fold_rfc1459 c) = fold_rfc1459 c.
Proof. revert c; by_bytes. Qed.
Lemma fold_rfc1459_strict_idem c :
  fold_rfc1459_strict (fold_rfc1459_strict c) = fold_rfc1459_strict c.
Proof. revert c; by_bytes. Qed.
Lemma fold_strict_ascii c : fold_rfc1459_strict (fold_ascii c) = fold_rfc1459_strict c.
Proof. revert c; by_bytes. Qed.
Lemma fold_rfc1459_strict_absorb c : fold_rfc1459 (fold_rfc1459_strict c) = fold_rfc1459 c.
Proof. revert c; by_bytes. Qed.

#[export] Hint Resolve fold_ascii_idem fold_rfc1459_idem fold_rfc1459_strict_idem
  fold_strict_ascii fold_rfc1459_strict_absorb map_bytes_idem map_bytes_refines : sake.

(** ** CaseMappingMap *)

Record caseMappingEntry (V : Type) := CMEntry { originalKey : string; value : V }.
Arguments CMEntry {V}.
Arguments originalKey {V}.
Arguments value {V}.

Record CaseMappingMap (V : Type) := CMM {
  cmm_m : gmap string (caseMappingEntry V);
  cmm_casemap : CaseMapping
}.
Arguments CMM {V}.
Arguments cmm_m {V}.
Arguments cmm_casemap {V}.

Section CaseMappingMap.
Context {V : Type}.
Implicit Types cmm : CaseMappingMap V.

Definition NewCaseMappingMap (cm : CaseMapping) : CaseMappingMap V := CMM ∅ cm.

Definition Has cmm (name : string) : bool :=
  match cmm_m cmm !! cmm_casemap cmm name with Some _ => true | None => false end.

Definition Len cmm : nat := size (cmm_m cmm).

(** [Get] of a map to pointers: [None] is nil, the zero value the Go code
    returns for a missing name. *)
Definition Get cmm (name : string) : option V :=
  match cmm_m cmm !! cmm_casemap cmm name with
  | None => None
  | Some entry => Some (value entry)
  end.

Definition Set_ cmm (name : string) (v : V) : CaseMappingMap V :=
  let nameCM := cmm_casemap cmm name in
  match cmm_m cmm !! nameCM with
  | None => CMM (<[nameCM := CMEntry name v]> (cmm_m cmm)) (cmm_casemap cmm)
  | Some entry => CMM (<[nameCM := CMEntry (originalKey entry) v]> (cmm_m cmm)) (cmm_casemap cmm)
  end.

Definition Del cmm (name : string) : CaseMappingMap V :=
  CMM (delete (cmm_casemap cmm name) (cmm_m cmm)) (cmm_casemap cmm).

(** The entries in one of the orders a Go map iteration may use. *)
Definition entries cmm : list (caseMappingEntry V) := (map_to_list (cmm_m cmm)).*2.

(** [ForEach f]: the calls of [f], for an iteration order [order] (a
    permutation of [entries]). *)
Definition ForEach (order : list (caseMappingEntry V)) : list (string * V) :=
  (fun e => (originalKey e, value e)) <$> order.

(** [SetCaseMapping] for an iteration order. *)
Definition SetCaseMapping_in (order : list (caseMappingEntry V)) (newCasemap : CaseMapping)
    : CaseMappingMap V :=
  CMM (foldl (fun m e => <[newCasemap (originalKey e) := e]> m) ∅ order) newCasemap.

Definition SetCaseMapping cmm (newCasemap : CaseMapping) : CaseMappingMap V :=
  SetCaseMapping_in (entries cmm) newCasemap.

(** *** Representation invariant: every key is the case-mapped name its entry
    was first stored under. *)
Definition cmm_wf cmm : Prop :=
  map_Forall (fun k e => k = cmm_casemap cmm (originalKey e)) (cmm_m cmm).

Lemma wf_new cm : cmm_wf (NewCaseMappingMap cm).
Proof. intros k e H. simpl in H. by rewrite lookup_empty in H. Qed.

Lemma wf_set cmm name v : cmm_wf cmm -> cmm_wf (Set_ cmm name v).
Proof.
  intros Hwf. unfold Set_. destruct (cmm_m cmm !! _) as [e|] eqn:E;
    intros k e' H; simpl in *; apply lookup_insert_Some in H as [[<- <-]|[? H]]; simpl; auto.
Qed.

Lemma wf_del cmm name : cmm_wf cmm -> cmm_wf (Del cmm name).
Proof. intros Hwf k e H. simpl in *. apply lookup_delete_Some in H as [_ H]. by apply Hwf. Qed.

Lemma set_casemapping_fold order cm k e (m0 : gmap string (caseMappingEntry V)) :
  foldl (fun m e => <[cm (originalKey e) := e]> m) m0 order !! k = Some e ->
  (e ∈ order /\ k = cm (originalKey e)) \/ m0 !! k = Some e.
Proof.
  revert m0; induction order as [|e' order IH]; intros m0; simpl; [auto|].
  intros [[Hin ->]|H]%IH; [left; split; [by right|done]|].
  apply lookup_insert_Some in H as [[<- <-]|[_ H]]; [left; split; [by left|done]|auto].
Qed.

Lemma wf_set_casemapping order cm : cmm_wf (SetCaseMapping_in order cm).
Proof. intros k e H. by apply set_casemapping_fold in H as [[_ ->]|H]. Qed.

Lemma elem_of_entries cmm e : e ∈ entries cmm <-> exists k, cmm_m cmm !! k = Some e.
Proof.
  unfold entries. rewrite list_elem_of_fmap. split.
  - intros ([k e'] & -> & H). exists k. by apply elem_of_map_to_list.
  - intros [k H]. exists (k, e). split; [done|]. by apply elem_of_map_to_list.
Qed.

(** *** Lookup laws *)

Lemma Has_Get cmm name : Has cmm name = true <-> is_Some (Get cmm name).
Proof. unfold Has, Get. destruct (_ !! _); split; intros; done. Qed.

Lemma Get_Set cmm name v name' :
  Get (Set_ cmm name v) name' =
    if decide (cm_equiv (cmm_casemap cmm) name name') then Some v else Get cmm name'.
Proof.
  unfold Get, Set_, cm_equiv.
  destruct (cmm_m cmm !! cmm_casemap cmm name) as [e|] eqn:E; simpl;
    rewrite lookup_insert; repeat case_decide; done.
Qed.

Lemma Get_Del cmm name name' :
  Get (Del cmm name) name' =
    if decide (cm_equiv (cmm_casemap cmm) name name') then None else Get cmm name'.
Proof.
  unfold Get, Del, cm_equiv; simpl. rewrite lookup_delete. repeat case_decide; done.
Qed.

Lemma Get_new cm name : Get (NewCaseMappingMap cm) name = None.
Proof. unfold Get; simpl. by rewrite lookup_empty. Qed.

#[export] Instance Get_proper cmm : Proper (cm_equiv (cmm_casemap cmm) ==> eq) (Get cmm).
Proof. intros a b Hab. unfold Get. unfold cm_equiv in Hab. by rewrite Hab. Qed.

#[export] Instance Has_proper cmm : Proper (cm_equiv (cmm_casemap cmm) ==> eq) (Has cmm).
Proof. intros a b Hab. unfold Has. unfold cm_equiv in Hab. by rewrite Hab. Qed.

(** *** Changing the case mapping *)

(** No two entries have names that the mapping identifies. *)
Definition no_collision (cm : CaseMapping) (l : list (caseMappingEntry V)) : Prop :=
  NoDup ((fun e => cm (originalKey e)) <$> l).

Lemma set_casemapping_lookup order cm e (m0 : gmap string (caseMappingEntry V)) :
  no_collision cm order -> e ∈ order ->
  foldl (fun m e => <[cm (originalKey e) := e]> m) m0 order !! cm (originalKey e) = Some e.
Proof.
  revert m0; induction order as [|e' order IH]; intros m0 Hnd Hin; simpl.
  - by apply elem_of_nil in Hin.
  - apply NoDup_cons in Hnd as [Hx Hnd]. apply elem_of_cons in Hin as [->|Hin]; [|auto].
    clear IH. assert (Hne : Forall (fun e'' => cm (originalKey e'') <> cm (originalKey e')) order).
    { apply Forall_forall. intros e'' Hin He. apply Hx. rewrite <- He.
      by apply (list_elem_of_fmap_2 (fun e => cm (originalKey e))). }
    clear Hx Hnd. assert (H0 : <[cm (originalKey e') := e']> m0 !! cm (originalKey e') = Some e')
      by apply lookup_insert_eq.
    revert H0. generalize (<[cm (originalKey e') := e']> m0).
    induction Hne as [|e'' order Hne _ IH]; intros m1 H1; simpl; [done|].
    apply IH. by rewrite lookup_insert_ne.
Qed.

Lemma Get_SetCaseMapping_in order cm name v :
  no_collision cm order ->
  Get (SetCaseMapping_in order cm) name = Some v <->
  exists e, e ∈ order /\ cm_equiv cm (originalKey e) name /\ value e = v.
Proof.
  intros Hnc. unfold Get, SetCaseMapping_in, cm_equiv; simpl. split.
  - destruct (_ !! cm name) as [e|] eqn:E; [|done]. intros [= <-].
    apply set_casemapping_fold in E as [[Hin Hk]|E]; [eauto|].
    by rewrite lookup_empty in E.
  - intros (e & Hin & Hk & <-). rewrite <- Hk. by rewrite set_casemapping_lookup.
Qed.

End CaseMappingMap.

#[export] Hint Resolve wf_new wf_set wf_del wf_set_casemapping : sake.

(** ** Abstract specification: a log of writes read back up to the mapping

    The contract of the map towards its clients: a lookup answers with the
    last write to an equivalent name, and the spelling shown by [ForEach] is
    the one of the first write since the last removal. *)
Inductive cmm_op (V : Type) :=
| OpSet (name : string) (v : V)
| OpDel (name : string).
Arguments OpSet {V}.
Arguments OpDel {V}.

Definition cmm_step {V} (cmm : CaseMappingMap V) (op : cmm_op V) : CaseMappingMap V :=
  match op with
  | OpSet name v => Set_ cmm name v
  | OpDel name => Del cmm name
  end.

Definition cmm_run {V} (cm : CaseMapping) (ops : list (cmm_op V)) : CaseMappingMap V :=
  foldl cmm_step (NewCaseMappingMap cm) ops.

(** The spelling and value that a log of operations leaves for [name]. *)
Definition spec_step {V} (cm : CaseMapping) (name : string)
    (st : option (string * V)) (op : cmm_op V) : option (string * V) :=
  match op with
  | OpSet n v =>
      if decide (cm_equiv cm n name)
      then Some (match st with Some (k, _) => k | None => n end, v) else st
  | OpDel n => if decide (cm_equiv cm n name) then None else st
  end.

Definition spec_run {V} (cm : CaseMapping) (ops : list (cmm_op V)) (name : string)
    : option (string * V) :=
  foldl (spec_step cm name) None ops.

Section refinement.
Context {V : Type}.
Implicit Types (cmm : CaseMappingMap V) (ops : list (cmm_op V)).

Definition abs_entry cmm (name : string) : option (string * V) :=
  (fun e => (originalKey e, value e)) <$> (cmm_m cmm !! cmm_casemap cmm name).

Lemma cmm_step_casemap cmm op : cmm_casemap (cmm_step cmm op) = cmm_casemap cmm.
Proof. destruct op; simpl; [|done]. unfold Set_. by case_match. Qed.

Lemma cmm_step_wf cmm op : cmm_wf cmm -> cmm_wf (cmm_step cmm op).
Proof. destruct op; simpl; auto with sake. Qed.

Lemma cmm_step_refines cmm op name :
  abs_entry (cmm_step cmm op) name = spec_step (cmm_casemap cmm) name (abs_entry cmm name) op.
Proof.
  unfold abs_entry. rewrite cmm_step_casemap. destruct op as [n v|n]; simpl; unfold cm_equiv.
  - unfold Set_. destruct (cmm_m cmm !! cmm_casemap cmm n) as [e|] eqn:E; simpl;
      rewrite lookup_insert; repeat case_decide; try done;
      match goal with H : _ = _ |- _ => rewrite <- H, E end; done.
  - rewrite lookup_delete. repeat case_decide; done.
Qed.

Lemma cmm_run_from cmm ops name :
  cmm_wf cmm ->
  cmm_wf (foldl cmm_step cmm ops) /\
  cmm_casemap (foldl cmm_step cmm ops) = cmm_casemap cmm /\
  abs_entry (foldl cmm_step cmm ops) name
    = foldl (spec_step (cmm_casemap cmm) name) (abs_entry cmm name) ops.
Proof.
  revert cmm; induction ops as [|op ops IH]; intros cmm Hwf; simpl; [done|].
  destruct (IH (cmm_step cmm op) (cmm_step_wf _ _ Hwf)) as (H1 & H2 & H3).
  rewrite cmm_step_casemap in H2, H3. by rewrite H3, cmm_step_refines.
Qed.

End refinement.

(** ** Properties *)

(** Every case mapping is idempotent: canonical names are their own
    canonical form. *)
Theorem casemapping_idempotent name cm s :
  ParseCaseMapping name = Some cm -> cm (cm s) = cm s.
Proof.
  unfold ParseCaseMapping. intros H; cases; apply map_bytes_idem; auto with sake.
Qed.

Lemma casemapping_idempotent_witness : casemapRFC1459 (casemapRFC1459 "#A{b}~") = "#a[b]^".
Proof. rewrite (casemapping_idempotent "rfc1459" casemapRFC1459 "#A{b}~" eq_refl). reflexivity. Defined.

(** ASCII is the strictest of the three. *)
Theorem casemapping_strictness :
  cm_refines casemapASCII casemapRFC1459Strict /\ cm_refines casemapRFC1459Strict casemapRFC1459.
Proof. split; apply map_bytes_refines; auto with sake. Qed.

(** C23: refinement *)
Theorem CaseMappingMap_refines_log {V} (cm : CaseMapping) (ops : list (cmm_op V)) name :
  cmm_wf (cmm_run cm ops) /\
  Get (cmm_run cm ops) name = snd <$> spec_run cm ops name /\
  abs_entry (cmm_run cm ops) name = spec_run cm ops name.
Proof.
  destruct (cmm_run_from (NewCaseMappingMap cm) ops name (wf_new cm)) as (H1 & H2 & H3).
  assert (Habs : abs_entry (cmm_run cm ops) name = spec_run cm ops name).
  { unfold cmm_run, spec_run. rewrite H3. unfold abs_entry; simpl. by rewrite lookup_empty. }
  split_and!; [done| |done]. rewrite <- Habs. unfold Get, abs_entry.
  by destruct (_ !! _).
Qed.

(** C26: a change of case mapping does not depend on the iteration order. *)
Theorem SetCaseMapping_preserves {V} (cmm : CaseMappingMap V) order cm :
  order ≡ₚ entries cmm -> no_collision cm (entries cmm) ->
  cmm_wf (SetCaseMapping_in order cm) /\
  forall name v,
    Get (SetCaseMapping_in order cm) name = Some v <->
    exists e k, cmm_m cmm !! k = Some e /\ cm_equiv cm (originalKey e) name /\ value e = v.
Proof.
  intros Hperm Hnc. split; [auto with sake|]. intros name v.
  rewrite Get_SetCaseMapping_in by (unfold no_collision; by rewrite Hperm).
  setoid_rewrite Hperm. setoid_rewrite elem_of_entries. naive_solver.
Qed.

Lemma SetCaseMapping_preserves_witness :
  Get (SetCaseMapping_in (entries (Set_ (Set_ (NewCaseMappingMap casemapASCII) "#Go" 1) "#{x}" 2)) casemapRFC1459)
    "#[X]" = Some 2.
Proof.
  apply (SetCaseMapping_preserves (Set_ (Set_ (NewCaseMappingMap casemapASCII) "#Go" 1) "#{x}" 2)).
  - reflexivity.
  - unfold no_collision. by_eval.
  - exists (CMEntry "#{x}" 2), "#{x}". repeat split.
Defined.
