(* ===== verification/Xirc.v ===== *)
(** * IRC messages, capabilities and memberships (xirc/xirc.go, xirc/caps.go)

    The data of an IRC message (the struct of package irc.v4 that the code
    reads and builds), the capability registry, CTCP and channel-status
    parsing, membership sets and the ISUPPORT value encoding. *)

From stdpp Require Import base list gmap strings.
From Stdlib Require Import ZArith Ascii.
From S2P Require Import Prelude GoStrings.

(** ** Messages *)

Record prefix := Prefix { Name : string; User : string; Host : string }.

Record message := Message {
  Tags : gmap string string;
  MsgPrefix : option prefix;
  Command : string;
  Params : list string
}.

(** [&irc.Message{Command: cmd, Params: params}]. *)
Definition mk_msg (cmd : string) (params : list string) : message :=
  Message ∅ None cmd params.

#[export] Instance prefix_eq_dec : EqDecision prefix.
Proof. solve_decision. Defined.
#[export] Instance message_eq_dec : EqDecision message.
Proof. solve_decision. Defined.

Definition maxMessageLength : nat := 512.
Definition maxMessageParams : nat := 15.
Definition MaxSASLLength : nat := 400.

Definition RPL_WHOREPLY : string := "352".
Definition RPL_WHOSPCRPL : string := "354".
Definition RPL_ISUPPORT : string := "005".
Definition RPL_MOTDSTART : string := "375".
Definition RPL_MOTD : string := "372".
Definition RPL_ENDOFMOTD : string := "376".
Definition RPL_NAMREPLY : string := "353".
Definition RPL_ENDOFNAMES : string := "366".

(** ** Capability registry (xirc/caps.go) *)

Record CapRegistry := Caps {
  Available : gmap string string;
  Enabled : gset string
}.

Definition NewCapRegistry : CapRegistry := Caps ∅ ∅.

Definition IsAvailable (cr : CapRegistry) (name : string) : bool :=
  bool_decide (is_Some (Available cr !! name)).

Definition IsEnabled (cr : CapRegistry) (name : string) : bool :=
  bool_decide (name ∈ Enabled cr).

Definition CapDel (cr : CapRegistry) (name : string) : CapRegistry :=
  Caps (delete name (Available cr)) (Enabled cr ∖ {[name]}).

Definition SetEnabled (cr : CapRegistry) (name : string) (enabled : bool) : CapRegistry :=
  if enabled then Caps (Available cr) ({[name]} ∪ Enabled cr)
  else Caps (Available cr) (Enabled cr ∖ {[name]}).

(** [cr.Available[name] = value]. *)
Definition SetAvailable (cr : CapRegistry) (name v : string) : CapRegistry :=
  Caps (<[name := v]> (Available cr)) (Enabled cr).

Lemma IsEnabled_SetEnabled cr n b n' :
  IsEnabled (SetEnabled cr n b) n' = if decide (n = n') then b else IsEnabled cr n'.
Proof.
  unfold IsEnabled, SetEnabled. case_decide as Hn; destruct b; simpl.
  - apply bool_decide_true. set_solver.
  - apply bool_decide_false. set_solver.
  - apply bool_decide_ext. set_solver.
  - apply bool_decide_ext. set_solver.
Qed.

Lemma IsEnabled_CapDel cr n n' :
  IsEnabled (CapDel cr n) n' = if decide (n = n') then false else IsEnabled cr n'.
Proof.
  unfold IsEnabled, CapDel; simpl. case_decide.
  - apply bool_decide_false. set_solver.
  - apply bool_decide_ext. set_solver.
Qed.

Lemma IsAvailable_CapDel cr n n' :
  IsAvailable (CapDel cr n) n' = if decide (n = n') then false else IsAvailable cr n'.
Proof.
  unfold IsAvailable, CapDel; simpl. rewrite lookup_delete. case_decide; [|done].
  apply bool_decide_false. intros [? ?]; done.
Qed.

(** ** CTCP *)

Section CTCP.
Context {U : Unicode}.

Definition ctcp_delim : string := String (byte_of_Z 1) "".

(** [None] is [ok = false]. *)
Definition ParseCTCPMessage (msg : message) : option (string * string) :=
  if (negb (bool_decide (Command msg = "PRIVMSG"))
      && negb (bool_decide (Command msg = "NOTICE")))
     || (length (Params msg) <? 2)%nat
  then None
  else match Params msg !! 1 with
       | None => None
       | Some text =>
           if negb (HasPrefix text ctcp_delim) then None
           else let text := Trim text ctcp_delim in
                let '(w0, w1) := Split2 text " " in
                Some (ToUpper w0, default "" w1)
       end.

End CTCP.

(** ** Channel status *)

Inductive xirc_error :=
| ErrStatusTooLong (s : string)
| ErrStatusUnknown (s : string).

Definition ChannelPublic : ascii := "=".
Definition ChannelSecret : ascii := "@".
Definition ChannelPrivate : ascii := "*".

(** [s[0]] of the empty string is a run-time panic. *)
Definition ParseChannelStatus (s : string) : res xirc_error ascii :=
  if (1 <? slen s)%nat then Err (ErrStatusTooLong s)
  else match s with
       | EmptyString => Panic
       | String cs _ =>
           if byte_eqb cs ChannelPublic || byte_eqb cs ChannelSecret || byte_eqb cs ChannelPrivate
           then Ok cs else Err (ErrStatusUnknown s)
       end.

(** ** Memberships *)

Record Membership := Memb { Mode : ascii; MPrefix : ascii }.

#[export] Instance Membership_eq_dec : EqDecision Membership.
Proof. solve_decision. Defined.

(** The index at which [Add] inserts; [None] is its early return for a
    membership that is already present. *)
Fixpoint add_index (available : list Membership) (l : list Membership) (i : nat)
    (newMembership : Membership) : option nat :=
  match available with
  | [] => Some i
  | availableMembership :: available' =>
      match l !! i with
      | None => Some i (* i >= len(l) *)
      | Some li =>
          if decide (li = availableMembership) then
            if decide (availableMembership = newMembership) then None
            else add_index available' l (S i) newMembership
          else if decide (availableMembership = newMembership) then Some i
          else add_index available' l i newMembership
      end
  end.

Definition MembershipAdd (l : list Membership) (available : list Membership)
    (newMembership : Membership) : list Membership :=
  match add_index available l 0 newMembership with
  | None => l
  | Some i => take i l ++ newMembership :: drop i l
  end.

Definition MembershipRemove (l : list Membership) (membership : Membership) : list Membership :=
  remove_first (fun m => bool_decide (m = membership)) l.

(** A membership set is sorted by descending rank: it is a subsequence of the
    server's list of memberships. *)
Definition by_rank (available l : list Membership) : Prop := l `sublist_of` available.

(** The insertion index found from the remaining suffix of the set. *)
Fixpoint add_offset (available r : list Membership) (new : Membership) : option nat :=
  match available, r with
  | [], _ | _, [] => Some 0
  | a :: available', x :: r' =>
      if decide (x = a) then
        if decide (a = new) then None else S <$> add_offset available' r' new
      else if decide (a = new) then Some 0
      else add_offset available' r new
  end.

Lemma add_index_offset available l i new :
  add_index available l i new = (fun k => i + k) <$> add_offset available (drop i l) new.
Proof.
  revert i; induction available as [|a av IH]; intros i; simpl; [f_equal; lia|].
  destruct (l !! i) as [x|] eqn:E.
  - rewrite (drop_S l x i E). case_decide; case_decide; simpl; try (f_equal; lia); try done.
    + rewrite IH. destruct (add_offset av (drop (S i) l) new); simpl; f_equal; lia.
    + rewrite IH. by rewrite (drop_S l x i E).
  - rewrite drop_ge by (by apply lookup_ge_None). simpl. f_equal; lia.
Qed.

(** The list that an insertion at an offset gives. *)
Definition insert_at (o : option nat) (l : list Membership) (new : Membership) : list Membership :=
  match o with None => l | Some i => take i l ++ new :: drop i l end.

Lemma insert_at_S o x l new : insert_at (S <$> o) (x :: l) new = x :: insert_at o l new.
Proof. by destruct o. Qed.

Lemma MembershipAdd_insert_at l available new :
  MembershipAdd l available new = insert_at (add_offset available l new) l new.
Proof.
  unfold MembershipAdd. rewrite add_index_offset, drop_0.
  by destruct (add_offset available l new).
Qed.

Lemma sublist_singleton {A} (x : A) l : x ∈ l -> [x] `sublist_of` l.
Proof. induction 1; [constructor; apply sublist_nil_l|by constructor]. Qed.

Lemma insert_at_by_rank available r new :
  NoDup available -> new ∈ available -> by_rank available r ->
  by_rank available (insert_at (add_offset available r new) r new).
Proof.
  unfold by_rank. intros Hnd. revert r; induction Hnd as [|a av Ha Hnd IH]; intros r Hin Hr.
  - by apply elem_of_nil in Hin.
  - destruct r as [|x r]; [by apply sublist_singleton|].
    simpl. destruct (decide (x = a)) as [->|Hxa].
    + apply sublist_cons_l in Hr as (k1 & k2 & Heq & Hr).
      assert (r `sublist_of` av) as Hr'.
      { destruct k1 as [|y k1]; simplify_eq/=; [done|]. apply sublist_inserts_l.
        by constructor. }
      case_decide; subst; simpl; [by constructor|].
      rewrite insert_at_S. constructor. apply IH; [|done].
      by apply elem_of_cons in Hin as [->|].
    + inversion Hr; subst; [done|]. case_decide; subst; simpl; [by constructor|].
      constructor. apply IH; [|done]. by apply elem_of_cons in Hin as [->|].
Qed.

Lemma insert_at_elem o l new x :
  x ∈ insert_at o l new <-> x ∈ l \/ (o <> None /\ x = new).
Proof.
  destruct o as [i|]; simpl; [|naive_solver].
  rewrite <- (take_drop i l) at 3. set_solver.
Qed.

Lemma add_offset_None available r new :
  add_offset available r new = None -> new ∈ r.
Proof.
  revert r; induction available as [|a av IH]; intros [|x r]; simpl; try done.
  repeat case_decide; subst; try done; [by left| |auto].
  destruct (add_offset av r new) eqn:E; [done|]. right; auto.
Qed.

(** A present membership is found: [Add] returns early. *)
Lemma add_offset_present available r new :
  NoDup available -> by_rank available r -> new ∈ r -> add_offset available r new = None.
Proof.
  unfold by_rank. intros Hnd. revert r; induction Hnd as [|a av Ha Hnd IH]; intros r Hr Hin.
  - apply sublist_nil_r in Hr as ->. by apply elem_of_nil in Hin.
  - destruct r as [|x r]; [by apply elem_of_nil in Hin|]. simpl.
    apply sublist_cons_r in Hr as [Hr|(r' & [= <- <-] & Hr)].
    + assert (x <> a) by (intros ->; apply Ha; eapply elem_of_sublist; [by left|done]).
      assert (a <> new) by (intros ->; apply Ha; by eapply elem_of_sublist).
      rewrite !decide_False by done. auto.
    + rewrite decide_True by done. case_decide; [done|].
      apply elem_of_cons in Hin as [->|Hin]; [done|]. by rewrite IH.
Qed.

(** ** ISUPPORT values *)

(** [strings.NewReplacer(pairs...).Replace(s)] for non-empty old strings: at
    each position the first pair whose old string matches is replaced.  Each
    step consumes at least a byte, so [slen s] steps are enough. *)
Fixpoint replace_fuel (fuel : nat) (pairs : list (string * string)) (s : string) : string :=
  match fuel, s with
  | S fuel', String c s' =>
      match list_find (fun p => HasPrefix s (fst p) = true) pairs with
      | Some (_, (old, new)) => new +:+ replace_fuel fuel' pairs (sdrop (slen old) s)
      | None => String c (replace_fuel fuel' pairs s')
      end
  | _, _ => ""
  end.
Definition Replace (pairs : list (string * string)) (s : string) : string :=
  replace_fuel (slen s) pairs s.

Definition isupport_encoder : list (string * string) := [(" ", "\x20"); ("\", "\x5C")].
Definition isupport_decoder : list (string * string) := [("\x20", " "); ("\x5C", "\")].

Definition EncodeIsupportValue (v : string) : string := Replace isupport_encoder v.
Definition DecodeIsupportValue (v : string) : string := Replace isupport_decoder v.

(** The encoding of one byte. *)
Definition isupport_byte (c : ascii) : string :=
  if decide (c = " "%char) then "\x20" else if decide (c = "\"%char) then "\x5C" else String c "".

Lemma EncodeIsupportValue_cons c v :
  EncodeIsupportValue (String c v) = isupport_byte c +:+ EncodeIsupportValue v.
Proof.
  unfold EncodeIsupportValue, Replace, isupport_byte. cbn [slen String.length replace_fuel].
  destruct (decide (c = " "%char)) as [->|H1]; [done|].
  destruct (decide (c = "\"%char)) as [->|H2]; [done|].
  cbn [list_find isupport_encoder fst HasPrefix].
  unfold byte_eqb. rewrite !bool_decide_false by congruence.
  by repeat (case_decide; try done).
Qed.

Lemma isupport_decode_space n e :
  replace_fuel (S n) isupport_decoder ("\x20" +:+ e) = String " " (replace_fuel n isupport_decoder e).
Proof. reflexivity. Qed.

Lemma isupport_decode_backslash n e :
  replace_fuel (S n) isupport_decoder ("\x5C" +:+ e) = String "\" (replace_fuel n isupport_decoder e).
Proof. reflexivity. Qed.

Lemma isupport_decode_fuel v n :
  slen (EncodeIsupportValue v) <= n ->
  replace_fuel n isupport_decoder (EncodeIsupportValue v) = v.
Proof.
  revert n; induction v as [|c v IH]; intros n Hn; [by destruct n|].
  rewrite EncodeIsupportValue_cons in *. rewrite slen_app in Hn.
  unfold isupport_byte in *.
  destruct (decide (c = " "%char)) as [->|H1].
  { destruct n as [|n]; [simpl in Hn; lia|].
    rewrite isupport_decode_space, IH; [done|]. simpl in Hn; lia. }
  destruct (decide (c = "\"%char)) as [->|H2].
  { destruct n as [|n]; [simpl in Hn; lia|].
    rewrite isupport_decode_backslash, IH; [done|]. simpl in Hn; lia. }
  destruct n as [|n]; [simpl in Hn; lia|]. rewrite sapp_cons, sapp_nil_l.
  cbn [replace_fuel list_find isupport_decoder fst HasPrefix].
  unfold byte_eqb. rewrite !bool_decide_false by congruence. simpl.
  repeat (case_decide; [done|]). simpl. f_equal. apply IH. simpl in Hn; lia.
Qed.

(** ** Properties *)

(** C27: adding a membership. *)
Theorem MembershipAdd_correct available l new :
  NoDup available -> new ∈ available -> by_rank available l ->
  by_rank available (MembershipAdd l available new) /\
  (forall x, x ∈ MembershipAdd l available new <-> x = new \/ x ∈ l) /\
  MembershipAdd (MembershipAdd l available new) available new = MembershipAdd l available new.
Proof.
  intros Hnd Hin Hl. rewrite !MembershipAdd_insert_at.
  assert (Hr : by_rank available (insert_at (add_offset available l new) l new))
    by by apply insert_at_by_rank.
  assert (He : forall x, x ∈ insert_at (add_offset available l new) l new <-> x = new \/ x ∈ l).
  { intros x. rewrite insert_at_elem.
    destruct (add_offset available l new) eqn:E; [naive_solver|].
    apply add_offset_None in E. naive_solver. }
  split_and!; [done|done|].
  assert (Hn : new ∈ insert_at (add_offset available l new) l new) by (apply He; by left).
  by rewrite (add_offset_present available _ new).
Qed.

Lemma MembershipAdd_correct_witness :
  by_rank [Memb "o" "@"; Memb "h" "%"; Memb "v" "+"]%char
    (MembershipAdd [Memb "o" "@"; Memb "v" "+"]%char [Memb "o" "@"; Memb "h" "%"; Memb "v" "+"]%char
       (Memb "h" "%")%char).
Proof.
  apply (MembershipAdd_correct [Memb "o" "@"; Memb "h" "%"; Memb "v" "+"]%char
    [Memb "o" "@"; Memb "v" "+"]%char (Memb "h" "%")%char); [by_eval|by_eval|].
  unfold by_rank. repeat constructor.
Defined.

(** The ISUPPORT value encoding round trip. *)
Theorem isupport_roundtrip v : DecodeIsupportValue (EncodeIsupportValue v) = v.
Proof. by apply isupport_decode_fuel. Qed.
