(* ===== verification/Whox.v ===== *)
(** * WHOX replies (xirc/whox.go) *)

From stdpp Require Import base list gmap strings.
From Stdlib Require Import ZArith Ascii.
From S2P Require Import Prelude GoStrings Xirc.

(** The field letters by order of appearance in RPL_WHOSPCRPL. *)
Definition whoxFields : list ascii := schars "tcuihsnfdlaor".

Record WHOXInfo := Whox {
  Token : string;
  Channel : string;
  Username : string;
  Hostname : string;
  Server : string;
  Nickname : string;
  Flags : string;
  Account : string;
  Realname : string
}.

Definition empty_whox : WHOXInfo := Whox "" "" "" "" "" "" "" "" "".

Definition whox_channel (info : WHOXInfo) : string :=
  if bool_decide (Channel info = "") then "*" else Channel info.

(** A hostname that starts with a colon is prefixed with a zero. *)
Definition whox_hostname (info : WHOXInfo) : string :=
  if HasPrefix (Hostname info) ":" then "0" +:+ Hostname info else Hostname info.

Definition whox_account (info : WHOXInfo) : string :=
  if negb (bool_decide (Account info = "")) && negb (bool_decide (Account info = "*"))
  then Account info else "0".

Definition whox_get (info : WHOXInfo) (k : ascii) : string :=
  match k with
  | "t"%char => Token info
  | "c"%char => whox_channel info
  | "u"%char => Username info
  | "i"%char => "255.255.255.255"
  | "h"%char => whox_hostname info
  | "s"%char => Server info
  | "n"%char => Nickname info
  | "f"%char => Flags info
  | "d"%char => "0"
  | "l"%char => "0"
  | "a"%char => whox_account info
  | "o"%char => "0"
  | "r"%char => Realname info
  | _ => ""
  end.

Definition whox_set (info : WHOXInfo) (k : ascii) (v : string) : WHOXInfo :=
  let '(Whox t c u h s n f a r) := info in
  match k with
  | "t"%char => Whox v c u h s n f a r
  | "c"%char => Whox t v u h s n f a r
  | "u"%char => Whox t c v h s n f a r
  | "h"%char => Whox t c u v s n f a r
  | "s"%char => Whox t c u h v n f a r
  | "n"%char => Whox t c u h s v f a r
  | "f"%char => Whox t c u h s n v a r
  | "a"%char => Whox t c u h s n f v r
  | "r"%char => Whox t c u h s n f a v
  | _ => info
  end.

(** [fieldSet[field]]. *)
Definition has_field (fields : string) (field : ascii) : bool := byte_in field fields.

Definition GenerateWHOXReply (fields : string) (info : WHOXInfo) : message :=
  if bool_decide (fields = "") then
    mk_msg RPL_WHOREPLY
      ["*"; whox_channel info; Username info; whox_hostname info; Server info;
       Nickname info; Flags info; "0 " +:+ Realname info]
  else
    mk_msg RPL_WHOSPCRPL
      ("*" :: (whox_get info <$> filter (fun f => has_field fields f = true) whoxFields)).

Section Options.
Context {U : Unicode}.

Definition ParseWHOXOptions (options : string) : string * string :=
  match Split2 options "%" with
  | (_, Some opts) =>
      let '(fs, tok) := Split2 opts "," in
      let fields := ToLower fs in
      match tok with
      | Some tok => (fields, if Contains fields "t" then tok else "")
      | None => (fields, "")
      end
  | (_, None) => ("", "")
  end.

End Options.

Inductive whox_error :=
| ErrNotWHOX (cmd : string)
| ErrNoParams
| ErrMissingValue (field : ascii).

(** The loop over [whoxFields] with the remaining values. *)
Fixpoint parse_fields (fs : list ascii) (fields : string) (values : list string)
    (info : WHOXInfo) : res whox_error WHOXInfo :=
  match fs with
  | [] => Ok info
  | field :: fs' =>
      if negb (has_field fields field) then parse_fields fs' fields values info
      else match values with
           | [] => Err (ErrMissingValue field)
           | v :: values' => parse_fields fs' fields values' (whox_set info field v)
           end
  end.

Definition ParseWHOXReply (msg : message) (fields : string) : res whox_error WHOXInfo :=
  if negb (bool_decide (Command msg = RPL_WHOSPCRPL)) then Err (ErrNotWHOX (Command msg))
  else match Params msg with
       | [] => Err ErrNoParams
       | _ :: values => parse_fields whoxFields fields values empty_whox
       end.

(** What a client recovers from a reply: the requested fields, each in its
    transported form, and the empty string for the others. *)
Definition whox_view (fields : string) (info : WHOXInfo) : WHOXInfo :=
  let sel k v := if has_field fields k then v else "" in
  Whox (sel "t"%char (Token info)) (sel "c"%char (whox_channel info))
    (sel "u"%char (Username info)) (sel "h"%char (whox_hostname info))
    (sel "s"%char (Server info)) (sel "n"%char (Nickname info))
    (sel "f"%char (Flags info)) (sel "a"%char (whox_account info))
    (sel "r"%char (Realname info)).

(** The requested fields in their order on the wire. *)
Definition wanted (fields : string) : list ascii :=
  filter (fun f => has_field fields f = true) whoxFields.

Lemma parse_fields_generated fs fields info acc :
  parse_fields fs fields (whox_get info <$> filter (fun f => has_field fields f = true) fs) acc
  = Ok (foldl (fun a f => if has_field fields f then whox_set a f (whox_get info f) else a) acc fs).
Proof.
  revert acc; induction fs as [|f fs IH]; intros acc; [done|].
  rewrite filter_cons. simpl. destruct (has_field fields f) eqn:E.
  - rewrite decide_True by done. simpl. apply IH.
  - rewrite decide_False by done. simpl. apply IH.
Qed.

(** Conditional update of each field of the record. *)
Lemma whox_if (b : bool) t c u h s n f a r t' c' u' h' s' n' f' a' r' :
  (if b then Whox t c u h s n f a r else Whox t' c' u' h' s' n' f' a' r')
  = Whox (if b then t else t') (if b then c else c') (if b then u else u')
      (if b then h else h') (if b then s else s') (if b then n else n')
      (if b then f else f') (if b then a else a') (if b then r else r').
Proof. by destruct b. Qed.

Lemma if_same {A} (b : bool) (x : A) : (if b then x else x) = x.
Proof. by destruct b. Qed.

Lemma whox_fold_view fields info :
  foldl (fun a f => if has_field fields f then whox_set a f (whox_get info f) else a)
        empty_whox whoxFields = whox_view fields info.
Proof.
  unfold whoxFields, whox_view, empty_whox. cbn [schars String.list_ascii_of_string].
  repeat match goal with
  | |- foldl ?g ?a (?f :: ?fs) = _ =>
      change (foldl g a (f :: fs)) with (foldl g (g a f) fs);
      cbv beta; cbn [whox_set]; rewrite whox_if, ?if_same
  end. done.
Qed.

(** C28: a reply generated for a non-empty field list parses back. *)
Theorem whox_roundtrip fields info :
  fields <> "" ->
  ParseWHOXReply (GenerateWHOXReply fields info) fields = Ok (whox_view fields info).
Proof.
  intros Hf. unfold GenerateWHOXReply, ParseWHOXReply.
  rewrite (bool_decide_false (fields = "")) by done. cbn [mk_msg Command Params].
  rewrite bool_decide_true by done. cbn [negb].
  by rewrite parse_fields_generated, whox_fold_view.
Qed.

(** The hypotheses hold for a concrete field list. *)
Lemma whox_roundtrip_witness :
  ParseWHOXReply (GenerateWHOXReply "ahn" (Whox "" "#c" "u" "::1" "srv" "bob" "H" "*" "Bob")) "ahn"
  = Ok (Whox "" "" "" "0::1" "" "bob" "" "0" "").
Proof. apply (whox_roundtrip "ahn" (Whox "" "#c" "u" "::1" "srv" "bob" "H" "*" "Bob")); discriminate. Defined.

Lemma parse_fields_error fs fields values acc :
  match parse_fields fs fields values acc with
  | Ok _ => length (filter (fun f => has_field fields f = true) fs) <= length values
  | Err e => exists f, filter (fun f => has_field fields f = true) fs !! length values = Some f
                       /\ e = ErrMissingValue f
  | Panic => False
  end.
Proof.
  revert values acc; induction fs as [|f fs IH]; intros values acc; simpl; [lia|].
  rewrite filter_cons. destruct (has_field fields f) eqn:E; simpl.
  - destruct values as [|v vs]; simpl; [by exists f|].
    specialize (IH vs (whox_set acc f v)). case_match; simpl; [lia|done|done].
  - apply IH.
Qed.

(** A reply with too few values is refused with the first missing field,
    and one with enough values is accepted. *)
Theorem ParseWHOXReply_total values fields :
  match ParseWHOXReply (mk_msg RPL_WHOSPCRPL ("*" :: values)) fields with
  | Ok _ => length (wanted fields) <= length values
  | Err e => exists f, wanted fields !! length values = Some f /\ e = ErrMissingValue f
  | Panic => False
  end.
Proof. apply parse_fields_error. Qed.
