(* ===== verification/Base64.v ===== *)
(** * Package encoding/base64

    The two encodings the code uses: [StdEncoding] (padded) for SASL and
    [RawURLEncoding] (unpadded, URL alphabet) for message identifiers. *)

From stdpp Require Import base list strings.
From Stdlib Require Import ZArith Ascii.
From S2P Require Import Prelude GoStrings.

Local Open Scope Z_scope.

(** An encoding: its alphabet and whether it pads with ['=']. *)
Record encoding := Encoding { alphabet : string; padded : bool }.

Definition StdEncoding : encoding :=
  Encoding "ABCDEFGHIJKLMNOPQRSTUVWXYZabcdefghijklmnopqrstuvwxyz0123456789+/" true.
Definition RawURLEncoding : encoding :=
  Encoding "ABCDEFGHIJKLMNOPQRSTUVWXYZabcdefghijklmnopqrstuvwxyz0123456789-_" false.

Definition digit (enc : encoding) (i : Z) : ascii :=
  default "A"%char (schars (alphabet enc) !! Z.to_nat i).

Definition undigit (enc : encoding) (c : ascii) : option Z :=
  Z.of_nat <$> IndexByte (alphabet enc) c.

(** [EncodeToString]. *)
Fixpoint encode64 (enc : encoding) (src : list ascii) : string :=
  match src with
  | [] => ""
  | [a] =>
      let x := byteZ a in
      String (digit enc (x / 4)) (String (digit enc (x mod 4 * 16))
        (if padded enc then "==" else ""))
  | [a; b] =>
      let x := byteZ a in let y := byteZ b in
      String (digit enc (x / 4)) (String (digit enc (x mod 4 * 16 + y / 16))
        (String (digit enc (y mod 16 * 4)) (if padded enc then "=" else "")))
  | a :: b :: c :: rest =>
      let x := byteZ a in let y := byteZ b in let z := byteZ c in
      String (digit enc (x / 4)) (String (digit enc (x mod 4 * 16 + y / 16))
        (String (digit enc (y mod 16 * 4 + z / 64)) (String (digit enc (z mod 64))
          (encode64 enc rest))))
  end.

(** The bytes of a quantum of two, three or four digits; trailing bits are
    ignored, as outside strict mode. *)
Definition bytes2 (p q : Z) : list ascii := [byte_of_Z (p * 4 + q / 16)].
Definition bytes3 (p q r : Z) : list ascii :=
  [byte_of_Z (p * 4 + q / 16); byte_of_Z (q mod 16 * 16 + r / 4)].
Definition bytes4 (p q r s : Z) : list ascii :=
  [byte_of_Z (p * 4 + q / 16); byte_of_Z (q mod 16 * 16 + r / 4); byte_of_Z (r mod 4 * 64 + s)].

Fixpoint decode_quanta (enc : encoding) (src : list ascii) : option (list ascii) :=
  match src with
  | [] => Some []
  | [_] => None
  | [a; b] =>
      if padded enc then None
      else p ← undigit enc a; q ← undigit enc b; Some (bytes2 p q)
  | [a; b; c] =>
      if padded enc then None
      else p ← undigit enc a; q ← undigit enc b; r ← undigit enc c; Some (bytes3 p q r)
  | a :: b :: c :: d :: rest =>
      p ← undigit enc a; q ← undigit enc b;
      if padded enc && byte_eqb c "=" then
        if byte_eqb d "=" then match rest with [] => Some (bytes2 p q) | _ => None end else None
      else
        r ← undigit enc c;
        if padded enc && byte_eqb d "=" then
          match rest with [] => Some (bytes3 p q r) | _ => None end
        else s ← undigit enc d; l ← decode_quanta enc rest; Some (bytes4 p q r s ++ l)
  end.

Definition is_newline (c : ascii) : bool := byte_eqb c "013" || byte_eqb c "010".

(** [DecodeString]: line breaks are skipped. *)
Definition decode64 (enc : encoding) (s : string) : option (list ascii) :=
  decode_quanta enc (filter (fun c => is_newline c = false) (schars s)).

(** ** Round trip *)

(** What the proofs use of an alphabet: 64 distinct digits, none of them the
    padding byte or a line break. *)
Definition digit_ok (enc : encoding) (i : nat) : bool :=
  let c := digit enc (Z.of_nat i) in
  bool_decide (undigit enc c = Some (Z.of_nat i)) && negb (byte_eqb c "=") && negb (is_newline c).

Class Alphabet (enc : encoding) := alphabet_ok : forallb (digit_ok enc) (seq 0 64) = true.

#[export] Instance StdEncoding_ok : Alphabet StdEncoding.
Proof. reflexivity. Qed.
#[export] Instance RawURLEncoding_ok : Alphabet RawURLEncoding.
Proof. reflexivity. Qed.

Section roundtrip.
Context (enc : encoding) `{!Alphabet enc}.

Lemma digit_spec i :
  0 <= i < 64 ->
  undigit enc (digit enc i) = Some i /\ byte_eqb (digit enc i) "=" = false
  /\ is_newline (digit enc i) = false.
Proof.
  intros Hi. pose proof (alphabet_ok (enc := enc)) as H.
  rewrite forallb_forall in H. specialize (H (Z.to_nat i)).
  rewrite in_seq in H. specialize (H ltac:(lia)). unfold digit_ok in H.
  rewrite Z2Nat.id in H by lia. bool_to_prop. done.
Qed.

Lemma undigit_digit i : 0 <= i < 64 -> undigit enc (digit enc i) = Some i.
Proof. apply digit_spec. Qed.
Lemma digit_not_pad i : 0 <= i < 64 -> byte_eqb (digit enc i) "=" = false.
Proof. apply digit_spec. Qed.
Lemma digit_not_newline i : 0 <= i < 64 -> is_newline (digit enc i) = false.
Proof. apply digit_spec. Qed.

Lemma filter_keep (c : ascii) l :
  is_newline c = false ->
  filter (fun c => is_newline c = false) (c :: l) = c :: filter (fun c => is_newline c = false) l.
Proof. intros H. rewrite filter_cons. by rewrite decide_True. Qed.

Lemma byte_of_eq z a : z = byteZ a -> byte_of_Z z = a.
Proof. intros ->. apply byte_of_byteZ. Qed.

Lemma decode_encode_quantum a b c l :
  let x := byteZ a in let y := byteZ b in let z := byteZ c in
  decode_quanta enc (digit enc (x / 4) :: digit enc (x mod 4 * 16 + y / 16)
     :: digit enc (y mod 16 * 4 + z / 64) :: digit enc (z mod 64) :: l)
  = (fun r => a :: b :: c :: r) <$> decode_quanta enc l.
Proof.
  intros x y z. pose proof (byteZ_range a). pose proof (byteZ_range b). pose proof (byteZ_range c).
  subst x y z. cbn [decode_quanta].
  rewrite !undigit_digit, !digit_not_pad by zlia. cbn. rewrite !andb_false_r.
  destruct (decode_quanta enc l); [|done]. cbn. unfold bytes4.
  do 2 f_equal; [apply byte_of_eq; zlia|]. f_equal; [apply byte_of_eq; zlia|].
  f_equal. apply byte_of_eq; zlia.
Qed.

Lemma decode_encode64_quanta src :
  decode_quanta enc (filter (fun c => is_newline c = false) (schars (encode64 enc src))) = Some src.
Proof.
  induction src as [src IH] using (induction_ltof1 _ length). unfold ltof in IH.
  destruct src as [|a [|b [|c rest]]]; cbn [encode64 schars String.list_ascii_of_string].
  - done.
  - pose proof (byteZ_range a).
    rewrite !filter_keep by (apply digit_not_newline; zlia).
    destruct (padded enc) eqn:Hp; cbn; rewrite Hp, !undigit_digit by zlia; cbn;
      unfold bytes2; do 2 f_equal; apply byte_of_eq; zlia.
  - pose proof (byteZ_range a). pose proof (byteZ_range b).
    rewrite !filter_keep by (apply digit_not_newline; zlia).
    destruct (padded enc) eqn:Hp; cbn; rewrite Hp, !undigit_digit by zlia; cbn;
      rewrite ?digit_not_pad by zlia; cbn; unfold bytes3;
      (f_equal; f_equal; [apply byte_of_eq; zlia|]; f_equal; apply byte_of_eq; zlia).
  - pose proof (byteZ_range a). pose proof (byteZ_range b). pose proof (byteZ_range c).
    rewrite !filter_keep by (apply digit_not_newline; zlia).
    rewrite decode_encode_quantum. fold (schars (encode64 enc rest)). rewrite IH by (simpl; lia). done.
Qed.

Lemma decode_encode64 src : decode64 enc (encode64 enc src) = Some src.
Proof. apply decode_encode64_quanta. Qed.

End roundtrip.

#[export] Hint Rewrite @decode_encode64 using apply _ : sake_str.
