(* ===== verification/Genmsg.v ===== *)
(** * Generation of message sequences (xirc/genmsg.go)

    Long parameter lists are split over several IRC messages.  Each generator
    is modelled with its buffers; the theorems say that the receiver recovers
    the parameters and that the messages respect the limits. *)

From stdpp Require Import base list gmap strings sorting.
From Stdlib Require Import ZArith Ascii.
From S2P Require Import Prelude GoStrings Xirc Base64.

Definition comma : ascii := ",".

(** Length of a message on the wire, without tags and prefix and without the
    line terminator: the command and a space before each parameter. *)
Definition words_length (m : message) : nat :=
  slen (Command m) + foldr (fun p n => 1 + slen p + n) 0 (Params m).

(** ** GenerateJoin *)

Definition keyed (e : string * string) : bool := negb (bool_decide (snd e = "")).

(** [joinSorter.Less]. *)
Definition join_less (a b : string * string) : bool :=
  if negb (Bool.eqb (keyed a) (keyed b)) then keyed a else string_lt (fst a) (fst b).

(** The order [sort.Sort] establishes: no element is less than an earlier one. *)
Definition join_le (a b : string * string) : Prop := join_less b a = false.

#[export] Instance join_le_dec : RelDecision join_le.
Proof. intros a b. unfold join_le. apply _. Defined.

Definition joinMaxLength : nat := maxMessageLength - (slen "JOIN" + 2).

Definition join_flush (channelsBuf keysBuf : string) : message :=
  mk_msg "JOIN" (channelsBuf :: if (0 <? slen keysBuf)%nat then [keysBuf] else []).

(** [if buf.Len() > 0 { buf.WriteByte(',') }; buf.WriteString(s)]. *)
Definition buf_add (buf s : string) : string :=
  if (0 <? slen buf)%nat then buf +:+ "," +:+ s else s.

(** The loop over the sorted channels and keys, with the two buffers. *)
Fixpoint join_loop (l : list (string * string)) (channelsBuf keysBuf : string) : list message :=
  match l with
  | [] => if (0 <? slen channelsBuf)%nat then [join_flush channelsBuf keysBuf] else []
  | (channel, key) :: l' =>
      let n := slen channelsBuf + slen keysBuf + 1 + slen channel
               + (if bool_decide (key = "") then 0 else 1 + slen key) in
      if (0 <? slen channelsBuf)%nat && (joinMaxLength <? n)%nat then
        join_flush channelsBuf keysBuf :: join_loop l' channel key
      else
        join_loop l' (buf_add channelsBuf channel)
          (if bool_decide (key = "") then keysBuf else buf_add keysBuf key)
  end.

(** [GenerateJoin]: [keys[i]] panics when there are fewer keys than channels. *)
Definition GenerateJoin (channels keys : list string) : res unit (list message) :=
  if (length keys <? length channels)%nat then Panic
  else Ok (join_loop (merge_sort join_le (zip channels keys)) "" "").

(** ** GenerateIsupport *)

Definition isupport_token (kv : string * option string) : string :=
  match snd kv with
  | Some v => fst kv +:+ "=" +:+ v
  | None => fst kv
  end.

Definition maxTokens : nat := maxMessageParams - 2.

Definition isupport_msg (msgTokens : list string) : message :=
  mk_msg RPL_ISUPPORT ("*" :: (EncodeIsupportValue <$> msgTokens) ++ ["are supported"]).

(** The loop [for len(tokens) > 0]; each turn removes at least a token, so
    [length tokens] turns are enough. *)
Fixpoint isupport_loop (fuel : nat) (tokens : list string) : list message :=
  match fuel, tokens with
  | S fuel', _ :: _ =>
      if (maxTokens <? length tokens)%nat
      then isupport_msg (take maxTokens tokens) :: isupport_loop fuel' (drop maxTokens tokens)
      else [isupport_msg tokens]
  | _, _ => []
  end.

Definition isupport_tokens (isupport : gmap string (option string)) : list string :=
  merge_sort String.le (isupport_token <$> map_to_list isupport).

Definition GenerateIsupport (isupport : gmap string (option string)) : list message :=
  let tokens := isupport_tokens isupport in isupport_loop (length tokens) tokens.

(** ** GenerateMOTD *)

Definition newline : ascii := "010".

Definition motd_line (l : string) : message := mk_msg RPL_MOTD ["*"; l].

Definition GenerateMOTD (motd : string) : list message :=
  [mk_msg RPL_MOTDSTART ["*"; "- Message of the Day -"]]
  ++ (motd_line <$> Split motd newline)
  ++ [mk_msg RPL_ENDOFMOTD ["*"; "End of /MOTD command."]].

(** ** GenerateMonitor *)

Definition monitor_msg (subcmd : string) (buf : list string) : message :=
  mk_msg "MONITOR" [subcmd; Join buf ","].

Definition monitorMaxLength (subcmd : string) : Z :=
  Z.of_nat maxMessageLength - Z.of_nat (slen ("MONITOR " +:+ subcmd +:+ " ")).

Fixpoint monitor_loop (subcmd : string) (targets : list string) (buf : list string) (n : nat)
    : list message :=
  match targets with
  | [] => if (0 <? length buf)%nat then [monitor_msg subcmd buf] else []
  | target :: targets' =>
      if (monitorMaxLength subcmd <? Z.of_nat (n + slen target + 1))%Z
      then monitor_msg subcmd buf :: monitor_loop subcmd targets' [target] (slen target + 1)
      else monitor_loop subcmd targets' (buf ++ [target]) (n + slen target + 1)
  end.

Definition GenerateMonitor (subcmd : string) (targets : list string) : list message :=
  monitor_loop subcmd targets [] 0.

(** ** GenerateNamesReply *)

Section Names.
(** [irc.Message.String], of package irc.v4. *)
Context (irc_String : message -> string).

Definition namreply (channel : string) (status : ascii) (names : string) : message :=
  mk_msg RPL_NAMREPLY ["*"; EncodeRune (byteZ status); channel; names].

Definition namesMaxLength (channel : string) (status : ascii) : Z :=
  Z.of_nat maxMessageLength - Z.of_nat (slen (irc_String (namreply channel status ""))).

(** [if buf.Len() != 0 { buf.WriteByte(' ') }; buf.WriteString(s)]. *)
Definition names_add (buf s : string) : string :=
  if (slen buf =? 0)%nat then s else buf +:+ " " +:+ s.

Fixpoint names_loop (channel : string) (status : ascii) (members : list string) (buf : string)
    : list message :=
  match members with
  | [] => if (slen buf =? 0)%nat then [] else [namreply channel status buf]
  | s :: members' =>
      if negb (slen buf =? 0)%nat
         && (namesMaxLength channel status <? Z.of_nat (slen buf + 1 + slen s))%Z
      then namreply channel status buf :: names_loop channel status members' s
      else names_loop channel status members' (names_add buf s)
  end.

Definition GenerateNamesReply (channel : string) (status : ascii) (members : list string)
    : list message :=
  names_loop channel status members ""
  ++ [mk_msg RPL_ENDOFNAMES ["*"; channel; "End of /NAMES list"]].

End Names.

(** ** GenerateSASL *)

Definition authenticate (chunk : string) : message := mk_msg "AUTHENTICATE" [chunk].

(** [for i := 0; i <= len(encoded); i += MaxSASLLength]. *)
Fixpoint sasl_loop (fuel : nat) (encoded : string) (i : nat) : list message :=
  match fuel with
  | O => []
  | S fuel' =>
      if (i <=? slen encoded)%nat then
        let j := if (slen encoded <? i + MaxSASLLength)%nat then slen encoded
                 else i + MaxSASLLength in
        let chunk := stake (j - i) (sdrop i encoded) in
        authenticate (if bool_decide (chunk = "") then "+" else chunk)
          :: sasl_loop fuel' encoded (i + MaxSASLLength)
      else []
  end.

(** [i] grows by 400 from 0, so [len(encoded) + 1] turns are enough. *)
Definition GenerateSASL (resp : list ascii) : list message :=
  let encoded := encode64 StdEncoding resp in sasl_loop (S (slen encoded)) encoded 0.

(** ** Lemmas on the buffers *)

Lemma Join_snoc l w sep : l <> [] -> Join (l ++ [w]) sep = Join l sep +:+ sep +:+ w.
Proof.
  induction l as [|x l IH]; [done|]. intros _. destruct l as [|y l]; [done|].
  change ((x :: y :: l) ++ [w]) with (x :: ((y :: l) ++ [w])).
  rewrite !Join_cons by (by destruct l). rewrite IH by done. by rewrite !sapp_assoc.
Qed.

Lemma slen_Join_pos l sep : l <> [] -> Forall (fun w => w <> "") l -> 0 < slen (Join l sep).
Proof.
  intros Hne Hl. destruct Hl as [|w l Hw Hl]; [done|].
  assert (0 < slen w) by (destruct w; [done|simpl; lia]).
  destruct l; [done|]. rewrite Join_cons by done. rewrite slen_app. lia.
Qed.

Lemma slen_Join_nil sep : slen (Join [] sep) = 0.
Proof. done. Qed.

(** A list of non-empty words is empty iff its join is. *)
Lemma Join_empty_iff l sep :
  Forall (fun w => w <> "") l -> (0 <? slen (Join l sep))%nat = bool_decide (l <> []).
Proof.
  intros Hl. case_bool_decide as H.
  - apply Nat.ltb_lt. by apply slen_Join_pos.
  - by rewrite H.
Qed.

Lemma buf_add_Join l w :
  Forall (fun w => w <> "") l -> buf_add (Join l ",") w = Join (l ++ [w]) ",".
Proof.
  intros Hl. unfold buf_add. rewrite Join_empty_iff by done.
  case_bool_decide as H; [by rewrite Join_snoc|]. by rewrite H.
Qed.

(** ** GenerateJoin: what the receiver reads *)

(** The pairs of channel and key of a JOIN message, as a server reads them:
    the [i]-th key belongs to the [i]-th channel. *)
Fixpoint zip_keys (channels keys : list string) : list (string * string) :=
  match channels, keys with
  | [], _ => []
  | c :: cs, k :: ks => (c, k) :: zip_keys cs ks
  | c :: cs, [] => (c, "") :: zip_keys cs []
  end.

Definition join_targets (m : message) : list (string * string) :=
  match Params m with
  | [chs] => zip_keys (Split chs comma) []
  | [chs; ks] => zip_keys (Split chs comma) (Split ks comma)
  | _ => []
  end.

(** A channel name is not empty and neither it nor its key has a comma. *)
Definition join_ok (e : string * string) : Prop :=
  fst e <> "" /\ comma ∉ schars (fst e) /\ comma ∉ schars (snd e).

Definition keys_of (l : list (string * string)) : list string :=
  filter (fun k => k <> "") l.*2.

Definition keyed_first (l : list (string * string)) : Prop :=
  StronglySorted (fun a b => keyed b = true -> keyed a = true) l.

Lemma keys_of_app l l' : keys_of (l ++ l') = keys_of l ++ keys_of l'.
Proof. unfold keys_of. by rewrite fmap_app, filter_app. Qed.

Lemma keys_of_one c k : keys_of [(c, k)] = if bool_decide (k = "") then [] else [k].
Proof.
  unfold keys_of; simpl. rewrite filter_cons. case_bool_decide as H.
  - by rewrite decide_False by (intros H'; by apply H').
  - by rewrite decide_True.
Qed.

Lemma keys_of_ok l : Forall join_ok l ->
  Forall (fun w => w <> "") (keys_of l) /\ Forall (fun w => comma ∉ schars w) (keys_of l).
Proof.
  intros Hl. unfold keys_of. induction Hl as [|e l (?&?&?) Hl [IH1 IH2]]; [done|].
  simpl. rewrite filter_cons. case_decide; [|done]. by split; constructor.
Qed.

Lemma channels_ok (l : list (string * string)) : Forall join_ok l ->
  Forall (fun w => w <> "") l.*1 /\ Forall (fun w => comma ∉ schars w) l.*1.
Proof. induction 1 as [|e l (?&?&?) Hl [IH1 IH2]]; simpl; [done|]. by split; constructor. Qed.

Lemma zip_keys_nil (l : list (string * string)) :
  Forall (fun e => keyed e = false) l -> zip_keys l.*1 [] = l.
Proof.
  induction 1 as [|[c k] l Hk _ IH]; simpl; [done|].
  unfold keyed in Hk. bool_to_prop. simpl in *; subst. f_equal; exact IH.
Qed.

Lemma keys_of_unkeyed l : Forall (fun e => keyed e = false) l -> keys_of l = [].
Proof.
  unfold keys_of. induction 1 as [|[c k] l Hk _ IH]; simpl; [done|].
  rewrite filter_cons. unfold keyed in Hk. bool_to_prop. simpl in *; subst.
  by rewrite decide_False by (intros H'; by apply H').
Qed.

Lemma zip_keys_of l : keyed_first l -> zip_keys l.*1 (keys_of l) = l.
Proof.
  unfold keyed_first. induction 1 as [|[c k] l Hl IH Hc]; [done|].
  destruct (keyed (c, k)) eqn:E.
  - unfold keys_of; simpl. rewrite filter_cons, decide_True.
    + simpl. f_equal. apply IH.
    + unfold keyed in E. by bool_to_prop.
  - assert (Hu : Forall (fun e => keyed e = false) ((c, k) :: l)).
    { constructor; [done|]. eapply Forall_impl; [done|]. intros e He. cbv beta in He.
      destruct (keyed e); [|done]. by specialize (He eq_refl); congruence. }
    rewrite keys_of_unkeyed by done. by apply zip_keys_nil.
Qed.

Definition flush_of (cur : list (string * string)) : message :=
  join_flush (Join cur.*1 ",") (Join (keys_of cur) ",").

Lemma join_targets_flush cur :
  cur <> [] -> Forall join_ok cur -> keyed_first cur -> join_targets (flush_of cur) = cur.
Proof.
  intros Hne Hok Hkf. destruct (channels_ok cur Hok) as [_ Hc].
  destruct (keys_of_ok cur Hok) as [Hk1 Hk2].
  unfold join_targets, flush_of, join_flush; simpl. rewrite Join_empty_iff by done.
  assert (Hs : Split (Join cur.*1 ",") comma = cur.*1)
    by (apply Split_Join; [by destruct cur|done]).
  case_bool_decide as H.
  - rewrite Hs. unfold comma. rewrite Split_Join by done. by apply zip_keys_of.
  - rewrite Hs. rewrite <- (zip_keys_of cur Hkf) at 2.
    by rewrite H.
Qed.

(** ** The loop of GenerateJoin *)

Lemma join_loop_cons cur e l :
  Forall join_ok (cur ++ e :: l) ->
  join_loop (e :: l) (Join cur.*1 ",") (Join (keys_of cur) ",") =
    if bool_decide (cur <> [])
       && (joinMaxLength <? slen (Join cur.*1 ",") + slen (Join (keys_of cur) ",") + 1
             + slen (fst e) + (if bool_decide (snd e = "") then 0 else 1 + slen (snd e)))%nat
    then flush_of cur :: join_loop l (Join [e].*1 ",") (Join (keys_of [e]) ",")
    else join_loop l (Join (cur ++ [e]).*1 ",") (Join (keys_of (cur ++ [e])) ",").
Proof.
  intros Hok. destruct e as [c k]. apply Forall_app in Hok as [Hcur Hel].
  destruct (channels_ok cur Hcur) as [Hc _]. destruct (keys_of_ok cur Hcur) as [Hk _].
  cbn [join_loop fst snd]. rewrite Join_empty_iff by done.
  replace (bool_decide (cur.*1 <> [])) with (bool_decide (cur <> []))
    by (apply bool_decide_ext; by destruct cur).
  case_match; [|].
  - f_equal. rewrite keys_of_one. clear H. by case_bool_decide as Hk'; [rewrite Hk'|].
  - rewrite buf_add_Join by done. rewrite fmap_app. f_equal.
    rewrite keys_of_app, keys_of_one. clear H.
    case_bool_decide; [by rewrite app_nil_r|by rewrite buf_add_Join].
Qed.

Lemma join_loop_nil cur :
  Forall join_ok cur ->
  join_loop [] (Join cur.*1 ",") (Join (keys_of cur) ",") = if bool_decide (cur <> []) then [flush_of cur] else [].
Proof.
  intros Hok. simpl. rewrite Join_empty_iff by apply channels_ok, Hok.
  replace (bool_decide (cur.*1 <> [])) with (bool_decide (cur <> []))
    by (apply bool_decide_ext; by destruct cur).
  done.
Qed.

Lemma join_loop_targets l cur :
  Forall join_ok (cur ++ l) -> keyed_first (cur ++ l) ->
  concat (join_targets <$> join_loop l (Join cur.*1 ",") (Join (keys_of cur) ",")) = cur ++ l.
Proof.
  unfold keyed_first. revert cur; induction l as [|e l IH]; intros cur Hok Hkf.
  - rewrite app_nil_r in *. rewrite join_loop_nil by done. case_bool_decide as H; simpl.
    + rewrite join_targets_flush by done. by rewrite app_nil_r.
    + by rewrite H.
  - rewrite join_loop_cons by done. case_match eqn:E.
    + bool_to_prop. rewrite fmap_cons. cbn [concat].
      apply Forall_app in Hok as Hok'. destruct Hok' as [Hc He].
      rewrite join_targets_flush, (IH [e]); [done|done| |done|done|].
      * by eapply StronglySorted_app_1_r.
      * by eapply StronglySorted_app_1_l.
    + rewrite IH; rewrite <- ?app_assoc; done.
Qed.

(** Every message fits, or carries a single channel. *)
Definition join_fits (l : list (string * string)) (m : message) : Prop :=
  words_length m <= maxMessageLength \/ exists e, e ∈ l /\ join_targets m = [e].

Lemma words_length_flush cur :
  words_length (flush_of cur) <= slen "JOIN" + 2 + (slen (Join cur.*1 ",") + slen (Join (keys_of cur) ",")).
Proof.
  unfold words_length, flush_of, join_flush; simpl. case_match; simpl; lia.
Qed.

(** The buffers of a group of several channels fit. *)
Definition group_fits (cur : list (string * string)) : Prop :=
  length cur <= 1 \/ slen (Join cur.*1 ",") + slen (Join (keys_of cur) ",") <= joinMaxLength.

Lemma group_fits_flush cur l :
  cur <> [] -> Forall join_ok cur -> keyed_first cur -> cur ⊆ l -> group_fits cur ->
  join_fits l (flush_of cur).
Proof.
  intros Hne Hok Hkf Hsub [Hlen|Hfit].
  - right. destruct cur as [|e [|]]; [done| |simpl in Hlen; lia].
    exists e. split; [apply Hsub; by left|]. by apply join_targets_flush.
  - left. pose proof (words_length_flush cur). unfold joinMaxLength in Hfit.
    unfold maxMessageLength in *. simpl in *. lia.
Qed.

Lemma Join_snoc_length l w : Forall (fun w => w <> "") l ->
  slen (Join (l ++ [w]) ",") = slen (Join l ",") + (if decide (l = []) then 0 else 1) + slen w.
Proof.
  intros Hl. case_decide; subst; simpl; [lia|]. rewrite Join_snoc by done.
  rewrite !slen_app; simpl. lia.
Qed.

Lemma group_fits_snoc cur e :
  Forall join_ok cur -> cur <> [] ->
  slen (Join cur.*1 ",") + slen (Join (keys_of cur) ",") + 1 + slen (fst e)
    + (if bool_decide (snd e = "") then 0 else 1 + slen (snd e)) <= joinMaxLength ->
  group_fits (cur ++ [e]).
Proof.
  intros Hok Hne Hn. right. destruct e as [c k]. rewrite keys_of_app, fmap_app. simpl in *.
  destruct (channels_ok cur Hok) as [Hc _]. destruct (keys_of_ok cur Hok) as [Hk _].
  rewrite Join_snoc_length by done. rewrite decide_False by (by destruct cur).
  rewrite keys_of_one. case_bool_decide as Hkey.
  - rewrite app_nil_r. lia.
  - rewrite Join_snoc_length by done. case_decide; lia.
Qed.

Lemma join_loop_fits l cur L :
  Forall join_ok (cur ++ l) -> keyed_first (cur ++ l) -> cur ++ l ⊆ L -> group_fits cur ->
  Forall (join_fits L) (join_loop l (Join cur.*1 ",") (Join (keys_of cur) ",")).
Proof.
  unfold keyed_first. revert cur; induction l as [|e l IH]; intros cur Hok Hkf Hsub Hfit.
  - rewrite app_nil_r in *. rewrite join_loop_nil by done.
    case_bool_decide; constructor; [|done]. by apply group_fits_flush.
  - rewrite join_loop_cons by done. case_match eqn:E.
    + bool_to_prop. apply Forall_app in Hok as Hok'. destruct Hok' as [Hc He].
      constructor; [apply group_fits_flush; try done; [by eapply StronglySorted_app_1_l|set_solver]|].
      apply IH; [done|by eapply StronglySorted_app_1_r|set_solver|left; done].
    + apply IH; rewrite <- ?app_assoc; try done.
      destruct (decide (cur = [])) as [->|Hne]; [left; done|].
      rewrite bool_decide_true in E by done. simpl in E. apply Nat.ltb_ge in E.
      apply Forall_app in Hok as [Hc _]. by apply group_fits_snoc.
Qed.

Lemma Sorted_keyed_first l : Sorted join_le l -> keyed_first l.
Proof.
  intros Hs. apply Sorted_StronglySorted; [intros a b c H1 H2 H3; auto|].
  induction Hs as [|e l Hs IH Hhd]; [done|]. constructor; [done|].
  destruct Hhd as [|e' l H]; constructor. intros He'.
  unfold join_le, join_less in H. destruct (keyed e) eqn:E; [done|].
  by rewrite He' in H.
Qed.

Lemma string_lt_asym a b : string_lt a b = true -> string_lt b a = false.
Proof.
  unfold string_lt, String.ltb. rewrite (String.compare_antisym a b).
  by destruct (String.compare b a).
Qed.

#[export] Instance join_le_total : Total join_le.
Proof.
  intros a b. unfold join_le, join_less.
  destruct (keyed a), (keyed b); simpl; auto;
    destruct (string_lt a.1 b.1) eqn:E; auto using string_lt_asym.
Qed.

(** ** GenerateIsupport *)

Lemma isupport_loop_spec fuel tokens :
  length tokens <= fuel ->
  exists groups, isupport_loop fuel tokens = isupport_msg <$> groups /\
    concat groups = tokens /\ Forall (fun g => g <> [] /\ length g <= maxTokens) groups.
Proof.
  revert tokens; induction fuel as [|fuel IH]; intros [|t ts] Hlen; simpl in Hlen;
    try (exists []; done); [lia|].
  cbn [isupport_loop]. destruct (Nat.ltb_spec maxTokens (length (t :: ts))) as [Hlt|Hge].
  - destruct (IH (drop maxTokens (t :: ts))) as (gs & Heq & Hcat & Hgs).
    { rewrite length_drop. unfold maxTokens in *. simpl in *. lia. }
    exists (take maxTokens (t :: ts) :: gs). rewrite Heq. split_and!; [done| |].
    + cbn [concat]. rewrite Hcat. apply take_drop.
    + constructor; [|done]. split; [done|]. rewrite length_take. lia.
  - exists [t :: ts]. split_and!; [done|simpl; by rewrite app_nil_r|].
    constructor; [|done]. by split.
Qed.

(** The tokens a receiver decodes from an ISUPPORT message: the parameters
    between the nick and the trailing text. *)
Definition isupport_received (m : message) : list string :=
  DecodeIsupportValue <$> take (length (Params m) - 2) (drop 1 (Params m)).

Lemma isupport_received_msg g : isupport_received (isupport_msg g) = g.
Proof.
  unfold isupport_received, isupport_msg. cbn [Params mk_msg drop].
  replace (length ("*" :: (EncodeIsupportValue <$> g) ++ ["are supported"]) - 2)
    with (length (EncodeIsupportValue <$> g)) by (cbn [length]; rewrite length_app; cbn [length]; lia).
  rewrite drop_0, take_app_length, <- list_fmap_compose.
  rewrite <- (list_fmap_id g) at 2. apply list_fmap_ext. intros i x _; simpl.
  apply isupport_roundtrip.
Qed.

(** ** GenerateMonitor *)

Definition monitor_targets (m : message) : list string :=
  match Params m with [_; ts] => Split ts comma | _ => [] end.

Definition monitor_ok (subcmd t : string) : Prop :=
  comma ∉ schars t /\ (Z.of_nat (slen t + 1) <= monitorMaxLength subcmd)%Z.

(** The length the loop accounts for: each target with a separator. *)
Definition monitor_size (buf : list string) : nat := foldr (fun t n => slen t + 1 + n) 0 buf.

Lemma monitor_size_app a b : monitor_size (a ++ b) = monitor_size a + monitor_size b.
Proof. unfold monitor_size. induction a; simpl; lia. Qed.

Lemma monitor_size_Join buf : buf <> [] -> monitor_size buf = slen (Join buf ",") + 1.
Proof.
  induction buf as [|t buf IH]; [done|]. intros _. destruct buf as [|t' buf]; [simpl; lia|].
  rewrite Join_cons by done. rewrite !slen_app. simpl in *. specialize (IH ltac:(done)). lia.
Qed.

Lemma monitor_msg_fits subcmd buf :
  buf <> [] -> (Z.of_nat (monitor_size buf) <= monitorMaxLength subcmd)%Z ->
  words_length (monitor_msg subcmd buf) < maxMessageLength.
Proof.
  intros Hne. rewrite monitor_size_Join by done. unfold monitorMaxLength, words_length, maxMessageLength.
  rewrite !slen_app. cbn [monitor_msg mk_msg Command Params foldr].
  replace (slen "MONITOR ") with 8 by done. replace (slen "MONITOR") with 7 by done.
  replace (slen " ") with 1 by done. lia.
Qed.

Lemma monitor_loop_spec subcmd targets buf :
  Forall (monitor_ok subcmd) (buf ++ targets) ->
  (Z.of_nat (monitor_size buf) <= monitorMaxLength subcmd)%Z ->
  concat (monitor_targets <$> monitor_loop subcmd targets buf (monitor_size buf)) = buf ++ targets /\
  Forall (fun m => words_length m < maxMessageLength) (monitor_loop subcmd targets buf (monitor_size buf)).
Proof.
  assert (Hmsg : forall b, b <> [] -> Forall (monitor_ok subcmd) b -> monitor_targets (monitor_msg subcmd b) = b).
  { intros b Hb Hok. unfold monitor_targets; simpl. apply Split_Join; [done|].
    eapply Forall_impl; [done|]. by intros t [? _]. }
  revert buf; induction targets as [|t ts IH]; intros buf Hok Hsz; simpl.
  - rewrite app_nil_r in *. destruct buf as [|b buf]; [done|].
    assert (H0 : (0 <? length (b :: buf))%nat = true) by done. rewrite H0.
    rewrite fmap_cons; cbn [concat]. rewrite app_nil_r. split; [by apply Hmsg|].
    constructor; [|done]. by apply monitor_msg_fits.
  - apply Forall_app in Hok as Hok'. destruct Hok' as [Hb Hts]. apply Forall_cons in Hts as [[Htc Ht] Hts].
    destruct (Z.ltb_spec (monitorMaxLength subcmd) (Z.of_nat (monitor_size buf + slen t + 1))) as [Hlt|Hge].
    + destruct (IH [t]) as [H1 H2]; [by constructor|simpl; lia|]. simpl in H1, H2.
      rewrite Nat.add_0_r in *. destruct (decide (buf = [])) as [->|Hne]; [simpl in *; lia|].
      rewrite fmap_cons. cbn [concat]. rewrite H1, Hmsg by done. split; [done|].
      constructor; [|done]. by apply monitor_msg_fits.
    + replace (monitor_size buf + slen t + 1) with (monitor_size (buf ++ [t]))
        by (rewrite monitor_size_app; simpl; lia).
      destruct (IH (buf ++ [t])) as [H1 H2].
      * by rewrite <- app_assoc.
      * rewrite monitor_size_app; simpl. lia.
      * rewrite <- app_assoc in H1. by split.
Qed.

(** ** GenerateSASL *)

Definition sconcat (l : list string) : string := foldr String.append "" l.

Lemma sconcat_cons s l : sconcat (s :: l) = s +:+ sconcat l.
Proof. done. Qed.

Definition plus_if_empty (chunk : string) : string := if bool_decide (chunk = "") then "+" else chunk.

Lemma sdrop_sdrop n m s : sdrop n (sdrop m s) = sdrop (m + n) s.
Proof. revert s; induction m as [|m IH]; intros [|c s]; simpl; try done. by destruct n. Qed.

Lemma sasl_loop_spec fuel encoded i :
  i <= slen encoded -> slen encoded - i < fuel ->
  exists full last,
    sasl_loop fuel encoded i = (authenticate <$> full) ++ [authenticate (plus_if_empty last)] /\
    Forall (fun c => slen c = MaxSASLLength) full /\ slen last < MaxSASLLength /\
    sdrop i encoded = sconcat full +:+ last.
Proof.
  revert i; induction fuel as [|fuel IH]; intros i Hi Hf; [lia|].
  cbn [sasl_loop]. rewrite (proj2 (Nat.leb_le _ _)) by done. cbv zeta.
  destruct (Nat.ltb_spec (slen encoded) (i + MaxSASLLength)) as [Hlt|Hge].
  - exists [], (sdrop i encoded). rewrite slen_sdrop. split_and!; [|done|lia|done].
    assert (Hall : stake (slen encoded - i) (sdrop i encoded) = sdrop i encoded).
    { rewrite <- (slen_sdrop i encoded). rewrite <- (sapp_nil_r (sdrop i encoded)) at 2.
      apply stake_app. }
    rewrite Hall. simpl. destruct fuel; simpl; [done|].
    by rewrite (proj2 (Nat.leb_gt _ _)) by lia.
  - destruct (IH (i + MaxSASLLength)) as (full & last & Heq & Hfull & Hlast & Hdrop);
      [lia|unfold MaxSASLLength in *; lia|].
    replace (i + MaxSASLLength - i) with MaxSASLLength by lia.
    exists (stake MaxSASLLength (sdrop i encoded) :: full), last.
    assert (Hlen : slen (stake MaxSASLLength (sdrop i encoded)) = MaxSASLLength)
      by (rewrite slen_stake, slen_sdrop; lia).
    split_and!; [|by constructor|done|].
    + rewrite Heq. rewrite bool_decide_false; [done|]. intros H. rewrite H in Hlen.
      unfold MaxSASLLength in Hlen. done.
    + rewrite sconcat_cons.
      rewrite <- sapp_assoc, <- Hdrop, <- sdrop_sdrop. by rewrite stake_sdrop.
Qed.

Lemma GenerateSASL_spec resp :
  exists full last,
    GenerateSASL resp = (authenticate <$> full) ++ [authenticate (plus_if_empty last)] /\
    Forall (fun c => slen c = MaxSASLLength) full /\ slen last < MaxSASLLength /\
    sconcat full +:+ last = encode64 StdEncoding resp.
Proof.
  destruct (sasl_loop_spec (S (slen (encode64 StdEncoding resp))) (encode64 StdEncoding resp) 0)
    as (full & last & H1 & H2 & H3 & H4); [lia|lia|].
  exists full, last. split_and!; try done.
Qed.

(** ** GenerateNamesReply *)

Definition space : ascii := " ".

Definition names_received (m : message) : list string :=
  match Params m with [_; _; _; names] => Split names space | _ => [] end.

Definition name_ok (s : string) : Prop := s <> "" /\ space ∉ schars s.

Section NamesProofs.
Context (irc_String : message -> string) (channel : string) (status : ascii).

(** A reply fits in the room left by its empty form, or has one member. *)
Definition names_fits (m : message) : Prop :=
  match Params m with
  | [_; _; _; names] =>
      (Z.of_nat (slen names) <= namesMaxLength irc_String channel status)%Z
      \/ length (Split names space) = 1
  | _ => False
  end.

Lemma names_ok_nonempty l : Forall name_ok l -> Forall (fun w => w <> "") l.
Proof. intros H. eapply Forall_impl; [done|]. by intros s [? _]. Qed.

Lemma names_ok_split l : l <> [] -> Forall name_ok l -> Split (Join l " ") space = l.
Proof.
  intros Hne H. apply Split_Join; [done|]. eapply Forall_impl; [done|]. by intros s [_ ?].
Qed.

Lemma slen_Join_eqb l sep :
  Forall (fun w => w <> "") l -> (slen (Join l sep) =? 0)%nat = bool_decide (l = []).
Proof.
  intros Hl. pose proof (Join_empty_iff l sep Hl) as H.
  destruct (Nat.ltb_spec 0 (slen (Join l sep))) as [Hlt|Hge].
  - symmetry in H. bool_to_prop. rewrite bool_decide_false by done. apply Nat.eqb_neq. lia.
  - symmetry in H. bool_to_prop. destruct l; [done|]. by destruct H.
Qed.

Lemma names_loop_spec members cur :
  Forall name_ok (cur ++ members) ->
  (length cur <= 1 \/ (Z.of_nat (slen (Join cur " ")) <= namesMaxLength irc_String channel status)%Z) ->
  concat (names_received <$> names_loop irc_String channel status members (Join cur " ")) = cur ++ members /\
  Forall names_fits (names_loop irc_String channel status members (Join cur " ")).
Proof.
  assert (Hflush : forall l, l <> [] -> Forall name_ok l ->
    (length l <= 1 \/ (Z.of_nat (slen (Join l " ")) <= namesMaxLength irc_String channel status)%Z) ->
    names_received (namreply channel status (Join l " ")) = l
    /\ names_fits (namreply channel status (Join l " "))).
  { intros l Hne Hl Hfit. unfold names_received, names_fits; cbn [namreply mk_msg Params].
    rewrite !names_ok_split by done. split; [done|].
    destruct Hfit as [Hfit|Hfit]; [right|by left]. destruct l as [|? [|]]; simpl in *; try done; lia. }
  revert cur; induction members as [|s ms IH]; intros cur Hok Hfit; cbn [names_loop].
  - rewrite app_nil_r in *. rewrite slen_Join_eqb by by apply names_ok_nonempty.
    case_bool_decide as Hc; [by rewrite Hc|].
    destruct (Hflush cur Hc Hok Hfit) as [H1 H2]. rewrite fmap_cons; cbn [concat].
    rewrite H1, app_nil_r. split; [done|]. by constructor.
  - apply Forall_app in Hok as Hok'. destruct Hok' as [Hcur Hms].
    rewrite slen_Join_eqb by by apply names_ok_nonempty. case_match eqn:E.
    + bool_to_prop. destruct (Hflush cur) as [H1 H2]; [done|done|done|].
      destruct (IH [s]) as [H3 H4]; [done|by left|]. rewrite fmap_cons; cbn [concat].
      rewrite H1. simpl in H3, H4. rewrite H3. split; [done|]. by constructor.
    + assert (Hadd : names_add (Join cur " ") s = Join (cur ++ [s]) " ").
      { unfold names_add. rewrite slen_Join_eqb by by apply names_ok_nonempty.
        case_bool_decide as Hc; [by rewrite Hc|by rewrite Join_snoc]. }
      rewrite Hadd. destruct (IH (cur ++ [s])) as [H1 H2].
      * by rewrite <- app_assoc.
      * destruct (decide (cur = [])) as [->|Hne]; [by left|]. right.
        rewrite Join_snoc by done. rewrite !slen_app.
        rewrite bool_decide_false in E by done. cbn [negb andb] in E.
        apply Z.ltb_ge in E. replace (slen " ") with 1 by done. lia.
      * rewrite <- app_assoc in H1. by split.
Qed.

End NamesProofs.

(** ** Properties *)

(** C24: JOIN generation is lossless and bounded. *)
Theorem GenerateJoin_correct channels keys :
  length channels <= length keys -> Forall join_ok (zip channels keys) ->
  exists msgs, GenerateJoin channels keys = Ok msgs /\
    concat (join_targets <$> msgs) ≡ₚ zip channels keys /\
    keyed_first (concat (join_targets <$> msgs)) /\
    Forall (join_fits (zip channels keys)) msgs.
Proof.
  intros Hlen Hok. unfold GenerateJoin.
  rewrite (proj2 (Nat.ltb_ge _ _)) by done. eexists; split; [done|].
  pose proof (merge_sort_Permutation join_le (zip channels keys)) as Hp.
  pose proof (Sorted_keyed_first _ (Sorted_merge_sort join_le (zip channels keys))) as Hs.
  set (order := merge_sort join_le (zip channels keys)) in *.
  assert (Hok' : Forall join_ok ([] ++ order)) by (simpl; by rewrite Hp).
  pose proof (join_loop_targets order [] Hok' Hs) as Ht. cbn [app] in Ht. split_and!.
  - change (concat (join_targets <$> join_loop order "" "") ≡ₚ zip channels keys).
    simpl in Ht. by rewrite Ht.
  - simpl in Ht. by rewrite Ht.
  - apply (join_loop_fits order []); [done|done| |left; simpl; lia].
    intros e He. simpl in He. by rewrite <- Hp.
Qed.

Lemma GenerateJoin_correct_witness :
  exists msgs, GenerateJoin ["#a"; "#b"; "#c"] [""; "k"; ""] = Ok msgs /\
    concat (join_targets <$> msgs) ≡ₚ [("#a", ""); ("#b", "k"); ("#c", "")].
Proof.
  destruct (GenerateJoin_correct ["#a"; "#b"; "#c"] [""; "k"; ""]) as (msgs & H1 & H2 & _).
  - by_eval.
  - repeat (apply Forall_cons; split; [split_and!; by_eval|]). by apply Forall_nil.
  - exists msgs. by split.
Defined.

(** C31: the receiver of the ISUPPORT messages recovers the sorted tokens. *)
Theorem GenerateIsupport_correct isupport :
  concat (isupport_received <$> GenerateIsupport isupport) = isupport_tokens isupport /\
  isupport_tokens isupport ≡ₚ (isupport_token <$> map_to_list isupport) /\
  Sorted String.le (isupport_tokens isupport) /\
  Forall (fun m => length (Params m) <= maxMessageParams) (GenerateIsupport isupport).
Proof.
  unfold GenerateIsupport. destruct (isupport_loop_spec (length (isupport_tokens isupport))
    (isupport_tokens isupport)) as (gs & Heq & Hcat & Hgs); [done|].
  rewrite Heq. split_and!.
  - rewrite <- list_fmap_compose. rewrite <- Hcat. f_equal.
    rewrite <- (list_fmap_id gs) at 2. apply list_fmap_ext. intros i x _.
    apply isupport_received_msg.
  - apply merge_sort_Permutation.
  - apply Sorted_merge_sort. apply _.
  - apply Forall_fmap. eapply Forall_impl; [done|]. intros g [_ Hg].
    simpl. rewrite length_app, length_fmap; simpl. unfold maxTokens, maxMessageParams in *. lia.
Qed.

(** MOTD. *)
Theorem GenerateMOTD_lines motd :
  exists lines, GenerateMOTD motd
      = mk_msg RPL_MOTDSTART ["*"; "- Message of the Day -"]
        :: (motd_line <$> lines) ++ [mk_msg RPL_ENDOFMOTD ["*"; "End of /MOTD command."]]
    /\ Join lines (String newline "") = motd
    /\ Forall (fun l => newline ∉ schars l) lines.
Proof.
  exists (Split motd newline). split_and!; [done|apply Join_Split|].
  induction motd as [|c s IH]; simpl; [by repeat constructor; apply not_elem_of_nil|].
  unfold byte_eqb. case_bool_decide; [constructor; [apply not_elem_of_nil|done]|].
  destruct (Split s newline) as [|w ws]; [|].
  - repeat constructor. simpl. by rewrite list_elem_of_singleton.
  - apply Forall_cons in IH as [? ?]. constructor; [|done]. simpl. rewrite not_elem_of_cons. done.
Qed.

(** MONITOR generation, when every target fits in a message. *)
Theorem GenerateMonitor_correct subcmd targets :
  (0 <= monitorMaxLength subcmd)%Z -> Forall (monitor_ok subcmd) targets ->
  concat (monitor_targets <$> GenerateMonitor subcmd targets) = targets /\
  Forall (fun m => words_length m < maxMessageLength) (GenerateMonitor subcmd targets).
Proof. intros Hm Hok. apply (monitor_loop_spec subcmd targets []); [done|exact Hm]. Qed.

Lemma GenerateMonitor_correct_witness :
  concat (monitor_targets <$> GenerateMonitor "+" ["alice"; "bob"]) = ["alice"; "bob"].
Proof.
  apply (GenerateMonitor_correct "+" ["alice"; "bob"]); [by_eval|].
  repeat (apply Forall_cons; split; [split; by_eval|]). by apply Forall_nil.
Defined.

(** A first target that does not fit makes an empty MONITOR. *)
Theorem GenerateMonitor_oversized subcmd target targets :
  (monitorMaxLength subcmd < Z.of_nat (slen target + 1))%Z ->
  exists msgs, GenerateMonitor subcmd (target :: targets) = mk_msg "MONITOR" [subcmd; ""] :: msgs.
Proof.
  intros H. unfold GenerateMonitor; cbn [monitor_loop].
  rewrite (proj2 (Z.ltb_lt _ _)) by (simpl; lia). eauto.
Qed.

Definition long_name : string := of_chars (replicate 510 "a"%char).

Lemma GenerateMonitor_oversized_witness :
  exists msgs, GenerateMonitor "+" [long_name] = mk_msg "MONITOR" ["+"; ""] :: msgs.
Proof. apply (GenerateMonitor_oversized "+" long_name []). by_eval. Defined.

(** NAMES. *)
Theorem GenerateNamesReply_correct irc_String channel status members :
  Forall name_ok members ->
  exists replies, GenerateNamesReply irc_String channel status members
      = replies ++ [mk_msg RPL_ENDOFNAMES ["*"; channel; "End of /NAMES list"]]
    /\ concat (names_received <$> replies) = members
    /\ Forall (names_fits irc_String channel status) replies.
Proof.
  intros Hok. eexists; split; [done|].
  apply (names_loop_spec irc_String channel status members []); [done|left; simpl; lia].
Qed.

Lemma GenerateNamesReply_correct_witness :
  exists replies, GenerateNamesReply (fun m => Join (Command m :: Params m) " ") "#go" "=" ["@alice"; "bob"]
      = replies ++ [mk_msg RPL_ENDOFNAMES ["*"; "#go"; "End of /NAMES list"]]
    /\ concat (names_received <$> replies) = ["@alice"; "bob"].
Proof.
  destruct (GenerateNamesReply_correct (fun m => Join (Command m :: Params m) " ") "#go" "=" ["@alice"; "bob"])
    as (replies & H1 & H2 & _).
  - repeat (apply Forall_cons; split; [split; by_eval|]). by apply Forall_nil.
  - exists replies. by split.
Defined.
