(* ===== verification/Sasl.v ===== *)
(** * Server side of SASL (downstream.go, handleAuthenticate and endSASL)

    A client authenticates with a sequence of AUTHENTICATE messages whose
    base64 payload is reassembled and handed to a SASL server.  The servers
    are those of package go-sasl: a parameter of the section. *)

From stdpp Require Import base list gmap strings.
From Stdlib Require Import ZArith Ascii.
From S2P Require Import Prelude GoStrings Xirc Base64 Genmsg.

Definition ERR_SASLFAIL : string := "904".
Definition ERR_SASLABORTED : string := "906".
Definition RPL_SASLSUCCESS : string := "903".

Section Sasl.
Context {U : Unicode}.
(** A go-sasl server: the constructor for a mechanism name and [Next], which
    takes the client's response ([None] is the nil slice of a first call) and
    returns the new server, the credentials its authenticator callback
    recorded in [dc.sasl], if it ran, and either an error or the challenge
    with the [done] flag. *)
Context {Server Cred : Type}.
Context (new_server : string -> Server).
Context (Next : Server -> option (list ascii) ->
                Server * option Cred * res unit (list ascii * bool)).

(** [downstreamSASL]. *)
Record downstreamSASL := DSasl {
  server : Server;
  mechanism : string;
  cred : option Cred;
  pendingResp : string
}.

(** The fields of [downstreamConn] that SASL uses. *)
Record sasl_conn := SaslConn {
  sc_caps : CapRegistry;
  sc_nick : string;
  sc_sasl : option downstreamSASL
}.

Inductive auth_result :=
| AuthFail (m : message)        (* an ircError *)
| AuthServerError               (* an error of the SASL server *)
| AuthDone (s : downstreamSASL) (* result != nil *)
| AuthMore.                     (* nil, nil *)

Definition maxPendingResp : nat := 10 * 1024.

Definition set_sasl (dc : sasl_conn) (s : option downstreamSASL) : sasl_conn :=
  SaslConn (sc_caps dc) (sc_nick dc) s.

(** The deferred reset of [dc.sasl] on error. *)
Definition auth_fail (dc : sasl_conn) (cmd text : string) : sasl_conn * list message * auth_result :=
  (set_sasl dc None, [], AuthFail (mk_msg cmd [sc_nick dc; text])).

(** The call of [server.Next] and what follows it. *)
Definition auth_next (dc : sasl_conn) (s : downstreamSASL) (resp : option (list ascii))
    : sasl_conn * list message * auth_result :=
  let '(srv, c, r) := Next (server s) resp in
  let s' := DSasl srv (mechanism s) (match c with Some c => Some c | None => cred s end)
              (pendingResp s) in
  match r with
  | Err _ | Panic => (set_sasl dc None, [], AuthServerError)
  | Ok (challenge, done) =>
      if done : bool then (set_sasl dc (Some s'), [], AuthDone s')
      else
        let challengeStr := if (0 <? length challenge)%nat then encode64 StdEncoding challenge else "+" in
        (set_sasl dc (Some s'), [mk_msg "AUTHENTICATE" [challengeStr]], AuthMore)
  end.

Definition known_mechanism (mech : string) : bool :=
  bool_decide (mech ∈ ["PLAIN"; "OAUTHBEARER"; "ANONYMOUS"; "EXTERNAL"]).

Definition handleAuthenticate (dc : sasl_conn) (msg : message)
    : sasl_conn * list message * auth_result :=
  if negb (IsEnabled (sc_caps dc) "sasl") then
    auth_fail dc ERR_SASLFAIL ("AUTHENTICATE requires the " +:+ quote "sasl" +:+ " capability to be enabled")
  else match Params msg with
  | [] => auth_fail dc ERR_SASLFAIL "Missing AUTHENTICATE argument"
  | p0 :: _ =>
      if bool_decide (p0 = "*") then auth_fail dc ERR_SASLABORTED "SASL authentication aborted"
      else match sc_sasl dc with
      | None =>
          let mech := ToUpper p0 in
          if known_mechanism mech
          then auth_next dc (DSasl (new_server mech) mech None "") None
          else auth_fail dc ERR_SASLFAIL "Unsupported SASL mechanism"
      | Some s =>
          let chunk := if bool_decide (p0 = "+") then "" else p0 in
          if (maxPendingResp <? slen (pendingResp s) + slen chunk)%nat
          then auth_fail dc ERR_SASLFAIL "Response too long"
          else
            let s1 := DSasl (server s) (mechanism s) (cred s) (pendingResp s +:+ chunk) in
            if (slen chunk =? MaxSASLLength)%nat
            then (set_sasl dc (Some s1), [], AuthMore)
            else match decode64 StdEncoding (pendingResp s1) with
                 | None => auth_fail dc ERR_SASLFAIL "Invalid base64-encoded response"
                 | Some resp =>
                     auth_next dc (DSasl (server s) (mechanism s) (cred s) "") (Some resp)
                 end
      end
  end.

Definition endSASL (dc : sasl_conn) (msg : option message) : sasl_conn * list message :=
  match sc_sasl dc with
  | None => (dc, [])
  | Some _ =>
      (set_sasl dc None,
       [match msg with
        | Some m => m
        | None => mk_msg RPL_SASLSUCCESS [sc_nick dc; "SASL authentication successful"]
        end])
  end.

(** The client's messages in order, until one ends the exchange. *)
Fixpoint run_auth (dc : sasl_conn) (msgs : list message) : sasl_conn * list message * auth_result :=
  match msgs with
  | [] => (dc, [], AuthMore)
  | m :: msgs' =>
      match handleAuthenticate dc m with
      | (dc', out, AuthMore) =>
          let '(dc2, out2, r) := run_auth dc' msgs' in (dc2, out ++ out2, r)
      | other => other
      end
  end.

(** ** Lemmas *)

Definition with_pending (s : downstreamSASL) (p : string) : downstreamSASL :=
  DSasl (server s) (mechanism s) (cred s) p.

Definition not_special (chunk : string) : Prop := chunk <> "*" /\ chunk <> "+".

Lemma handle_chunk dc s chunk p :
  IsEnabled (sc_caps dc) "sasl" = true -> sc_sasl dc = Some (with_pending s p) ->
  slen chunk <> 1 -> chunk <> "" -> slen p + slen chunk <= maxPendingResp ->
  handleAuthenticate dc (authenticate chunk) =
    if (slen chunk =? MaxSASLLength)%nat
    then (set_sasl dc (Some (with_pending s (p +:+ chunk))), [], AuthMore)
    else match decode64 StdEncoding (p +:+ chunk) with
         | None => auth_fail dc ERR_SASLFAIL "Invalid base64-encoded response"
         | Some resp => auth_next dc (with_pending s "") (Some resp)
         end.
Proof.
  intros Hcap Hs Hne1 Hne Hlen. unfold handleAuthenticate; cbn [authenticate mk_msg Params].
  rewrite Hcap, Hs. cbn [negb with_pending server mechanism cred pendingResp].
  rewrite (bool_decide_false (chunk = "*")) by (intros ->; done).
  rewrite (bool_decide_false (chunk = "+")) by (intros ->; done).
  by rewrite (proj2 (Nat.ltb_ge _ _)).
Qed.

Lemma handle_plus dc s p :
  IsEnabled (sc_caps dc) "sasl" = true -> sc_sasl dc = Some (with_pending s p) ->
  slen p <= maxPendingResp ->
  handleAuthenticate dc (authenticate "+") =
    match decode64 StdEncoding p with
    | None => auth_fail dc ERR_SASLFAIL "Invalid base64-encoded response"
    | Some resp => auth_next dc (with_pending s "") (Some resp)
    end.
Proof.
  intros Hcap Hs Hlen. unfold handleAuthenticate; cbn [authenticate mk_msg Params].
  rewrite Hcap, Hs. cbn [negb with_pending server mechanism cred pendingResp].
  rewrite (bool_decide_false ("+" = "*")) by done. rewrite (bool_decide_true ("+" = "+")) by done.
  rewrite (proj2 (Nat.ltb_ge _ _)) by (simpl; lia). cbn. by rewrite sapp_nil_r.
Qed.

Lemma encode64_length src : exists k, slen (encode64 StdEncoding src) = 4 * k.
Proof.
  induction src as [src IH] using (induction_ltof1 _ length). unfold ltof in IH.
  destruct src as [|a [|b [|c rest]]]; cbn [encode64 slen String.length].
  - by exists 0.
  - by exists 1.
  - by exists 1.
  - destruct (IH rest) as [k Hk]; [simpl; lia|]. exists (S k).
    unfold slen in Hk. cbn [slen String.length]. unfold slen; simpl. lia.
Qed.

Lemma run_auth_chunks full dc s p last resp :
  IsEnabled (sc_caps dc) "sasl" = true -> sc_sasl dc = Some (with_pending s p) ->
  Forall (fun c => slen c = MaxSASLLength) full ->
  slen last < MaxSASLLength -> slen last <> 1 ->
  slen (p +:+ sconcat full +:+ last) <= maxPendingResp ->
  decode64 StdEncoding (p +:+ sconcat full +:+ last) = Some resp ->
  run_auth dc ((authenticate <$> full) ++ [authenticate (plus_if_empty last)])
  = auth_next (set_sasl dc (sc_sasl dc)) (with_pending s "") (Some resp).
Proof.
  intros Hcap. revert dc p Hcap; induction full as [|c full IH]; intros dc p Hcap Hs Hfull Hl1 Hl2 Hlen Hdec.
  - cbn [fmap list_fmap app run_auth sconcat foldr] in *. rewrite sapp_nil_l in Hlen, Hdec.
    rewrite slen_app in Hlen. assert (set_sasl dc (sc_sasl dc) = dc) as -> by by destruct dc.
    assert (H : handleAuthenticate dc (authenticate (plus_if_empty last)) = auth_next dc (with_pending s "") (Some resp)).
    { unfold plus_if_empty. case_bool_decide as He.
      - rewrite He, sapp_nil_r in Hdec. erewrite handle_plus by (done || lia). by rewrite Hdec.
      - erewrite handle_chunk by (done || lia). rewrite Hdec.
        by rewrite (proj2 (Nat.eqb_neq _ _)) by lia. }
    rewrite H. unfold auth_next. destruct (Next _ _) as [[srv c] r]. repeat case_match; simplify_eq; done.
  - apply Forall_cons in Hfull as [Hc Hfull]. rewrite fmap_cons. cbn [app run_auth].
    rewrite sconcat_cons in *. rewrite !sapp_assoc in Hlen, Hdec. rewrite <- !sapp_assoc in Hlen, Hdec.
    pose proof Hlen as Hlen'. rewrite !slen_app in Hlen'.
    erewrite handle_chunk; [|done|done|by rewrite Hc| |lia];
      [|intros ->; by unfold MaxSASLLength in Hc].
    rewrite Hc, Nat.eqb_refl.
    rewrite (IH _ (p +:+ c)); try done.
    + unfold auth_next; simpl. destruct (Next _ _) as [[srv cr] r]. by repeat case_match; simplify_eq.
    + by rewrite <- sapp_assoc.
    + by rewrite <- sapp_assoc.
Qed.

Lemma sconcat_full_length full :
  Forall (fun c => slen c = MaxSASLLength) full -> slen (sconcat full) = MaxSASLLength * length full.
Proof.
  induction 1 as [|c full Hc _ IH]; [done|]. rewrite sconcat_cons, slen_app, Hc, IH. simpl. lia.
Qed.

(** The buffer of a connection, empty when no exchange is in progress. *)
Definition pending_length (dc : sasl_conn) : nat :=
  match sc_sasl dc with Some s => slen (pendingResp s) | None => 0 end.

Lemma auth_next_pending dc s resp :
  slen (pendingResp s) <= maxPendingResp ->
  pending_length (fst (fst (auth_next dc s resp))) <= maxPendingResp.
Proof.
  intros Hs. unfold auth_next. destruct (Next _ _) as [[srv c] r].
  repeat case_match; simplify_eq; unfold pending_length; simpl; (done || lia).
Qed.

Lemma auth_fail_pending dc cmd text : pending_length (fst (fst (auth_fail dc cmd text))) <= maxPendingResp.
Proof. unfold pending_length; simpl. lia. Qed.

Lemma handleAuthenticate_pending dc msg :
  pending_length dc <= maxPendingResp ->
  pending_length (fst (fst (handleAuthenticate dc msg))) <= maxPendingResp.
Proof.
  intros Hdc. unfold handleAuthenticate.
  destruct (negb _); [apply auth_fail_pending|].
  destruct (Params msg) as [|p0 ps]; [apply auth_fail_pending|].
  destruct (bool_decide (p0 = "*")); [apply auth_fail_pending|].
  destruct (sc_sasl dc) as [s|] eqn:Es.
  - destruct (Nat.ltb_spec maxPendingResp
      (slen (pendingResp s) + slen (if bool_decide (p0 = "+") then "" else p0)));
      [apply auth_fail_pending|].
    destruct (_ =? MaxSASLLength)%nat.
    + unfold pending_length; cbn [set_sasl sc_sasl fst pendingResp]. rewrite slen_app. lia.
    + destruct (decode64 _ _); [|apply auth_fail_pending]. apply auth_next_pending. simpl; lia.
  - destruct (known_mechanism _); [|apply auth_fail_pending]. apply auth_next_pending. simpl; lia.
Qed.

(** ** Properties *)

(** C21: reassembly of a SASL response. *)
Theorem sasl_roundtrip dc s resp :
  IsEnabled (sc_caps dc) "sasl" = true -> sc_sasl dc = Some s -> pendingResp s = "" ->
  slen (encode64 StdEncoding resp) <= maxPendingResp ->
  run_auth dc (GenerateSASL resp) = auth_next dc s (Some resp).
Proof.
  intros Hcap Hs Hp Hlen. destruct (GenerateSASL_spec resp) as (full & last & Heq & Hfull & Hlast & Hcat).
  destruct (encode64_length resp) as [k Hk].
  assert (Hs' : s = with_pending s "") by (destruct s; simpl in *; by subst).
  rewrite Heq. erewrite (run_auth_chunks full dc s "" last resp); try done.
  - assert (set_sasl dc (sc_sasl dc) = dc) as -> by by destruct dc. by rewrite <- Hs'.
  - by rewrite <- Hs'.
  - rewrite <- Hcat, slen_app, sconcat_full_length in Hk by done. unfold MaxSASLLength in *. lia.
  - by rewrite sapp_nil_l, Hcat.
  - rewrite sapp_nil_l, Hcat. by apply decode_encode64; apply _.
Qed.

(** C29: whatever a client sends, the buffered response stays bounded. *)
Theorem sasl_buffer_bounded dc msgs :
  pending_length dc <= maxPendingResp ->
  pending_length (foldl (fun d m => fst (fst (handleAuthenticate d m))) dc msgs) <= maxPendingResp.
Proof.
  revert dc; induction msgs as [|m msgs IH]; intros dc H; simpl; [done|].
  apply IH. by apply handleAuthenticate_pending.
Qed.

End Sasl.

(** Witnesses with the server that accepts any response. *)
Definition accept_server (s : unit) (resp : option (list ascii)) : unit * option unit * res unit (list ascii * bool) :=
  (tt, None, Ok ([], true)).

Definition sasl_caps : CapRegistry := SetEnabled NewCapRegistry "sasl" true.

Lemma sasl_roundtrip_witness :
  @run_auth ascii_unicode unit unit (fun _ => tt) accept_server
    (SaslConn sasl_caps "nick" (Some (DSasl tt "PLAIN" None ""))) (GenerateSASL (schars "bob"))
  = (SaslConn sasl_caps "nick" (Some (DSasl tt "PLAIN" None "")), [], AuthDone (DSasl tt "PLAIN" None "")).
Proof.
  exact (@sasl_roundtrip ascii_unicode unit unit (fun _ => tt) accept_server
    (SaslConn sasl_caps "nick" (Some (DSasl tt "PLAIN" None ""))) (DSasl tt "PLAIN" None "")
    (schars "bob") eq_refl eq_refl eq_refl ltac:(by_eval)).
Defined.

Lemma sasl_buffer_bounded_witness :
  pending_length (foldl (fun d m => fst (fst (@handleAuthenticate ascii_unicode unit unit (fun _ => tt) accept_server d m)))
    (SaslConn sasl_caps "nick" None) [authenticate "PLAIN"; authenticate "AAAA"]) <= maxPendingResp.
Proof.
  apply (@sasl_buffer_bounded ascii_unicode unit unit (fun _ => tt) accept_server
    (SaslConn sasl_caps "nick" None) [authenticate "PLAIN"; authenticate "AAAA"]). by_eval.
Defined.
