(* ===== verification/Irc.v ===== *)
(** * IRC helpers of the bouncer (irc.go)

    User modes, channel modes and memberships of MODE messages, member
    prefixes, highlight detection and small parsers. *)

From stdpp Require Import base list gmap strings.
From Stdlib Require Import ZArith Ascii.
From S2P Require Import Prelude GoStrings Casemapping Xirc.

(** ** User modes *)

Definition userModes : Type := string.

Definition um_Has (ms : userModes) (c : ascii) : bool := byte_in c ms.

(** [*ms += userModes(c)]: the conversion of a byte to a string type encodes
    it as a rune. *)
Definition um_Add (ms : userModes) (c : ascii) : userModes :=
  if negb (um_Has ms c) then ms +:+ EncodeRune (byteZ c) else ms.

Definition um_Del (ms : userModes) (c : ascii) : userModes :=
  match IndexByte ms c with
  | Some i => stake i ms +:+ sdrop (i + 1) ms
  | None => ms
  end.

Inductive mode_error :=
| ErrMissingPlusMinus (s : string)
| ErrMissingModeArgument (s : string) (plusMinus mode : ascii).

Definition is_sign (c : ascii) : bool := byte_eqb c "+" || byte_eqb c "-".

(** The loop of [Apply]; [plusMinus] is [None] before the first sign.  The
    modes changed before an error stay changed. *)
Fixpoint um_loop (s0 s : string) (plusMinus : option ascii) (ms : userModes)
    : userModes * option mode_error :=
  match s with
  | EmptyString => (ms, None)
  | String c s' =>
      if is_sign c then um_loop s0 s' (Some c) ms
      else match plusMinus with
           | Some "+"%char => um_loop s0 s' plusMinus (um_Add ms c)
           | Some "-"%char => um_loop s0 s' plusMinus (um_Del ms c)
           | _ => (ms, Some (ErrMissingPlusMinus s0))
           end
  end.

Definition um_Apply (ms : userModes) (s : string) : userModes * option mode_error :=
  um_loop s s None ms.

(** ** Channel modes *)

Inductive channelModeType := modeTypeA | modeTypeB | modeTypeC | modeTypeD.

#[export] Instance channelModeType_eq_dec : EqDecision channelModeType.
Proof. solve_decision. Defined.

Definition stdChannelModes : gmap ascii channelModeType :=
  list_to_map [("b", modeTypeA); ("e", modeTypeA); ("I", modeTypeA); ("k", modeTypeB);
               ("l", modeTypeC); ("i", modeTypeD); ("m", modeTypeD); ("n", modeTypeD);
               ("s", modeTypeD); ("t", modeTypeD)]%char.

Definition channelModes : Type := gmap ascii string.

Definition stdMemberships : list Membership :=
  [Memb "q" "~"; Memb "a" "&"; Memb "o" "@"; Memb "h" "%"; Memb "v" "+"]%char.

Definition stdChannelTypes : string := "#&+!".

(** The part of an [upstreamChannel] that MODE changes: its modes ([None] is
    the nil map of a channel whose modes are not known yet) and its members. *)
Record chan_modes := ChanModes {
  cm_modes : option (gmap ascii string);
  cm_members : CaseMappingMap (list Membership)
}.

(** [if ch.modes != nil { ch.modes[mode] = argument }]. *)
Definition set_mode (st : chan_modes) (mode : ascii) (argument : string) : chan_modes :=
  ChanModes ((fun m => <[mode := argument]> m) <$> cm_modes st) (cm_members st).

(** [delete(ch.modes, mode)], which does nothing on a nil map. *)
Definition del_mode (st : chan_modes) (mode : ascii) : chan_modes :=
  ChanModes ((fun m => delete mode m) <$> cm_modes st) (cm_members st).

Section ApplyChannelModes.
Context (availableMemberships : list Membership).
Context (availableChannelModes : gmap ascii channelModeType).

Definition find_membership (mode : ascii) : option Membership :=
  snd <$> list_find (fun m => Mode m = mode) availableMemberships.

(** [m := ch.Members.Get(member); if m != nil { m.Add / m.Remove }]. *)
Definition change_member (st : chan_modes) (plus : bool) (member : string) (mem : Membership)
    : chan_modes :=
  match Get (cm_members st) member with
  | None => st
  | Some m =>
      let m' := if plus then MembershipAdd m availableMemberships mem else MembershipRemove m mem in
      ChanModes (cm_modes st) (Set_ (cm_members st) member m')
  end.

(** The effect of a channel mode of a known type, and whether it consumes an
    argument. *)
Definition change_mode (st : chan_modes) (mt : channelModeType) (plus : bool) (mode : ascii)
    (arguments : list string) : chan_modes * list string :=
  match mt with
  | modeTypeA => (st, tail arguments)
  | modeTypeB =>
      (if plus then set_mode st mode (default "" (head arguments)) else del_mode st mode,
       tail arguments)
  | modeTypeC =>
      if plus then (set_mode st mode (default "" (head arguments)), tail arguments)
      else (del_mode st mode, arguments)
  | modeTypeD => (if plus then set_mode st mode "" else del_mode st mode, arguments)
  end.

(** The loop over the mode string, with the arguments from [nextArgument] on. *)
Fixpoint acm_loop (modeStr s : string) (plusMinus : option ascii) (arguments : list string)
    (st : chan_modes) : chan_modes * option mode_error :=
  match s with
  | EmptyString => (st, None)
  | String mode s' =>
      if is_sign mode then acm_loop modeStr s' (Some mode) arguments st
      else match plusMinus with
      | None => (st, Some (ErrMissingPlusMinus modeStr))
      | Some sign =>
          let plus := byte_eqb sign "+" in
          match find_membership mode with
          | Some membership =>
              match arguments with
              | [] => (st, Some (ErrMissingModeArgument modeStr sign mode))
              | member :: arguments' =>
                  acm_loop modeStr s' plusMinus arguments' (change_member st plus member membership)
              end
          | None =>
              match availableChannelModes !! mode with
              | None => acm_loop modeStr s' plusMinus arguments st
              | Some mt =>
                  let '(st', arguments') := change_mode st mt plus mode arguments in
                  acm_loop modeStr s' plusMinus arguments' st'
              end
          end
      end
  end.

Definition applyChannelModes (st : chan_modes) (modeStr : string) (arguments : list string)
    : chan_modes * option mode_error :=
  acm_loop modeStr modeStr None arguments st.

End ApplyChannelModes.

(** [channelModes.Format] for an iteration order of the map. *)
Definition Format (order : list (ascii * string)) : string * list string :=
  let with_value := filter (fun mv => snd mv <> "") order in
  let without_value := filter (fun mv => snd mv = "") order in
  let write l := foldr (fun (mv : ascii * string) acc => EncodeRune (byteZ (fst mv)) +:+ acc) "" l in
  ("+" +:+ write with_value +:+ write without_value, with_value.*2).

(** ** Member prefixes *)

(** [formatMemberPrefix], by whether the client has multi-prefix. *)
Definition formatMemberPrefix (ms : list Membership) (multi_prefix : bool) : string :=
  if multi_prefix then of_chars (MPrefix <$> ms)
  else match ms with
       | [] => ""
       | m :: _ => EncodeRune (byteZ (MPrefix m))
       end.

(** [byte(r) == v.Prefix] compares the low byte of the rune. *)
Definition stripMemberPrefixes (flags : string) (available : list Membership) : string :=
  Map (fun r => if existsb (fun v => Z.eqb (r mod 256) (byteZ (MPrefix v))) available
                then (-1)%Z else r) flags.

(** ** Message helpers *)

Inductive params_error := ErrNeedMoreParams (cmd : string).

(** [parseMessageParams(msg, out...)]: the first [n] parameters. *)
Definition parseMessageParams (msg : message) (n : nat) : res params_error (list string) :=
  if (length (Params msg) <? n)%nat then Err (ErrNeedMoreParams (Command msg))
  else Ok (take n (Params msg)).

Definition copyClientTags (tags : gmap string string) : gmap string string :=
  filter (fun kv => HasPrefix (fst kv) "+" = true) tags.

Definition isNumeric (cmd : string) : bool :=
  match schars cmd with
  | [a; b; c] => forallb (fun x => byte_between "0" x "9") [a; b; c]
  | _ => false
  end.

Definition generateAwayReply (away : bool) : message :=
  if away then mk_msg "306" ["*"; "You have been marked as being away"]
  else mk_msg "305" ["*"; "You are no longer marked as being away"].

(** ** Highlights *)

Section Highlight.
Context {U : Unicode}.

Definition isWordBoundary (r : Z) : bool :=
  if (r =? 45)%Z || (r =? 95)%Z || (r =? 124)%Z (* '-', '_', '|' *) then false
  else negb (IsLetter r) && negb (IsNumber r).

Definition isURIPrefix (text0 : string) : bool :=
  let text := match LastIndexSpace text0 with Some i => sdrop i text0 | None => text0 end in
  match Index text "://" with
  | None => false
  | Some i =>
      let r := fst (DecodeLastRuneInString (stake i text)) in
      if (r =? 43)%Z || (r =? 45)%Z || (r =? 46)%Z (* '+', '-', '.' *) then true
      else in_range 48 r 57 || in_range 97 r 122 || in_range 65 r 90
  end.

(** The test on one occurrence of the nick: the text before and after it. *)
Definition is_mention (before after : string) : bool :=
  isWordBoundary (fst (DecodeLastRuneInString before))
  && isWordBoundary (fst (DecodeRuneInString after))
  && negb (isURIPrefix before).

(** [for { ... }]: each turn removes at least [len(nick)] bytes. *)
Fixpoint highlight_loop (fuel : nat) (text nick : string) : bool :=
  match fuel with
  | O => false
  | S fuel' =>
      match Index text nick with
      | None => false
      | Some i =>
          let rest := sdrop (i + slen nick) text in
          if is_mention (stake i text) rest then true else highlight_loop fuel' rest nick
      end
  end.

(** Panics on an empty nick. *)
Definition isHighlight (text nick : string) : res unit bool :=
  if (slen nick =? 0)%nat then Panic
  else Ok (highlight_loop (S (slen text)) text nick).

End Highlight.

Definition parseChatHistoryBound {T} (time_Parse : string -> option T) (zero : T) (param : string) : T :=
  match Split2 param "=" with
  | (key, Some v) => if bool_decide (key = "timestamp") then default zero (time_Parse v) else zero
  | (_, None) => zero
  end.

(** ** User modes: lemmas *)

Definition is_ascii (c : ascii) : Prop := (byteZ c < 128)%Z.

Lemma EncodeRune_ascii c : is_ascii c -> EncodeRune (byteZ c) = String c "".
Proof.
  unfold is_ascii. destruct c as [[] [] [] [] [] [] [] []]; intros H;
    first [reflexivity | exfalso; vm_compute in H; done].
Qed.

Lemma schars_um_Add ms c :
  is_ascii c -> schars (um_Add ms c) = if um_Has ms c then schars ms else schars ms ++ [c].
Proof.
  intros Hc. unfold um_Add. destruct (um_Has ms c); simpl; [done|].
  by rewrite EncodeRune_ascii, schars_app.
Qed.

Lemma schars_um_Del ms c : schars (um_Del ms c) = remove_first (fun b => byte_eqb b c) (schars ms).
Proof.
  unfold um_Del. induction ms as [|b ms IH]; [done|]. simpl.
  destruct (byte_eqb b c) eqn:E; [done|].
  destruct (IndexByte ms c) as [i|]; simpl in *; [by rewrite IH|]. by rewrite <- IH.
Qed.

Lemma um_Has_elem ms c : um_Has ms c = bool_decide (c ∈ schars ms).
Proof.
  unfold um_Has. destruct (byte_in c ms) eqn:E.
  - symmetry. apply bool_decide_true. by apply byte_in_spec.
  - symmetry. apply bool_decide_false. intros H%byte_in_spec. congruence.
Qed.

Lemma remove_first_NoDup (c : ascii) l :
  NoDup l -> c ∉ remove_first (fun b => byte_eqb b c) l.
Proof.
  induction 1 as [|x l Hx Hl IH]; simpl; [apply not_elem_of_nil|].
  unfold byte_eqb at 1. case_bool_decide; subst; [done|]. rewrite not_elem_of_cons. auto.
Qed.

Lemma um_Add_spec ms c :
  is_ascii c -> NoDup (schars ms) ->
  NoDup (schars (um_Add ms c)) /\
  forall d, um_Has (um_Add ms c) d = if decide (c = d) then true else um_Has ms d.
Proof.
  intros Hc Hnd. rewrite schars_um_Add by done.
  destruct (um_Has ms c) eqn:E; rewrite um_Has_elem in E; bool_to_prop; split.
  - done.
  - intros d. rewrite !um_Has_elem, schars_um_Add, um_Has_elem by done.
    rewrite (bool_decide_true (c ∈ _)) by done. case_decide; subst; [by apply bool_decide_true|done].
  - apply NoDup_app. split_and!; [done| |apply NoDup_singleton]. set_solver.
  - intros d. rewrite !um_Has_elem, schars_um_Add, um_Has_elem by done.
    rewrite (bool_decide_false (c ∈ _)) by done. case_decide; subst.
    + apply bool_decide_true. set_solver.
    + apply bool_decide_ext. set_solver.
Qed.

Lemma um_Del_spec ms c :
  NoDup (schars ms) ->
  NoDup (schars (um_Del ms c)) /\
  forall d, um_Has (um_Del ms c) d = if decide (c = d) then false else um_Has ms d.
Proof.
  intros Hnd. rewrite schars_um_Del. split; [eapply sublist_NoDup; [done|apply remove_first_sublist]|].
  intros d. rewrite !um_Has_elem, schars_um_Del. case_decide; subst.
  - apply bool_decide_false. by apply remove_first_NoDup.
  - apply bool_decide_ext. apply elem_of_remove_first. unfold byte_eqb.
    by apply bool_decide_false.
Qed.

(** The last sign a mode string gives to a mode. *)
Fixpoint mode_effect (sign : option ascii) (s : string) (c : ascii) (eff : option bool) : option bool :=
  match s with
  | EmptyString => eff
  | String d s' =>
      if is_sign d then mode_effect (Some d) s' c eff
      else mode_effect sign s' c
             (if decide (d = c) then (fun x => byte_eqb x "+") <$> sign else eff)
  end.

Lemma is_sign_cases c : is_sign c = true -> c = "+"%char \/ c = "-"%char.
Proof.
  unfold is_sign, byte_eqb. intros [H|H]%orb_true_iff; bool_to_prop; auto.
Qed.

Lemma mode_effect_acc sg s c e :
  mode_effect (Some sg) s c e =
    match mode_effect (Some sg) s c None with Some b => Some b | None => e end.
Proof.
  revert sg e; induction s as [|x s IH]; intros sg e; simpl; [done|].
  destruct (is_sign x); [apply IH|]. rewrite IH. symmetry. rewrite IH.
  destruct (mode_effect (Some sg) s c None); [done|]. by case_decide.
Qed.

Lemma um_loop_spec s0 s sign ms :
  Forall is_ascii (schars s) -> NoDup (schars ms) ->
  (sign = Some "+"%char \/ sign = Some "-"%char) ->
  exists ms', um_loop s0 s sign ms = (ms', None) /\ NoDup (schars ms') /\
    forall c eff0, um_Has ms c = eff0 ->
      um_Has ms' c = default eff0 (mode_effect sign s c None).
Proof.
  intros Ha. revert sign ms; induction s as [|d s IH]; intros sign ms Hnd Hsign.
  { exists ms. split_and!; [done|done|]. by intros c eff0 <-. }
  simpl in Ha. apply Forall_cons in Ha as [Hd Ha]. specialize (IH Ha).
  cbn [um_loop mode_effect]. destruct (is_sign d) eqn:Es.
  - apply IH; [done|]. by destruct (is_sign_cases d Es) as [->| ->]; auto.
  - destruct Hsign as [-> | ->].
    + destruct (um_Add_spec ms d Hd Hnd) as [Hnd' Hhas].
      destruct (IH (Some "+"%char) (um_Add ms d) Hnd' ltac:(auto)) as (ms' & -> & Hnd'' & Hspec).
      exists ms'. split_and!; [done|done|]. intros c eff0 <-. rewrite (Hspec c _ (Hhas c)).
      rewrite (mode_effect_acc _ _ _ (if decide (d = c) then _ else _)).
      destruct (mode_effect _ s c None); [done|]. by case_decide.
    + destruct (um_Del_spec ms d Hnd) as [Hnd' Hhas].
      destruct (IH (Some "-"%char) (um_Del ms d) Hnd' ltac:(auto)) as (ms' & -> & Hnd'' & Hspec).
      exists ms'. split_and!; [done|done|]. intros c eff0 <-. rewrite (Hspec c _ (Hhas c)).
      rewrite (mode_effect_acc _ _ _ (if decide (d = c) then _ else _)).
      destruct (mode_effect _ s c None); [done|]. by case_decide.
Qed.

(** ** Channel modes: invariants *)

Section ChannelModesProofs.
Context (availableMemberships : list Membership).
Context (availableChannelModes : gmap ascii channelModeType).

(** A stored mode is a known mode that is not a list mode, and a mode with a
    value is one that takes a parameter when it is set. *)
Definition mode_wf (mode : ascii) (v : string) : Prop :=
  is_sign mode = false /\ find_membership availableMemberships mode = None /\
  exists mt, availableChannelModes !! mode = Some mt /\ mt <> modeTypeA /\
    (v <> "" -> mt = modeTypeB \/ mt = modeTypeC).

Definition chan_wf (st : chan_modes) : Prop :=
  match cm_modes st with Some m => map_Forall mode_wf m | None => True end /\
  forall name l, Get (cm_members st) name = Some l -> by_rank availableMemberships l.

Lemma find_membership_elem mode m :
  find_membership availableMemberships mode = Some m -> m ∈ availableMemberships /\ Mode m = mode.
Proof.
  unfold find_membership. destruct (list_find _ _) as [[i m']|] eqn:E; simpl; [|done].
  intros [= <-]. apply list_find_Some in E as (Hi & Hm & _). split; [|done].
  by eapply list_elem_of_lookup_2.
Qed.

Lemma chan_wf_change_member st plus member mem :
  NoDup availableMemberships -> mem ∈ availableMemberships ->
  chan_wf st -> chan_wf (change_member availableMemberships st plus member mem).
Proof.
  intros Hnd Hmem [Hm Hr]. unfold change_member.
  destruct (Get (cm_members st) member) as [l|] eqn:E; [|done].
  split; [done|]. intros name l'. cbn [cm_members]. rewrite Get_Set. case_decide; [|apply Hr].
  intros [= <-]. apply Hr in E. destruct plus.
  - rewrite MembershipAdd_insert_at. by apply insert_at_by_rank.
  - unfold by_rank, MembershipRemove in *. etrans; [apply remove_first_sublist|done].
Qed.

Lemma chan_wf_set_mode st mode v : mode_wf mode v -> chan_wf st -> chan_wf (set_mode st mode v).
Proof.
  intros Hv [Hm Hr]. split; [|done]. unfold set_mode; simpl.
  destruct (cm_modes st) as [m|]; simpl; [|done]. by apply map_Forall_insert_2.
Qed.

Lemma chan_wf_del_mode st mode : chan_wf st -> chan_wf (del_mode st mode).
Proof.
  intros [Hm Hr]. split; [|done]. unfold del_mode; simpl.
  destruct (cm_modes st) as [m|]; simpl; [|done]. by apply map_Forall_delete.
Qed.

Lemma chan_wf_change_mode st mt plus mode arguments :
  is_sign mode = false -> find_membership availableMemberships mode = None ->
  availableChannelModes !! mode = Some mt -> chan_wf st ->
  chan_wf (fst (change_mode st mt plus mode arguments)).
Proof.
  intros Hs Hf Hmt Hwf.
  assert (Hmw : forall v, mt <> modeTypeA -> (v <> "" -> mt = modeTypeB \/ mt = modeTypeC) -> mode_wf mode v)
    by (intros v ??; split_and!; [done|done|by exists mt]).
  destruct mt, plus; simpl; auto using chan_wf_del_mode;
    apply chan_wf_set_mode; auto; apply Hmw; try done; auto.
Qed.

Lemma acm_loop_wf modeStr s sign arguments st :
  NoDup availableMemberships -> chan_wf st ->
  chan_wf (fst (acm_loop availableMemberships availableChannelModes modeStr s sign arguments st)).
Proof.
  intros Hnd. revert sign arguments st; induction s as [|mode s IH]; intros sign arguments st Hwf;
    cbn [acm_loop]; [done|].
  destruct (is_sign mode) eqn:Es; [auto|]. destruct sign as [sg|]; [|done].
  destruct (find_membership availableMemberships mode) as [mem|] eqn:Em.
  - destruct arguments as [|member args]; [done|]. apply IH.
    apply chan_wf_change_member; [done| |done]. by eapply find_membership_elem.
  - destruct (availableChannelModes !! mode) as [mt|] eqn:Emt; [|auto].
    pose proof (chan_wf_change_mode st mt (byte_eqb sg "+") mode arguments Es Em Emt Hwf) as H.
    destruct (change_mode st mt _ mode arguments) as [st' args']. by apply IH.
Qed.

(** ** Channel modes: Format and apply *)

Definition write_modes (l : list (ascii * string)) : string :=
  foldr (fun (mv : ascii * string) acc => EncodeRune (byteZ (fst mv)) +:+ acc) "" l.

Definition ascii_modes (l : list (ascii * string)) : Prop := Forall (fun mv => is_ascii (fst mv)) l.

Definition put_modes (l : list (ascii * string)) (st : chan_modes) : chan_modes :=
  foldl (fun st mv => set_mode st (fst mv) (snd mv)) st l.

(** One formatted mode is applied with its value as the next argument. *)
Lemma acm_loop_mode modeStr mode v s args st :
  mode_wf mode v -> is_ascii mode -> default "" (head args) = v ->
  exists args', acm_loop availableMemberships availableChannelModes modeStr
      (EncodeRune (byteZ mode) +:+ s) (Some "+"%char) args st
    = acm_loop availableMemberships availableChannelModes modeStr s (Some "+"%char) args' (set_mode st mode v)
    /\ (v <> "" -> args' = tail args) /\ (args = [] -> args' = []).
Proof.
  intros (Hs & Hf & mt & Hmt & HnA & Hv) Ha Hargs. rewrite EncodeRune_ascii by done.
  rewrite sapp_cons, sapp_nil_l. cbn [acm_loop]. rewrite Hs, Hf, Hmt.
  destruct mt; [done| | |]; cbn [change_mode].
  - exists (tail args). change (byte_eqb "+" "+") with true. cbn iota. rewrite Hargs.
    split_and!; [done|done|by intros ->].
  - exists (tail args). change (byte_eqb "+" "+") with true. cbn iota. rewrite Hargs.
    split_and!; [done|done|by intros ->].
  - exists args. change (byte_eqb "+" "+") with true. cbn iota.
    destruct (decide (v = "")) as [->|Hne]; [by split_and!|].
    by destruct (Hv Hne).
Qed.

Lemma acm_loop_values modeStr l s args st :
  Forall (fun mv => mode_wf (fst mv) (snd mv) /\ snd mv <> "") l -> ascii_modes l ->
  acm_loop availableMemberships availableChannelModes modeStr
    (write_modes l +:+ s) (Some "+"%char) (l.*2 ++ args) st
  = acm_loop availableMemberships availableChannelModes modeStr s (Some "+"%char) args (put_modes l st).
Proof.
  revert st; induction l as [|[mode v] l IH]; intros st Hl Ha; [done|].
  apply Forall_cons in Hl as [[Hw Hne] Hl]. apply Forall_cons in Ha as [Hm Ha].
  cbn [write_modes foldr fst snd] in *. fold (write_modes l). rewrite <- sapp_assoc.
  destruct (acm_loop_mode modeStr mode v (write_modes l +:+ s) (((mode, v) :: l).*2 ++ args) st)
    as (args' & -> & Hargs & _); [done|done|done|].
  rewrite Hargs by done. simpl. by apply IH.
Qed.

Lemma acm_loop_flags modeStr l st :
  Forall (fun mv => mode_wf (fst mv) (snd mv) /\ snd mv = "") l -> ascii_modes l ->
  acm_loop availableMemberships availableChannelModes modeStr (write_modes l) (Some "+"%char) [] st
  = (put_modes l st, None).
Proof.
  revert st; induction l as [|[mode v] l IH]; intros st Hl Ha; [done|].
  apply Forall_cons in Hl as [[Hw Hne] Hl]. apply Forall_cons in Ha as [Hm Ha].
  cbn [write_modes foldr fst snd] in *. fold (write_modes l).
  destruct (acm_loop_mode modeStr mode v (write_modes l) [] st) as (args' & -> & _ & Hargs);
    [done|done|by rewrite Hne|].
  rewrite Hargs by done. simpl. by apply IH.
Qed.

Lemma put_modes_lookup l m members :
  cm_modes (put_modes l (ChanModes (Some m) members))
    = Some (foldl (fun m mv => <[fst mv := snd mv]> m) m l) /\
  cm_members (put_modes l (ChanModes (Some m) members)) = members.
Proof.
  revert m; induction l as [|mv l IH]; intros m; [done|]. unfold put_modes in *; simpl. apply IH.
Qed.

Lemma foldl_insert_list_to_map (l : list (ascii * string)) (m : gmap ascii string) :
  NoDup l.*1 ->
  foldl (fun m mv => <[fst mv := snd mv]> m) m l = list_to_map l ∪ m.
Proof.
  revert m; induction l as [|[k v] l IH]; intros m Hnd; simpl; [by rewrite map_empty_union|].
  apply NoDup_cons in Hnd as [Hk Hnd]. rewrite IH by done.
  rewrite <- insert_union_l. rewrite insert_union_r; [done|].
  by apply not_elem_of_list_to_map_1.
Qed.

Lemma filter_partition_perm (order : list (ascii * string)) :
  filter (fun mv => snd mv <> "") order ++ filter (fun mv => snd mv = "") order ≡ₚ order.
Proof.
  induction order as [|mv order IH]; [done|]. rewrite !filter_cons.
  destruct (decide (snd mv = "")).
  - rewrite decide_False by (intros H; by apply H). rewrite <- Permutation_middle. by rewrite IH.
  - rewrite decide_True by done. simpl. by rewrite IH.
Qed.

Lemma put_modes_app l l' st : put_modes l' (put_modes l st) = put_modes (l ++ l') st.
Proof. unfold put_modes. by rewrite foldl_app. Qed.

Lemma put_modes_all l (m : gmap ascii string) members :
  l ≡ₚ map_to_list m -> put_modes l (ChanModes (Some ∅) members) = ChanModes (Some m) members.
Proof.
  intros Hl. destruct (put_modes_lookup l ∅ members) as [H1 H2].
  assert (Hnd : NoDup l.*1) by (rewrite Hl; apply NoDup_fst_map_to_list).
  rewrite foldl_insert_list_to_map, map_union_empty in H1 by done.
  rewrite (list_to_map_proper _ (map_to_list m)), list_to_map_to_list in H1 by done.
  destruct (put_modes l _) as [ms mem]; simpl in *. by subst.
Qed.

End ChannelModesProofs.

(** ** Highlights: lemmas *)

Section HighlightProofs.
Context {U : Unicode}.

(** More turns than [len(text)] change nothing: the loop has ended. *)
Lemma highlight_loop_fuel nick fuel fuel' text :
  0 < slen nick -> slen text < fuel -> slen text < fuel' ->
  highlight_loop fuel text nick = highlight_loop fuel' text nick.
Proof.
  intros Hn. revert fuel' text; induction fuel as [|fuel IH]; intros [|fuel'] text Hf Hf'; try lia.
  simpl. destruct (Index text nick) as [i|] eqn:E; [|done].
  destruct (is_mention _ _); [done|].
  apply Index_Some in E as [He Hi]. apply (f_equal slen) in He. rewrite !slen_app in He.
  apply IH; rewrite slen_sdrop; lia.
Qed.

Lemma highlight_loop_occurrence nick fuel text :
  highlight_loop fuel text nick = true ->
  exists skipped before after, text = skipped +:+ before +:+ nick +:+ after /\
    is_mention before after = true.
Proof.
  revert text; induction fuel as [|fuel IH]; intros text; simpl; [done|].
  destruct (Index text nick) as [i|] eqn:E; [|done].
  destruct (is_mention _ _) eqn:Em.
  - intros _. apply Index_Some in E as [He _].
    exists "", (stake i text), (sdrop (i + slen nick) text). by rewrite sapp_nil_l.
  - intros (sk & bf & af & Hr & Hm)%IH. apply Index_Some in E as [He _].
    exists (stake i text +:+ nick +:+ sk), bf, af. split; [|done].
    rewrite <- !sapp_assoc. rewrite <- Hr. exact He.
Qed.

Lemma highlight_first text nick i :
  Index text nick = Some i ->
  is_mention (stake i text) (sdrop (i + slen nick) text) = true ->
  highlight_loop (S (slen text)) text nick = true.
Proof. intros Hi Hm. simpl. by rewrite Hi, Hm. Qed.

End HighlightProofs.

(** ** Properties *)

(** User modes. *)
Theorem um_Apply_spec ms s :
  Forall is_ascii (schars s) -> NoDup (schars ms) ->
  match s with
  | EmptyString => um_Apply ms s = (ms, None)
  | String c _ =>
      if is_sign c then
        exists ms', um_Apply ms s = (ms', None) /\ NoDup (schars ms') /\
          forall c, um_Has ms' c = default (um_Has ms c) (mode_effect None s c None)
      else um_Apply ms s = (ms, Some (ErrMissingPlusMinus s))
  end.
Proof.
  intros Ha Hnd. destruct s as [|c s]; [done|]. unfold um_Apply. cbn [um_loop mode_effect].
  destruct (is_sign c) eqn:Es; [|done].
  simpl in Ha. apply Forall_cons in Ha as [_ Ha].
  destruct (um_loop_spec (String c s) s (Some c) ms Ha Hnd) as (ms' & H1 & H2 & H3).
  { by destruct (is_sign_cases c Es) as [->| ->]; auto. }
  exists ms'. split_and!; [done|done|]. intros d. by apply H3.
Qed.

Lemma um_Apply_spec_witness :
  exists ms', um_Apply "iw" "+x-i+r" = (ms', None) /\ um_Has ms' "i" = false /\ um_Has ms' "x" = true.
Proof.
  destruct (um_Apply_spec "iw" "+x-i+r") as (ms' & H1 & _ & H2).
  - repeat (apply Forall_cons; split; [by_eval|]). by apply Forall_nil.
  - by_eval.
  - exists ms'. rewrite !H2. by split.
Defined.

(** C25: channel MODE keeps the channel well formed, errors included. *)
Theorem applyChannelModes_invariant availableMemberships availableChannelModes st modeStr arguments :
  NoDup availableMemberships ->
  chan_wf availableMemberships availableChannelModes st ->
  chan_wf availableMemberships availableChannelModes
    (fst (applyChannelModes availableMemberships availableChannelModes st modeStr arguments)).
Proof. intros Hnd Hwf. by apply acm_loop_wf. Qed.

Lemma applyChannelModes_invariant_witness :
  chan_wf stdMemberships stdChannelModes
    (fst (applyChannelModes stdMemberships stdChannelModes
      (ChanModes (Some ∅) (Set_ (NewCaseMappingMap casemapRFC1459) "alice" [])) "+kov" ["key"; "ALICE"])).
Proof.
  apply (applyChannelModes_invariant stdMemberships stdChannelModes).
  - by_eval.
  - split; [done|]. intros name l. cbn [cm_members]. rewrite Get_Set, Get_new. case_decide; [|done].
    intros [= <-]. apply sublist_nil_l.
Defined.

(** C22: formatted channel modes apply back. *)
Theorem Format_apply_roundtrip availableMemberships availableChannelModes
    (m : gmap ascii string) order members :
  map_Forall (mode_wf availableMemberships availableChannelModes) m ->
  (forall mode v, m !! mode = Some v -> is_ascii mode) ->
  order ≡ₚ map_to_list m ->
  applyChannelModes availableMemberships availableChannelModes (ChanModes (Some ∅) members)
    (fst (Format order)) (snd (Format order))
  = (ChanModes (Some m) members, None).
Proof.
  intros Hwf Hascii Hord.
  assert (Hall : Forall (fun mv => mode_wf availableMemberships availableChannelModes (fst mv) (snd mv)
                                   /\ is_ascii (fst mv)) order).
  { rewrite Hord. apply Forall_forall. intros [k v] Hin%elem_of_map_to_list. split; [by apply Hwf|by eapply Hascii]. }
  rewrite Forall_and in Hall. destruct Hall as [Hw Ha].
  unfold Format, applyChannelModes; cbn [fst snd].
  set (wv := filter (fun mv => snd mv <> "") order). set (nv := filter (fun mv => snd mv = "") order).
  change (foldr _ "" wv) with (write_modes wv). change (foldr _ "" nv) with (write_modes nv).
  rewrite sapp_cons, sapp_nil_l. cbn [acm_loop]. change (is_sign "+") with true. cbn iota.
  replace (wv.*2) with (wv.*2 ++ []) by apply app_nil_r.
  rewrite acm_loop_values; [|apply Forall_and; split|by apply Forall_filter].
  - rewrite acm_loop_flags; [|apply Forall_and; split|by apply Forall_filter].
    + f_equal. rewrite put_modes_app. apply put_modes_all.
      unfold wv, nv. rewrite filter_partition_perm. exact Hord.
    + by apply Forall_filter.
    + apply Forall_filter_pred.
  - by apply Forall_filter.
  - apply Forall_filter_pred.
Qed.

Lemma Format_apply_roundtrip_witness :
  applyChannelModes stdMemberships stdChannelModes
    (ChanModes (Some ∅) (NewCaseMappingMap casemapRFC1459)) "+kn" ["secret"]
  = (ChanModes (Some {["k"%char := "secret"; "n"%char := ""]}) (NewCaseMappingMap casemapRFC1459), None).
Proof.
  apply (Format_apply_roundtrip stdMemberships stdChannelModes {["k"%char := "secret"; "n"%char := ""]}
    [("k"%char, "secret"); ("n"%char, "")] (NewCaseMappingMap casemapRFC1459)).
  - apply map_Forall_insert_2; [|apply map_Forall_singleton].
    + split_and!; [done|done|]. exists modeTypeB. split_and!; [done|done|by left].
    + split_and!; [done|done|]. exists modeTypeD. split_and!; done.
  - intros mode v [[<- _]|[_ [<- _]%lookup_singleton_Some]]%lookup_insert_Some; by_eval.
  - by_eval.
Defined.



(** The left context of a second occurrence is lost. *)
Theorem isHighlight_inside_word :
  @isHighlight ascii_unicode "SojuUserSojuUser" "SojuUser" = Ok true /\
  @isHighlight ascii_unicode "OtherSojuUser" "SojuUser" = Ok false.
Proof. split; reflexivity. Qed.

(** The cases of irc_test.go. *)
Example isHighlight_test_cases :
  map (fun text => @isHighlight ascii_unicode text "SojuUser")
    ["hi there Soju User!"; "SojuUser"; "hi there SojuUser!"; "SojuUser: how are you doing?";
     "maybe ask SojuUser"; "but OtherSojuUserSan is a different nick";
     "and OtherSojuUser is another different nick"; "and SojuUserSan is yet a different nick";
     "and SojuUser_san has nothing to do with me"; "https://SojuUser.example";
     "https://SojuUser.example is a nice website"; "check out my website: https://SojuUser.example";
     "see my website (https://SojuUser.example)"; "see https://SojuUser.example (cc SojuUser)"]
  = map Ok [false; true; true; true; true; false; false; false; false; false; false; false; false; true].
Proof. vm_compute. reflexivity. Qed.
