(* ===== verification/Rate.v ===== *)
(** * Reconnection back-off (rate.go) and login throttling (webadmin/ratelimit.go) *)

From stdpp Require Import base list gmap strings.
From Stdlib Require Import ZArith.
From S2P Require Import Prelude GoStrings.

Local Open Scope Z_scope.

(** ** backoffer *)

(** Durations are [int64] nanoseconds. *)
Record backoffer := Backoffer { bo_min : Z; bo_max : Z; bo_jitter : Z; bo_n : Z }.

Definition newBackoffer (min max jitter : Z) : backoffer := Backoffer min max jitter 0.

Definition bo_Reset (b : backoffer) : backoffer :=
  Backoffer (bo_min b) (bo_max b) (bo_jitter b) 0.

(** [Next]; [r] is the value of [rand.Int63n(jitter)], used when the jitter is
    not zero. *)
Definition bo_Next (b : backoffer) (r : Z) : backoffer * Z :=
  if bo_n b =? 0 then (Backoffer (bo_min b) (bo_max b) (bo_jitter b) 1, 0)
  else
    let d := wrap64 (bo_n b * bo_min b) in
    let '(n, d) := if bo_max b <? d then (bo_n b, bo_max b) else (wrap64 (bo_n b * 2), d) in
    let d := if bo_jitter b =? 0 then d else wrap64 (d + r) in
    (Backoffer (bo_min b) (bo_max b) (bo_jitter b) n, d).

(** The delays of successive calls. *)
Fixpoint bo_delays (b : backoffer) (rs : list Z) : list Z :=
  match rs with
  | [] => []
  | r :: rs' => let '(b', d) := bo_Next b r in d :: bo_delays b' rs'
  end.

(** The state after [k] calls since the last reset. *)
Definition bo_state (b : backoffer) (k : nat) : Prop :=
  match k with
  | O => bo_n b = 0
  | S j => 0 < bo_n b /\ bo_n b * bo_min b <= 2 * bo_max b /\
           (bo_n b = 2 ^ Z.of_nat j \/ (bo_max b < bo_n b * bo_min b /\ bo_n b <= 2 ^ Z.of_nat j))
  end.

(** Bounds under which no [int64] operation overflows. *)
Definition bo_ok (b : backoffer) : Prop :=
  0 < bo_min b /\ bo_min b <= bo_max b /\ 0 <= bo_jitter b /\
  2 * bo_max b <= int64_max /\ bo_max b + bo_jitter b <= int64_max.

(** The delay of call number [k]: nothing, then the doubled minimum, capped. *)
Definition bo_delay (b : backoffer) (k : nat) (r : Z) : Z :=
  match k with
  | O => 0
  | S j => Z.min (2 ^ Z.of_nat j * bo_min b) (bo_max b) + (if bo_jitter b =? 0 then 0 else r)
  end.

Definition rand_ok (b : backoffer) (r : Z) : Prop := bo_jitter b = 0 \/ 0 <= r < bo_jitter b.

Lemma bo_Next_step b k r :
  bo_ok b -> rand_ok b r -> bo_state b k ->
  let '(b', d) := bo_Next b r in
  d = bo_delay b k r /\ bo_state b' (S k) /\
  bo_min b' = bo_min b /\ bo_max b' = bo_max b /\ bo_jitter b' = bo_jitter b.
Proof.
  intros (Hmin & Hle & Hj & Hmax & Hsum) Hr Hst. unfold bo_Next, bo_state in *.
  destruct k as [|j]; simpl in Hst.
  - rewrite Hst. simpl. split_and!; try done; lia.
  - destruct Hst as (Hn & Hb & Hcase). rewrite (proj2 (Z.eqb_neq _ _)) by lia.
    assert (Hpow : 2 ^ Z.of_nat (S j) = 2 * 2 ^ Z.of_nat j) by (rewrite Nat2Z.inj_succ, Z.pow_succ_r; lia).
    assert (Hp : 0 < 2 ^ Z.of_nat j) by (apply Z.pow_pos_nonneg; lia).
    rewrite (wrap64_id (bo_n b * bo_min b)) by (unfold int64_min, int64_max in *; nia).
    assert (Hjit : forall d, 0 <= d <= bo_max b ->
      (if bo_jitter b =? 0 then d else wrap64 (d + r)) = d + (if bo_jitter b =? 0 then 0 else r)).
    { intros d Hd. destruct (Z.eqb_spec (bo_jitter b) 0); [lia|].
      destruct Hr as [?|Hr]; [lia|]. apply wrap64_id. unfold int64_min, int64_max in *. lia. }
    destruct (Z.ltb_spec (bo_max b) (bo_n b * bo_min b)) as [Hlt|Hge]; cbn beta iota zeta.
    + rewrite Hjit by lia. simpl. rewrite Hpow. split_and!; try done; try lia.
      rewrite Z.min_r; [done|]. destruct Hcase as [<-|[_ Hc]]; [lia|]. nia.
    + destruct Hcase as [Hc|[Hc _]]; [|lia].
      assert (bo_n b <= bo_max b) by nia.
      rewrite (wrap64_id (bo_n b * 2)) by (unfold int64_min, int64_max in *; lia).
      rewrite Hjit by nia. simpl. rewrite Hpow. split_and!; try done; try lia.
Qed.

Lemma bo_delay_cong b b' k r :
  bo_min b' = bo_min b -> bo_max b' = bo_max b -> bo_jitter b' = bo_jitter b ->
  bo_delay b' k r = bo_delay b k r.
Proof. intros H1 H2 H3. unfold bo_delay. by rewrite H1, H2, H3. Qed.

Lemma bo_delays_from b k rs :
  bo_ok b -> Forall (rand_ok b) rs -> bo_state b k ->
  bo_delays b rs = imap (fun i r => bo_delay b (k + i) r) rs.
Proof.
  revert b k; induction rs as [|r rs IH]; intros b k Hok Hrs Hst; [done|].
  apply Forall_cons in Hrs as [Hr Hrs]. cbn [bo_delays].
  pose proof (bo_Next_step b k r Hok Hr Hst) as H.
  destruct (bo_Next b r) as [b' d]. destruct H as (-> & Hst' & H1 & H2 & H3).
  simpl. rewrite Nat.add_0_r. f_equal. rewrite (IH b' (S k)).
  - apply imap_ext. intros i x _. change (bo_delay b' (S k + i)%nat x = bo_delay b (k + S i)%nat x).
    rewrite (bo_delay_cong b b') by done. f_equal. lia.
  - unfold bo_ok in *. by rewrite H1, H2, H3.
  - eapply Forall_impl; [done|]. intros x. unfold rand_ok. by rewrite H3.
  - done.
Qed.

(** ** loginLimiter *)

(** Times are nanoseconds; [None] is the zero time. *)
Record loginAttempts := Attempts { count : Z; windowFrom : Z; lockedTil : option Z }.

Definition loginMaxAttempts : Z := 5.
Definition loginWindow : Z := 5 * 60 * 1000000000.
Definition loginLockout : Z := 60 * 1000000000.

Definition loginKey (remoteAddr username : string) : string :=
  let host := match SplitHostPort remoteAddr with Some (h, _) => h | None => remoteAddr end in
  host +:+ "|" +:+ username.

Definition allow (l : gmap string loginAttempts) (now : Z) (key : string) : bool :=
  match l !! key with
  | None => true
  | Some a => match lockedTil a with
              | Some t => negb (now <? t)
              | None => true
              end
  end.

Definition recordFailure (l : gmap string loginAttempts) (now : Z) (key : string)
    : gmap string loginAttempts :=
  let a := match l !! key with
           | Some a => if loginWindow <? now - windowFrom a then Attempts 0 now None else a
           | None => Attempts 0 now None
           end in
  let c := wrap64 (count a + 1) in
  <[key := Attempts c (windowFrom a)
             (if loginMaxAttempts <=? c then Some (now + loginLockout) else lockedTil a)]> l.

Definition recordSuccess (l : gmap string loginAttempts) (key : string) : gmap string loginAttempts :=
  delete key l.

(** The events of the limiter. *)
Inductive login_event := LoginFailed (now : Z) (key : string) | LoginOk (key : string).

Definition limiter_step (l : gmap string loginAttempts) (e : login_event) :=
  match e with
  | LoginFailed now key => recordFailure l now key
  | LoginOk key => recordSuccess l key
  end.

(** Failures recorded for a key since its last success. *)
Definition failures_step (key : string) (n : Z) (e : login_event) : Z :=
  match e with
  | LoginFailed _ k => if decide (k = key) then n + 1 else n
  | LoginOk k => if decide (k = key) then 0 else n
  end.
Definition failures (key : string) (es : list login_event) : Z := foldl (failures_step key) 0 es.

(** A key is locked only after enough failures; its count never exceeds them. *)
Definition key_inv (n : Z) (o : option loginAttempts) : Prop :=
  match o with
  | None => True
  | Some a => 0 <= count a <= n /\ (lockedTil a <> None -> loginMaxAttempts <= n)
  end.

Lemma limiter_step_inv l e key n :
  0 <= n < int64_max -> key_inv n (l !! key) ->
  key_inv (failures_step key n e) (limiter_step l e !! key).
Proof.
  intros Hn Hinv. destruct e as [now k|k]; simpl.
  - unfold recordFailure. rewrite lookup_insert. repeat case_decide; subst; try done; simpl.
    assert (Hw : forall c, 0 <= c <= n -> wrap64 (c + 1) = c + 1)
      by (intros c Hc; apply wrap64_id; unfold int64_min, int64_max in *; lia).
    destruct (l !! key) as [a|]; simpl in *.
    + destruct Hinv as [Hc Hl]. destruct (loginWindow <? now - windowFrom a); simpl;
        rewrite Hw by lia; split; try lia; [done|].
      destruct (Z.leb_spec loginMaxAttempts (count a + 1)) as [E|E]; intros Hne; [lia|].
      apply Hl in Hne. lia.
    + rewrite (Hw 0) by lia. split; [lia|]. done.
  - unfold recordSuccess. rewrite lookup_delete. repeat case_decide; done.
Qed.

Lemma failures_nonneg key n es :
  0 <= n -> 0 <= foldl (failures_step key) n es <= n + Z.of_nat (length es).
Proof.
  revert n; induction es as [|e es IH]; intros n Hn; simpl; [lia|].
  assert (0 <= failures_step key n e <= n + 1) by (destruct e; simpl; case_decide; lia).
  specialize (IH (failures_step key n e)). lia.
Qed.

Lemma limiter_inv key es l n :
  0 <= n -> n + Z.of_nat (length es) < int64_max -> key_inv n (l !! key) ->
  key_inv (foldl (failures_step key) n es) (foldl limiter_step l es !! key).
Proof.
  revert l n; induction es as [|e es IH]; intros l n Hn Hlen Hinv; simpl in *; [done|].
  assert (0 <= failures_step key n e <= n + 1) by (destruct e; simpl; case_decide; lia).
  apply IH; [lia|lia|]. apply limiter_step_inv; [lia|done].
Qed.

(** ** Properties *)

(** C30: closed form of the delays. *)
Theorem backoff_delays b rs :
  bo_ok b -> Forall (rand_ok b) rs ->
  bo_delays (bo_Reset b) rs = imap (fun k r => bo_delay b k r) rs /\
  Forall (fun d => 0 <= d <= bo_max b + bo_jitter b) (bo_delays (bo_Reset b) rs).
Proof.
  intros Hok Hrs.
  assert (Heq : bo_delays (bo_Reset b) rs = imap (fun k r => bo_delay b k r) rs)
    by by apply (bo_delays_from (bo_Reset b) 0).
  split; [done|]. rewrite Heq. apply Forall_lookup. intros i d Hd.
  rewrite list_lookup_imap in Hd. destruct (rs !! i) as [r|] eqn:Er; simpl in Hd; simplify_eq.
  rewrite Forall_lookup in Hrs. specialize (Hrs i r Er).
  destruct Hok as (Hmin & Hle & Hj & _). unfold bo_delay. destruct i as [|j]; [lia|].
  assert (0 < 2 ^ Z.of_nat j) by (apply Z.pow_pos_nonneg; lia).
  destruct Hrs as [->|Hr]; [simpl|destruct (Z.eqb_spec (bo_jitter b) 0)]; nia.
Qed.

(** The delays of the bouncer's own settings: one minute doubled up to ten
    minutes, with a minute of jitter. *)
Lemma backoff_delays_witness :
  bo_delays (bo_Reset (newBackoffer 60 600 60)) [0; 5; 0; 59; 1; 30; 2]
  = [0; 65; 120; 299; 481; 630; 602].
Proof.
  rewrite (proj1 (backoff_delays (newBackoffer 60 600 60) [0; 5; 0; 59; 1; 30; 2]
    ltac:(unfold bo_ok, int64_max; simpl; lia) ltac:(repeat (constructor; [right; simpl; lia|]); constructor))).
  reflexivity.
Defined.

(** Fewer than five failures never lock. *)
Theorem limiter_allows es now key :
  Z.of_nat (length es) < int64_max -> failures key es < loginMaxAttempts ->
  allow (foldl limiter_step ∅ es) now key = true.
Proof.
  intros Hlen Hf. assert (H : key_inv (failures key es) (foldl limiter_step ∅ es !! key)).
  { apply limiter_inv; [lia|lia|]. by rewrite lookup_empty. }
  unfold allow. destruct (_ !! key) as [a|]; [|done]. destruct H as [_ H].
  destruct (lockedTil a) as [t|]; [|done]. specialize (H ltac:(done)). lia.
Qed.

Lemma limiter_allows_witness :
  allow (foldl limiter_step ∅ [LoginFailed 0 "a"; LoginFailed 1 "a"; LoginOk "b"]) 2 "a" = true.
Proof.
  apply (limiter_allows [LoginFailed 0 "a"; LoginFailed 1 "a"; LoginOk "b"] 2 "a"); reflexivity.
Defined.

(** The attempts of a key after [n] failures in one window. *)
Lemma recordFailure_again l now key a :
  l !! key = Some a -> now - windowFrom a <= loginWindow -> count a + 1 <= int64_max -> 0 <= count a ->
  recordFailure l now key !! key
  = Some (Attempts (count a + 1) (windowFrom a)
            (if loginMaxAttempts <=? count a + 1 then Some (now + loginLockout) else lockedTil a)).
Proof.
  intros Hl Hw Hc Hp. unfold recordFailure. rewrite Hl.
  rewrite (proj2 (Z.ltb_ge _ _)) by lia. rewrite lookup_insert_eq.
  rewrite wrap64_id by (unfold int64_min, int64_max in *; lia). done.
Qed.

Lemma recordFailure_first l now key :
  l !! key = None -> recordFailure l now key !! key = Some (Attempts 1 now None).
Proof. intros Hl. unfold recordFailure. rewrite Hl. by rewrite lookup_insert_eq. Qed.



Lemma loginKey_inj addr u u' : loginKey addr u = loginKey addr u' -> u = u'.
Proof. unfold loginKey. intros H%sapp_inv_head. by apply sapp_inv_head in H. Qed.

Lemma failures_sweep addr t users u :
  NoDup users -> failures (loginKey addr u) ((fun v => LoginFailed t (loginKey addr v)) <$> users) <= 1.
Proof.
  unfold failures. assert (H : forall n, NoDup users -> 0 <= n ->
    foldl (failures_step (loginKey addr u)) n ((fun v => LoginFailed t (loginKey addr v)) <$> users)
    <= n + (if decide (u ∈ users) then 1 else 0)).
  { induction users as [|v users IH]; intros n Hnd Hn; [simpl; lia|].
    apply NoDup_cons in Hnd as [Hv Hnd]. rewrite fmap_cons. cbn [foldl failures_step].
    destruct (decide (loginKey addr v = loginKey addr u)) as [Hk|Hk].
    - apply loginKey_inj in Hk as ->. specialize (IH (n + 1) Hnd ltac:(lia)).
      rewrite decide_False in IH by done. rewrite decide_True by (by left). lia.
    - specialize (IH n Hnd Hn). assert (u <> v) by (intros ->; done).
      destruct (decide (u ∈ users)); [rewrite decide_True by (by right)|]; [lia|].
      case_decide; lia. }
  intros Hnd. specialize (H 0 Hnd ltac:(lia)). case_decide; lia.
Qed.

(** A sweep over user names from one address is not throttled. *)
Theorem limiter_sweep addr t users u now :
  NoDup users -> Z.of_nat (length users) < int64_max ->
  allow (foldl limiter_step ∅ ((fun v => LoginFailed t (loginKey addr v)) <$> users)) now (loginKey addr u)
  = true.
Proof.
  intros Hnd Hlen. pose proof (failures_sweep addr t users u Hnd) as Hs.
  assert (H : key_inv (failures (loginKey addr u) ((fun v => LoginFailed t (loginKey addr v)) <$> users))
    (foldl limiter_step ∅ ((fun v => LoginFailed t (loginKey addr v)) <$> users) !! loginKey addr u)).
  { apply limiter_inv; [lia|rewrite length_fmap; lia|]. by rewrite lookup_empty. }
  unfold allow. destruct (_ !! loginKey addr u) as [a|]; [|done]. destruct H as [_ H].
  destruct (lockedTil a) as [t'|]; [|done]. specialize (H ltac:(done)).
  unfold loginMaxAttempts in H. lia.
Qed.

Lemma limiter_sweep_witness :
  allow (foldl limiter_step ∅ ((fun v => LoginFailed 0 (loginKey "10.0.0.1:5000" v))
          <$> ["root"; "admin"; "alice"; "bob"; "carol"; "dave"; "eve"])) 1 (loginKey "10.0.0.1:5000" "frank")
  = true.
Proof.
  apply (limiter_sweep "10.0.0.1:5000" 0 ["root"; "admin"; "alice"; "bob"; "carol"; "dave"; "eve"] "frank" 1);
    [|reflexivity].
  apply (bool_decide_unpack _); reflexivity.
Defined.
