(* ===== verification/MsgStore.v ===== *)
(** * Message identifiers and the in-memory message store
    (msgstore/msgstore.go, msgstore/memory.go) *)

From stdpp Require Import base list gmap strings.
From Stdlib Require Import ZArith Ascii.
From S2P Require Import Prelude GoStrings Xirc Base64.

Local Open Scope Z_scope.

(** ** The ring buffer *)

Section RingBuffer.
Context {M : Type}.

(** [cur] is a [uint64]; [None] is a nil slot. *)
Record messageRingBuffer := Ring { rb_buf : list (option M); rb_cur : Z }.

Definition newMessageRingBuffer (capacity : nat) : messageRingBuffer :=
  Ring (replicate capacity None) 1.

Definition rb_cap (rb : messageRingBuffer) : Z := Z.of_nat (length (rb_buf rb)).

Definition rb_Append (rb : messageRingBuffer) (msg : M) : messageRingBuffer * Z :=
  let seq := rb_cur rb in
  let i := Z.to_nat (seq mod rb_cap rb) in
  (Ring (<[i := Some msg]> (rb_buf rb)) (wrapu64 (rb_cur rb + 1)), seq).

Lemma rb_cap_append rb msg : rb_cap (fst (rb_Append rb msg)) = rb_cap rb.
Proof. unfold rb_cap, rb_Append; simpl. by rewrite length_insert. Qed.

Lemma rb_cap_new capacity : rb_cap (newMessageRingBuffer capacity) = Z.of_nat capacity.
Proof. unfold rb_cap, newMessageRingBuffer; simpl. by rewrite length_replicate. Qed.

Inductive ring_error := ErrSeqTooLarge (seq cur : Z).

(** [l[i] = rb.buf[(rb.cur - diff + i) % cap]] for [i] from [0] to [diff-1]. *)
Definition rb_read (rb : messageRingBuffer) (diff : Z) : list (option M) :=
  (fun i => default None (rb_buf rb !! Z.to_nat (wrapu64 (rb_cur rb - diff + Z.of_nat i) mod rb_cap rb)))
    <$> seq 0 (Z.to_nat diff).

(** [limit] is an [int]; a negative one makes a slice of negative length. *)
Definition LoadLatestSeq (rb : messageRingBuffer) (seq limit : Z) : res ring_error (list (option M)) :=
  if rb_cur rb <? seq then Err (ErrSeqTooLarge seq (rb_cur rb))
  else if seq =? rb_cur rb then Ok []
  else
    let diff := wrapu64 (rb_cur rb - seq - 1) in
    let diff := if rb_cap rb <? diff then rb_cap rb else diff in
    let diff := if limit <? wrap64 diff then wrapu64 limit else diff in
    if wrap64 diff <? 0 then Panic else Ok (rb_read rb diff).

(** *** Refinement: the buffer holds the end of the history of appends *)

Definition rb_inv (rb : messageRingBuffer) (h : list M) : Prop :=
  0 < rb_cap rb /\ rb_cap rb < 2 ^ 62 /\ rb_cur rb = Z.of_nat (length h) + 1 /\
  forall k, 0 <= k < Z.of_nat (length h) -> Z.of_nat (length h) - rb_cap rb <= k ->
    rb_buf rb !! Z.to_nat ((k + 1) mod rb_cap rb) = Some (h !! Z.to_nat k).

(** The last [n] elements. *)
Definition suffix (n : nat) (h : list M) : list M := drop (length h - n) h.

Lemma rb_inv_new capacity :
  (0 < capacity)%nat -> Z.of_nat capacity < 2 ^ 62 -> rb_inv (newMessageRingBuffer capacity) [].
Proof.
  intros Hc Hc'. unfold rb_inv. rewrite rb_cap_new; simpl. split_and!; try lia.
Qed.

Lemma mod_window_ne a b c : 0 < c -> a < b -> b - a < c -> a mod c <> b mod c.
Proof.
  intros Hc Hab Hw Heq. assert ((b - a) mod c = 0).
  { rewrite Zminus_mod, Heq, Z.sub_diag. apply Z.mod_0_l. lia. }
  rewrite Z.mod_small in H; lia.
Qed.

Lemma rb_inv_append rb h msg :
  rb_inv rb h -> Z.of_nat (length h) + 2 < 2 ^ 64 ->
  rb_inv (fst (rb_Append rb msg)) (h ++ [msg]) /\ snd (rb_Append rb msg) = Z.of_nat (length h) + 1.
Proof.
  intros (Hc & Hc' & Hcur & Hbuf) Hlen. split; [|done]. unfold rb_inv, rb_Append, rb_cap in *; simpl in *.
  rewrite length_insert, length_app; simpl. rewrite Hcur.
  assert (Hidx : forall x, (Z.to_nat (x mod Z.of_nat (length (rb_buf rb))) < length (rb_buf rb))%nat).
  { intros x. pose proof (Z.mod_pos_bound x (Z.of_nat (length (rb_buf rb))) Hc). lia. }
  split_and!; [done|done|rewrite wrapu64_id by lia; lia|]. intros k Hk Hw.
  destruct (decide (k = Z.of_nat (length h))) as [->|Hne].
  - rewrite list_lookup_insert_eq by apply Hidx. f_equal. rewrite Nat2Z.id.
    by rewrite lookup_app_r, Nat.sub_diag by lia.
  - rewrite list_lookup_insert_ne.
    + rewrite Hbuf by lia. by rewrite lookup_app_l by lia.
    + intros Heq. apply Z2Nat.inj in Heq; [|apply Z.mod_pos_bound; done..].
      unfold rb_cap in Heq. revert Heq. apply not_eq_sym, mod_window_ne; lia.
Qed.

Lemma rb_read_suffix rb h diff :
  rb_inv rb h -> Z.of_nat (length h) + 1 < 2 ^ 64 ->
  0 <= diff <= rb_cap rb -> diff <= Z.of_nat (length h) ->
  rb_read rb diff = Some <$> suffix (Z.to_nat diff) h.
Proof.
  intros (Hc & Hc' & Hcur & Hbuf) Hlen Hd Hd'. unfold rb_read, suffix. rewrite Hcur.
  apply list_eq. intros i. rewrite !list_lookup_fmap, lookup_drop.
  destruct (decide (i < Z.to_nat diff)%nat) as [Hi|Hi].
  - rewrite lookup_seq_lt by done. simpl. rewrite wrapu64_id by lia.
    replace (Z.of_nat (length h) + 1 - diff + Z.of_nat i)
      with (Z.of_nat (length h - Z.to_nat diff + i) + 1) by lia.
    rewrite Hbuf by lia. rewrite Nat2Z.id. simpl.
    destruct (h !! (length h - Z.to_nat diff + i)%nat) eqn:E; [done|].
    apply lookup_ge_None in E. lia.
  - rewrite lookup_seq_ge by lia. simpl.
    rewrite (lookup_ge_None_2 h) by lia. done.
Qed.

End RingBuffer.
Arguments messageRingBuffer : clear implicits.
Arguments newMessageRingBuffer : simpl never.
Arguments rb_Append : simpl never.

(** ** Message identifiers *)

Inductive msgIDType := msgIDNone | msgIDMemory | msgIDFS | msgIDDB.

#[export] Instance msgIDType_eq_dec : EqDecision msgIDType.
Proof. solve_decision. Defined.

Definition msgIDVersion : Z := 0.

Record msgIDHeader := MsgIDHeader {
  Version : Z;
  HNetwork : Z;
  Target : string;
  Type_ : msgIDType
}.

(** What the identifiers need of package go-bare: encodings of a header and of
    a body, each decoded from the front of the bytes it was written to. *)
Class BareCodec (B : Type) := {
  bare_header : msgIDHeader -> list ascii;
  bare_read_header : list ascii -> option (msgIDHeader * list ascii);
  bare_body : B -> list ascii;
  bare_read_body : list ascii -> option (B * list ascii)
}.

(** The documented behaviour of the codec: reading returns what was written. *)
Class BareCodecLaws (B : Type) `{!BareCodec B} := {
  bare_header_read h rest : bare_read_header (bare_header h ++ rest) = Some (h, rest);
  bare_body_read b rest : bare_read_body (bare_body b ++ rest) = Some (b, rest)
}.

Inductive id_error :=
| ErrIdBase64
| ErrIdHeader
| ErrIdVersion (v : Z)
| ErrIdType (got want : msgIDType)
| ErrIdBody.

Section MsgID.
Context {B : Type} `{!BareCodec B}.

(** [typ] is [body.msgIDType()]. *)
Definition formatMsgID (netID : Z) (target : string) (typ : msgIDType) (body : B) : string :=
  encode64 RawURLEncoding
    (bare_header (MsgIDHeader msgIDVersion netID target typ) ++ bare_body body).

(** [ParseMsgID(s, &body)]. *)
Definition ParseMsgID (s : string) (typ : msgIDType) : res id_error (Z * string * B) :=
  match decode64 RawURLEncoding s with
  | None => Err ErrIdBase64
  | Some b =>
      match bare_read_header b with
      | None => Err ErrIdHeader
      | Some (header, rest) =>
          if negb (Version header =? msgIDVersion) then Err (ErrIdVersion (Version header))
          else if negb (bool_decide (Type_ header = typ)) then Err (ErrIdType (Type_ header) typ)
          else match bare_read_body rest with
               | None => Err ErrIdBody
               | Some (body, _) => Ok (HNetwork header, Target header, body)
               end
      end
  end.

(** [ParseMsgID(s, nil)]: the type and the body are not read. *)
Definition ParseMsgID_header (s : string) : res id_error (Z * string) :=
  match decode64 RawURLEncoding s with
  | None => Err ErrIdBase64
  | Some b =>
      match bare_read_header b with
      | None => Err ErrIdHeader
      | Some (header, _) =>
          if negb (Version header =? msgIDVersion) then Err (ErrIdVersion (Version header))
          else Ok (HNetwork header, Target header)
      end
  end.

Lemma parse_format_id `{!BareCodecLaws B} netID target typ typ' body :
  ParseMsgID (formatMsgID netID target typ body) typ'
  = if bool_decide (typ = typ') then Ok (netID, target, body) else Err (ErrIdType typ typ').
Proof.
  unfold ParseMsgID, formatMsgID. rewrite decode_encode64 by apply _.
  rewrite bare_header_read. simpl. destruct (bool_decide (typ = typ')); simpl; [|done].
  pose proof (bare_body_read body []) as H. rewrite app_nil_r in H. by rewrite H.
Qed.

End MsgID.

(** ** The memory store *)

Definition messageRingBufferCap : nat := 4096%nat.

Inductive store_error :=
| ErrEventsUnsupported
| ErrBadId (e : id_error)
| ErrRing (e : ring_error).

(** [buffers map[ringBufferKey]*messageRingBuffer], keyed by network and entity. *)
Notation memoryMessageStore := (gmap (Z * string) (messageRingBuffer message)).

Section MemoryStore.
Context `{!BareCodec Z}. (* memoryMsgID: the sequence number *)

Definition NewMemoryStore : memoryMessageStore := ∅.

Definition formatMemoryMsgID (netID : Z) (entity : string) (seq : Z) : string :=
  formatMsgID netID entity msgIDMemory seq.

Definition parseMemoryMsgID (s : string) : res id_error (Z * string * Z) := ParseMsgID s msgIDMemory.

Definition mem_LastMsgID (ms : memoryMessageStore) (netID : Z) (entity : string) : string :=
  let seq := match ms !! (netID, entity) with Some rb => rb_cur rb | None => 0 end in
  formatMemoryMsgID netID entity seq.

Definition storable (msg : message) : bool :=
  bool_decide (Command msg = "PRIVMSG") || bool_decide (Command msg = "NOTICE").

Definition mem_Append (ms : memoryMessageStore) (netID : Z) (entity : string) (msg : message)
    : memoryMessageStore * string :=
  if negb (storable msg) then (ms, "")
  else
    let rb := default (newMessageRingBuffer messageRingBufferCap) (ms !! (netID, entity)) in
    let '(rb', seq) := rb_Append rb msg in
    (<[(netID, entity) := rb']> ms, formatMemoryMsgID netID entity seq).

Definition mem_LoadLatestID (ms : memoryMessageStore) (id : string) (netID : Z) (entity : string)
    (limit : Z) (events : bool) : res store_error (list (option message)) :=
  if events then Err ErrEventsUnsupported
  else match parseMemoryMsgID id with
       | Err e => Err (ErrBadId e)
       | Panic => Panic
       | Ok (_, _, seq) =>
           match ms !! (netID, entity) with
           | None => Ok []
           | Some rb => match LoadLatestSeq rb seq limit with
                        | Ok l => Ok l
                        | Err e => Err (ErrRing e)
                        | Panic => Panic
                        end
           end
       end.

(** *** Specification: a log of storable messages per network and entity *)

Definition log_of (k : Z * string) (appends : list ((Z * string) * message)) : list message :=
  snd <$> filter (fun a => fst a = k /\ storable (snd a) = true) appends.

Definition mem_run (appends : list ((Z * string) * message)) : memoryMessageStore :=
  foldl (fun ms a => fst (mem_Append ms (fst (fst a)) (snd (fst a)) (snd a))) NewMemoryStore appends.

Definition mem_inv (ms : memoryMessageStore) (appends : list ((Z * string) * message)) : Prop :=
  forall k, match ms !! k with
            | Some rb => rb_inv rb (log_of k appends) /\ log_of k appends <> []
                         /\ rb_cap rb = Z.of_nat messageRingBufferCap
            | None => log_of k appends = []
            end.

Lemma log_of_snoc k appends a :
  log_of k (appends ++ [a])
  = log_of k appends ++ (if decide (fst a = k /\ storable (snd a) = true) then [snd a] else []).
Proof. unfold log_of. rewrite filter_app, fmap_app, filter_cons. by case_decide. Qed.

Lemma length_log_of k appends : (length (log_of k appends) <= length appends)%nat.
Proof. unfold log_of. rewrite length_fmap. apply list_filter_length_le. Qed.

(** The buffer a message is appended to. *)
Definition buffer_of (ms : memoryMessageStore) (netID : Z) (entity : string) : messageRingBuffer message :=
  default (newMessageRingBuffer messageRingBufferCap) (ms !! (netID, entity)).

Lemma mem_Append_buffers ms netID entity msg :
  fst (mem_Append ms netID entity msg)
  = if storable msg
    then <[(netID, entity) := fst (rb_Append (buffer_of ms netID entity) msg)]> ms else ms.
Proof.
  unfold mem_Append. destruct (storable msg); [|done]. cbn [negb].
  fold (buffer_of ms netID entity). by destruct (rb_Append _ _).
Qed.

Lemma buffer_of_inv ms appends netID entity :
  mem_inv ms appends ->
  rb_inv (buffer_of ms netID entity) (log_of (netID, entity) appends) /\
  rb_cap (buffer_of ms netID entity) = Z.of_nat messageRingBufferCap.
Proof.
  intros Hinv. specialize (Hinv (netID, entity)). unfold buffer_of.
  destruct (ms !! (netID, entity)) as [rb0|]; cbn [default]; [naive_solver|].
  rewrite Hinv. split; [apply rb_inv_new; unfold messageRingBufferCap; lia|apply rb_cap_new].
Qed.

Lemma mem_inv_append ms appends a :
  mem_inv ms appends -> Z.of_nat (length appends) + 2 < 2 ^ 64 ->
  mem_inv (fst (mem_Append ms (fst (fst a)) (snd (fst a)) (snd a))) (appends ++ [a]).
Proof.
  intros Hinv Hlen k. destruct a as [[netID entity] msg]. cbn [fst snd].
  rewrite log_of_snoc, mem_Append_buffers. cbn [fst snd].
  pose proof (length_log_of k appends) as Hlk. destruct (storable msg) eqn:Es.
  - destruct (decide ((netID, entity) = k)) as [<-|Hne].
    + rewrite decide_True by done. rewrite lookup_insert_eq.
      destruct (buffer_of_inv ms appends netID entity Hinv) as [Hrb Hcap].
      split_and!; [apply rb_inv_append; [done|lia]|by destruct (log_of _ _)|by rewrite rb_cap_append].
    + rewrite decide_False by naive_solver. rewrite app_nil_r, lookup_insert_ne by done. apply Hinv.
  - rewrite decide_False by naive_solver. rewrite app_nil_r. apply Hinv.
Qed.

Lemma mem_run_inv appends : Z.of_nat (length appends) + 1 < 2 ^ 64 -> mem_inv (mem_run appends) appends.
Proof.
  induction appends as [|a appends IH] using rev_ind; intros Hlen.
  - intros k. unfold mem_run, NewMemoryStore; simpl. by rewrite lookup_empty.
  - unfold mem_run. rewrite foldl_app. simpl. rewrite length_app in Hlen; simpl in Hlen.
    apply mem_inv_append; [apply IH; lia|lia].
Qed.

End MemoryStore.

(** The simplest codec with the documented behaviour: numbers in unary, with a
    sign, and length-prefixed strings. *)
Module UnaryCodec.

Fixpoint put_nat (n : nat) : list ascii :=
  match n with O => ["0"%char] | S n' => "1"%char :: put_nat n' end.

Fixpoint get_nat (l : list ascii) : option (nat * list ascii) :=
  match l with
  | "0"%char :: l' => Some (O, l')
  | "1"%char :: l' => '(n, r) ← get_nat l'; Some (S n, r)
  | _ => None
  end.

Definition put_Z (z : Z) : list ascii :=
  (if z <? 0 then "-"%char else "+"%char) :: put_nat (Z.to_nat (Z.abs z)).

Definition get_Z (l : list ascii) : option (Z * list ascii) :=
  match l with
  | "-"%char :: l' => '(n, r) ← get_nat l'; Some (- Z.of_nat n, r)
  | "+"%char :: l' => '(n, r) ← get_nat l'; Some (Z.of_nat n, r)
  | _ => None
  end.

Definition type_nat (t : msgIDType) : nat :=
  match t with msgIDNone => 0 | msgIDMemory => 1 | msgIDFS => 2 | msgIDDB => 3 end%nat.
Definition nat_type (n : nat) : option msgIDType :=
  match n with 0 => Some msgIDNone | 1 => Some msgIDMemory | 2 => Some msgIDFS | 3 => Some msgIDDB
  | _ => None end%nat.

Definition put_header (h : msgIDHeader) : list ascii :=
  put_Z (Version h) ++ put_Z (HNetwork h) ++ put_nat (slen (Target h)) ++ schars (Target h)
  ++ put_nat (type_nat (Type_ h)).

Definition get_header (l : list ascii) : option (msgIDHeader * list ascii) :=
  '(v, l) ← get_Z l; '(n, l) ← get_Z l; '(k, l) ← get_nat l;
  '(t, l') ← get_nat (drop k l); t ← nat_type t;
  Some (MsgIDHeader v n (of_chars (take k l)) t, l').

Lemma get_put_nat n rest : get_nat (put_nat n ++ rest) = Some (n, rest).
Proof. induction n as [|n IH]; simpl; [done|]. by rewrite IH. Qed.

Lemma get_put_Z z rest : get_Z (put_Z z ++ rest) = Some (z, rest).
Proof.
  unfold get_Z, put_Z. destruct (Z.ltb_spec z 0); simpl; rewrite get_put_nat; simpl;
    do 2 f_equal; lia.
Qed.

#[export] Instance codec : BareCodec Z := {|
  bare_header := put_header; bare_read_header := get_header;
  bare_body := put_Z; bare_read_body := get_Z |}.

#[export] Instance codec_laws : BareCodecLaws Z.
Proof.
  split; [|apply get_put_Z]. intros [v n t ty] rest.
  change (get_header (put_header (MsgIDHeader v n t ty) ++ rest) = Some (MsgIDHeader v n t ty, rest)).
  unfold get_header, put_header. cbn [Version HNetwork Target Type_].
  rewrite <- !app_assoc, get_put_Z. cbn [mbind option_bind].
  rewrite get_put_Z. cbn [mbind option_bind]. rewrite get_put_nat. cbn [mbind option_bind].
  rewrite <- length_schars, drop_app_length, take_app_length, get_put_nat. cbn [mbind option_bind].
  rewrite of_schars. by destruct ty.
Qed.

End UnaryCodec.

(** ** Properties *)


Lemma LoadLatestSeq_spec {M} (rb : messageRingBuffer M) h seq limit :
  rb_inv rb h -> Z.of_nat (length h) + 1 < 2 ^ 63 -> 0 <= seq -> 0 <= limit < 2 ^ 63 ->
  LoadLatestSeq rb seq limit =
    if Z.of_nat (length h) + 1 <? seq then Err (ErrSeqTooLarge seq (Z.of_nat (length h) + 1))
    else if seq =? Z.of_nat (length h) + 1 then Ok []
    else Ok (Some <$> suffix (Z.to_nat (Z.min (Z.min (Z.of_nat (length h) - seq) (rb_cap rb)) limit)) h).
Proof.
  intros Hinv Hlen Hseq Hlim. pose proof Hinv as (Hc & Hc' & Hcur & _). unfold LoadLatestSeq.
  rewrite Hcur. destruct (Z.ltb_spec (Z.of_nat (length h) + 1) seq); [done|].
  destruct (Z.eqb_spec seq (Z.of_nat (length h) + 1)); [done|].
  rewrite (wrapu64_id (_ - _ - 1)) by lia.
  set (d1 := if rb_cap rb <? _ then _ else _).
  assert (Hd1 : d1 = Z.min (Z.of_nat (length h) - seq) (rb_cap rb)).
  { unfold d1. destruct (Z.ltb_spec (rb_cap rb) (Z.of_nat (length h) + 1 - seq - 1)); lia. }
  rewrite (wrap64_id d1) by (unfold int64_min, int64_max; lia).
  set (d2 := if limit <? d1 then _ else _).
  assert (Hd2 : d2 = Z.min d1 limit).
  { unfold d2. rewrite wrapu64_id by lia. destruct (Z.ltb_spec limit d1); lia. }
  rewrite (wrap64_id d2) by (unfold int64_min, int64_max; lia).
  destruct (Z.ltb_spec d2 0); [lia|]. rewrite Hd2, Hd1 in *. f_equal.
  apply rb_read_suffix; [done|lia|lia|lia].
Qed.

Section MemoryStoreProperties.
Context `{!BareCodec Z, !BareCodecLaws Z}.

Lemma mem_LoadLatestID_spec appends netID entity n limit :
  Z.of_nat (length appends) + 1 < 2 ^ 63 -> 0 <= n <= Z.of_nat (length (log_of (netID, entity) appends)) ->
  0 <= limit < 2 ^ 63 ->
  mem_LoadLatestID (mem_run appends) (formatMemoryMsgID netID entity n) netID entity limit false
  = Ok (Some <$> suffix (Z.to_nat (Z.min (Z.min (Z.of_nat (length (log_of (netID, entity) appends)) - n)
                                          (Z.of_nat messageRingBufferCap)) limit))
                  (log_of (netID, entity) appends)).
Proof.
  intros Hlen Hn Hlim. pose proof (mem_run_inv appends ltac:(lia) (netID, entity)) as Hinv.
  unfold mem_LoadLatestID, parseMemoryMsgID, formatMemoryMsgID.
  rewrite parse_format_id, bool_decide_true by done.
  pose proof (length_log_of (netID, entity) appends).
  destruct (mem_run appends !! (netID, entity)) as [rb|].
  - destruct Hinv as (Hrb & _ & Hcap).
    rewrite (LoadLatestSeq_spec rb _ n limit Hrb) by lia.
    rewrite (proj2 (Z.ltb_ge _ _)), (proj2 (Z.eqb_neq _ _)) by lia. by rewrite Hcap.
  - by rewrite Hinv.
Qed.

(** C11: a history query after any appends. *)
Theorem mem_LoadLatestID_refines appends netID entity n limit :
  Z.of_nat (length appends) + 1 < 2 ^ 63 -> 0 <= n <= Z.of_nat (length (log_of (netID, entity) appends)) ->
  0 <= limit < 2 ^ 63 ->
  mem_LoadLatestID (mem_run appends) (formatMemoryMsgID netID entity n) netID entity limit false
  = Ok (Some <$> suffix (Z.to_nat (Z.min (Z.min (Z.of_nat (length (log_of (netID, entity) appends)) - n)
                                          (Z.of_nat messageRingBufferCap)) limit))
                  (log_of (netID, entity) appends)).
Proof. apply mem_LoadLatestID_spec. Qed.

(** LastMsgID of a known target skips the next message. *)
Theorem mem_LastMsgID_skips appends netID entity msg limit :
  Z.of_nat (length appends) + 2 < 2 ^ 63 -> 1 <= limit < 2 ^ 63 -> storable msg = true ->
  mem_LoadLatestID (mem_run (appends ++ [((netID, entity), msg)]))
    (mem_LastMsgID (mem_run appends) netID entity) netID entity limit false
  = Ok (if decide (log_of (netID, entity) appends = []) then [Some msg] else []).
Proof.
  intros Hlen Hlim Hmsg. pose proof (mem_run_inv appends ltac:(lia) (netID, entity)) as Hinv.
  pose proof (length_log_of (netID, entity) appends).
  set (n := match mem_run appends !! (netID, entity) with Some rb => rb_cur rb | None => 0 end).
  assert (Hn : n = if decide (log_of (netID, entity) appends = []) then 0
                   else Z.of_nat (length (log_of (netID, entity) appends)) + 1).
  { unfold n. destruct (mem_run appends !! (netID, entity)) as [rb|].
    - destruct Hinv as ((_ & _ & Hcur & _) & Hne & _). by rewrite decide_False.
    - by rewrite decide_True. }
  change (mem_LastMsgID (mem_run appends) netID entity) with (formatMemoryMsgID netID entity n).
  rewrite mem_LoadLatestID_spec.
  - rewrite log_of_snoc, decide_True by done. rewrite length_app; simpl. rewrite Hn.
    case_decide as Hl.
    + rewrite Hl. simpl. unfold messageRingBufferCap. rewrite !Z.min_l by lia. done.
    + rewrite Z.min_l by (unfold messageRingBufferCap; lia).
      unfold suffix. rewrite drop_ge; [done|]. rewrite length_app; simpl. lia.
  - rewrite length_app; simpl. lia.
  - rewrite log_of_snoc, decide_True, length_app by done. simpl. rewrite Hn. case_decide; lia.
  - lia.
Qed.

End MemoryStoreProperties.

(** The hypotheses hold on concrete stores. *)
Module MsgStoreWitnesses.
Import UnaryCodec.


Definition a_msg (text : string) : message := mk_msg "PRIVMSG" ["#go"; text].

Lemma mem_LoadLatestID_refines_witness :
  mem_LoadLatestID (mem_run [((1, "#go"), a_msg "a"); ((2, "#go"), a_msg "x"); ((1, "#go"), a_msg "b")])
    (formatMemoryMsgID 1 "#go" 1) 1 "#go" 10 false
  = Ok [Some (a_msg "b")].
Proof.
  exact (mem_LoadLatestID_refines [((1, "#go"), a_msg "a"); ((2, "#go"), a_msg "x"); ((1, "#go"), a_msg "b")]
    1 "#go" 1 10 ltac:(simpl; lia) ltac:(simpl; lia) ltac:(lia)).
Defined.

Lemma mem_LastMsgID_skips_witness :
  mem_LoadLatestID (mem_run ([((1, "#go"), a_msg "a")] ++ [((1, "#go"), a_msg "b")]))
    (mem_LastMsgID (mem_run [((1, "#go"), a_msg "a")]) 1 "#go") 1 "#go" 10 false
  = Ok [].
Proof.
  exact (mem_LastMsgID_skips [((1, "#go"), a_msg "a")] 1 "#go" (a_msg "b") 10
    ltac:(simpl; lia) ltac:(lia) eq_refl).
Defined.

End MsgStoreWitnesses.
