(* ===== verification/Database.v ===== *)
(** * Database records (database/database.go) and network attributes (downstream.go)

    The records of users, networks, channels and ignores with their derived
    names, and the BOUNCER network attributes computed from them. *)

From stdpp Require Import base list gmap strings.
From Stdlib Require Import ZArith Ascii.
From S2P Require Import Prelude GoStrings Xirc.

(** ** Records *)

Record UserRec := MkUser {
  u_ID : Z;
  u_Username : string;
  u_Password : string;
  u_Nick : string;
  u_Realname : string;
  u_Admin : bool;
  u_Enabled : bool;
  u_DownstreamInteractedAt : Z;
  u_MaxNetworks : Z;
  u_SourceIP : string;
  u_CertBlob : list ascii;
  u_PrivKeyBlob : list ascii
}.

Definition NewUser (username : string) : UserRec :=
  MkUser 0 username "" "" "" false true 0 (-1) "" [] [].

Record SASLRec := MkSASL {
  s_Mechanism : string;
  s_PlainUsername : string;
  s_PlainPassword : string;
  s_CertBlob : list ascii;
  s_PrivKeyBlob : list ascii
}.

Record NetworkRec := MkNetwork {
  n_ID : Z;
  n_Name : string;
  n_Addr : string;
  n_Nick : string;
  n_Username : string;
  n_Realname : string;
  n_Pass : string;
  n_ConnectCommands : list string;
  n_CertFP : string;
  n_SASL : SASLRec;
  n_AutoAway : bool;
  n_Enabled : bool;
  n_SourceIP : string;
  n_TLSInsecure : bool;
  n_NoDefaultCert : bool
}.

Definition NewNetwork (addr : string) : NetworkRec :=
  MkNetwork 0 "" addr "" "" "" "" [] "" (MkSASL "" "" "" [] []) false true "" false false.

Inductive MessageFilter := FilterDefault | FilterNone | FilterHighlight | FilterMessage.

#[export] Instance MessageFilter_eq_dec : EqDecision MessageFilter.
Proof. solve_decision. Defined.

Record ChannelRec := MkChannel {
  ch_ID : Z;
  ch_Name : string;
  ch_Key : string;
  ch_Detached : bool;
  ch_DetachedInternalMsgID : string;
  ch_RelayDetached : MessageFilter;
  ch_ReattachOn : MessageFilter;
  ch_DetachAfter : Z;
  ch_DetachOn : MessageFilter
}.

Record IgnoreRec := MkIgnore { ig_ID : Z; ig_Mask : string; ig_CreatedAt : Z }.

Record DeliveryReceipt := MkReceipt {
  dr_ID : Z; dr_Target : string; dr_Client : string; dr_InternalMsgID : string
}.

(** Record updates used by the handlers. *)
Definition with_ID (n : NetworkRec) (id : Z) : NetworkRec :=
  MkNetwork id (n_Name n) (n_Addr n) (n_Nick n) (n_Username n) (n_Realname n) (n_Pass n)
    (n_ConnectCommands n) (n_CertFP n) (n_SASL n) (n_AutoAway n) (n_Enabled n) (n_SourceIP n)
    (n_TLSInsecure n) (n_NoDefaultCert n).
Definition with_SASL (n : NetworkRec) (s : SASLRec) : NetworkRec :=
  MkNetwork (n_ID n) (n_Name n) (n_Addr n) (n_Nick n) (n_Username n) (n_Realname n) (n_Pass n)
    (n_ConnectCommands n) (n_CertFP n) s (n_AutoAway n) (n_Enabled n) (n_SourceIP n)
    (n_TLSInsecure n) (n_NoDefaultCert n).
(** Name, address, nick, user name, real name and password. *)
Definition with_ident (n : NetworkRec) (name addr nick username realname pass : string) : NetworkRec :=
  MkNetwork (n_ID n) name addr nick username realname pass
    (n_ConnectCommands n) (n_CertFP n) (n_SASL n) (n_AutoAway n) (n_Enabled n) (n_SourceIP n)
    (n_TLSInsecure n) (n_NoDefaultCert n).

Definition with_detached (c : ChannelRec) (detached : bool) (msgID : string) : ChannelRec :=
  MkChannel (ch_ID c) (ch_Name c) (ch_Key c) detached msgID (ch_RelayDetached c) (ch_ReattachOn c)
    (ch_DetachAfter c) (ch_DetachOn c).

(** ** Names *)

Definition nonempty (s : string) : bool := negb (bool_decide (s = "")).

Definition GetName (net : NetworkRec) : string :=
  if nonempty (n_Name net) then n_Name net else n_Addr net.

(** [net] is [None] for a nil network. *)
Definition GetNick (user : UserRec) (net : option NetworkRec) : string :=
  match net with
  | Some n => if nonempty (n_Nick n) then n_Nick n
              else if nonempty (u_Nick user) then u_Nick user else u_Username user
  | None => if nonempty (u_Nick user) then u_Nick user else u_Username user
  end.

Definition GetUsername (user : UserRec) (net : option NetworkRec) : string :=
  match net with
  | Some n => if nonempty (n_Username n) then n_Username n else GetNick user net
  | None => GetNick user net
  end.

Definition GetRealname (user : UserRec) (net : option NetworkRec) : string :=
  match net with
  | Some n => if nonempty (n_Realname n) then n_Realname n
              else if nonempty (u_Realname user) then u_Realname user else GetNick user net
  | None => if nonempty (u_Realname user) then u_Realname user else GetNick user net
  end.

Record MessageTargetRec := MkMessageTarget {
  mt_ID : Z;
  mt_Target : string;
  mt_Pinned : bool;
  mt_Muted : bool;
  mt_Blocked : bool
}.

(** ** Passwords *)

Inductive password_error := ErrPasswordDisabled | ErrWrongPassword | ErrInvalidCost | ErrHash.

Definition with_Password (u : UserRec) (p : string) : UserRec :=
  MkUser (u_ID u) (u_Username u) p (u_Nick u) (u_Realname u) (u_Admin u) (u_Enabled u)
    (u_DownstreamInteractedAt u) (u_MaxNetworks u) (u_SourceIP u) (u_CertBlob u) (u_PrivKeyBlob u).

Section Passwords.
(** Package bcrypt: comparison of a hash with a password, cost of a hash,
    hashing at the default cost. *)
Context (bcrypt_Compare : string -> string -> bool) (bcrypt_Cost : string -> option Z)
        (bcrypt_Generate : string -> option string) (bcrypt_DefaultCost : Z).

Definition SetPassword (u : UserRec) (password : string) : res password_error UserRec :=
  match bcrypt_Generate password with
  | None => Err ErrHash
  | Some hashed => Ok (with_Password u hashed)
  end.

(** The result is [(upgraded, err)] and the user, whose password a failed
    upgrade leaves as it was. *)
Definition CheckPassword (u : UserRec) (password : string) : UserRec * bool * option password_error :=
  if bool_decide (u_Password u = "") then (u, false, Some ErrPasswordDisabled)
  else if negb (bcrypt_Compare (u_Password u) password) then (u, false, Some ErrWrongPassword)
  else match bcrypt_Cost (u_Password u) with
       | None => (u, false, Some ErrInvalidCost)
       | Some passCost =>
           if (passCost <? bcrypt_DefaultCost)%Z then
             match SetPassword u password with
             | Ok u' => (u', true, None)
             | Err e => (u, true, Some e)
             | Panic => (u, true, None)
             end
           else (u, false, None)
       end.
End Passwords.

(** ** Network URL *)

(** The fields of [url.URL] the code reads; [url_User] tells whether the URL
    has user information. *)
Record URL := MkURL {
  Scheme : string; url_User : bool; url_Host : string; Path : string;
  RawQuery : string; Fragment : string
}.

Section Network_URL.
(** [url.Parse] of package net/url; [None] is a parse error. *)
Context (url_Parse : string -> option URL).

Definition is_unix_scheme (s : string) : bool :=
  bool_decide (s = "irc+unix") || bool_decide (s = "unix").

Definition Network_URL (net : NetworkRec) : option URL :=
  let s := if Contains (n_Addr net) "://" then n_Addr net else "ircs://" +:+ n_Addr net in
  u ← url_Parse s;
  Some (if is_unix_scheme (Scheme u)
        then MkURL (Scheme u) (url_User u) "" (url_Host u +:+ Path u) (RawQuery u) (Fragment u)
        else u).

(** ** BOUNCER network attributes (downstream.go) *)

Definition parseBouncerNetID (subcommand s : string) : res message Z :=
  match Atoi s with
  | Some id => if (0 <? id)%Z then Ok id
               else Err (mk_msg "FAIL" ["BOUNCER"; "INVALID_NETID"; subcommand; s; "Invalid network ID"])
  | None => Err (mk_msg "FAIL" ["BOUNCER"; "INVALID_NETID"; subcommand; s; "Invalid network ID"])
  end.

Definition fillNetworkAddrAttrs (attrs : gmap string string) (network : NetworkRec) : gmap string string :=
  match Network_URL network with
  | None => attrs
  | Some u =>
      let with_host attrs :=
        match SplitHostPort (url_Host u) with
        | Some (host, port) => <["port" := port]> (<["host" := host]> attrs)
        | None => <["host" := url_Host u]> attrs
        end in
      if bool_decide (Scheme u = "ircs") then with_host (<["tls" := "1"]> attrs)
      else if bool_decide (Scheme u = "irc+insecure") then with_host (<["tls" := "0"]> attrs)
      else attrs
  end.

(** [connected] and [lastError] are those of the network object. *)
Definition getNetworkAttrs (user : UserRec) (net : NetworkRec) (connected : bool) (lastError : option string)
    : gmap string string :=
  let attrs : gmap string string :=
    {["name" := GetName net;
      "state" := if connected then "connected" else "disconnected";
      "nickname" := GetNick user (Some net)]} in
  let attrs := if nonempty (n_Username net) then <["username" := n_Username net]> attrs else attrs in
  let realname := GetRealname user (Some net) in
  let attrs := if nonempty realname then <["realname" := realname]> attrs else attrs in
  let attrs := match lastError with Some e => <["error" := e]> attrs | None => attrs end in
  fillNetworkAddrAttrs attrs net.

Definition tag (attrs : gmap string string) (k : string) : string := default "" (attrs !! k).

Definition networkAddrFromAttrs (attrs : gmap string string) : string :=
  let host := tag attrs "host" in
  if bool_decide (host = "") then ""
  else
    let addr := if nonempty (tag attrs "port") then host +:+ ":" +:+ tag attrs "port" else host in
    if bool_decide (tag attrs "tls" = "0") then "irc+insecure://" +:+ addr else addr.

(** One turn of the loop over the attributes: the record, the address
    attributes and [updateAddr]. *)
Definition attr_step (subcommand : string) (st : NetworkRec * gmap string string * bool)
    (kv : string * string) : res message (NetworkRec * gmap string string * bool) :=
  let '(r, addrAttrs, updateAddr) := st in
  let '(k, s) := kv in
  let set name nick username realname pass :=
    Ok (with_ident r name (n_Addr r) nick username realname pass, addrAttrs, updateAddr) in
  if bool_decide (k ∈ ["host"; "port"; "tls"]) then Ok (r, <[k := s]> addrAttrs, true)
  else if bool_decide (k = "name") then set s (n_Nick r) (n_Username r) (n_Realname r) (n_Pass r)
  else if bool_decide (k = "nickname") then set (n_Name r) s (n_Username r) (n_Realname r) (n_Pass r)
  else if bool_decide (k = "username") then set (n_Name r) (n_Nick r) s (n_Realname r) (n_Pass r)
  else if bool_decide (k = "realname") then set (n_Name r) (n_Nick r) (n_Username r) s (n_Pass r)
  else if bool_decide (k = "pass") then set (n_Name r) (n_Nick r) (n_Username r) (n_Realname r) s
  else Err (mk_msg "FAIL" ["BOUNCER"; "UNKNOWN_ATTRIBUTE"; subcommand; k; "Unknown attribute"]).

Fixpoint attr_loop (subcommand : string) (order : list (string * string))
    (st : NetworkRec * gmap string string * bool)
    : res message (NetworkRec * gmap string string * bool) :=
  match order with
  | [] => Ok st
  | kv :: order' => let? st' := attr_step subcommand st kv in attr_loop subcommand order' st'
  end.

(** [updateNetworkAttrs] for an iteration order of the attributes. *)
Definition updateNetworkAttrs (record : NetworkRec) (order : list (string * string)) (subcommand : string)
    : res message NetworkRec :=
  let? st := attr_loop subcommand order (record, fillNetworkAddrAttrs ∅ record, false) in
  let '(r, addrAttrs, updateAddr) := st in
  if updateAddr then
    let addr := networkAddrFromAttrs addrAttrs in
    if bool_decide (addr = "")
    then Err (mk_msg "FAIL" ["BOUNCER"; "NEED_ATTRIBUTE"; subcommand; "host"; "Missing required host attribute"])
    else Ok (with_ident r (n_Name r) addr (n_Nick r) (n_Username r) (n_Realname r) (n_Pass r))
  else Ok r.

End Network_URL.

(** ** The order of the attributes does not matter *)

Definition known_attrs : list string :=
  ["host"; "port"; "tls"; "name"; "nickname"; "username"; "realname"; "pass"].

(** What a known attribute does to the loop state. *)
Definition attr_apply (kv : string * string) (st : NetworkRec * gmap string string * bool)
    : NetworkRec * gmap string string * bool :=
  match attr_step "" st kv with Ok st' => st' | _ => st end.

Lemma attr_step_known subcommand st kv :
  fst kv ∈ known_attrs -> attr_step subcommand st kv = Ok (attr_apply kv st).
Proof.
  destruct st as [[r a] b], kv as [k s]. unfold known_attrs, attr_apply; cbn [fst].
  rewrite !elem_of_cons, !elem_of_nil. intros H. by decompose [or] H; subst.
Qed.

Lemma attr_apply_addr k s r a b :
  bool_decide (k ∈ ["host"; "port"; "tls"]) = true -> attr_apply (k, s) (r, a, b) = (r, <[k := s]> a, true).
Proof. intros H. unfold attr_apply, attr_step. by rewrite H. Qed.

Lemma attr_apply_comm kv kv' st :
  fst kv ∈ known_attrs -> fst kv' ∈ known_attrs -> fst kv <> fst kv' ->
  attr_apply kv (attr_apply kv' st) = attr_apply kv' (attr_apply kv st).
Proof.
  destruct st as [[r a] b], kv as [k s], kv' as [k' s']. unfold known_attrs; cbn [fst].
  rewrite !elem_of_cons, !elem_of_nil. intros H H' Hne.
  decompose [or] H; decompose [or] H'; subst; try done; try reflexivity;
    rewrite !attr_apply_addr by reflexivity; by rewrite insert_insert_ne by done.
Qed.

Lemma attr_loop_known subcommand order st :
  Forall (fun kv => fst kv ∈ known_attrs) order ->
  attr_loop subcommand order st = Ok (foldl (fun st kv => attr_apply kv st) st order).
Proof.
  intros H. revert st; induction H as [|kv order Hk _ IH]; intros st; [done|].
  cbn [attr_loop]. rewrite attr_step_known by done. cbn [res_bind foldl]. apply IH.
Qed.

Lemma attr_fold_perm (order order' : list (string * string)) :
  order ≡ₚ order' -> NoDup order.*1 -> Forall (fun kv => fst kv ∈ known_attrs) order ->
  forall st, foldl (fun st kv => attr_apply kv st) st order = foldl (fun st kv => attr_apply kv st) st order'.
Proof.
  induction 1 as [|kv l l' Hp IH|x y l|l1 l2 l3 H1 IH1 H2 IH2]; intros Hnd Hk st; [done|..].
  - cbn [foldl]. apply NoDup_cons in Hnd as [_ Hnd]. apply Forall_cons in Hk as [_ Hk]. by apply IH.
  - cbn [foldl]. f_equal. apply NoDup_cons in Hnd as [Hx _].
    apply Forall_cons in Hk as [Hky Hk]. apply Forall_cons in Hk as [Hkx _].
    apply attr_apply_comm; try done. set_solver.
  - rewrite IH1 by done. apply IH2; [by rewrite <- H1|by rewrite <- H1].
Qed.

(** ** Properties *)

(** Attribute updates do not depend on the map iteration order. *)
Theorem updateNetworkAttrs_order url_Parse record order order' subcommand :
  order ≡ₚ order' -> NoDup order.*1 -> Forall (fun kv => fst kv ∈ known_attrs) order ->
  updateNetworkAttrs url_Parse record order subcommand
  = updateNetworkAttrs url_Parse record order' subcommand.
Proof.
  intros Hp Hnd Hk. unfold updateNetworkAttrs.
  assert (Hk' : Forall (fun kv => fst kv ∈ known_attrs) order') by (by rewrite <- Hp).
  rewrite !attr_loop_known by done. cbn [res_bind]. by rewrite (attr_fold_perm _ _ Hp).
Qed.

(** A stand-in for [url.Parse] that knows one URL. *)
Definition one_url (s : string) (u : URL) (s' : string) : option URL :=
  if bool_decide (s' = s) then Some u else None.

Lemma updateNetworkAttrs_order_witness :
  updateNetworkAttrs (one_url "ircs://irc.example.org" (MkURL "ircs" false "irc.example.org" "" "" ""))
    (NewNetwork "irc.example.org") [("name", "ex"); ("port", "6698")] "CHANGENETWORK"
  = updateNetworkAttrs (one_url "ircs://irc.example.org" (MkURL "ircs" false "irc.example.org" "" "" ""))
    (NewNetwork "irc.example.org") [("port", "6698"); ("name", "ex")] "CHANGENETWORK".
Proof.
  apply (updateNetworkAttrs_order _ _ [("name", "ex"); ("port", "6698")]); by_eval.
Defined.

(** Changing the port of a network with an IPv6 address drops the brackets. *)
Theorem updateNetworkAttrs_ipv6 url_Parse :
  url_Parse "ircs://[::1]:6697" = Some (MkURL "ircs" false "[::1]:6697" "" "" "") ->
  exists r, updateNetworkAttrs url_Parse (NewNetwork "[::1]:6697") [("port", "6698")] "CHANGENETWORK" = Ok r
    /\ n_Addr r = "::1:6698" /\ SplitHostPort (n_Addr r) = None.
Proof.
  intros Hu. unfold updateNetworkAttrs, fillNetworkAddrAttrs, Network_URL.
  change (if Contains (n_Addr (NewNetwork "[::1]:6697")) "://" then n_Addr (NewNetwork "[::1]:6697")
          else "ircs://" +:+ n_Addr (NewNetwork "[::1]:6697")) with "ircs://[::1]:6697".
  rewrite Hu. eexists. split_and!; vm_compute; reflexivity.
Qed.

Lemma updateNetworkAttrs_ipv6_witness :
  exists r, updateNetworkAttrs (one_url "ircs://[::1]:6697" (MkURL "ircs" false "[::1]:6697" "" "" ""))
      (NewNetwork "[::1]:6697") [("port", "6698")] "CHANGENETWORK" = Ok r /\ n_Addr r = "::1:6698".
Proof.
  destruct (updateNetworkAttrs_ipv6 (one_url "ircs://[::1]:6697" (MkURL "ircs" false "[::1]:6697" "" "" "")))
    as (r & H1 & H2 & _); [reflexivity|]. by exists r.
Defined.
