(* ===== verification/Handler.v ===== *)
(** * A monad for message handlers

    The handlers of the bouncer mutate the objects they are methods of, call
    methods of other objects and may return an error half way, keeping the
    changes made so far. [handler S E A] threads the state through such code:
    an error or a panic ends the computation and keeps the state. *)

From stdpp Require Import base list gmap strings.
From Stdlib Require Import ZArith.
From S2P Require Import Prelude.

Definition handler (S E A : Type) : Type := S -> S * res E A.

Section Handler.
Context {S E : Type}.

#[export] Instance handler_ret : MRet (handler S E) := fun A a s => (s, Ok a).

#[export] Instance handler_bind : MBind (handler S E) := fun A B k m s =>
  match m s with
  | (s', Ok a) => k a s'
  | (s', Err e) => (s', Err e)
  | (s', Panic) => (s', Panic)
  end.

(** [return err] *)
Definition raise {A} (e : E) : handler S E A := fun s => (s, Err e).
Definition panic {A} : handler S E A := fun s => (s, Panic).
Definition gets {A} (f : S -> A) : handler S E A := fun s => (s, Ok (f s)).
Definition modify (f : S -> S) : handler S E unit := fun s => (f s, Ok tt).
(** [if b { m }] *)
Definition when (b : bool) (m : handler S E unit) : handler S E unit := if b then m else mret tt.
(** [for _, x := range l { f(x) }] *)
Fixpoint for_each {A} (l : list A) (f : A -> handler S E unit) : handler S E unit :=
  match l with
  | [] => mret tt
  | x :: l' => f x ≫= fun _ => for_each l' f
  end.
(** A value computed by fallible code without side effects. *)
Definition lift {A} (r : res E A) : handler S E A := fun s => (s, r).

Lemma bind_ret {A B} (a : A) (k : A -> handler S E B) s : (mret a ≫= k) s = k a s.
Proof. done. Qed.
Lemma bind_gets {A B} (f : S -> A) (k : A -> handler S E B) s : (gets f ≫= k) s = k (f s) s.
Proof. done. Qed.
Lemma bind_modify {B} (f : S -> S) (k : unit -> handler S E B) s : (modify f ≫= k) s = k tt (f s).
Proof. done. Qed.
Lemma bind_lift {A B} (a : A) (k : A -> handler S E B) s : (lift (Ok a) ≫= k) s = k a s.
Proof. done. Qed.
Lemma bind_ok {A B} (m : handler S E A) (k : A -> handler S E B) s s' a :
  m s = (s', Ok a) -> (m ≫= k) s = k a s'.
Proof. intros Hm. unfold mbind, handler_bind. by rewrite Hm. Qed.

Lemma bind_inv {A B} (m : handler S E A) (k : A -> handler S E B) s s' b :
  (m ≫= k) s = (s', Ok b) -> exists s1 a, m s = (s1, Ok a) /\ k a s1 = (s', Ok b).
Proof. unfold mbind, handler_bind. destruct (m s) as [s1 [a|e|]]; [by eexists _, _|done|done]. Qed.

(** ** Reasoning about handlers

    [wp I m Ψ s]: run from [s], [m] does not panic, ends in a state that
    satisfies [I] when it returns an error, and in [Ψ] otherwise. *)
Definition wp (I : S -> Prop) {A} (m : handler S E A) (Ψ : A -> S -> Prop) (s : S) : Prop :=
  match m s with
  | (s', Ok a) => Ψ a s'
  | (s', Err _) => I s'
  | (_, Panic) => False
  end.

(** [safe I m Φ]: from a state that satisfies the invariant [I], [m] ends in
    such a state without panicking, and a value it returns satisfies [Φ]. *)
Definition safe (I : S -> Prop) {A} (m : handler S E A) (Φ : A -> Prop) : Prop :=
  forall s, I s -> wp I m (fun a s' => I s' /\ Φ a) s.

Context (I : S -> Prop).

Lemma wp_ret {A} (a : A) Ψ s : Ψ a s -> wp I (mret a) Ψ s.
Proof. done. Qed.
Lemma wp_bind {A B} (m : handler S E A) (k : A -> handler S E B) Ψ s :
  wp I m (fun a s' => wp I (k a) Ψ s') s -> wp I (m ≫= k) Ψ s.
Proof. unfold wp, mbind, handler_bind. by destruct (m s) as [s' [a|e|]]. Qed.
Lemma wp_gets {A} (f : S -> A) Ψ s : Ψ (f s) s -> wp I (gets f) Ψ s.
Proof. done. Qed.
Lemma wp_modify (f : S -> S) Ψ s : Ψ tt (f s) -> wp I (modify f) Ψ s.
Proof. done. Qed.
Lemma wp_raise {A} (e : E) (Ψ : A -> S -> Prop) s : I s -> wp I (raise e) Ψ s.
Proof. done. Qed.
Lemma wp_lift {A} (r : res E A) Ψ s :
  match r with Ok a => Ψ a s | Err _ => I s | Panic => False end -> wp I (lift r) Ψ s.
Proof. by destruct r. Qed.
Lemma wp_call {A} (m : handler S E A) (Φ : A -> Prop) Ψ s :
  safe I m Φ -> I s -> (forall a s', I s' -> Φ a -> Ψ a s') -> wp I m Ψ s.
Proof.
  intros Hm Hs H. specialize (Hm s Hs). unfold wp in *.
  destruct (m s) as [s' [a|e|]]; [|done|done]. destruct Hm. auto.
Qed.

Lemma safe_weaken {A} (m : handler S E A) (Φ Φ' : A -> Prop) :
  (forall a, Φ a -> Φ' a) -> safe I m Φ -> safe I m Φ'.
Proof. intros H Hm s Hs. eapply wp_call; [done|done|]. auto. Qed.

Lemma safe_for_each {A} (l : list A) f (P : A -> Prop) :
  Forall P l -> (forall x, P x -> safe I (f x) (fun _ => True)) -> safe I (for_each l f) (fun _ => True).
Proof.
  intros Hl Hf. induction Hl as [|x l Hx _ IH]; intros s Hs; simpl; [done|].
  apply wp_bind. eapply wp_call; [by apply Hf|done|]. intros _ s' Hs' _. by apply IH.
Qed.

Lemma safe_for_each_all {A} (l : list A) f :
  (forall x, safe I (f x) (fun _ => True)) -> safe I (for_each l f) (fun _ => True).
Proof. intros Hf. apply (safe_for_each l f (fun _ => True)); [by apply Forall_true|auto]. Qed.

End Handler.

(** With no state allowed for errors, [wp] is total correctness. *)
Lemma wp_total {S E A} (m : handler S E A) (Ψ : A -> S -> Prop) s :
  wp (fun _ => False) m Ψ s -> exists s' a, m s = (s', Ok a) /\ Ψ a s'.
Proof. unfold wp. destruct (m s) as [s' [a|e|]]; [eauto|done|done]. Qed.

(** ** Handlers whose errors matter

    [wpe Q m Ψ s]: run from [s], [m] does not panic, and ends in [Q] with the
    error it returns or in [Ψ] with its value. *)
Section Errors.
Context {S E : Type}.

Definition wpe (Q : E -> S -> Prop) {A} (m : handler S E A) (Ψ : A -> S -> Prop) (s : S) : Prop :=
  match m s with
  | (s', Ok a) => Ψ a s'
  | (s', Err e) => Q e s'
  | (_, Panic) => False
  end.

(** From an invariant to it, with errors that satisfy [R]. *)
Definition safee (I : S -> Prop) (R : E -> Prop) {A} (m : handler S E A) (Φ : A -> Prop) : Prop :=
  forall s, I s -> wpe (fun e s' => I s' /\ R e) m (fun a s' => I s' /\ Φ a) s.

Context (Q : E -> S -> Prop).

Lemma wpe_bind {A B} (m : handler S E A) (k : A -> handler S E B) Ψ s :
  wpe Q m (fun a s' => wpe Q (k a) Ψ s') s -> wpe Q (m ≫= k) Ψ s.
Proof. unfold wpe, mbind, handler_bind. by destruct (m s) as [s' [a|e|]]. Qed.
Lemma wpe_ret {A} (a : A) Ψ s : Ψ a s -> wpe Q (mret a) Ψ s.
Proof. done. Qed.
Lemma wpe_gets {A} (f : S -> A) Ψ s : Ψ (f s) s -> wpe Q (gets f) Ψ s.
Proof. done. Qed.
Lemma wpe_modify (f : S -> S) Ψ s : Ψ tt (f s) -> wpe Q (modify f) Ψ s.
Proof. done. Qed.
Lemma wpe_raise {A} (e : E) (Ψ : A -> S -> Prop) s : Q e s -> wpe Q (raise e) Ψ s.
Proof. done. Qed.
Lemma wpe_lift {A} (r : res E A) Ψ s :
  match r with Ok a => Ψ a s | Err e => Q e s | Panic => False end -> wpe Q (lift r) Ψ s.
Proof. by destruct r. Qed.

Lemma wpe_mono {A} (m : handler S E A) (Ψ Ψ' : A -> S -> Prop) s :
  wpe Q m Ψ s -> (forall a s', Ψ a s' -> Ψ' a s') -> wpe Q m Ψ' s.
Proof. unfold wpe. destruct (m s) as [s' [a|e|]]; auto. Qed.
Lemma wpe_run {A} (m : handler S E A) (Ψ : A -> S -> Prop) s s' a : m s = (s', Ok a) -> Ψ a s' -> wpe Q m Ψ s.
Proof. unfold wpe. by intros ->. Qed.

Context (I : S -> Prop) (R : E -> Prop).

Lemma wpe_call {A} (m : handler S E A) (Φ : A -> Prop) Ψ s :
  safee I R m Φ -> I s -> (forall e s', I s' -> R e -> Q e s') -> (forall a s', I s' -> Φ a -> Ψ a s') -> wpe Q m Ψ s.
Proof.
  intros Hm Hs HQ H. specialize (Hm s Hs). unfold wpe in *. destruct (m s) as [s' [a|e|]]; [|destruct Hm; auto|done].
  destruct Hm. auto.
Qed.

Lemma safee_for_each {A} (l : list A) f (P : A -> Prop) :
  Forall P l -> (forall x, P x -> safee I R (f x) (fun _ => True)) -> safee I R (for_each l f) (fun _ => True).
Proof.
  intros Hl Hf. induction Hl as [|x l Hx _ IH]; intros s Hs; simpl; [done|]. specialize (Hf x Hx s Hs).
  unfold wpe, mbind, handler_bind in *. destruct (f x s) as [s' [a|e|]]; [|done|done]. by apply IH, Hf.
Qed.

End Errors.

(** ** Handlers that keep a property

    Whatever the outcome, also an error or a panic. *)
Section Keeps.
Context {S E : Type} (P : S -> Prop).

Definition keeps {A} (m : handler S E A) : Prop := forall s, P s -> P (fst (m s)).

Lemma keeps_ret {A} (a : A) : keeps (mret a).
Proof. intros s Hs. exact Hs. Qed.
Lemma keeps_raise {A} (e : E) : keeps (A := A) (raise e).
Proof. intros s Hs. exact Hs. Qed.
Lemma keeps_panic {A} : keeps (A := A) panic.
Proof. intros s Hs. exact Hs. Qed.
Lemma keeps_gets {A} (f : S -> A) : keeps (gets f).
Proof. intros s Hs. exact Hs. Qed.
Lemma keeps_lift {A} (r : res E A) : keeps (lift r).
Proof. intros s Hs. exact Hs. Qed.
Lemma keeps_modify (f : S -> S) : (forall s, P s -> P (f s)) -> keeps (modify f).
Proof. intros Hf s. apply Hf. Qed.
Lemma keeps_bind {A B} (m : handler S E A) (k : A -> handler S E B) :
  keeps m -> (forall a, keeps (k a)) -> keeps (m ≫= k).
Proof.
  intros Hm Hk s Hs. specialize (Hm s Hs). unfold mbind, handler_bind.
  destruct (m s) as [s' [a|e|]]; [by apply Hk|done|done].
Qed.
Lemma keeps_when b m : keeps m -> keeps (when b m).
Proof. intros Hm. destruct b; [done|apply keeps_ret]. Qed.
Lemma keeps_for_each {A} (l : list A) f : (forall x, keeps (f x)) -> keeps (for_each l f).
Proof. intros Hf. induction l; cbn; [apply keeps_ret|]. apply keeps_bind; auto. Qed.

End Keeps.

(** ** Handlers that always succeed *)
Section Total.
Context {S E : Type}.

Definition total {A} (m : handler S E A) : Prop := forall s, is_ok (snd (m s)) = true.

Lemma total_ret {A} (a : A) : total (mret a).
Proof. done. Qed.
Lemma total_gets {A} (f : S -> A) : total (gets f).
Proof. done. Qed.
Lemma total_modify (f : S -> S) : total (modify f).
Proof. done. Qed.
Lemma total_bind {A B} (m : handler S E A) (k : A -> handler S E B) :
  total m -> (forall a, total (k a)) -> total (m ≫= k).
Proof.
  intros Hm Hk s. specialize (Hm s). unfold mbind, handler_bind.
  destruct (m s) as [s' [a|e|]]; [apply Hk|done|done].
Qed.
Lemma total_when b m : total m -> total (when b m).
Proof. intros Hm. by destruct b. Qed.
Lemma total_for_each {A} (l : list A) f : (forall x, total (f x)) -> total (for_each l f).
Proof. intros Hf. induction l; [done|]. apply total_bind; auto. Qed.

(** A step that succeeds and keeps a property. *)
Lemma bind_step {A B} (P : S -> Prop) (m : handler S E A) (k : A -> handler S E B) s :
  total m -> keeps P m -> P s -> exists s' a, P s' /\ (m ≫= k) s = k a s'.
Proof.
  intros Hm Hk Hs. specialize (Hm s). specialize (Hk s Hs). unfold mbind, handler_bind.
  destruct (m s) as [s' [a|e|]]; [eauto|done|done].
Qed.

End Total.

(** The result of a run, from its value. *)
Lemma run_result {S A} (x : S * A) (a : A) : snd x = a -> x = (fst x, a).
Proof. by destruct x; intros <-. Qed.

(** Run a handler on a state: unfold its combinators and reduce. *)
Ltac hrun :=
  repeat progress (unfold mbind, handler_bind, mret, handler_ret, gets, modify, raise, panic, lift, when in *; cbn).
