(* ===== verification/Session.v ===== *)
(** * Objects of a user session (user.go, upstream.go, downstream.go)

    The structs the handlers of a user goroutine work on (network, upstream
    and downstream connections), the calls between them, and what the handlers
    get from outside. *)

From stdpp Require Import base list gmap strings.
From Stdlib Require Import ZArith Ascii.
From S2P Require Import Prelude GoStrings Casemapping Xirc Sasl Irc Rate Database Handler.

Local Open Scope Z_scope.

(** ** Iteration over Go maps

    The order is unspecified; the development is parametric in it. *)
Class MapOrder := {
  map_order : forall {V : Type}, gmap string V -> list (string * V);
  map_order_perm : forall {V : Type} (m : gmap string V), map_order m ≡ₚ map_to_list m
}.

#[export] Instance default_order : MapOrder.
Proof. exact {| map_order V := map_to_list; map_order_perm V m := Permutation_refl _ |}. Defined.

(** The entries in the order of a call of [ForEach]. *)
Definition iter `{MapOrder} {V} (cmm : CaseMappingMap V) : list (caseMappingEntry V) :=
  (map_order (cmm_m cmm)).*2.

Lemma iter_perm `{MapOrder} {V} (cmm : CaseMappingMap V) : iter cmm ≡ₚ entries cmm.
Proof. unfold iter, entries. by rewrite map_order_perm. Qed.

Lemma elem_of_iter `{MapOrder} {V} (cmm : CaseMappingMap V) e :
  e ∈ iter cmm <-> exists k, cmm_m cmm !! k = Some e.
Proof. rewrite iter_perm. apply elem_of_entries. Qed.

(** [SetCaseMapping] in the order of the iteration. *)
Definition Recase `{MapOrder} {V} (cmm : CaseMappingMap V) (cm : CaseMapping) : CaseMappingMap V :=
  SetCaseMapping_in (iter cmm) cm.

(** ** Message stores (msgstore.go)

    What the handlers need of [msgstore.Store]: [LastMsgID] and [Append] may
    fail. *)
Class Store (St : Type) := {
  st_LastMsgID : St -> NetworkRec -> string -> Z -> option string;
  st_Append : St -> NetworkRec -> string -> message -> St * option string
}.

(** ** Upstream channels, batches, users and pending commands *)

(** [uch_detachTimer] is the delay of a running timer. *)
Record upstreamChannel := UChan {
  uch_Name : string;
  uch_Topic : string;
  uch_TopicWho : option prefix;
  uch_TopicTime : Z;
  uch_Status : option ascii;
  uch_modes : option (gmap ascii string);
  uch_creationTime : string;
  uch_Members : CaseMappingMap (list Membership);
  uch_complete : bool;
  uch_detachTimer : option Z
}.
Definition set_uch_Topic (v : string) (x : upstreamChannel) : upstreamChannel :=
  UChan (uch_Name x) v (uch_TopicWho x) (uch_TopicTime x) (uch_Status x) (uch_modes x)
    (uch_creationTime x) (uch_Members x) (uch_complete x) (uch_detachTimer x).
Definition set_uch_TopicWho (v : option prefix) (x : upstreamChannel) : upstreamChannel :=
  UChan (uch_Name x) (uch_Topic x) v (uch_TopicTime x) (uch_Status x) (uch_modes x) (uch_creationTime x)
    (uch_Members x) (uch_complete x) (uch_detachTimer x).
Definition set_uch_TopicTime (v : Z) (x : upstreamChannel) : upstreamChannel :=
  UChan (uch_Name x) (uch_Topic x) (uch_TopicWho x) v (uch_Status x) (uch_modes x) (uch_creationTime x)
    (uch_Members x) (uch_complete x) (uch_detachTimer x).
Definition set_uch_Status (v : option ascii) (x : upstreamChannel) : upstreamChannel :=
  UChan (uch_Name x) (uch_Topic x) (uch_TopicWho x) (uch_TopicTime x) v (uch_modes x)
    (uch_creationTime x) (uch_Members x) (uch_complete x) (uch_detachTimer x).
Definition set_uch_modes (v : option (gmap ascii string)) (x : upstreamChannel) : upstreamChannel :=
  UChan (uch_Name x) (uch_Topic x) (uch_TopicWho x) (uch_TopicTime x) (uch_Status x) v
    (uch_creationTime x) (uch_Members x) (uch_complete x) (uch_detachTimer x).
Definition set_uch_creationTime (v : string) (x : upstreamChannel) : upstreamChannel :=
  UChan (uch_Name x) (uch_Topic x) (uch_TopicWho x) (uch_TopicTime x) (uch_Status x) (uch_modes x) v
    (uch_Members x) (uch_complete x) (uch_detachTimer x).
Definition set_uch_Members (v : CaseMappingMap (list Membership)) (x : upstreamChannel) : upstreamChannel :=
  UChan (uch_Name x) (uch_Topic x) (uch_TopicWho x) (uch_TopicTime x) (uch_Status x) (uch_modes x)
    (uch_creationTime x) v (uch_complete x) (uch_detachTimer x).
Definition set_uch_complete (v : bool) (x : upstreamChannel) : upstreamChannel :=
  UChan (uch_Name x) (uch_Topic x) (uch_TopicWho x) (uch_TopicTime x) (uch_Status x) (uch_modes x)
    (uch_creationTime x) (uch_Members x) v (uch_detachTimer x).
Definition set_uch_detachTimer (v : option Z) (x : upstreamChannel) : upstreamChannel :=
  UChan (uch_Name x) (uch_Topic x) (uch_TopicWho x) (uch_TopicTime x) (uch_Status x) (uch_modes x)
    (uch_creationTime x) (uch_Members x) (uch_complete x) v.

(** [&upstreamChannel{Name: ch, conn: uc, Members: members}]. *)
Definition new_uch (name : string) (cm : CaseMapping) : upstreamChannel :=
  UChan name "" None 0 None None "" (NewCaseMappingMap cm) false None.

Inductive upstreamBatch := UBatch {
  b_Type : string;
  b_Params : list string;
  b_Outer : option upstreamBatch;
  b_Label : string
}.

Record upstreamUser := UUser {
  uu_Nickname : string; uu_Username : string; uu_Hostname : string; uu_Server : string;
  uu_Flags : string; uu_Account : string; uu_Realname : string
}.

Definition empty_user : upstreamUser := UUser "" "" "" "" "" "" "".

(** [p_sentAt] is [None] for the zero time. *)
Record pendingUpstreamCommand := Pending {
  p_downstreamID : Z;
  p_downstreamLabel : string;
  p_msg : message;
  p_sentAt : option Z
}.

(** The clients of go-sasl the code creates, by their constructor calls. *)
Inductive sasl_client :=
| PlainClient (identity username password : string)
| ExternalClient (identity : string).

(** ** Upstream connections *)

(** The timer of [uc_regainNickTimer] is the delay it was last set to;
    [uc_rateLimit] is a field of the embedded [conn]; [uc_orphanTimers] are the
    running detach timers of channel objects that are no longer in the map. *)
Record upstreamConn := UConn {
  uc_serverPrefix : prefix;
  uc_serverName : string;
  uc_availableUserModes : string;
  uc_availableChannelModes : gmap ascii channelModeType;
  uc_availableChannelTypes : string;
  uc_availableStatusMsg : string;
  uc_availableMemberships : list Membership;
  uc_isupport : gmap string (option string);
  uc_registered : bool;
  uc_nick : string;
  uc_username : string;
  uc_realname : string;
  uc_hostname : string;
  uc_modes : userModes;
  uc_channels : CaseMappingMap upstreamChannel;
  uc_users : CaseMappingMap upstreamUser;
  uc_caps : CapRegistry;
  uc_batches : gmap string upstreamBatch;
  uc_away : bool;
  uc_account : string;
  uc_nextLabelID : Z;
  uc_monitored : CaseMappingMap bool;
  uc_saslClient : option sasl_client;
  uc_saslStarted : bool;
  uc_pendingCmds : gmap string (list pendingUpstreamCommand);
  uc_pendingRegainNick : string;
  uc_regainNickTimer : option Z;
  uc_regainNickBackoff : option backoffer;
  uc_gotMotd : bool;
  uc_clientCertSent : bool;
  uc_hasDesiredNick : bool;
  uc_rateLimit : bool;
  uc_orphanTimers : list (string * Z)
}.
Definition set_uc_serverPrefix (v : prefix) (x : upstreamConn) : upstreamConn :=
  UConn v (uc_serverName x) (uc_availableUserModes x) (uc_availableChannelModes x)
    (uc_availableChannelTypes x) (uc_availableStatusMsg x) (uc_availableMemberships x)
    (uc_isupport x) (uc_registered x) (uc_nick x) (uc_username x) (uc_realname x) (uc_hostname x)
    (uc_modes x) (uc_channels x) (uc_users x) (uc_caps x) (uc_batches x) (uc_away x) (uc_account x)
    (uc_nextLabelID x) (uc_monitored x) (uc_saslClient x) (uc_saslStarted x) (uc_pendingCmds x)
    (uc_pendingRegainNick x) (uc_regainNickTimer x) (uc_regainNickBackoff x) (uc_gotMotd x)
    (uc_clientCertSent x) (uc_hasDesiredNick x) (uc_rateLimit x) (uc_orphanTimers x).
Definition set_uc_serverName (v : string) (x : upstreamConn) : upstreamConn :=
  UConn (uc_serverPrefix x) v (uc_availableUserModes x) (uc_availableChannelModes x)
    (uc_availableChannelTypes x) (uc_availableStatusMsg x) (uc_availableMemberships x)
    (uc_isupport x) (uc_registered x) (uc_nick x) (uc_username x) (uc_realname x) (uc_hostname x)
    (uc_modes x) (uc_channels x) (uc_users x) (uc_caps x) (uc_batches x) (uc_away x) (uc_account x)
    (uc_nextLabelID x) (uc_monitored x) (uc_saslClient x) (uc_saslStarted x) (uc_pendingCmds x)
    (uc_pendingRegainNick x) (uc_regainNickTimer x) (uc_regainNickBackoff x) (uc_gotMotd x)
    (uc_clientCertSent x) (uc_hasDesiredNick x) (uc_rateLimit x) (uc_orphanTimers x).
Definition set_uc_availableUserModes (v : string) (x : upstreamConn) : upstreamConn :=
  UConn (uc_serverPrefix x) (uc_serverName x) v (uc_availableChannelModes x)
    (uc_availableChannelTypes x) (uc_availableStatusMsg x) (uc_availableMemberships x)
    (uc_isupport x) (uc_registered x) (uc_nick x) (uc_username x) (uc_realname x) (uc_hostname x)
    (uc_modes x) (uc_channels x) (uc_users x) (uc_caps x) (uc_batches x) (uc_away x) (uc_account x)
    (uc_nextLabelID x) (uc_monitored x) (uc_saslClient x) (uc_saslStarted x) (uc_pendingCmds x)
    (uc_pendingRegainNick x) (uc_regainNickTimer x) (uc_regainNickBackoff x) (uc_gotMotd x)
    (uc_clientCertSent x) (uc_hasDesiredNick x) (uc_rateLimit x) (uc_orphanTimers x).
Definition set_uc_availableChannelModes (v : gmap ascii channelModeType) (x : upstreamConn) : upstreamConn :=
  UConn (uc_serverPrefix x) (uc_serverName x) (uc_availableUserModes x) v (uc_availableChannelTypes x)
    (uc_availableStatusMsg x) (uc_availableMemberships x) (uc_isupport x) (uc_registered x)
    (uc_nick x) (uc_username x) (uc_realname x) (uc_hostname x) (uc_modes x) (uc_channels x)
    (uc_users x) (uc_caps x) (uc_batches x) (uc_away x) (uc_account x) (uc_nextLabelID x)
    (uc_monitored x) (uc_saslClient x) (uc_saslStarted x) (uc_pendingCmds x)
    (uc_pendingRegainNick x) (uc_regainNickTimer x) (uc_regainNickBackoff x) (uc_gotMotd x)
    (uc_clientCertSent x) (uc_hasDesiredNick x) (uc_rateLimit x) (uc_orphanTimers x).
Definition set_uc_availableChannelTypes (v : string) (x : upstreamConn) : upstreamConn :=
  UConn (uc_serverPrefix x) (uc_serverName x) (uc_availableUserModes x) (uc_availableChannelModes x) v
    (uc_availableStatusMsg x) (uc_availableMemberships x) (uc_isupport x) (uc_registered x)
    (uc_nick x) (uc_username x) (uc_realname x) (uc_hostname x) (uc_modes x) (uc_channels x)
    (uc_users x) (uc_caps x) (uc_batches x) (uc_away x) (uc_account x) (uc_nextLabelID x)
    (uc_monitored x) (uc_saslClient x) (uc_saslStarted x) (uc_pendingCmds x)
    (uc_pendingRegainNick x) (uc_regainNickTimer x) (uc_regainNickBackoff x) (uc_gotMotd x)
    (uc_clientCertSent x) (uc_hasDesiredNick x) (uc_rateLimit x) (uc_orphanTimers x).
Definition set_uc_availableStatusMsg (v : string) (x : upstreamConn) : upstreamConn :=
  UConn (uc_serverPrefix x) (uc_serverName x) (uc_availableUserModes x) (uc_availableChannelModes x)
    (uc_availableChannelTypes x) v (uc_availableMemberships x) (uc_isupport x) (uc_registered x)
    (uc_nick x) (uc_username x) (uc_realname x) (uc_hostname x) (uc_modes x) (uc_channels x)
    (uc_users x) (uc_caps x) (uc_batches x) (uc_away x) (uc_account x) (uc_nextLabelID x)
    (uc_monitored x) (uc_saslClient x) (uc_saslStarted x) (uc_pendingCmds x)
    (uc_pendingRegainNick x) (uc_regainNickTimer x) (uc_regainNickBackoff x) (uc_gotMotd x)
    (uc_clientCertSent x) (uc_hasDesiredNick x) (uc_rateLimit x) (uc_orphanTimers x).
Definition set_uc_availableMemberships (v : list Membership) (x : upstreamConn) : upstreamConn :=
  UConn (uc_serverPrefix x) (uc_serverName x) (uc_availableUserModes x) (uc_availableChannelModes x)
    (uc_availableChannelTypes x) (uc_availableStatusMsg x) v (uc_isupport x) (uc_registered x)
    (uc_nick x) (uc_username x) (uc_realname x) (uc_hostname x) (uc_modes x) (uc_channels x)
    (uc_users x) (uc_caps x) (uc_batches x) (uc_away x) (uc_account x) (uc_nextLabelID x)
    (uc_monitored x) (uc_saslClient x) (uc_saslStarted x) (uc_pendingCmds x)
    (uc_pendingRegainNick x) (uc_regainNickTimer x) (uc_regainNickBackoff x) (uc_gotMotd x)
    (uc_clientCertSent x) (uc_hasDesiredNick x) (uc_rateLimit x) (uc_orphanTimers x).
Definition set_uc_isupport (v : gmap string (option string)) (x : upstreamConn) : upstreamConn :=
  UConn (uc_serverPrefix x) (uc_serverName x) (uc_availableUserModes x) (uc_availableChannelModes x)
    (uc_availableChannelTypes x) (uc_availableStatusMsg x) (uc_availableMemberships x) v
    (uc_registered x) (uc_nick x) (uc_username x) (uc_realname x) (uc_hostname x) (uc_modes x)
    (uc_channels x) (uc_users x) (uc_caps x) (uc_batches x) (uc_away x) (uc_account x)
    (uc_nextLabelID x) (uc_monitored x) (uc_saslClient x) (uc_saslStarted x) (uc_pendingCmds x)
    (uc_pendingRegainNick x) (uc_regainNickTimer x) (uc_regainNickBackoff x) (uc_gotMotd x)
    (uc_clientCertSent x) (uc_hasDesiredNick x) (uc_rateLimit x) (uc_orphanTimers x).
Definition set_uc_registered (v : bool) (x : upstreamConn) : upstreamConn :=
  UConn (uc_serverPrefix x) (uc_serverName x) (uc_availableUserModes x) (uc_availableChannelModes x)
    (uc_availableChannelTypes x) (uc_availableStatusMsg x) (uc_availableMemberships x)
    (uc_isupport x) v (uc_nick x) (uc_username x) (uc_realname x) (uc_hostname x) (uc_modes x)
    (uc_channels x) (uc_users x) (uc_caps x) (uc_batches x) (uc_away x) (uc_account x)
    (uc_nextLabelID x) (uc_monitored x) (uc_saslClient x) (uc_saslStarted x) (uc_pendingCmds x)
    (uc_pendingRegainNick x) (uc_regainNickTimer x) (uc_regainNickBackoff x) (uc_gotMotd x)
    (uc_clientCertSent x) (uc_hasDesiredNick x) (uc_rateLimit x) (uc_orphanTimers x).
Definition set_uc_nick (v : string) (x : upstreamConn) : upstreamConn :=
  UConn (uc_serverPrefix x) (uc_serverName x) (uc_availableUserModes x) (uc_availableChannelModes x)
    (uc_availableChannelTypes x) (uc_availableStatusMsg x) (uc_availableMemberships x)
    (uc_isupport x) (uc_registered x) v (uc_username x) (uc_realname x) (uc_hostname x) (uc_modes x)
    (uc_channels x) (uc_users x) (uc_caps x) (uc_batches x) (uc_away x) (uc_account x)
    (uc_nextLabelID x) (uc_monitored x) (uc_saslClient x) (uc_saslStarted x) (uc_pendingCmds x)
    (uc_pendingRegainNick x) (uc_regainNickTimer x) (uc_regainNickBackoff x) (uc_gotMotd x)
    (uc_clientCertSent x) (uc_hasDesiredNick x) (uc_rateLimit x) (uc_orphanTimers x).
Definition set_uc_username (v : string) (x : upstreamConn) : upstreamConn :=
  UConn (uc_serverPrefix x) (uc_serverName x) (uc_availableUserModes x) (uc_availableChannelModes x)
    (uc_availableChannelTypes x) (uc_availableStatusMsg x) (uc_availableMemberships x)
    (uc_isupport x) (uc_registered x) (uc_nick x) v (uc_realname x) (uc_hostname x) (uc_modes x)
    (uc_channels x) (uc_users x) (uc_caps x) (uc_batches x) (uc_away x) (uc_account x)
    (uc_nextLabelID x) (uc_monitored x) (uc_saslClient x) (uc_saslStarted x) (uc_pendingCmds x)
    (uc_pendingRegainNick x) (uc_regainNickTimer x) (uc_regainNickBackoff x) (uc_gotMotd x)
    (uc_clientCertSent x) (uc_hasDesiredNick x) (uc_rateLimit x) (uc_orphanTimers x).
Definition set_uc_realname (v : string) (x : upstreamConn) : upstreamConn :=
  UConn (uc_serverPrefix x) (uc_serverName x) (uc_availableUserModes x) (uc_availableChannelModes x)
    (uc_availableChannelTypes x) (uc_availableStatusMsg x) (uc_availableMemberships x)
    (uc_isupport x) (uc_registered x) (uc_nick x) (uc_username x) v (uc_hostname x) (uc_modes x)
    (uc_channels x) (uc_users x) (uc_caps x) (uc_batches x) (uc_away x) (uc_account x)
    (uc_nextLabelID x) (uc_monitored x) (uc_saslClient x) (uc_saslStarted x) (uc_pendingCmds x)
    (uc_pendingRegainNick x) (uc_regainNickTimer x) (uc_regainNickBackoff x) (uc_gotMotd x)
    (uc_clientCertSent x) (uc_hasDesiredNick x) (uc_rateLimit x) (uc_orphanTimers x).
Definition set_uc_hostname (v : string) (x : upstreamConn) : upstreamConn :=
  UConn (uc_serverPrefix x) (uc_serverName x) (uc_availableUserModes x) (uc_availableChannelModes x)
    (uc_availableChannelTypes x) (uc_availableStatusMsg x) (uc_availableMemberships x)
    (uc_isupport x) (uc_registered x) (uc_nick x) (uc_username x) (uc_realname x) v (uc_modes x)
    (uc_channels x) (uc_users x) (uc_caps x) (uc_batches x) (uc_away x) (uc_account x)
    (uc_nextLabelID x) (uc_monitored x) (uc_saslClient x) (uc_saslStarted x) (uc_pendingCmds x)
    (uc_pendingRegainNick x) (uc_regainNickTimer x) (uc_regainNickBackoff x) (uc_gotMotd x)
    (uc_clientCertSent x) (uc_hasDesiredNick x) (uc_rateLimit x) (uc_orphanTimers x).
Definition set_uc_modes (v : userModes) (x : upstreamConn) : upstreamConn :=
  UConn (uc_serverPrefix x) (uc_serverName x) (uc_availableUserModes x) (uc_availableChannelModes x)
    (uc_availableChannelTypes x) (uc_availableStatusMsg x) (uc_availableMemberships x)
    (uc_isupport x) (uc_registered x) (uc_nick x) (uc_username x) (uc_realname x) (uc_hostname x) v
    (uc_channels x) (uc_users x) (uc_caps x) (uc_batches x) (uc_away x) (uc_account x)
    (uc_nextLabelID x) (uc_monitored x) (uc_saslClient x) (uc_saslStarted x) (uc_pendingCmds x)
    (uc_pendingRegainNick x) (uc_regainNickTimer x) (uc_regainNickBackoff x) (uc_gotMotd x)
    (uc_clientCertSent x) (uc_hasDesiredNick x) (uc_rateLimit x) (uc_orphanTimers x).
Definition set_uc_channels (v : CaseMappingMap upstreamChannel) (x : upstreamConn) : upstreamConn :=
  UConn (uc_serverPrefix x) (uc_serverName x) (uc_availableUserModes x) (uc_availableChannelModes x)
    (uc_availableChannelTypes x) (uc_availableStatusMsg x) (uc_availableMemberships x)
    (uc_isupport x) (uc_registered x) (uc_nick x) (uc_username x) (uc_realname x) (uc_hostname x)
    (uc_modes x) v (uc_users x) (uc_caps x) (uc_batches x) (uc_away x) (uc_account x)
    (uc_nextLabelID x) (uc_monitored x) (uc_saslClient x) (uc_saslStarted x) (uc_pendingCmds x)
    (uc_pendingRegainNick x) (uc_regainNickTimer x) (uc_regainNickBackoff x) (uc_gotMotd x)
    (uc_clientCertSent x) (uc_hasDesiredNick x) (uc_rateLimit x) (uc_orphanTimers x).
Definition set_uc_users (v : CaseMappingMap upstreamUser) (x : upstreamConn) : upstreamConn :=
  UConn (uc_serverPrefix x) (uc_serverName x) (uc_availableUserModes x) (uc_availableChannelModes x)
    (uc_availableChannelTypes x) (uc_availableStatusMsg x) (uc_availableMemberships x)
    (uc_isupport x) (uc_registered x) (uc_nick x) (uc_username x) (uc_realname x) (uc_hostname x)
    (uc_modes x) (uc_channels x) v (uc_caps x) (uc_batches x) (uc_away x) (uc_account x)
    (uc_nextLabelID x) (uc_monitored x) (uc_saslClient x) (uc_saslStarted x) (uc_pendingCmds x)
    (uc_pendingRegainNick x) (uc_regainNickTimer x) (uc_regainNickBackoff x) (uc_gotMotd x)
    (uc_clientCertSent x) (uc_hasDesiredNick x) (uc_rateLimit x) (uc_orphanTimers x).
Definition set_uc_caps (v : CapRegistry) (x : upstreamConn) : upstreamConn :=
  UConn (uc_serverPrefix x) (uc_serverName x) (uc_availableUserModes x) (uc_availableChannelModes x)
    (uc_availableChannelTypes x) (uc_availableStatusMsg x) (uc_availableMemberships x)
    (uc_isupport x) (uc_registered x) (uc_nick x) (uc_username x) (uc_realname x) (uc_hostname x)
    (uc_modes x) (uc_channels x) (uc_users x) v (uc_batches x) (uc_away x) (uc_account x)
    (uc_nextLabelID x) (uc_monitored x) (uc_saslClient x) (uc_saslStarted x) (uc_pendingCmds x)
    (uc_pendingRegainNick x) (uc_regainNickTimer x) (uc_regainNickBackoff x) (uc_gotMotd x)
    (uc_clientCertSent x) (uc_hasDesiredNick x) (uc_rateLimit x) (uc_orphanTimers x).
Definition set_uc_batches (v : gmap string upstreamBatch) (x : upstreamConn) : upstreamConn :=
  UConn (uc_serverPrefix x) (uc_serverName x) (uc_availableUserModes x) (uc_availableChannelModes x)
    (uc_availableChannelTypes x) (uc_availableStatusMsg x) (uc_availableMemberships x)
    (uc_isupport x) (uc_registered x) (uc_nick x) (uc_username x) (uc_realname x) (uc_hostname x)
    (uc_modes x) (uc_channels x) (uc_users x) (uc_caps x) v (uc_away x) (uc_account x)
    (uc_nextLabelID x) (uc_monitored x) (uc_saslClient x) (uc_saslStarted x) (uc_pendingCmds x)
    (uc_pendingRegainNick x) (uc_regainNickTimer x) (uc_regainNickBackoff x) (uc_gotMotd x)
    (uc_clientCertSent x) (uc_hasDesiredNick x) (uc_rateLimit x) (uc_orphanTimers x).
Definition set_uc_away (v : bool) (x : upstreamConn) : upstreamConn :=
  UConn (uc_serverPrefix x) (uc_serverName x) (uc_availableUserModes x) (uc_availableChannelModes x)
    (uc_availableChannelTypes x) (uc_availableStatusMsg x) (uc_availableMemberships x)
    (uc_isupport x) (uc_registered x) (uc_nick x) (uc_username x) (uc_realname x) (uc_hostname x)
    (uc_modes x) (uc_channels x) (uc_users x) (uc_caps x) (uc_batches x) v (uc_account x)
    (uc_nextLabelID x) (uc_monitored x) (uc_saslClient x) (uc_saslStarted x) (uc_pendingCmds x)
    (uc_pendingRegainNick x) (uc_regainNickTimer x) (uc_regainNickBackoff x) (uc_gotMotd x)
    (uc_clientCertSent x) (uc_hasDesiredNick x) (uc_rateLimit x) (uc_orphanTimers x).
Definition set_uc_account (v : string) (x : upstreamConn) : upstreamConn :=
  UConn (uc_serverPrefix x) (uc_serverName x) (uc_availableUserModes x) (uc_availableChannelModes x)
    (uc_availableChannelTypes x) (uc_availableStatusMsg x) (uc_availableMemberships x)
    (uc_isupport x) (uc_registered x) (uc_nick x) (uc_username x) (uc_realname x) (uc_hostname x)
    (uc_modes x) (uc_channels x) (uc_users x) (uc_caps x) (uc_batches x) (uc_away x) v
    (uc_nextLabelID x) (uc_monitored x) (uc_saslClient x) (uc_saslStarted x) (uc_pendingCmds x)
    (uc_pendingRegainNick x) (uc_regainNickTimer x) (uc_regainNickBackoff x) (uc_gotMotd x)
    (uc_clientCertSent x) (uc_hasDesiredNick x) (uc_rateLimit x) (uc_orphanTimers x).
Definition set_uc_nextLabelID (v : Z) (x : upstreamConn) : upstreamConn :=
  UConn (uc_serverPrefix x) (uc_serverName x) (uc_availableUserModes x) (uc_availableChannelModes x)
    (uc_availableChannelTypes x) (uc_availableStatusMsg x) (uc_availableMemberships x)
    (uc_isupport x) (uc_registered x) (uc_nick x) (uc_username x) (uc_realname x) (uc_hostname x)
    (uc_modes x) (uc_channels x) (uc_users x) (uc_caps x) (uc_batches x) (uc_away x) (uc_account x)
    v (uc_monitored x) (uc_saslClient x) (uc_saslStarted x) (uc_pendingCmds x)
    (uc_pendingRegainNick x) (uc_regainNickTimer x) (uc_regainNickBackoff x) (uc_gotMotd x)
    (uc_clientCertSent x) (uc_hasDesiredNick x) (uc_rateLimit x) (uc_orphanTimers x).
Definition set_uc_monitored (v : CaseMappingMap bool) (x : upstreamConn) : upstreamConn :=
  UConn (uc_serverPrefix x) (uc_serverName x) (uc_availableUserModes x) (uc_availableChannelModes x)
    (uc_availableChannelTypes x) (uc_availableStatusMsg x) (uc_availableMemberships x)
    (uc_isupport x) (uc_registered x) (uc_nick x) (uc_username x) (uc_realname x) (uc_hostname x)
    (uc_modes x) (uc_channels x) (uc_users x) (uc_caps x) (uc_batches x) (uc_away x) (uc_account x)
    (uc_nextLabelID x) v (uc_saslClient x) (uc_saslStarted x) (uc_pendingCmds x)
    (uc_pendingRegainNick x) (uc_regainNickTimer x) (uc_regainNickBackoff x) (uc_gotMotd x)
    (uc_clientCertSent x) (uc_hasDesiredNick x) (uc_rateLimit x) (uc_orphanTimers x).
Definition set_uc_saslClient (v : option sasl_client) (x : upstreamConn) : upstreamConn :=
  UConn (uc_serverPrefix x) (uc_serverName x) (uc_availableUserModes x) (uc_availableChannelModes x)
    (uc_availableChannelTypes x) (uc_availableStatusMsg x) (uc_availableMemberships x)
    (uc_isupport x) (uc_registered x) (uc_nick x) (uc_username x) (uc_realname x) (uc_hostname x)
    (uc_modes x) (uc_channels x) (uc_users x) (uc_caps x) (uc_batches x) (uc_away x) (uc_account x)
    (uc_nextLabelID x) (uc_monitored x) v (uc_saslStarted x) (uc_pendingCmds x)
    (uc_pendingRegainNick x) (uc_regainNickTimer x) (uc_regainNickBackoff x) (uc_gotMotd x)
    (uc_clientCertSent x) (uc_hasDesiredNick x) (uc_rateLimit x) (uc_orphanTimers x).
Definition set_uc_saslStarted (v : bool) (x : upstreamConn) : upstreamConn :=
  UConn (uc_serverPrefix x) (uc_serverName x) (uc_availableUserModes x) (uc_availableChannelModes x)
    (uc_availableChannelTypes x) (uc_availableStatusMsg x) (uc_availableMemberships x)
    (uc_isupport x) (uc_registered x) (uc_nick x) (uc_username x) (uc_realname x) (uc_hostname x)
    (uc_modes x) (uc_channels x) (uc_users x) (uc_caps x) (uc_batches x) (uc_away x) (uc_account x)
    (uc_nextLabelID x) (uc_monitored x) (uc_saslClient x) v (uc_pendingCmds x)
    (uc_pendingRegainNick x) (uc_regainNickTimer x) (uc_regainNickBackoff x) (uc_gotMotd x)
    (uc_clientCertSent x) (uc_hasDesiredNick x) (uc_rateLimit x) (uc_orphanTimers x).
Definition set_uc_pendingCmds (v : gmap string (list pendingUpstreamCommand)) (x : upstreamConn) : upstreamConn :=
  UConn (uc_serverPrefix x) (uc_serverName x) (uc_availableUserModes x) (uc_availableChannelModes x)
    (uc_availableChannelTypes x) (uc_availableStatusMsg x) (uc_availableMemberships x)
    (uc_isupport x) (uc_registered x) (uc_nick x) (uc_username x) (uc_realname x) (uc_hostname x)
    (uc_modes x) (uc_channels x) (uc_users x) (uc_caps x) (uc_batches x) (uc_away x) (uc_account x)
    (uc_nextLabelID x) (uc_monitored x) (uc_saslClient x) (uc_saslStarted x) v
    (uc_pendingRegainNick x) (uc_regainNickTimer x) (uc_regainNickBackoff x) (uc_gotMotd x)
    (uc_clientCertSent x) (uc_hasDesiredNick x) (uc_rateLimit x) (uc_orphanTimers x).
Definition set_uc_pendingRegainNick (v : string) (x : upstreamConn) : upstreamConn :=
  UConn (uc_serverPrefix x) (uc_serverName x) (uc_availableUserModes x) (uc_availableChannelModes x)
    (uc_availableChannelTypes x) (uc_availableStatusMsg x) (uc_availableMemberships x)
    (uc_isupport x) (uc_registered x) (uc_nick x) (uc_username x) (uc_realname x) (uc_hostname x)
    (uc_modes x) (uc_channels x) (uc_users x) (uc_caps x) (uc_batches x) (uc_away x) (uc_account x)
    (uc_nextLabelID x) (uc_monitored x) (uc_saslClient x) (uc_saslStarted x) (uc_pendingCmds x) v
    (uc_regainNickTimer x) (uc_regainNickBackoff x) (uc_gotMotd x) (uc_clientCertSent x)
    (uc_hasDesiredNick x) (uc_rateLimit x) (uc_orphanTimers x).
Definition set_uc_regainNickTimer (v : option Z) (x : upstreamConn) : upstreamConn :=
  UConn (uc_serverPrefix x) (uc_serverName x) (uc_availableUserModes x) (uc_availableChannelModes x)
    (uc_availableChannelTypes x) (uc_availableStatusMsg x) (uc_availableMemberships x)
    (uc_isupport x) (uc_registered x) (uc_nick x) (uc_username x) (uc_realname x) (uc_hostname x)
    (uc_modes x) (uc_channels x) (uc_users x) (uc_caps x) (uc_batches x) (uc_away x) (uc_account x)
    (uc_nextLabelID x) (uc_monitored x) (uc_saslClient x) (uc_saslStarted x) (uc_pendingCmds x)
    (uc_pendingRegainNick x) v (uc_regainNickBackoff x) (uc_gotMotd x) (uc_clientCertSent x)
    (uc_hasDesiredNick x) (uc_rateLimit x) (uc_orphanTimers x).
Definition set_uc_regainNickBackoff (v : option backoffer) (x : upstreamConn) : upstreamConn :=
  UConn (uc_serverPrefix x) (uc_serverName x) (uc_availableUserModes x) (uc_availableChannelModes x)
    (uc_availableChannelTypes x) (uc_availableStatusMsg x) (uc_availableMemberships x)
    (uc_isupport x) (uc_registered x) (uc_nick x) (uc_username x) (uc_realname x) (uc_hostname x)
    (uc_modes x) (uc_channels x) (uc_users x) (uc_caps x) (uc_batches x) (uc_away x) (uc_account x)
    (uc_nextLabelID x) (uc_monitored x) (uc_saslClient x) (uc_saslStarted x) (uc_pendingCmds x)
    (uc_pendingRegainNick x) (uc_regainNickTimer x) v (uc_gotMotd x) (uc_clientCertSent x)
    (uc_hasDesiredNick x) (uc_rateLimit x) (uc_orphanTimers x).
Definition set_uc_gotMotd (v : bool) (x : upstreamConn) : upstreamConn :=
  UConn (uc_serverPrefix x) (uc_serverName x) (uc_availableUserModes x) (uc_availableChannelModes x)
    (uc_availableChannelTypes x) (uc_availableStatusMsg x) (uc_availableMemberships x)
    (uc_isupport x) (uc_registered x) (uc_nick x) (uc_username x) (uc_realname x) (uc_hostname x)
    (uc_modes x) (uc_channels x) (uc_users x) (uc_caps x) (uc_batches x) (uc_away x) (uc_account x)
    (uc_nextLabelID x) (uc_monitored x) (uc_saslClient x) (uc_saslStarted x) (uc_pendingCmds x)
    (uc_pendingRegainNick x) (uc_regainNickTimer x) (uc_regainNickBackoff x) v (uc_clientCertSent x)
    (uc_hasDesiredNick x) (uc_rateLimit x) (uc_orphanTimers x).
Definition set_uc_hasDesiredNick (v : bool) (x : upstreamConn) : upstreamConn :=
  UConn (uc_serverPrefix x) (uc_serverName x) (uc_availableUserModes x) (uc_availableChannelModes x)
    (uc_availableChannelTypes x) (uc_availableStatusMsg x) (uc_availableMemberships x)
    (uc_isupport x) (uc_registered x) (uc_nick x) (uc_username x) (uc_realname x) (uc_hostname x)
    (uc_modes x) (uc_channels x) (uc_users x) (uc_caps x) (uc_batches x) (uc_away x) (uc_account x)
    (uc_nextLabelID x) (uc_monitored x) (uc_saslClient x) (uc_saslStarted x) (uc_pendingCmds x)
    (uc_pendingRegainNick x) (uc_regainNickTimer x) (uc_regainNickBackoff x) (uc_gotMotd x)
    (uc_clientCertSent x) v (uc_rateLimit x) (uc_orphanTimers x).
Definition set_uc_rateLimit (v : bool) (x : upstreamConn) : upstreamConn :=
  UConn (uc_serverPrefix x) (uc_serverName x) (uc_availableUserModes x) (uc_availableChannelModes x)
    (uc_availableChannelTypes x) (uc_availableStatusMsg x) (uc_availableMemberships x)
    (uc_isupport x) (uc_registered x) (uc_nick x) (uc_username x) (uc_realname x) (uc_hostname x)
    (uc_modes x) (uc_channels x) (uc_users x) (uc_caps x) (uc_batches x) (uc_away x) (uc_account x)
    (uc_nextLabelID x) (uc_monitored x) (uc_saslClient x) (uc_saslStarted x) (uc_pendingCmds x)
    (uc_pendingRegainNick x) (uc_regainNickTimer x) (uc_regainNickBackoff x) (uc_gotMotd x)
    (uc_clientCertSent x) (uc_hasDesiredNick x) v (uc_orphanTimers x).
Definition set_uc_orphanTimers (v : list (string * Z)) (x : upstreamConn) : upstreamConn :=
  UConn (uc_serverPrefix x) (uc_serverName x) (uc_availableUserModes x) (uc_availableChannelModes x)
    (uc_availableChannelTypes x) (uc_availableStatusMsg x) (uc_availableMemberships x)
    (uc_isupport x) (uc_registered x) (uc_nick x) (uc_username x) (uc_realname x) (uc_hostname x)
    (uc_modes x) (uc_channels x) (uc_users x) (uc_caps x) (uc_batches x) (uc_away x) (uc_account x)
    (uc_nextLabelID x) (uc_monitored x) (uc_saslClient x) (uc_saslStarted x) (uc_pendingCmds x)
    (uc_pendingRegainNick x) (uc_regainNickTimer x) (uc_regainNickBackoff x) (uc_gotMotd x)
    (uc_clientCertSent x) (uc_hasDesiredNick x) (uc_rateLimit x) v.

(** ** Networks *)

(** The embedded record, and the state kept while the bouncer runs. *)
Record network := Net {
  nw_rec : NetworkRec;
  nw_channels : CaseMappingMap ChannelRec;
  nw_delivered : CaseMappingMap (gmap string string);
  nw_lastError : option string;
  nw_casemap : CaseMapping;
  nw_pushTargets : CaseMappingMap Z;
  nw_ignores : list IgnoreRec;
  nw_stopped : bool
}.
Definition set_nw_rec (v : NetworkRec) (x : network) : network :=
  Net v (nw_channels x) (nw_delivered x) (nw_lastError x) (nw_casemap x) (nw_pushTargets x)
    (nw_ignores x) (nw_stopped x).
Definition set_nw_channels (v : CaseMappingMap ChannelRec) (x : network) : network :=
  Net (nw_rec x) v (nw_delivered x) (nw_lastError x) (nw_casemap x) (nw_pushTargets x) (nw_ignores x)
    (nw_stopped x).
Definition set_nw_delivered (v : CaseMappingMap (gmap string string)) (x : network) : network :=
  Net (nw_rec x) (nw_channels x) v (nw_lastError x) (nw_casemap x) (nw_pushTargets x) (nw_ignores x)
    (nw_stopped x).
Definition set_nw_lastError (v : option string) (x : network) : network :=
  Net (nw_rec x) (nw_channels x) (nw_delivered x) v (nw_casemap x) (nw_pushTargets x) (nw_ignores x)
    (nw_stopped x).
Definition set_nw_casemap (v : CaseMapping) (x : network) : network :=
  Net (nw_rec x) (nw_channels x) (nw_delivered x) (nw_lastError x) v (nw_pushTargets x) (nw_ignores x)
    (nw_stopped x).
Definition set_nw_pushTargets (v : CaseMappingMap Z) (x : network) : network :=
  Net (nw_rec x) (nw_channels x) (nw_delivered x) (nw_lastError x) (nw_casemap x) v (nw_ignores x)
    (nw_stopped x).
Definition set_nw_ignores (v : list IgnoreRec) (x : network) : network :=
  Net (nw_rec x) (nw_channels x) (nw_delivered x) (nw_lastError x) (nw_casemap x) (nw_pushTargets x) v
    (nw_stopped x).
Definition set_nw_stopped (v : bool) (x : network) : network :=
  Net (nw_rec x) (nw_channels x) (nw_delivered x) (nw_lastError x) (nw_casemap x) (nw_pushTargets x)
    (nw_ignores x) v.

(** ** Downstream connections

    [dc_network] is the reference of the network, [dc_sasl] the SASL exchange
    underway, [dc_hasUser] whether [dc.user] is set, and [dc_closed] whether the
    connection was closed; the socket and the connection time are left out. *)

(** The credentials the callback of a SASL server recorded. *)
Inductive sasl_cred :=
| PlainCred (Identity Username Password : string)
| OAuthCred (Username Token : string).

(** A SASL exchange of a client; the state of a go-sasl server is its mechanism
    and the list of the responses it was given ([None] is the nil slice). *)
Definition sasl_server : Type := string * list (option (list ascii)).
Definition dsasl : Type := downstreamSASL (Server := sasl_server) (Cred := sasl_cred).

Definition sasl_plain (x : dsasl) : option (string * string) :=
  match cred x with Some (PlainCred _ u p) => Some (u, p) | _ => None end.

Record downstreamRegistration := DReg {
  rg_nick : string;
  rg_username : string;
  rg_pass : string;
  rg_networkName : string;
  rg_networkID : Z;
  rg_negotiatingCaps : bool;
  rg_authUsername : string
}.

Record downstreamConn := DConn {
  dc_id : Z;
  dc_network : option nat;
  dc_registered : bool;
  dc_hasUser : bool;
  dc_clientName : string;
  dc_impersonating : bool;
  dc_nick : string;
  dc_nickCM : string;
  dc_realname : string;
  dc_username : string;
  dc_hostname : string;
  dc_account : string;
  dc_away : option string;
  dc_capVersion : Z;
  dc_caps : CapRegistry;
  dc_isupport : gmap string (option string);
  dc_sasl : option dsasl;
  dc_registration : option downstreamRegistration;
  dc_lastBatchRef : Z;
  dc_casemap : CaseMapping;
  dc_monitored : CaseMappingMap unit;
  dc_metadataSubs : gset string;
  dc_closed : bool
}.
Definition set_dc_network (v : option nat) (x : downstreamConn) : downstreamConn :=
  DConn (dc_id x) v (dc_registered x) (dc_hasUser x) (dc_clientName x) (dc_impersonating x) (dc_nick x)
    (dc_nickCM x) (dc_realname x) (dc_username x) (dc_hostname x) (dc_account x) (dc_away x) (dc_capVersion x)
    (dc_caps x) (dc_isupport x) (dc_sasl x) (dc_registration x) (dc_lastBatchRef x) (dc_casemap x) (dc_monitored
    x) (dc_metadataSubs x) (dc_closed x).
Definition set_dc_registered (v : bool) (x : downstreamConn) : downstreamConn :=
  DConn (dc_id x) (dc_network x) v (dc_hasUser x) (dc_clientName x) (dc_impersonating x) (dc_nick x) (dc_nickCM
    x) (dc_realname x) (dc_username x) (dc_hostname x) (dc_account x) (dc_away x) (dc_capVersion x) (dc_caps x)
    (dc_isupport x) (dc_sasl x) (dc_registration x) (dc_lastBatchRef x) (dc_casemap x) (dc_monitored x)
    (dc_metadataSubs x) (dc_closed x).
Definition set_dc_hasUser (v : bool) (x : downstreamConn) : downstreamConn :=
  DConn (dc_id x) (dc_network x) (dc_registered x) v (dc_clientName x) (dc_impersonating x) (dc_nick x)
    (dc_nickCM x) (dc_realname x) (dc_username x) (dc_hostname x) (dc_account x) (dc_away x) (dc_capVersion x)
    (dc_caps x) (dc_isupport x) (dc_sasl x) (dc_registration x) (dc_lastBatchRef x) (dc_casemap x) (dc_monitored
    x) (dc_metadataSubs x) (dc_closed x).
Definition set_dc_clientName (v : string) (x : downstreamConn) : downstreamConn :=
  DConn (dc_id x) (dc_network x) (dc_registered x) (dc_hasUser x) v (dc_impersonating x) (dc_nick x) (dc_nickCM
    x) (dc_realname x) (dc_username x) (dc_hostname x) (dc_account x) (dc_away x) (dc_capVersion x) (dc_caps x)
    (dc_isupport x) (dc_sasl x) (dc_registration x) (dc_lastBatchRef x) (dc_casemap x) (dc_monitored x)
    (dc_metadataSubs x) (dc_closed x).
Definition set_dc_impersonating (v : bool) (x : downstreamConn) : downstreamConn :=
  DConn (dc_id x) (dc_network x) (dc_registered x) (dc_hasUser x) (dc_clientName x) v (dc_nick x) (dc_nickCM x)
    (dc_realname x) (dc_username x) (dc_hostname x) (dc_account x) (dc_away x) (dc_capVersion x) (dc_caps x)
    (dc_isupport x) (dc_sasl x) (dc_registration x) (dc_lastBatchRef x) (dc_casemap x) (dc_monitored x)
    (dc_metadataSubs x) (dc_closed x).
Definition set_dc_nick (v : string) (x : downstreamConn) : downstreamConn :=
  DConn (dc_id x) (dc_network x) (dc_registered x) (dc_hasUser x) (dc_clientName x) (dc_impersonating x) v
    (dc_nickCM x) (dc_realname x) (dc_username x) (dc_hostname x) (dc_account x) (dc_away x) (dc_capVersion x)
    (dc_caps x) (dc_isupport x) (dc_sasl x) (dc_registration x) (dc_lastBatchRef x) (dc_casemap x) (dc_monitored
    x) (dc_metadataSubs x) (dc_closed x).
Definition set_dc_nickCM (v : string) (x : downstreamConn) : downstreamConn :=
  DConn (dc_id x) (dc_network x) (dc_registered x) (dc_hasUser x) (dc_clientName x) (dc_impersonating x)
    (dc_nick x) v (dc_realname x) (dc_username x) (dc_hostname x) (dc_account x) (dc_away x) (dc_capVersion x)
    (dc_caps x) (dc_isupport x) (dc_sasl x) (dc_registration x) (dc_lastBatchRef x) (dc_casemap x) (dc_monitored
    x) (dc_metadataSubs x) (dc_closed x).
Definition set_dc_realname (v : string) (x : downstreamConn) : downstreamConn :=
  DConn (dc_id x) (dc_network x) (dc_registered x) (dc_hasUser x) (dc_clientName x) (dc_impersonating x)
    (dc_nick x) (dc_nickCM x) v (dc_username x) (dc_hostname x) (dc_account x) (dc_away x) (dc_capVersion x)
    (dc_caps x) (dc_isupport x) (dc_sasl x) (dc_registration x) (dc_lastBatchRef x) (dc_casemap x) (dc_monitored
    x) (dc_metadataSubs x) (dc_closed x).
Definition set_dc_username (v : string) (x : downstreamConn) : downstreamConn :=
  DConn (dc_id x) (dc_network x) (dc_registered x) (dc_hasUser x) (dc_clientName x) (dc_impersonating x)
    (dc_nick x) (dc_nickCM x) (dc_realname x) v (dc_hostname x) (dc_account x) (dc_away x) (dc_capVersion x)
    (dc_caps x) (dc_isupport x) (dc_sasl x) (dc_registration x) (dc_lastBatchRef x) (dc_casemap x) (dc_monitored
    x) (dc_metadataSubs x) (dc_closed x).
Definition set_dc_hostname (v : string) (x : downstreamConn) : downstreamConn :=
  DConn (dc_id x) (dc_network x) (dc_registered x) (dc_hasUser x) (dc_clientName x) (dc_impersonating x)
    (dc_nick x) (dc_nickCM x) (dc_realname x) (dc_username x) v (dc_account x) (dc_away x) (dc_capVersion x)
    (dc_caps x) (dc_isupport x) (dc_sasl x) (dc_registration x) (dc_lastBatchRef x) (dc_casemap x) (dc_monitored
    x) (dc_metadataSubs x) (dc_closed x).
Definition set_dc_account (v : string) (x : downstreamConn) : downstreamConn :=
  DConn (dc_id x) (dc_network x) (dc_registered x) (dc_hasUser x) (dc_clientName x) (dc_impersonating x)
    (dc_nick x) (dc_nickCM x) (dc_realname x) (dc_username x) (dc_hostname x) v (dc_away x) (dc_capVersion x)
    (dc_caps x) (dc_isupport x) (dc_sasl x) (dc_registration x) (dc_lastBatchRef x) (dc_casemap x) (dc_monitored
    x) (dc_metadataSubs x) (dc_closed x).
Definition set_dc_away (v : option string) (x : downstreamConn) : downstreamConn :=
  DConn (dc_id x) (dc_network x) (dc_registered x) (dc_hasUser x) (dc_clientName x) (dc_impersonating x)
    (dc_nick x) (dc_nickCM x) (dc_realname x) (dc_username x) (dc_hostname x) (dc_account x) v (dc_capVersion x)
    (dc_caps x) (dc_isupport x) (dc_sasl x) (dc_registration x) (dc_lastBatchRef x) (dc_casemap x) (dc_monitored
    x) (dc_metadataSubs x) (dc_closed x).
Definition set_dc_capVersion (v : Z) (x : downstreamConn) : downstreamConn :=
  DConn (dc_id x) (dc_network x) (dc_registered x) (dc_hasUser x) (dc_clientName x) (dc_impersonating x)
    (dc_nick x) (dc_nickCM x) (dc_realname x) (dc_username x) (dc_hostname x) (dc_account x) (dc_away x) v
    (dc_caps x) (dc_isupport x) (dc_sasl x) (dc_registration x) (dc_lastBatchRef x) (dc_casemap x) (dc_monitored
    x) (dc_metadataSubs x) (dc_closed x).
Definition set_dc_caps (v : CapRegistry) (x : downstreamConn) : downstreamConn :=
  DConn (dc_id x) (dc_network x) (dc_registered x) (dc_hasUser x) (dc_clientName x) (dc_impersonating x)
    (dc_nick x) (dc_nickCM x) (dc_realname x) (dc_username x) (dc_hostname x) (dc_account x) (dc_away x)
    (dc_capVersion x) v (dc_isupport x) (dc_sasl x) (dc_registration x) (dc_lastBatchRef x) (dc_casemap x)
    (dc_monitored x) (dc_metadataSubs x) (dc_closed x).
Definition set_dc_isupport (v : gmap string (option string)) (x : downstreamConn) : downstreamConn :=
  DConn (dc_id x) (dc_network x) (dc_registered x) (dc_hasUser x) (dc_clientName x) (dc_impersonating x)
    (dc_nick x) (dc_nickCM x) (dc_realname x) (dc_username x) (dc_hostname x) (dc_account x) (dc_away x)
    (dc_capVersion x) (dc_caps x) v (dc_sasl x) (dc_registration x) (dc_lastBatchRef x) (dc_casemap x)
    (dc_monitored x) (dc_metadataSubs x) (dc_closed x).
Definition set_dc_sasl (v : option dsasl) (x : downstreamConn) : downstreamConn :=
  DConn (dc_id x) (dc_network x) (dc_registered x) (dc_hasUser x) (dc_clientName x) (dc_impersonating x)
    (dc_nick x) (dc_nickCM x) (dc_realname x) (dc_username x) (dc_hostname x) (dc_account x) (dc_away x)
    (dc_capVersion x) (dc_caps x) (dc_isupport x) v (dc_registration x) (dc_lastBatchRef x) (dc_casemap x)
    (dc_monitored x) (dc_metadataSubs x) (dc_closed x).
Definition set_dc_registration (v : option downstreamRegistration) (x : downstreamConn) : downstreamConn :=
  DConn (dc_id x) (dc_network x) (dc_registered x) (dc_hasUser x) (dc_clientName x) (dc_impersonating x)
    (dc_nick x) (dc_nickCM x) (dc_realname x) (dc_username x) (dc_hostname x) (dc_account x) (dc_away x)
    (dc_capVersion x) (dc_caps x) (dc_isupport x) (dc_sasl x) v (dc_lastBatchRef x) (dc_casemap x) (dc_monitored
    x) (dc_metadataSubs x) (dc_closed x).
Definition set_dc_lastBatchRef (v : Z) (x : downstreamConn) : downstreamConn :=
  DConn (dc_id x) (dc_network x) (dc_registered x) (dc_hasUser x) (dc_clientName x) (dc_impersonating x)
    (dc_nick x) (dc_nickCM x) (dc_realname x) (dc_username x) (dc_hostname x) (dc_account x) (dc_away x)
    (dc_capVersion x) (dc_caps x) (dc_isupport x) (dc_sasl x) (dc_registration x) v (dc_casemap x) (dc_monitored
    x) (dc_metadataSubs x) (dc_closed x).
Definition set_dc_casemap (v : CaseMapping) (x : downstreamConn) : downstreamConn :=
  DConn (dc_id x) (dc_network x) (dc_registered x) (dc_hasUser x) (dc_clientName x) (dc_impersonating x)
    (dc_nick x) (dc_nickCM x) (dc_realname x) (dc_username x) (dc_hostname x) (dc_account x) (dc_away x)
    (dc_capVersion x) (dc_caps x) (dc_isupport x) (dc_sasl x) (dc_registration x) (dc_lastBatchRef x) v
    (dc_monitored x) (dc_metadataSubs x) (dc_closed x).
Definition set_dc_monitored (v : CaseMappingMap unit) (x : downstreamConn) : downstreamConn :=
  DConn (dc_id x) (dc_network x) (dc_registered x) (dc_hasUser x) (dc_clientName x) (dc_impersonating x)
    (dc_nick x) (dc_nickCM x) (dc_realname x) (dc_username x) (dc_hostname x) (dc_account x) (dc_away x)
    (dc_capVersion x) (dc_caps x) (dc_isupport x) (dc_sasl x) (dc_registration x) (dc_lastBatchRef x)
    (dc_casemap x) v (dc_metadataSubs x) (dc_closed x).
Definition set_dc_metadataSubs (v : gset string) (x : downstreamConn) : downstreamConn :=
  DConn (dc_id x) (dc_network x) (dc_registered x) (dc_hasUser x) (dc_clientName x) (dc_impersonating x)
    (dc_nick x) (dc_nickCM x) (dc_realname x) (dc_username x) (dc_hostname x) (dc_account x) (dc_away x)
    (dc_capVersion x) (dc_caps x) (dc_isupport x) (dc_sasl x) (dc_registration x) (dc_lastBatchRef x)
    (dc_casemap x) (dc_monitored x) v (dc_closed x).
Definition set_dc_closed (v : bool) (x : downstreamConn) : downstreamConn :=
  DConn (dc_id x) (dc_network x) (dc_registered x) (dc_hasUser x) (dc_clientName x) (dc_impersonating x)
    (dc_nick x) (dc_nickCM x) (dc_realname x) (dc_username x) (dc_hostname x) (dc_account x) (dc_away x)
    (dc_capVersion x) (dc_caps x) (dc_isupport x) (dc_sasl x) (dc_registration x) (dc_lastBatchRef x)
    (dc_casemap x) (dc_monitored x) (dc_metadataSubs x) v.

Definition dc_prefix (dc : downstreamConn) : prefix :=
  Prefix (dc_nick dc) (dc_username dc) (dc_hostname dc).

(** ** Calls between components

    The methods of a downstream connection that the other handlers call, and
    the other effects of a handler, in order. *)
Inductive down_call :=
| SendMessage (msg : message)
| sendMessageWithID (msg : message) (id : string)
| advanceMessageWithID (msg : message) (id : string)
| updateSupportedCaps
| updateIsupport
| updateNick
| updateHost
| updateRealname
| updateAccount
| updateCasemapping_dc
| endSASL_dc (msg : message)
| relayDetachedMessage (msg : message)
| forwardChannel (ch : upstreamChannel)
| sendTargetBacklog (target msgID : string)
| sendServiceNOTICE (text : string)
| labelContext (label batch : string)
| clearLabel
| FlushBatch
| CloseConn
(** a call with [context.TODO()], which carries no label *)
| inNewContext (call : down_call).

Inductive effect :=
| Down (id : Z) (call : down_call)
| Up (msg : message)
| StoreChannel (netID : Z) (ch : ChannelRec)
| DeleteChannelDB (id : Z)
| StoreNetworkDB (net : NetworkRec)
| StoreReceipts (netID : Z) (client : string) (receipts : list (string * string))
| WebPushAfter (delay : Z) (target : string) (timestamp : Z) (msg : message)
| WebPush (msg : message).

(** ** What a handler gets from outside

    The user and its connections, the clock, the database, and functions of
    packages that are not part of the repository. *)
Class Env := {
  env_user : UserRec;
  env_downs : list downstreamConn;
  env_now : Z;
  (** a random number for the jitter of a back-off *)
  env_rand : Z;
  env_srvPrefix : prefix;
  (** [db.GetMessageTarget]: whether a target is muted and blocked *)
  env_messageTarget : string -> option (bool * bool);
  (** whether [db.DeleteChannel] succeeds *)
  env_DeleteChannel : Z -> bool;
  (** [user.hasPersistentMsgStore] *)
  env_persistent : bool;
  (** [time.Parse] and [Format] of the server-time layout *)
  time_Parse : string -> option Z;
  FormatServerTime : Z -> string;
  (** irc.v4 *)
  ParsePrefix : string -> prefix;
  prefix_String : prefix -> string;
  (** go-sasl *)
  sasl_Start : sasl_client -> option (list ascii);
  sasl_Next : sasl_client -> list ascii -> option (list ascii)
}.

(** The state of a handler of an upstream connection: the connection, whether
    it is the connection of its network ([net.conn == uc]; otherwise [net.conn]
    is nil), the network (at reference [su_ref]), the message store ([None] is
    nil) and the effects so far. *)
Record ust (St : Type) := Ust {
  su_uc : upstreamConn;
  su_conn : bool;
  su_net : network;
  su_ref : nat;
  su_store : option St;
  su_eff : list effect
}.
Arguments Ust {St}.
Arguments su_uc {St}.
Arguments su_conn {St}.
Arguments su_net {St}.
Arguments su_ref {St}.
Arguments su_store {St}.
Arguments su_eff {St}.

(** Errors the handlers return. *)
Inductive uerror :=
| ErrUnknownChannel (name : string)
| ErrParams (cmd : string)
| ErrMode (e : mode_error)
| ErrStatus (e : xirc_error)
| ErrBatch (tag : string)
| ErrLabel (label : string)
| ErrRegistration (msg : message)
| ErrUnexpected (cmd : string)
| ErrMalformed (s : string)
| ErrSASL
| ErrDatabase
| ErrFatal (text : string).

(** ** Primitive operations of handlers *)

Section Ops.
Context {St : Type}.
Notation H := (handler (ust St) uerror).
Implicit Type s : ust St.

Definition on_uc (f : upstreamConn -> upstreamConn) s : ust St :=
  Ust (f (su_uc s)) (su_conn s) (su_net s) (su_ref s) (su_store s) (su_eff s).
Definition on_net (f : network -> network) s : ust St :=
  Ust (su_uc s) (su_conn s) (f (su_net s)) (su_ref s) (su_store s) (su_eff s).
Definition on_store (f : option St -> option St) s : ust St :=
  Ust (su_uc s) (su_conn s) (su_net s) (su_ref s) (f (su_store s)) (su_eff s).
Definition on_eff (f : list effect -> list effect) s : ust St :=
  Ust (su_uc s) (su_conn s) (su_net s) (su_ref s) (su_store s) (f (su_eff s)).

Definition modify_uc (f : upstreamConn -> upstreamConn) : H unit := modify (on_uc f).
Definition modify_net (f : network -> network) : H unit := modify (on_net f).
Definition emit (e : effect) : H unit := modify (on_eff (fun l => l ++ [e])).
Definition get_uc {A} (f : upstreamConn -> A) : H A := gets (fun s => f (su_uc s)).
Definition get_net {A} (f : network -> A) : H A := gets (fun s => f (su_net s)).
Definition down (dc : downstreamConn) (call : down_call) : H unit := emit (Down (dc_id dc) call).

(** [uc.SendMessage]: tags are removed unless the server takes them. *)
Definition uc_SendMessage (msg : message) : H unit :=
  caps ← get_uc uc_caps;
  emit (Up (if IsEnabled caps "message-tags" then msg
            else Message ∅ (MsgPrefix msg) (Command msg) (Params msg))).

(** [net.forEachDownstream] *)
Definition forEachDownstream `{Env} (f : downstreamConn -> H unit) : H unit :=
  ref ← gets su_ref;
  for_each (filter (fun dc => dc_network dc = Some ref) env_downs) f.

(** The downstream connections of the network of a state. *)
Definition downs_of `{Env} s : list downstreamConn :=
  filter (fun dc => dc_network dc = Some (su_ref s)) env_downs.

Lemma for_each_down (l : list downstreamConn) (c : downstreamConn -> down_call) s :
  for_each l (fun dc => down dc (c dc)) s
  = (on_eff (fun e => e ++ ((fun dc => Down (dc_id dc) (c dc)) <$> l)) s, Ok tt).
Proof.
  revert s; induction l as [|dc l IH]; intros s; cbn [for_each].
  - unfold on_eff. cbn. rewrite app_nil_r. by destruct s.
  - erewrite bind_ok; [|reflexivity]. rewrite IH. unfold on_eff. cbn. by rewrite <- app_assoc.
Qed.

Lemma forEachDownstream_down `{Env} (c : downstreamConn -> down_call) s :
  forEachDownstream (fun dc => down dc (c dc)) s
  = (on_eff (fun e => e ++ ((fun dc => Down (dc_id dc) (c dc)) <$> downs_of s)) s, Ok tt).
Proof. unfold forEachDownstream. rewrite bind_gets. apply for_each_down. Qed.

End Ops.
