(* ===== verification/PathMatch.v ===== *)
(** * Glob matching: [path.Match] of the Go standard library

    The ignore lists of a network are matched with [path.Match]. The functions
    below follow the loops of the library: [scanChunk] cuts a pattern at the
    next star, [matchChunk] matches the star-free part at one position, and
    [path_Match] commits to the leftmost position where the chunk matches. *)

From stdpp Require Import base list strings.
From Stdlib Require Import ZArith Ascii Bool.
From S2P Require Import Prelude GoStrings.

Definition star_char : ascii := "*".
Definition slash_char : ascii := "/".

(** The chunk up to the next star outside a class, and the rest. *)
Fixpoint scan_body (inrange : bool) (pattern : string) : string * string :=
  match pattern with
  | EmptyString => ("", "")
  | String c p =>
      let next inr := let '(chunk, rest) := scan_body inr p in (String c chunk, rest) in
      if byte_eqb c "\" then
        match p with
        | EmptyString => (String c "", "")
        | String d p' => let '(chunk, rest) := scan_body inrange p' in (String c (String d chunk), rest)
        end
      else if byte_eqb c "[" then next true
      else if byte_eqb c "]" then next false
      else if byte_eqb c star_char && negb inrange then ("", pattern)
      else next inrange
  end.

Fixpoint scan_stars (star : bool) (pattern : string) : bool * string :=
  match pattern with
  | String c p => if byte_eqb c star_char then scan_stars true p else (star, pattern)
  | EmptyString => (star, pattern)
  end.

(** [(star, chunk, rest)] *)
Definition scanChunk (pattern : string) : bool * string * string :=
  let '(star, p) := scan_stars false pattern in
  let '(chunk, rest) := scan_body false p in (star, chunk, rest).

Inductive match_error := ErrBadPattern.

Definition getEsc (chunk : string) : res match_error (Z * string) :=
  match chunk with
  | EmptyString => Err ErrBadPattern
  | String c p =>
      if byte_eqb c "-" || byte_eqb c "]" then Err ErrBadPattern
      else
        let chunk := if byte_eqb c "\" then p else chunk in
        if (slen chunk =? 0)%nat then Err ErrBadPattern
        else
          let '(r, n) := DecodeRuneInString chunk in
          if Z.eqb r RuneError && (n =? 1)%nat then Err ErrBadPattern
          else let nchunk := sdrop n chunk in
               if (slen nchunk =? 0)%nat then Err ErrBadPattern else Ok (r, nchunk)
  end.

(** The ranges of a character class: whether one contains [r], and the chunk
    after the class. Each turn consumes a byte of the chunk. *)
Fixpoint match_ranges (fuel : nat) (r : Z) (chunk : string) (nrange : nat) (matched : bool)
    : res match_error (bool * string) :=
  match fuel with
  | O => Err ErrBadPattern
  | S fuel' =>
      match chunk with
      | String c p =>
          if byte_eqb c "]" && (0 <? nrange)%nat then Ok (matched, p)
          else
            let? lc := getEsc chunk in
            let '(lo, chunk) := lc in
            let? hc :=
              (match chunk with
               | String d p => if byte_eqb d "-" then getEsc p else Ok (lo, chunk)
               | EmptyString => Ok (lo, chunk)
               end) in
            let '(hi, chunk) := hc in
            match_ranges fuel' r chunk (S nrange) (matched || in_range lo r hi)
      | EmptyString => Err ErrBadPattern
      end
  end.

(** [failed] keeps the loop checking the syntax of the rest of the chunk.
    Every turn consumes a byte of the chunk. *)
Fixpoint match_chunk (fuel : nat) (failed : bool) (chunk s : string) : res match_error (option string) :=
  match fuel with
  | O => Ok None
  | S fuel' =>
      match chunk with
      | EmptyString => Ok (if failed then None else Some s)
      | String c p =>
          let failed := failed || (slen s =? 0)%nat in
          let byte p c :=
            match_chunk fuel' (failed || negb (byte_eqb c (default zero (head (schars s))))) p
              (if failed then s else sdrop 1 s) in
          if byte_eqb c "[" then
            let '(r, n) := if failed then (0%Z, 0%nat) else DecodeRuneInString s in
            let s := sdrop n s in
            let '(negated, p) := (match p with
                                  | String d p' => if byte_eqb d "^" then (true, p') else (false, p)
                                  | EmptyString => (false, p)
                                  end) in
            let? mc := match_ranges (S (slen p)) r p 0 false in
            let '(matched, chunk) := mc in
            match_chunk fuel' (failed || eqb matched negated) chunk s
          else if byte_eqb c "?" then
            if failed then match_chunk fuel' failed p s
            else match_chunk fuel' (byte_eqb (default zero (head (schars s))) slash_char) p
                   (sdrop (snd (DecodeRuneInString s)) s)
          else if byte_eqb c "\" then
            match p with
            | EmptyString => Err ErrBadPattern
            | String d p' => byte p' d
            end
          else byte p c
      end
  end.

Definition matchChunk (chunk s : string) : res match_error (option string) :=
  match_chunk (S (slen chunk)) false chunk s.

(** The loop that skips [i+1] bytes of the name, never a slash, and stops at
    the first accepted match: [None] is the exit of the loop. *)
Fixpoint skip_match (last : bool) (chunk name : string) : res match_error (option string) :=
  match name with
  | EmptyString => Ok None
  | String c name' =>
      if byte_eqb c slash_char then Ok None
      else
        let? o := matchChunk chunk name' in
        match o with
        | Some t => if last && negb (slen t =? 0)%nat then skip_match last chunk name' else Ok (Some t)
        | None => skip_match last chunk name'
        end
  end.

(** The check of the rest of the pattern before [false] is returned. *)
Fixpoint check_rest (fuel : nat) (pattern : string) : res match_error bool :=
  match fuel with
  | O => Ok false
  | S fuel' =>
      if (slen pattern =? 0)%nat then Ok false
      else let '(_, chunk, rest) := scanChunk pattern in
           let? _ := matchChunk chunk "" in check_rest fuel' rest
  end.

(** Every turn consumes a byte of the pattern. *)
Fixpoint path_match (fuel : nat) (pattern name : string) : res match_error bool :=
  match fuel with
  | O => Ok false
  | S fuel' =>
      if (slen pattern =? 0)%nat then Ok (slen name =? 0)%nat
      else
        let '(star, chunk, rest) := scanChunk pattern in
        if star && (slen chunk =? 0)%nat then Ok (negb (byte_in slash_char name))
        else
          let? o := matchChunk chunk name in
          let last := (slen rest =? 0)%nat in
          match o with
          | Some t =>
              if (slen t =? 0)%nat || negb last then path_match fuel' rest t
              else if star then
                let? o := skip_match last chunk name in
                match o with Some t => path_match fuel' rest t | None => check_rest fuel' rest end
              else check_rest fuel' rest
          | None =>
              if star then
                let? o := skip_match last chunk name in
                match o with Some t => path_match fuel' rest t | None => check_rest fuel' rest end
              else check_rest fuel' rest
          end
  end.

Definition path_Match (pattern name : string) : res match_error bool :=
  path_match (S (slen pattern)) pattern name.

(** ** Reference: globs with [*] and [?] *)

Inductive glob : string -> string -> Prop :=
| glob_nil : glob "" ""
| glob_star_skip p s : glob p s -> glob (String star_char p) s
| glob_star_eat p c s : glob (String star_char p) s -> glob (String star_char p) (String c s)
| glob_any p c s : glob p s -> glob (String "?" p) (String c s)
| glob_char p c s : c <> star_char -> c <> "?"%char -> glob p s -> glob (String c p) (String c s).

(** A pattern that uses no character class and no escape. *)
Definition plain (p : string) : Prop := Forall (fun c => c <> "["%char /\ c <> "\"%char) (schars p).
(** A name of ASCII characters other than a slash. *)
Definition flat (s : string) : Prop := Forall (fun c => c <> slash_char /\ (byteZ c < 128)%Z) (schars s).

(** The star-free part of a pattern against the start of a name. *)
Fixpoint strip (chunk s : string) : option string :=
  match chunk, s with
  | EmptyString, _ => Some s
  | String c p, String d s' => if byte_eqb c "?" || byte_eqb c d then strip p s' else None
  | String _ _, EmptyString => None
  end.

Lemma plain_cons c p : plain (String c p) <-> (c <> "["%char /\ c <> "\"%char) /\ plain p.
Proof. unfold plain. apply (Forall_cons (fun c => c <> "["%char /\ c <> "\"%char)). Qed.
Lemma flat_cons c p : flat (String c p) <-> (c <> slash_char /\ (byteZ c < 128)%Z) /\ flat p.
Proof. unfold flat. apply (Forall_cons (fun c => c <> slash_char /\ (byteZ c < 128)%Z)). Qed.

Lemma flat_sdrop k s : flat s -> flat (sdrop k s).
Proof.
  revert s; induction k as [|k IH]; intros [|c s]; simpl; try done.
  rewrite flat_cons. intros [_ ?]. auto.
Qed.

Lemma byte_eqb_false a b : a <> b -> byte_eqb a b = false.
Proof. apply bool_decide_false. Qed.
Lemma byte_eqb_refl a : byte_eqb a a = true.
Proof. by apply bool_decide_true. Qed.

Lemma scan_stars_spec b p :
  exists n p', scan_stars b p = (b || (0 <? n)%nat, p') /\
    p = Nat.iter n (String star_char) p' /\ (forall q, p' <> String star_char q).
Proof.
  revert b; induction p as [|c p IH]; intros b; simpl.
  - exists 0%nat, "". rewrite orb_false_r. by split_and!.
  - destruct (byte_eqb c star_char) eqn:E; unfold byte_eqb in E; bool_to_prop.
    + subst. destruct (IH true) as (n & p' & -> & -> & H). exists (S n), p'.
      split_and!; [|done|done]. by rewrite orb_true_r.
    + exists 0%nat, (String c p). rewrite orb_false_r. split_and!; [done|done|].
      intros q [= -> ->]. done.
Qed.

Lemma scan_body_spec p :
  plain p -> exists chunk rest, scan_body false p = (chunk, rest) /\ p = chunk +:+ rest /\
    star_char ∉ schars chunk /\ (rest = "" \/ exists q, rest = String star_char q).
Proof.
  induction p as [|c p IH]; intros Hp; simpl.
  - exists "", "". split_and!; [done|done|apply not_elem_of_nil|by left].
  - apply plain_cons in Hp as [[H1 H2] Hp].
    rewrite (byte_eqb_false c "\"), (byte_eqb_false c "[") by done.
    destruct (IH Hp) as (chunk & rest & E & -> & Hc & Hr). rewrite E.
    destruct (byte_eqb c star_char) eqn:Ec; unfold byte_eqb in Ec; bool_to_prop.
    + subst. exists "", (String star_char (chunk +:+ rest)). simpl.
      split_and!; [done|done|apply not_elem_of_nil|right; by eexists].
    + exists (String c chunk), rest. simpl. split_and!; [by destruct (byte_eqb c "]")|done| |done].
      apply not_elem_of_cons. done.
Qed.

Lemma plain_app p q : plain (p +:+ q) <-> plain p /\ plain q.
Proof. unfold plain. rewrite schars_app. apply Forall_app. Qed.

Lemma DecodeRune_ascii c s : (byteZ c < 128)%Z -> DecodeRuneInString (String c s) = (byteZ c, 1%nat).
Proof.
  intros H. pose proof (byteZ_range c).
  unfold DecodeRuneInString. change (schars (String c s)) with (c :: schars s). cbv zeta iota.
  by rewrite (proj2 (Z.ltb_lt _ _) H).
Qed.

Lemma match_chunk_strip fuel failed chunk s :
  (slen chunk < fuel)%nat -> plain chunk -> flat s ->
  match_chunk fuel failed chunk s = Ok (if failed then None else strip chunk s).
Proof.
  revert failed chunk s; induction fuel as [|fuel IH]; intros failed chunk s Hf Hp Hs; [lia|].
  destruct chunk as [|c p]; [done|]. apply plain_cons in Hp as [[H1 H2] Hp].
  simpl in Hf. cbn [match_chunk]. rewrite (byte_eqb_false c "["), (byte_eqb_false c "\") by done.
  destruct s as [|d s].
  - cbn [slen String.length Nat.eqb]. rewrite !orb_true_r. cbn [orb strip].
    rewrite !IH by (unfold slen in *; lia || done). by destruct (byte_eqb c "?"), failed.
  - cbn [slen String.length Nat.eqb]. rewrite !orb_false_r.
    apply flat_cons in Hs as [[Hd Ha] Hs].
    rewrite DecodeRune_ascii by done. cbn [snd sdrop schars String.list_ascii_of_string head default strip].
    destruct failed.
    + assert (flat (String d s)) by (by apply flat_cons).
      rewrite !IH by (unfold slen in *; lia || done). by destruct (byte_eqb c "?").
    + cbn [orb]. simpl head. cbn [default from_option]. rewrite !IH by (unfold slen in *; lia || done).
      unfold id. rewrite (byte_eqb_false d slash_char) by done.
      by destruct (byte_eqb c "?"), (byte_eqb c d).
Qed.

Lemma matchChunk_strip chunk s : plain chunk -> flat s -> matchChunk chunk s = Ok (strip chunk s).
Proof. intros. unfold matchChunk. rewrite match_chunk_strip; [done|lia|done|done]. Qed.

Lemma strip_sdrop chunk s t : strip chunk s = Some t -> t = sdrop (slen chunk) s /\ (slen chunk <= slen s)%nat.
Proof.
  revert s; induction chunk as [|c p IH]; intros [|d s]; simpl; intros H; simplify_eq;
    [split; [done|unfold slen; simpl; lia]..|].
  case_match; [|done]. apply IH in H as [-> ?]. unfold slen in *. split; [done|lia].
Qed.

Lemma glob_chunk chunk rest s :
  star_char ∉ schars chunk ->
  glob (chunk +:+ rest) s <-> exists t, strip chunk s = Some t /\ glob rest t.
Proof.
  revert s; induction chunk as [|c p IH]; intros s Hc; simpl.
  - split; [by exists s|]. by intros (t & [= ->] & ?).
  - change (schars (String c p)) with (c :: schars p) in Hc. apply not_elem_of_cons in Hc as [Hc Hp].
    split.
    + intros H. inversion H; subst; try done.
      * apply IH in H3 as (t & ? & ?); [|done]. by exists t.
      * rewrite byte_eqb_refl, orb_true_r. apply IH; done.
    + intros (t & Ht & Hg). destruct s as [|d s]; [done|].
      destruct (byte_eqb c "?") eqn:E1; unfold byte_eqb in E1; bool_to_prop.
      * subst. apply glob_any. apply IH; [done|]. by exists t.
      * cbn [orb] in Ht. destruct (byte_eqb c d) eqn:E2; [|done]. unfold byte_eqb in E2; bool_to_prop; subst.
        apply glob_char; [done|done|]. apply IH; [done|]. by exists t.
Qed.

Lemma glob_star p s : glob (String star_char p) s <-> exists k, glob p (sdrop k s).
Proof.
  split.
  - intros H. remember (String star_char p) as q eqn:Eq. revert p Eq.
    induction H; intros p' Eq; simplify_eq.
    + by exists 0%nat.
    + destruct (IHglob p' eq_refl) as [k ?]. by exists (S k).
  - intros [k H]. revert s H; induction k as [|k IH]; intros s H; [by apply glob_star_skip|].
    destruct s as [|c s]; [by apply glob_star_skip|]. by apply glob_star_eat, IH.
Qed.

Lemma sdrop_sdrop_add j k s : sdrop j (sdrop k s) = sdrop (k + j) s.
Proof. revert s; induction k as [|k IH]; intros [|c s]; simpl; auto. by destruct j. Qed.

Lemma glob_stars n p s :
  glob (Nat.iter (S n) (String star_char) p) s <-> glob (String star_char p) s.
Proof.
  revert s; induction n as [|n IH]; intros s; [done|].
  change (Nat.iter (S (S n)) (String star_char) p) with (String star_char (Nat.iter (S n) (String star_char) p)).
  rewrite glob_star. setoid_rewrite IH. setoid_rewrite glob_star. split.
  - intros (k & j & H). rewrite sdrop_sdrop_add in H. eauto.
  - intros [k H]. by exists k, 0%nat.
Qed.

Lemma glob_star_prefix p k s : glob (String star_char p) (sdrop k s) -> glob (String star_char p) s.
Proof. rewrite !glob_star. intros [j H]. rewrite sdrop_sdrop_add in H. eauto. Qed.

(** ** The leftmost match of a chunk *)

(** What the loop accepts at a position. *)
Definition accepts (last : bool) (t : string) : Prop := last = true -> t = "".

Lemma accepts_test last t : accepts last t <-> (last && negb (slen t =? 0)%nat) = false.
Proof.
  unfold accepts. destruct last; simpl; [|done].
  rewrite negb_false_iff, Nat.eqb_eq, slen_0. tauto.
Qed.

Lemma skip_match_sound last chunk name :
  plain chunk -> flat name ->
  exists o, skip_match last chunk name = Ok o /\
    forall t, o = Some t -> accepts last t /\ exists k, strip chunk (sdrop k name) = Some t.
Proof.
  intros Hp Hn. induction name as [|c name IH]; simpl; [by exists None|].
  apply flat_cons in Hn as [[Hc _] Hn]. rewrite byte_eqb_false, matchChunk_strip by done. cbn [res_bind].
  destruct (IH Hn) as (o & Ho & Hs).
  assert (Hskip : forall t, o = Some t -> accepts last t /\ exists k, strip chunk (sdrop k (String c name)) = Some t).
  { intros t Ht. destruct (Hs t Ht) as [? [k ?]]. split; [done|]. by exists (S k). }
  destruct (strip chunk name) as [t|] eqn:Et; [|eauto].
  destruct (last && negb (slen t =? 0)%nat) eqn:Ea; [eauto|].
  exists (Some t). split; [done|]. intros t' [= <-]. split; [by apply accepts_test|by exists 1%nat].
Qed.

Lemma skip_match_complete last chunk name k t' :
  plain chunk -> flat name -> strip chunk (sdrop (S k) name) = Some t' -> (k < slen name)%nat ->
  accepts last t' ->
  exists t j, skip_match last chunk name = Ok (Some t) /\ t' = sdrop j t.
Proof.
  intros Hp Hn. revert k; induction name as [|c name IH]; intros k Hk Hlen Ha; simpl in *; [lia|].
  apply flat_cons in Hn as [[Hc _] Hn]. rewrite byte_eqb_false, matchChunk_strip by done. cbn [res_bind].
  destruct (strip chunk name) as [t|] eqn:Et.
  - destruct (last && negb (slen t =? 0)%nat) eqn:Ea.
    + destruct k as [|k]; [|apply (IH Hn k); [done|unfold slen in *; lia|done]].
      simpl in Hk. rewrite Et in Hk. simplify_eq. apply accepts_test in Ha. congruence.
    + exists t, k. split; [done|].
      apply strip_sdrop in Et as [-> _]. apply strip_sdrop in Hk as [-> _].
      rewrite !sdrop_sdrop_add. f_equal; lia.
  - destruct k as [|k]; [simpl in Hk; congruence|]. apply (IH Hn k); [done|unfold slen in *; lia|done].
Qed.

Lemma check_rest_plain fuel p : plain p -> check_rest fuel p = Ok false.
Proof.
  revert p; induction fuel as [|fuel IH]; intros p Hp; [done|]. cbn [check_rest].
  destruct (slen p =? 0)%nat; [done|]. unfold scanChunk.
  destruct (scan_stars_spec false p) as (n & p' & -> & -> & _).
  assert (Hp' : plain p').
  { clear -Hp. induction n as [|n IH]; [done|]. apply IH. by apply plain_cons in Hp as [_ ?]. }
  destruct (scan_body_spec p' Hp') as (chunk & rest & -> & -> & _ & _).
  apply plain_app in Hp' as [Hc Hr]. rewrite matchChunk_strip by (done || constructor). cbn [res_bind]. auto.
Qed.

(** ** Equivalence with the reference *)

Lemma plain_stars n p : plain (Nat.iter n (String star_char) p) -> plain p.
Proof. induction n as [|n IH]; [done|]. intros H. apply IH. by apply plain_cons in H as [_ ?]. Qed.

Lemma slen_stars n p : slen (Nat.iter n (String star_char) p) = (n + slen p)%nat.
Proof. induction n as [|n IH]; [done|]. cbn [Nat.iter]. unfold slen in *. simpl. by rewrite IH. Qed.

Lemma flat_no_slash name : flat name -> byte_in slash_char name = false.
Proof.
  intros H. destruct (byte_in slash_char name) eqn:E; [|done].
  apply byte_in_spec in E. unfold flat in H; rewrite Forall_forall in H. by destruct (H _ E).
Qed.

Lemma sdrop_slen k s : (slen s <= k)%nat -> sdrop k s = "".
Proof.
  revert s; induction k as [|k IH]; intros [|c s]; simpl; intros; try done; [lia|]. apply IH.
  unfold slen in *; lia.
Qed.

(** The positions a starred chunk may match at. *)
Lemma glob_starred n chunk rest name :
  star_char ∉ schars chunk ->
  glob (Nat.iter (S n) (String star_char) (chunk +:+ rest)) name <->
  exists k t, strip chunk (sdrop k name) = Some t /\ glob rest t.
Proof. intros Hc. rewrite glob_stars, glob_star. by setoid_rewrite glob_chunk. Qed.

(** The rest after a committed match decides for every later position. *)
Lemma glob_commit last rest t t' j :
  (last = true <-> rest = "") -> (rest = "" \/ exists q, rest = String star_char q) ->
  accepts last t -> t' = sdrop j t -> glob rest t' -> glob rest t.
Proof.
  intros Hl [->|[q ->]] Ha -> H.
  - rewrite (Ha (proj2 Hl eq_refl)). inversion H. constructor.
  - by eapply glob_star_prefix.
Qed.

Lemma skip_match_glob last chunk rest name :
  plain chunk -> flat name -> (last = true <-> rest = "") ->
  (rest = "" \/ exists q, rest = String star_char q) ->
  exists o, skip_match last chunk name = Ok o /\
    (forall t, o = Some t -> exists k, strip chunk (sdrop k name) = Some t) /\
    ((exists k t', strip chunk (sdrop (S k) name) = Some t' /\ (k < slen name)%nat /\ glob rest t') ->
     exists t, o = Some t /\ glob rest t).
Proof.
  intros Hp Hn Hl Hr. destruct (skip_match_sound last chunk name Hp Hn) as (o & Ho & Hs).
  exists o. split_and!; [done|by intros t Ht; apply Hs|].
  intros (k & t' & Hk & Hlen & Hg).
  assert (Ha : accepts last t').
  { intros ->. destruct Hl as [Hl _]. rewrite (Hl eq_refl) in Hg. by inversion Hg. }
  destruct (skip_match_complete last chunk name k t' Hp Hn Hk Hlen Ha) as (t & j & Ht & Hj).
  rewrite Ho in Ht. simplify_eq. exists t. split; [done|].
  eapply glob_commit; eauto. by destruct (Hs t eq_refl).
Qed.

Lemma glob_empty s : glob "" s <-> s = "".
Proof. split; [by inversion 1|intros ->; constructor]. Qed.

(** [Ok b] where [b] decides [P]. *)
Definition decides (r : res match_error bool) (P : Prop) : Prop :=
  exists b, r = Ok b /\ (b = true <-> P).

Lemma decides_false r P : r = Ok false -> (~ P) -> decides r P.
Proof. intros -> H. exists false. by split. Qed.

Lemma decides_iff r P Q : (P <-> Q) -> decides r P -> decides r Q.
Proof. intros H (b & ? & ?). exists b. split; [done|]. by rewrite <- H. Qed.

(** One turn of the main loop after its chunk has been cut off, where [next]
    matches the rest of the pattern. *)
Section turn.
Context (chunk rest name : string) (last : bool) (next : string -> res match_error bool).
Context (Hpc : plain chunk) (Hn : flat name) (Hc : star_char ∉ schars chunk).
Context (Hl : last = true <-> rest = "") (Hr : rest = "" \/ exists q, rest = String star_char q).
Context (Hnext : forall t, flat t -> decides (next t) (glob rest t)).

Lemma strip_flat k t : strip chunk (sdrop k name) = Some t -> flat t.
Proof. intros Ht. apply strip_sdrop in Ht as [-> _]. by do 2 apply flat_sdrop. Qed.

(** Without a star the chunk matches at the start or nowhere. *)
Lemma turn_plain bad :
  bad = Ok false ->
  decides (match strip chunk name with
           | Some t => if (slen t =? 0)%nat || negb last then next t else bad
           | None => bad
           end) (glob (chunk +:+ rest) name).
Proof.
  intros ->. apply (decides_iff _ _ _ (iff_sym (glob_chunk chunk rest name Hc))).
  destruct (strip chunk name) as [t|] eqn:Et; [|apply decides_false; [done|naive_solver]].
  destruct ((slen t =? 0)%nat || negb last) eqn:Ea.
  - eapply decides_iff; [|apply (Hnext t); by apply (strip_flat 0%nat)]. naive_solver.
  - apply decides_false; [done|]. bool_to_prop. intros (t' & [= <-] & Hg). destruct Hl as [Hl' _].
    match goal with H : last = true |- _ => rewrite (Hl' H), glob_empty in Hg end. by subst.
Qed.

(** The skipping loop decides when the start of the name is not accepted. *)
Lemma turn_skip bad :
  bad = Ok false -> chunk <> "" -> (forall t, strip chunk name = Some t -> accepts last t -> False) ->
  decides (let? o := skip_match last chunk name in match o with Some t => next t | None => bad end)
    (exists k t, strip chunk (sdrop k name) = Some t /\ glob rest t).
Proof.
  intros -> Hne H0. destruct (skip_match_glob last chunk rest name Hpc Hn Hl Hr) as (o & -> & Hs & Hcomp).
  cbn [res_bind].
  assert (Hpos : forall k t, strip chunk (sdrop k name) = Some t -> glob rest t ->
            exists t, o = Some t /\ glob rest t).
  { intros k t Hk Hg. destruct k as [|k].
    - exfalso. apply (H0 t Hk). intros HL. apply Hl in HL. subst. by apply glob_empty in Hg.
    - apply Hcomp. exists k, t. split_and!; [done| |done].
      pose proof (strip_sdrop _ _ _ Hk) as [_ Hlen]. rewrite slen_sdrop in Hlen.
      assert (slen chunk <> 0%nat) by (by rewrite slen_0). lia. }
  destruct o as [t|].
  - eapply decides_iff; [|apply (Hnext t); destruct (Hs t eq_refl) as [k ?]; by eapply strip_flat].
    destruct (Hs t eq_refl) as [k Hk]. split; [naive_solver|].
    intros (k' & t' & Hk' & Hg). by destruct (Hpos k' t' Hk' Hg) as (t'' & [= <-] & ?).
  - apply decides_false; [done|].
    intros (k & t & Hk & Hg). by destruct (Hpos k t Hk Hg) as (? & ? & _).
Qed.

Lemma turn_star n bad :
  bad = Ok false -> chunk <> "" ->
  decides (match strip chunk name with
           | Some t =>
               if (slen t =? 0)%nat || negb last then next t
               else let? o := skip_match last chunk name in match o with Some t => next t | None => bad end
           | None => let? o := skip_match last chunk name in match o with Some t => next t | None => bad end
           end) (glob (Nat.iter (S n) (String star_char) (chunk +:+ rest)) name).
Proof.
  intros Hbad Hne. apply (decides_iff _ _ _ (iff_sym (glob_starred n chunk rest name Hc))).
  destruct (strip chunk name) as [t|] eqn:Et; [|apply turn_skip; [done|done|congruence]].
  destruct ((slen t =? 0)%nat || negb last) eqn:Ea.
  - eapply decides_iff; [|apply (Hnext t); by apply (strip_flat 0%nat)]. split.
    { intros Hg. by exists 0%nat, t. }
    intros (k & t' & Hk & Hg). apply (glob_commit last rest t t' k); auto.
    { intros HL. rewrite HL in Ea. simpl in Ea. rewrite orb_false_r in Ea.
      by apply Nat.eqb_eq, slen_0 in Ea. }
    apply strip_sdrop in Et as [-> _]. apply strip_sdrop in Hk as [-> _].
    rewrite !sdrop_sdrop_add. f_equal; lia.
  - apply turn_skip; [done|done|]. intros t' Ht' Ha. rewrite Et in Ht'. simplify_eq. bool_to_prop.
    match goal with H : last = true |- _ => by rewrite (Ha H) in * end.
Qed.
End turn.

Lemma path_match_glob fuel pattern name :
  (slen pattern < fuel)%nat -> plain pattern -> flat name ->
  decides (path_match fuel pattern name) (glob pattern name).
Proof.
  revert pattern name; induction fuel as [|fuel IH]; intros pattern name Hf Hp Hn; [lia|].
  cbn [path_match]. destruct (slen pattern =? 0)%nat eqn:E0.
  { apply Nat.eqb_eq, slen_0 in E0 as ->. eexists. split; [done|].
    by rewrite Nat.eqb_eq, slen_0, glob_empty. }
  unfold scanChunk. destruct (scan_stars_spec false pattern) as (n & p & -> & -> & Hns).
  apply plain_stars in Hp. destruct (scan_body_spec p Hp) as (chunk & rest & -> & -> & Hc & Hr).
  apply plain_app in Hp as [Hpc Hpr]. rewrite slen_stars, slen_app in Hf. cbn [orb].
  destruct (slen chunk =? 0)%nat eqn:Ech.
  - (* only stars are left *)
    apply Nat.eqb_eq, slen_0 in Ech as ->.
    assert (rest = "") as -> by (destruct Hr as [|[q ->]]; [done|exfalso; by eapply Hns]).
    destruct n as [|n]; [done|]. cbn [Nat.ltb Nat.leb andb].
    rewrite flat_no_slash by done. exists true. split; [done|]. split; [|done]. intros _.
    apply glob_starred; [apply not_elem_of_nil|]. exists (slen name), "". split; [|constructor].
    by rewrite sdrop_slen by lia.
  - rewrite andb_false_r. apply Nat.eqb_neq in Ech. rewrite matchChunk_strip by done. cbn [res_bind].
    assert (Hl : (slen rest =? 0)%nat = true <-> rest = "") by (by rewrite Nat.eqb_eq, slen_0).
    assert (Hrec : forall t, flat t -> decides (path_match fuel rest t) (glob rest t)) by (intros; apply IH; [lia|done|done]).
    destruct n as [|n]; cbn [Nat.ltb Nat.leb].
    + by apply turn_plain; [..|apply check_rest_plain].
    + apply turn_star; try done; [by apply check_rest_plain|]. intros ->. done.
Qed.
