(* ===== verification/Network.v ===== *)
(** * Networks (user.go)

    The methods of a network: delivery receipts, ignore lists, detached
    channels, the change of case mapping and saved credentials. *)

From stdpp Require Import base list gmap strings.
From Stdlib Require Import ZArith Ascii.
From S2P Require Import Prelude GoStrings Casemapping Xirc Irc Rate Database Handler Session PathMatch.

Local Open Scope Z_scope.

(** ** Delivery receipts

    Last message id delivered, per target and client. *)
Notation deliveredStore := (CaseMappingMap (gmap string string)).

Definition newDeliveredStore (cm : CaseMapping) : deliveredStore := NewCaseMappingMap cm.

Definition ds_Empty (ds : deliveredStore) : bool := (Len ds =? 0)%nat.

Definition ds_HasTarget (ds : deliveredStore) (target : string) : bool :=
  match Get ds target with Some _ => true | None => false end.

Definition ds_LoadID (ds : deliveredStore) (target clientName : string) : string :=
  match Get ds target with
  | None => ""
  | Some clients => default "" (clients !! clientName)
  end.

Definition ds_StoreID (ds : deliveredStore) (target clientName msgID : string) : deliveredStore :=
  let clients := default ∅ (Get ds target) in
  Set_ ds target (<[clientName := msgID]> clients).

Section Networks.
Context {St : Type} {HSt : Store St} {MO : MapOrder} {UN : Unicode} {EV : Env}.
Notation H := (handler (ust St) uerror).

Definition ds_ForEachTarget (ds : deliveredStore) : list string := originalKey <$> iter ds.

Definition ds_clients (ds : deliveredStore) : gmap string unit :=
  foldl (fun m e => foldl (fun m c => <[c := tt]> m) m (map_order (value e)).*1) ∅ (iter ds).

Definition ds_ForEachClient (ds : deliveredStore) : list string := (map_order (ds_clients ds)).*1.

(** ** Construction *)

Definition newNetwork (record : NetworkRec) (channels : list ChannelRec) (ignores : list IgnoreRec) : network :=
  let cm := casemapASCII in
  let m := foldl (fun m ch => Set_ m (ch_Name ch) ch) (NewCaseMappingMap cm) channels in
  Net record m (newDeliveredStore cm) None casemapRFC1459 (NewCaseMappingMap cm) ignores false.

(** ** Ignored senders *)

Definition isIgnored (net : network) (p : option prefix) : bool :=
  match p with
  | None => false
  | Some p =>
      let mask := ToLower (prefix_String p) in
      existsb (fun ig => match path_Match (ToLower (ig_Mask ig)) mask with Ok b => b | _ => false end)
        (nw_ignores net)
  end.

Definition setIgnores (ignores : list IgnoreRec) (net : network) : network := set_nw_ignores ignores net.
Definition ignoresSnapshot (net : network) : list IgnoreRec := nw_ignores net.

Definition equalCasemap (net : network) (a b : string) : bool :=
  bool_decide (nw_casemap net a = nw_casemap net b).

(** ** Channels: detaching, attaching, deleting *)

(** [uch.updateAutoDetach]: stop the timer, start one for a duration other
    than zero. *)
Definition updateAutoDetach (dur : Z) (uch : upstreamChannel) : upstreamChannel :=
  set_uch_detachTimer (if Z.eqb dur 0 then None else Some dur) uch.

(** A change of the channel [name] of the connection, if there is one. *)
Definition update_uch (name : string) (f : upstreamChannel -> upstreamChannel) (uc : upstreamConn) : upstreamConn :=
  match Get (uc_channels uc) name with
  | None => uc
  | Some uch => set_uc_channels (Set_ (uc_channels uc) name (f uch)) uc
  end.

(** A change of the saved channel [name] of the network. *)
Definition update_ch (name : string) (f : ChannelRec -> ChannelRec) (net : network) : network :=
  match Get (nw_channels net) name with
  | None => net
  | Some ch => set_nw_channels (Set_ (nw_channels net) name (f ch)) net
  end.

(** [uc.updateChannelAutoDetach] (upstream.go) *)
Definition updateChannelAutoDetach (name : string) : H unit :=
  ouch ← get_uc (fun uc => Get (uc_channels uc) name);
  match ouch with
  | None => mret tt
  | Some _ =>
      och ← get_net (fun net => Get (nw_channels net) name);
      match och with
      | None => mret tt
      | Some ch => if ch_Detached ch then mret tt
                   else modify_uc (update_uch name (updateAutoDetach (ch_DetachAfter ch)))
      end
  end.

(** [net.detach(ctx, ch)] for the channel stored under [name]. *)
Definition detach (name : string) (ch : ChannelRec) : H unit :=
  if ch_Detached ch then mret tt
  else
    net ← gets su_net;
    store ← gets su_store;
    let msgID := match store with
                 | None => ch_DetachedInternalMsgID ch
                 | Some st => default "" (st_LastMsgID st (nw_rec net) (nw_casemap net (ch_Name ch)) env_now)
                 end in
    modify_net (update_ch name (fun c => with_detached c true msgID));;
    conn ← gets su_conn;
    when conn (modify_uc (update_uch (ch_Name ch) (updateAutoDetach 0)));;
    forEachDownstream (fun dc =>
      down dc (SendMessage (Message ∅ (Some (dc_prefix dc)) "PART" [ch_Name ch; "Detach"]))).

Definition attach (name : string) (ch : ChannelRec) : H unit :=
  if negb (ch_Detached ch) then mret tt
  else
    let detachedMsgID := ch_DetachedInternalMsgID ch in
    modify_net (update_ch name (fun c => with_detached c false ""));;
    conn ← gets su_conn;
    uch ← (if conn : bool then
             uch ← get_uc (fun uc => Get (uc_channels uc) (ch_Name ch));
             updateChannelAutoDetach (ch_Name ch);; mret uch
           else mret None);
    forEachDownstream (fun dc =>
      down dc (SendMessage (Message ∅ (Some (dc_prefix dc)) "JOIN" [ch_Name ch]));;
      match uch with Some uch => down dc (forwardChannel uch) | None => mret tt end;;
      when (nonempty detachedMsgID) (down dc (sendTargetBacklog (ch_Name ch) detachedMsgID))).

Definition deleteChannel (name : string) : H unit :=
  och ← get_net (fun net => Get (nw_channels net) name);
  match och with
  | None => raise (ErrUnknownChannel name)
  | Some ch =>
      conn ← gets su_conn;
      when conn (modify_uc (update_uch (ch_Name ch) (updateAutoDetach 0)));;
      if env_DeleteChannel (ch_ID ch) then
        emit (DeleteChannelDB (ch_ID ch));;
        modify_net (fun net => set_nw_channels (Del (nw_channels net) name) net)
      else raise ErrDatabase
  end.

(** ** Case mapping *)

Definition recase_members (cm : CaseMapping) (uch : upstreamChannel) : upstreamChannel :=
  set_uch_Members (Recase (uch_Members uch) cm) uch.

Definition recase_uc (cm : CaseMapping) (uc : upstreamConn) : upstreamConn :=
  let channels := Recase (uc_channels uc) cm in
  let channels := CMM ((fun e => CMEntry (originalKey e) (recase_members cm (value e))) <$> cmm_m channels)
                      (cmm_casemap channels) in
  set_uc_monitored (Recase (uc_monitored uc) cm)
    (set_uc_users (Recase (uc_users uc) cm) (set_uc_channels channels uc)).

Definition recase_net (cm : CaseMapping) (net : network) : network :=
  set_nw_pushTargets (Recase (nw_pushTargets net) cm)
    (set_nw_delivered (Recase (nw_delivered net) cm)
      (set_nw_channels (Recase (nw_channels net) cm) (set_nw_casemap cm net))).

Definition updateCasemapping (newCasemap : CaseMapping) : H unit :=
  modify_net (recase_net newCasemap);;
  conn ← gets su_conn;
  when conn (modify_uc (recase_uc newCasemap));;
  forEachDownstream (fun dc => down dc updateCasemapping_dc).

(** ** Receipts, highlights, credentials *)

Definition storeClientDeliveryReceipts (clientName : string) : H unit :=
  if negb env_persistent then mret tt
  else
    net ← gets su_net;
    let receipts := omap (fun target => let msgID := ds_LoadID (nw_delivered net) target clientName in
                                        if nonempty msgID then Some (target, msgID) else None)
                      (ds_ForEachTarget (nw_delivered net)) in
    emit (StoreReceipts (n_ID (nw_rec net)) clientName receipts).

(** [net.isHighlight]: panics for a PRIVMSG or NOTICE without text or source. *)
Definition net_isHighlight (msg : message) : H bool :=
  if negb (bool_decide (Command msg = "PRIVMSG")) && negb (bool_decide (Command msg = "NOTICE")) then mret false
  else match Params msg !! 1%nat, MsgPrefix msg with
  | Some text, Some p =>
      s ← gets id;
      let nick := if su_conn s : bool then uc_nick (su_uc s)
                  else GetNick env_user (Some (nw_rec (su_net s))) in
      if bool_decide (Name p = nick) then mret false
      else match isHighlight text nick with Ok b => mret b | _ => panic end
  | _, _ => panic
  end.

Definition detachedMessageNeedsRelay (ch : ChannelRec) (msg : message) : H bool :=
  highlight ← net_isHighlight msg;
  mret (bool_decide (ch_RelayDetached ch = FilterMessage)
        || (bool_decide (ch_RelayDetached ch = FilterHighlight)
            || bool_decide (ch_RelayDetached ch = FilterDefault)) && highlight).

Definition autoSaveSASLPlain (username password : string) : H unit :=
  mech ← get_net (fun net => s_Mechanism (n_SASL (nw_rec net)));
  if nonempty mech && negb (bool_decide (mech = "PLAIN")) then mret tt
  else
    modify_net (fun net =>
      let s := n_SASL (nw_rec net) in
      set_nw_rec (with_SASL (nw_rec net) (MkSASL "PLAIN" username password (s_CertBlob s) (s_PrivKeyBlob s))) net);;
    r ← get_net nw_rec;
    emit (StoreNetworkDB r).

End Networks.
