(* ===== verification/Ignore.v ===== *)
(** * Ignored senders (user.go)

    [network.isIgnored] matches the masks of the ignore list with
    [path.Match], whose patterns are those of slash-separated paths. *)

From stdpp Require Import base list gmap strings.
From Stdlib Require Import ZArith Ascii.
From S2P Require Import Prelude GoStrings Casemapping Xirc Irc Rate Database Handler Session PathMatch Network.

(** ** Slashes of a matched name *)

Notation is_ascii s := (Forall (fun c => (byteZ c < 128)%Z) (schars s)).

Lemma not_slash_cons c p : slash_char ∉ schars (String c p) <-> c <> slash_char /\ slash_char ∉ schars p.
Proof. change (schars (String c p)) with (c :: schars p). rewrite not_elem_of_cons. naive_solver. Qed.

Lemma ascii_cons c p : is_ascii (String c p) <-> (byteZ c < 128)%Z /\ is_ascii p.
Proof. apply (Forall_cons (fun c => (byteZ c < 128)%Z)). Qed.

(** What is left of [s] after a match: a suffix, and no slash was consumed. *)
Definition keeps_slash (s t : string) : Prop :=
  is_ascii t /\ (slash_char ∈ schars s -> slash_char ∈ schars t).

Lemma keeps_slash_drop c s t : c <> slash_char -> keeps_slash s t -> keeps_slash (String c s) t.
Proof.
  intros Hc [Ha Hs]. split; [done|]. intros Hin. apply Hs.
  change (schars (String c s)) with (c :: schars s) in Hin. set_solver.
Qed.

Lemma match_chunk_slash fuel failed chunk s t :
  plain chunk -> slash_char ∉ schars chunk -> is_ascii s ->
  match_chunk fuel failed chunk s = Ok (Some t) -> failed = false /\ keeps_slash s t.
Proof.
  revert failed chunk s; induction fuel as [|fuel IH]; intros failed chunk s Hp Hc Hs; [done|].
  destruct chunk as [|c p].
  { simpl. destruct failed; [done|]. intros [= ->]. done. }
  apply plain_cons in Hp as [[H1 H2] Hp]. apply not_slash_cons in Hc as [Hc0 Hc].
  cbn [match_chunk]. rewrite (byte_eqb_false c "["), (byte_eqb_false c "\") by done.
  destruct failed; cbn [orb].
  { destruct (byte_eqb c "?"); intros H; by apply IH in H as [? _]. }
  destruct s as [|d s].
  { cbn [slen String.length Nat.eqb]. destruct (byte_eqb c "?"); cbn [orb]; intros H; by apply IH in H as [? _]. }
  apply ascii_cons in Hs as [Hd Hs]. cbn [slen String.length Nat.eqb].
  rewrite DecodeRune_ascii by done. cbn [snd sdrop]. change (schars (String d s)) with (d :: schars s). cbn [head].
  unfold default, id, from_option.
  destruct (byte_eqb c "?") eqn:Eq; intros H; apply IH in H as [Hf Hk]; try done; (split; [done|]);
    apply keeps_slash_drop; try done.
  - intros ->. by rewrite byte_eqb_refl in Hf.
  - intros ->. rewrite byte_eqb_false in Hf by done. done.
Qed.

Lemma skip_match_slash last chunk name t :
  plain chunk -> slash_char ∉ schars chunk -> is_ascii name ->
  skip_match last chunk name = Ok (Some t) -> keeps_slash name t.
Proof.
  intros Hp Hc. induction name as [|c name IH]; intros Hn; simpl; [done|]. apply ascii_cons in Hn as [_ Hn].
  destruct (byte_eqb c slash_char) eqn:E; [done|]. unfold byte_eqb in E; bool_to_prop.
  destruct (matchChunk chunk name) as [[t'|]| |] eqn:Em; cbn [res_bind]; try done.
  - case_match; intros Ht; [by apply keeps_slash_drop; [|apply IH]|]. injection Ht as <-.
    apply keeps_slash_drop; [done|]. by apply (match_chunk_slash _ _ chunk name t') in Em as [_ ?].
  - intros Ht. by apply keeps_slash_drop; [|apply IH].
Qed.

Lemma path_match_slash fuel pattern name :
  plain pattern -> slash_char ∉ schars pattern -> is_ascii name ->
  path_match fuel pattern name = Ok true -> slash_char ∉ schars name.
Proof.
  revert pattern name; induction fuel as [|fuel IH]; intros pattern name Hp Hc Hn; [done|].
  cbn [path_match]. destruct (slen pattern =? 0)%nat eqn:E0.
  { intros [= E]. apply Nat.eqb_eq, slen_0 in E as ->. apply not_elem_of_nil. }
  unfold scanChunk. destruct (scan_stars_spec false pattern) as (n & p & -> & -> & Hns).
  apply plain_stars in Hp.
  assert (Hc' : slash_char ∉ schars p).
  { clear -Hc. induction n as [|n IH]; [done|]. cbn in Hc. apply not_slash_cons in Hc as [_ Hc]. auto. }
  destruct (scan_body_spec p Hp) as (chunk & rest & -> & -> & _ & _).
  apply plain_app in Hp as [Hpc Hpr]. rewrite schars_app, not_elem_of_app in Hc'. destruct Hc' as [Hcc Hcr].
  destruct (_ && _).
  { intros [= E]. intros Hin. apply negb_true_iff in E. apply byte_in_spec in Hin. congruence. }
  assert (Hrest : forall t, keeps_slash name t -> path_match fuel rest t = Ok true -> slash_char ∉ schars name).
  { intros t [Ha Ht] H Hin. by apply (IH rest t Hpr Hcr Ha H), Ht. }
  assert (Hskip : (let? o := skip_match (slen rest =? 0)%nat chunk name in
                   match o with Some t => path_match fuel rest t | None => check_rest fuel rest end) = Ok true ->
                  slash_char ∉ schars name).
  { destruct (skip_match _ chunk name) as [[t|]| |] eqn:Es; cbn [res_bind]; try done.
    - apply Hrest. by apply (skip_match_slash _ chunk name t) in Es.
    - by rewrite check_rest_plain. }
  destruct (matchChunk chunk name) as [[t|]| |] eqn:Em; cbn [res_bind]; try done.
  - apply (match_chunk_slash _ _ chunk name t) in Em as [_ Em]; [|done..]. destruct (_ || _); [by apply Hrest|].
    destruct (_ || _); [done|]. by rewrite check_rest_plain.
  - destruct (_ || _); [done|]. by rewrite check_rest_plain.
Qed.

(** ** The ignore list *)
Section Ignores.
Context {MO : MapOrder} {UN : Unicode} {EV : Env}.

(** The sender as [isIgnored] matches it, and the masks. *)
Definition sender (p : prefix) : string := ToLower (prefix_String p).
Definition masks (net : network) : list string := (fun ig => ToLower (ig_Mask ig)) <$> nw_ignores net.

Lemma isIgnored_true net p :
  isIgnored net (Some p) = true <-> exists mask, mask ∈ masks net /\ path_Match mask (sender p) = Ok true.
Proof.
  unfold isIgnored, masks, sender. rewrite existsb_exists. split.
  - intros (ig & Hin & Hm). exists (ToLower (ig_Mask ig)). split.
    + apply list_elem_of_fmap. exists ig. by rewrite list_elem_of_In.
    + by destruct (path_Match _ _) as [[]| |].
  - intros (mask & Hin & Hm). apply list_elem_of_fmap in Hin as (ig & -> & Hin).
    exists ig. rewrite <- list_elem_of_In. by rewrite Hm.
Qed.

End Ignores.

(** C35: for masks without character classes and escapes, and a sender of ASCII
    characters other than a slash, the chunk-wise matcher that [isIgnored]
    runs agrees with the declarative meaning of a glob: the sender is ignored
    exactly when some lower-cased mask matches it with [*] for any sequence
    and [?] for any character. *)
Theorem isIgnored_glob {UN : Unicode} {EV : Env} net p :
  Forall plain (masks net) -> flat (sender p) ->
  (isIgnored net (Some p) = true <-> exists mask, mask ∈ masks net /\ glob mask (sender p)).
Proof.
  intros Hm Hp. rewrite isIgnored_true. rewrite Forall_forall in Hm.
  split; intros (mask & Hin & H); exists mask; (split; [done|]);
    destruct (path_match_glob (S (slen mask)) mask (sender p)) as (b & Hb & Hg); auto; unfold path_Match in *.
  - apply Hg. congruence.
  - apply Hg in H. congruence.
Qed.

(** A sender whose nick, user or host contains a slash (a cloak such as
    [user/alice]) is never ignored by masks without a slash, not even by the
    mask [*] or [*!*@*]: path.Match does not let a star or a question mark
    match a slash. *)
Theorem isIgnored_slash {UN : Unicode} {EV : Env} net p :
  Forall (fun mask => plain mask /\ slash_char ∉ schars mask) (masks net) ->
  Forall (fun c => (byteZ c < 128)%Z) (schars (sender p)) -> slash_char ∈ schars (sender p) ->
  isIgnored net (Some p) = false.
Proof.
  intros Hm Ha Hs. rewrite Forall_forall in Hm. apply not_true_is_false. rewrite isIgnored_true.
  intros (mask & Hin & H). destruct (Hm mask Hin) as [Hp Hc]. by eapply path_match_slash.
Qed.

(** ** Concrete ignore lists *)
Module IgnoreWitness.

Definition env : Env := {|
  env_user := NewUser "user"; env_downs := []; env_now := 0; env_rand := 0;
  env_srvPrefix := Prefix "bouncer" "" ""; env_messageTarget _ := None; env_DeleteChannel _ := true;
  env_persistent := false; time_Parse _ := Some 0%Z; FormatServerTime _ := "t";
  ParsePrefix s := Prefix s "" ""; prefix_String p := Name p +:+ "!" +:+ User p +:+ "@" +:+ Host p;
  sasl_Start _ := None; sasl_Next _ _ := None |}.

Definition net (mask : string) : network :=
  newNetwork (NewNetwork "irc.example.org") [] [MkIgnore 1 mask 0].

Definition bob : prefix := Prefix "Bob" "b" "example.org".
Definition cloaked : prefix := Prefix "Bob" "b" "user/bob".

#[local] Existing Instance env.
#[local] Existing Instance ascii_unicode.

Lemma isIgnored_glob_witness :
  isIgnored (net "bob!*@*.or?") (Some bob) = true /\ exists mask, mask ∈ masks (net "bob!*@*.or?") /\ glob mask (sender bob).
Proof.
  assert (E : isIgnored (net "bob!*@*.or?") (Some bob) = true) by (vm_compute; reflexivity).
  split; [exact E|].
  apply (isIgnored_glob (net "bob!*@*.or?") bob); [| |exact E].
  - vm_compute. repeat constructor; discriminate.
  - vm_compute. repeat constructor; discriminate.
Defined.

Lemma isIgnored_slash_witness : isIgnored (net "bob!*@*") (Some cloaked) = false.
Proof.
  apply (isIgnored_slash (net "bob!*@*") cloaked).
  - apply Forall_singleton. split; [vm_compute; repeat constructor; discriminate|].
    apply (bool_decide_unpack _). vm_compute. exact I.
  - vm_compute. repeat constructor; discriminate.
  - apply (bool_decide_unpack _). vm_compute. exact I.
Defined.

End IgnoreWitness.
