(* ===== verification/Pending.v ===== *)
(** * Pending upstream commands and labels (upstream.go)

    Commands whose replies carry no reference to the client that asked are
    queued per command: the head has been sent and waits for its reply, the
    rest waits for the head. Labels route the replies of servers that support
    labeled-response. *)

From stdpp Require Import base list gmap strings.
From Stdlib Require Import ZArith Ascii.
From S2P Require Import Prelude GoStrings GoText Casemapping Xirc Irc Database Handler Session.

Local Open Scope Z_scope.

Definition RPL_LISTEND : string := "323".
Definition RPL_ENDOFWHO : string := "315".
Definition RPL_ENDOFWHOIS : string := "318".

Section Pending.
Context {St : Type} {MO : MapOrder} {EV : Env}.
Notation H := (handler (ust St) uerror).

(** ** Labels *)

(** [sd-<downstream id>-<label id>-<downstream label>] *)
Definition format_label (downstreamID nextLabelID : Z) (label : string) : string :=
  "sd-" +:+ fmt_uint downstreamID +:+ "-" +:+ fmt_uint nextLabelID +:+ "-" +:+ label.

Definition parseLabel (label : string) : res uerror (Z * string) :=
  if bool_decide (label = "") then Ok (0, "")
  else match SplitN label "-" 4 with
  | [sd; id; _; downstreamLabel] =>
      if bool_decide (sd = "sd") then
        match ParseUint id with
        | Some downstreamID => Ok (downstreamID, downstreamLabel)
        | None => Err (ErrLabel label)
        end
      else Err (ErrLabel label)
  | _ => Err (ErrLabel label)
  end.

Definition set_tag (k v : string) (msg : message) : message :=
  Message (<[k := v]> (Tags msg)) (MsgPrefix msg) (Command msg) (Params msg).

(** [uc.SendMessageLabeled]; [label] is the label of the downstream context.
    The result is the message, whose tags the call changes. *)
Definition SendMessageLabeled (label : string) (downstreamID : Z) (msg : message) : H message :=
  uc ← gets su_uc;
  if IsEnabled (uc_caps uc) "labeled-response" then
    let msg := set_tag "label" (format_label downstreamID (uc_nextLabelID uc) label) msg in
    modify_uc (set_uc_nextLabelID (wrapu64 (uc_nextLabelID uc + 1)));;
    uc_SendMessage msg;; mret msg
  else uc_SendMessage msg;; mret msg.

(** ** The queues *)

Definition queue (uc : upstreamConn) (cmd : string) : list pendingUpstreamCommand :=
  default [] (uc_pendingCmds uc !! cmd).

Definition set_queue (cmd : string) (l : list pendingUpstreamCommand) (uc : upstreamConn) : upstreamConn :=
  set_uc_pendingCmds (<[cmd := l]> (uc_pendingCmds uc)) uc.

(** [uc.downstreamByID] *)
Definition downstreamByID (id : Z) : option downstreamConn :=
  snd <$> list_find (fun dc => dc_id dc = id) env_downs.

(** [len(l) == 0] is the early return; the head is sent and stamped. *)
Definition sendNextPendingCommand (cmd : string) : H unit :=
  l ← get_uc (fun uc => queue uc cmd);
  match l with
  | [] => mret tt
  | p :: rest =>
      msg ← SendMessageLabeled (p_downstreamLabel p) (p_downstreamID p) (p_msg p);
      modify_uc (set_queue cmd (Pending (p_downstreamID p) (p_downstreamLabel p) msg (Some env_now) :: rest))
  end.

Definition supported_commands : list string :=
  ["LIST"; "WHO"; "WHOIS"; "AUTHENTICATE"; "REGISTER"; "VERIFY"].

Definition pendingTimeout : Z := 30 * 1000000000.

(** Whether the loop over the timed out commands stops at [p]. *)
Definition timed_out (p : pendingUpstreamCommand) : bool :=
  match p_sentAt p with
  | None => false
  | Some t => pendingTimeout <? env_now - t
  end.

(** The number of timed out commands at the front. *)
Fixpoint count_timed_out (l : list pendingUpstreamCommand) : nat :=
  match l with
  | p :: l' => if timed_out p then S (count_timed_out l') else O
  | [] => O
  end.

(** [copy(l, l[n:])]: the slice keeps its length. *)
Definition slice_copy {A} (l : list A) (n : nat) : list A := drop n l ++ drop (length l - n) l.

(** [label] is the label of the context of the downstream connection. *)
Definition enqueueCommand (label : string) (dc : downstreamConn) (msg : message) : H unit :=
  if negb (bool_decide (Command msg ∈ supported_commands)) then panic
  else
    let cmd := Command msg in
    modify_uc (fun uc => set_queue cmd (queue uc cmd ++ [Pending (dc_id dc) label msg None]) uc);;
    l ← get_uc (fun uc => queue uc cmd);
    let timedOut := count_timed_out l in
    when (0 <? timedOut)%nat (modify_uc (set_queue cmd (slice_copy l timedOut)));;
    l ← get_uc (fun uc => queue uc cmd);
    when (length l =? 1)%nat (sendNextPendingCommand cmd).

Definition currentPendingCommand (cmd : string) : H (option downstreamConn * option message) :=
  l ← get_uc (fun uc => queue uc cmd);
  match l with
  | [] => mret (None, None)
  | p :: _ => mret (downstreamByID (p_downstreamID p), Some (p_msg p))
  end.

Definition dequeueCommand (cmd : string) : H (option downstreamConn * option message) :=
  r ← currentPendingCommand cmd;
  l ← get_uc (fun uc => queue uc cmd);
  when (0 <? length l)%nat (modify_uc (set_queue cmd (tail l)));;
  sendNextPendingCommand cmd;;
  mret r.

(** The command that has been sent stays at the head. *)
Definition cancel_queue (downstreamID : Z) (l : list pendingUpstreamCommand) : list pendingUpstreamCommand :=
  match l with
  | [] => []
  | p :: l' => p :: filter (fun q => p_downstreamID q <> downstreamID) l'
  end.

Definition cancelPendingCommandsByDownstreamID (downstreamID : Z) : H unit :=
  modify_uc (fun uc => set_uc_pendingCmds (cancel_queue downstreamID <$> uc_pendingCmds uc) uc).

(** The reply that tells a client that its command was aborted. *)
Definition abort_call (dc : downstreamConn) (msg : message) : res uerror down_call :=
  let cmd := Command msg in
  if bool_decide (cmd = "LIST") then
    Ok (SendMessage (mk_msg RPL_LISTEND [dc_nick dc; "Command aborted"]))
  else if bool_decide (cmd = "WHO") then
    Ok (SendMessage (mk_msg RPL_ENDOFWHO [dc_nick dc; default "*" (head (Params msg)); "Command aborted"]))
  else if bool_decide (cmd = "WHOIS") then
    match last (Params msg) with
    | Some nick => Ok (SendMessage (mk_msg RPL_ENDOFWHOIS [dc_nick dc; nick; "Command aborted"]))
    | None => Panic
    end
  else if bool_decide (cmd = "AUTHENTICATE") then
    Ok (endSASL_dc (mk_msg "906" [dc_nick dc; "SASL authentication aborted"]))
  else if bool_decide (cmd = "REGISTER") || bool_decide (cmd = "VERIFY") then
    match head (Params msg) with
    | Some account => Ok (SendMessage (mk_msg "FAIL" [cmd; "TEMPORARILY_UNAVAILABLE"; account; "Command aborted"]))
    | None => Panic
    end
  else Panic.

Definition abortPendingCommands : H unit :=
  cmds ← get_uc (fun uc => map_order (uc_pendingCmds uc));
  for_each cmds (fun kl =>
    for_each (snd kl) (fun p =>
      match downstreamByID (p_downstreamID p) with
      | None => mret tt
      | Some dc => call ← lift (abort_call dc (p_msg p)); down dc (inNewContext call)
      end));;
  modify_uc (set_uc_pendingCmds ∅).

End Pending.

(** ** Lemmas *)

(** The clock of a later call. *)
Definition at_time (EV : Env) (t : Z) : Env := {|
  env_user := env_user; env_downs := env_downs; env_now := t; env_rand := env_rand;
  env_srvPrefix := env_srvPrefix; env_messageTarget := env_messageTarget;
  env_DeleteChannel := env_DeleteChannel; env_persistent := env_persistent;
  time_Parse := time_Parse; FormatServerTime := FormatServerTime; ParsePrefix := ParsePrefix;
  prefix_String := prefix_String; sasl_Start := sasl_Start; sasl_Next := sasl_Next |}.

Lemma queue_set uc cmd l : queue (set_queue cmd l uc) cmd = l.
Proof. unfold queue, set_queue; simpl. by rewrite lookup_insert_eq. Qed.

Lemma queue_set_ne uc cmd cmd' l : cmd <> cmd' -> queue (set_queue cmd l uc) cmd' = queue uc cmd'.
Proof. intros. unfold queue, set_queue; simpl. by rewrite lookup_insert_ne. Qed.

Section PendingLemmas.
Context {St : Type} {MO : MapOrder}.
Notation H := (handler (ust St) uerror).
Implicit Types (s : ust St) (p : pendingUpstreamCommand).

(** Who asked, and for what. *)
Definition req_of p : Z * list string := (p_downstreamID p, Params (p_msg p)).

(** The parameters of the commands sent to the server. *)
Definition sent_params (l : list effect) : list (list string) :=
  omap (fun e => match e with Up m => Some (Params m) | _ => None end) l.

Lemma SendMessageLabeled_spec label id msg s :
  exists msg' uc' m, SendMessageLabeled label id msg s
      = (Ust uc' (su_conn s) (su_net s) (su_ref s) (su_store s) (su_eff s ++ [Up m]), Ok msg') /\
    uc_pendingCmds uc' = uc_pendingCmds (su_uc s) /\
    Params msg' = Params msg /\ Command msg' = Command msg /\ Params m = Params msg /\ Command m = Command msg.
Proof.
  unfold SendMessageLabeled, uc_SendMessage, emit, get_uc, modify_uc.
  destruct s as [uc conn net ref store eff]. hrun.
  destruct (IsEnabled (uc_caps uc) "labeled-response"); cbn;
    destruct (IsEnabled (uc_caps uc) "message-tags"); cbn; by repeat eexists.
Qed.

Lemma sendNext_nil (EV : Env) cmd s :
  queue (su_uc s) cmd = [] -> sendNextPendingCommand cmd s = (s, Ok tt).
Proof. intros Hq. unfold sendNextPendingCommand, get_uc. hrun. by rewrite Hq. Qed.

Lemma sendNext_cons (EV : Env) cmd p rest s :
  queue (su_uc s) cmd = p :: rest ->
  exists p' s', sendNextPendingCommand cmd s = (s', Ok tt) /\
    uc_pendingCmds (su_uc s') = <[cmd := p' :: rest]> (uc_pendingCmds (su_uc s)) /\
    req_of p' = req_of p /\ Command (p_msg p') = Command (p_msg p) /\ p_sentAt p' = Some env_now /\
    sent_params (su_eff s') = sent_params (su_eff s) ++ [Params (p_msg p)].
Proof.
  intros Hq. unfold sendNextPendingCommand, get_uc.
  destruct (SendMessageLabeled_spec (p_downstreamLabel p) (p_downstreamID p) (p_msg p) s)
    as (msg' & uc' & m & Heq & Huc & H1 & H2 & H3 & H4).
  hrun. rewrite Hq, Heq. hrun.
  eexists _, _. split_and!; [done|..]; cbn.
  - by rewrite Huc.
  - by unfold req_of; cbn; rewrite H1.
  - done.
  - done.
  - unfold sent_params. rewrite omap_app. cbn. by rewrite H3.
Qed.

(** [enqueueCommand] after its loop over timed out commands. *)
Lemma enqueue_eq (EV : Env) label dc cmd params s :
  cmd ∈ supported_commands ->
  let l := queue (su_uc s) cmd ++ [Pending (dc_id dc) label (mk_msg cmd params) None] in
  let l' := if (0 <? count_timed_out l)%nat then slice_copy l (count_timed_out l) else l in
  exists s1, queue (su_uc s1) cmd = l' /\ su_eff s1 = su_eff s /\
    enqueueCommand label dc (mk_msg cmd params) s
    = (if (length l' =? 1)%nat then sendNextPendingCommand cmd s1 else (s1, Ok tt)).
Proof.
  intros Hc l l'. unfold enqueueCommand, get_uc, modify_uc. cbn [Command mk_msg].
  rewrite (bool_decide_true (cmd ∈ _)) by done. cbn [negb]. rewrite bind_modify.
  set (s1 := on_uc _ s). assert (Hq1 : queue (su_uc s1) cmd = l) by apply queue_set.
  rewrite bind_gets, Hq1. unfold l'.
  destruct (0 <? count_timed_out l)%nat; [exists (on_uc (set_queue cmd (slice_copy l (count_timed_out l))) s1)|exists s1].
  - cbn [when]. rewrite bind_modify, bind_gets. cbn [su_uc on_uc]. rewrite queue_set.
    split_and!; [done|done|]. by destruct (length _ =? 1)%nat.
  - cbn [when]. rewrite bind_ret, bind_gets, Hq1.
    split_and!; [done|done|]. by destruct (length _ =? 1)%nat.
Qed.

Lemma dequeue_eq (EV : Env) cmd s :
  exists s1, queue (su_uc s1) cmd = tail (queue (su_uc s) cmd) /\ su_eff s1 = su_eff s /\
    dequeueCommand cmd s
    = (fst (sendNextPendingCommand cmd s1),
       Ok (match head (queue (su_uc s) cmd) with
           | Some p => (downstreamByID (p_downstreamID p), Some (p_msg p))
           | None => (None, None)
           end)).
Proof.
  unfold dequeueCommand, currentPendingCommand, get_uc, modify_uc.
  destruct (queue (su_uc s) cmd) as [|p rest] eqn:Hq.
  - exists s. split_and!; [by rewrite Hq|done|].
    erewrite bind_ok; [|rewrite bind_gets, Hq; done]. rewrite bind_gets, Hq. cbn [when length Nat.ltb Nat.leb].
    rewrite bind_ret. erewrite bind_ok; [|by apply sendNext_nil]. by rewrite sendNext_nil by done.
  - set (s1 := on_uc (set_queue cmd rest) s). assert (Hq1 : queue (su_uc s1) cmd = rest) by apply queue_set.
    exists s1. split_and!; [done|done|].
    erewrite bind_ok; [|rewrite bind_gets, Hq; done]. rewrite bind_gets, Hq. cbn [when length Nat.ltb Nat.leb tail].
    rewrite bind_modify. fold s1. destruct rest as [|q rest].
    + erewrite bind_ok; [|by apply sendNext_nil]. by rewrite sendNext_nil by done.
    + destruct (sendNext_cons EV cmd q rest s1 Hq1) as (p' & s' & Hs' & _).
      erewrite bind_ok; [|done]. by rewrite Hs'.
Qed.

(** ** Runs of the queue of one command *)

(** The head, if any, was sent at most the time-out before [t]. *)
Definition head_fresh (t : Z) s cmd : Prop :=
  match queue (su_uc s) cmd with
  | p :: _ => match p_sentAt p with Some t0 => t - t0 <= pendingTimeout | None => True end
  | [] => True
  end.

(** The states reached from [s0] by requests, which arrive before the head
    times out, and by final replies of the server; with the requests made and
    the answers given so far. *)
Inductive pend_run (EV : Env) (cmd : string) (s0 : ust St)
    : ust St -> list (Z * list string) -> list (option downstreamConn * list string) -> Prop :=
| pend_start : queue (su_uc s0) cmd = [] -> pend_run EV cmd s0 s0 [] []
| pend_request t label dc params s s' reqs answers :
    pend_run EV cmd s0 s reqs answers -> head_fresh t s cmd ->
    enqueueCommand (EV := at_time EV t) label dc (mk_msg cmd params) s = (s', Ok tt) ->
    pend_run EV cmd s0 s' (reqs ++ [(dc_id dc, params)]) answers
| pend_reply t s s' dc msg reqs answers :
    pend_run EV cmd s0 s reqs answers ->
    dequeueCommand (EV := at_time EV t) cmd s = (s', Ok (dc, Some msg)) ->
    pend_run EV cmd s0 s' reqs (answers ++ [(dc, Params msg)])
| pend_spurious t s s' dc reqs answers :
    pend_run EV cmd s0 s reqs answers ->
    dequeueCommand (EV := at_time EV t) cmd s = (s', Ok (dc, None)) ->
    pend_run EV cmd s0 s' reqs answers.

(** The answer a request gets. *)
Definition answer_of {EV : Env} (r : Z * list string) : option downstreamConn * list string :=
  (downstreamByID (fst r), snd r).

(** The queue in a reachable state: the requests not answered yet, of which
    the first has been sent. *)
Definition pend_inv (EV : Env) (cmd : string) (s0 s : ust St) (reqs : list (Z * list string))
    (answers : list (option downstreamConn * list string)) : Prop :=
  exists done,
    reqs = done ++ (req_of <$> queue (su_uc s) cmd) /\
    answers = answer_of <$> done /\
    Forall (fun p => p_sentAt p = None) (tail (queue (su_uc s) cmd)) /\
    sent_params (su_eff s) = sent_params (su_eff s0) ++ (take (S (length done)) reqs).*2.

Lemma count_fresh (EV : Env) t s cmd l : head_fresh t s cmd ->
  @count_timed_out (at_time EV t) (queue (su_uc s) cmd ++ [l]) = 0%nat \/ queue (su_uc s) cmd = [].
Proof.
  unfold head_fresh. destruct (queue (su_uc s) cmd) as [|p q]; [by right|]. intros Hf. left. cbn.
  unfold timed_out. cbn. destruct (p_sentAt p); [|done].
  replace (pendingTimeout <? t - z) with false; [done|]. symmetry. apply Z.ltb_ge. lia.
Qed.

Lemma pend_inv_request EV cmd s0 t label dc params s s' reqs answers :
  cmd ∈ supported_commands -> pend_inv EV cmd s0 s reqs answers -> head_fresh t s cmd ->
  enqueueCommand (EV := at_time EV t) label dc (mk_msg cmd params) s = (s', Ok tt) ->
  pend_inv EV cmd s0 s' (reqs ++ [(dc_id dc, params)]) answers.
Proof.
  intros Hc (dn & -> & -> & Hs & He) Hf Heq.
  destruct (enqueue_eq (at_time EV t) label dc cmd params s Hc) as (s1 & Hq1 & He1 & Hrun).
  set (new := Pending (dc_id dc) label (mk_msg cmd params) None) in *.
  assert (Hcount : @count_timed_out (at_time EV t) (queue (su_uc s) cmd ++ [new]) = 0%nat).
  { destruct (count_fresh EV t s cmd new Hf) as [|Hq]; [done|]. by rewrite Hq. }
  rewrite Hcount in Hq1, Hrun. cbn [Nat.ltb Nat.leb] in Hq1, Hrun. rewrite Hrun in Heq.
  destruct (queue (su_uc s) cmd) as [|p q] eqn:Hq.
  - (* an idle queue sends the command *)
    cbn in Heq. destruct (sendNext_cons (at_time EV t) cmd new [] s1 Hq1) as (p' & s2 & Hs2 & Hq2 & Hr & _ & _ & He2).
    rewrite Hs2 in Heq. injection Heq as <-. exists dn. unfold queue. rewrite Hq2, lookup_insert_eq. cbn.
    rewrite app_nil_r. rewrite Hr. split_and!; [done|done|by constructor|].
    rewrite He2, He1, He. cbn. rewrite app_nil_r, !take_ge by (rewrite ?length_app; cbn; lia).
    by rewrite fmap_app, app_assoc.
  - (* otherwise it waits *)
    rewrite length_app, Nat.add_comm in Heq. cbn in Heq. simplify_eq. exists dn. rewrite Hq1.
    split_and!; [by rewrite fmap_app, app_assoc|done| |].
    + cbn in *. apply Forall_app. split; [done|]. by constructor.
    + rewrite He1, He. do 2 f_equal. rewrite (take_app_le (dn ++ _)); [done|].
      rewrite length_app. cbn. lia.
Qed.

Lemma pend_inv_reply EV cmd s0 t s s' r reqs answers :
  pend_inv EV cmd s0 s reqs answers ->
  dequeueCommand (EV := at_time EV t) cmd s = (s', Ok r) ->
  pend_inv EV cmd s0 s' reqs (answers ++ match r with (dc, Some msg) => [(dc, Params msg)] | _ => [] end).
Proof.
  intros (dn & -> & -> & Hs & He) Heq.
  destruct (dequeue_eq (at_time EV t) cmd s) as (s1 & Hq1 & He1 & Hrun). rewrite Hrun in Heq.
  destruct (queue (su_uc s) cmd) as [|p q] eqn:Hq; cbn in Heq, Hq1, Hs;
    injection Heq as <- <-.
  - rewrite sendNext_nil by done. exists dn. cbn in *. rewrite Hq1. cbn. rewrite !app_nil_r in *.
    rewrite He1, He. by split_and!.
  - exists (dn ++ [req_of p]). destruct q as [|p2 q].
    + rewrite sendNext_nil by done. cbn. rewrite Hq1. cbn. rewrite app_nil_r, fmap_app.
      split_and!; [done|done|by constructor|].
      rewrite He1, He. rewrite !take_ge by (rewrite ?length_app; cbn; lia). done.
    + destruct (sendNext_cons (at_time EV t) cmd p2 q s1 Hq1) as (p' & s2 & -> & Hq2 & Hr & _ & _ & He2).
      cbn. unfold queue. rewrite Hq2, lookup_insert_eq. cbn.
      rewrite fmap_app, Hr. apply Forall_cons in Hs as [_ Hs].
      split_and!; [by rewrite <- app_assoc|done|done|].
      rewrite He2, He1, He. rewrite <- app_assoc. f_equal. rewrite length_app. cbn.
      rewrite Nat.add_1_r, (take_S_r _ (S (length dn)) (req_of p2)); [by rewrite fmap_app|].
      rewrite lookup_app_r by lia. by replace (S (length dn) - length dn)%nat with 1%nat by lia.
Qed.

Lemma pend_run_inv EV cmd s0 s reqs answers :
  cmd ∈ supported_commands -> pend_run EV cmd s0 s reqs answers -> pend_inv EV cmd s0 s reqs answers.
Proof.
  intros Hc. induction 1 as [Hq|t label dc params s s' reqs answers _ IH Hf Heq
                            |t s s' dc msg reqs answers _ IH Heq|t s s' dc reqs answers _ IH Heq].
  - exists []. rewrite Hq. cbn. rewrite app_nil_r. by split_and!.
  - by eapply pend_inv_request.
  - by eapply (pend_inv_reply _ _ _ _ _ _ (dc, Some msg)).
  - eapply (pend_inv_reply _ _ _ _ _ _ (dc, None)) in IH; [|done]. by rewrite app_nil_r in IH.
Qed.

(** *** A stuck queue *)

(** At least two commands, of which the first was never sent. *)
Definition stuck s cmd : Prop :=
  exists p q l, queue (su_uc s) cmd = p :: q :: l /\ p_sentAt p = None.

Lemma stuck_request EV label dc cmd params s :
  cmd ∈ supported_commands -> stuck s cmd ->
  stuck (fst (enqueueCommand (EV := EV) label dc (mk_msg cmd params) s)) cmd /\
  su_eff (fst (enqueueCommand (EV := EV) label dc (mk_msg cmd params) s)) = su_eff s.
Proof.
  intros Hc (p & q & l & Hq & Hp). destruct (enqueue_eq EV label dc cmd params s Hc) as (s1 & Hq1 & He1 & ->).
  rewrite Hq in Hq1 |- *. cbn in Hq1 |- *. unfold timed_out in *. rewrite Hp in *. cbn in *.
  split; [|done]. by exists p, q, (l ++ [Pending (dc_id dc) label (mk_msg cmd params) None]).
Qed.

(** Requests for [cmd], each with its time, label, client and parameters. *)
Definition requests (EV : Env) (cmd : string) (l : list (Z * string * downstreamConn * list string)) s : ust St :=
  foldl (fun s r => let '(t, label, dc, params) := r in
                    fst (enqueueCommand (EV := at_time EV t) label dc (mk_msg cmd params) s)) s l.

Lemma stuck_requests EV cmd l s :
  cmd ∈ supported_commands -> stuck s cmd -> su_eff (requests EV cmd l s) = su_eff s.
Proof.
  intros Hc. revert s; induction l as [|[[[t label] dc] params] l IH]; intros s Hs; [done|].
  destruct (stuck_request (at_time EV t) label dc cmd params s Hc Hs) as [Hs' He].
  etransitivity; [apply IH; exact Hs'|exact He].
Qed.

End PendingLemmas.

(** ** Properties *)



(** C36: a label that SendMessageLabeled builds from a client's identifier, a
    counter and the client's own label parses back to that client and that
    label, for all 64-bit identifiers and counters and any label text,
    also one that contains dashes. *)
Theorem label_roundtrip id n label :
  0 <= id < 2 ^ 64 -> 0 <= n < 2 ^ 64 -> parseLabel (format_label id n label) = Ok (id, label).
Proof.
  intros Hid Hn. destruct (fmt_uint_spec id Hid) as (_ & Hd1 & Hp1). destruct (fmt_uint_spec n Hn) as (_ & Hd2 & _).
  assert (Hdash : forall ds, Forall (fun c => byte_between "0" c "9" = true) (schars ds) -> "-"%char ∉ schars ds).
  { intros ds Hds Hin. rewrite Forall_forall in Hds. by specialize (Hds _ Hin). }
  unfold parseLabel, format_label. apply Hdash in Hd1, Hd2. clear Hid Hn Hdash. revert Hd1 Hp1 Hd2.
  generalize (fmt_uint id) (fmt_uint n). intros a b Ha Hp Hb.
  change ("sd-" +:+ a +:+ "-" +:+ b +:+ "-" +:+ label)
    with ("sd" +:+ String "-" (a +:+ String "-" (b +:+ String "-" label))).
  rewrite bool_decide_false by done.
  rewrite !SplitN_app by (by_eval || auto). cbn [SplitN]. by rewrite bool_decide_true, Hp.
Qed.

(** A concrete environment and state, for evaluation. *)
Module PendingWitness.
Definition client (id : Z) : downstreamConn :=
  DConn id (Some 0%nat) true true "" false "me" "me" "me" "u" "h" "" None 0 NewCapRegistry ∅ None None 0 casemapASCII
    (NewCaseMappingMap casemapASCII) ∅ false.
Definition env : Env := {|
  env_user := NewUser "user"; env_downs := [client 1; client 2]; env_now := 0; env_rand := 0;
  env_srvPrefix := Prefix "bouncer" "" ""; env_messageTarget _ := None; env_DeleteChannel _ := true;
  env_persistent := false; time_Parse _ := Some 0; FormatServerTime _ := "t";
  ParsePrefix s := Prefix s "" ""; prefix_String p := Name p;
  sasl_Start _ := None; sasl_Next _ _ := None |}.
Definition conn0 : upstreamConn :=
  UConn (Prefix "*" "" "") "" "" stdChannelModes stdChannelTypes "" stdMemberships ∅ true "me" "u" "r" "h" ""
    (NewCaseMappingMap casemapRFC1459) (NewCaseMappingMap casemapRFC1459) NewCapRegistry ∅ false "" 0
    (NewCaseMappingMap casemapRFC1459) None false ∅ "" None None true false true false [].
Definition net0 : network :=
  Net (NewNetwork "irc.example.org") (NewCaseMappingMap casemapASCII) (NewCaseMappingMap casemapASCII) None
    casemapRFC1459 (NewCaseMappingMap casemapASCII) [] false.
Definition state0 : ust unit := Ust conn0 true net0 0%nat None [].

(** Two LIST commands, then the reply to the first. *)
Definition state1 : ust unit := fst (enqueueCommand (EV := at_time env 0) "" (client 1) (mk_msg "LIST" ["a"]) state0).
Definition state2 : ust unit := fst (enqueueCommand (EV := at_time env 0) "" (client 2) (mk_msg "LIST" ["b"]) state1).
Definition state3 : ust unit := fst (dequeueCommand (EV := at_time env 0) "LIST" state2).

Lemma state3_run : pend_run env "LIST" state0 state3 [(1, ["a"]); (2, ["b"])] [(Some (client 1), ["a"])].
Proof.
  apply (pend_reply env "LIST" state0 0 state2 state3 (Some (client 1)) (mk_msg "LIST" ["a"]) _ []);
    [|unfold state3; apply (run_result (dequeueCommand _ _)); vm_compute; reflexivity].
  apply (pend_request env "LIST" state0 0 "" (client 2) ["b"] state1 state2 [(1, ["a"])]);
    [|vm_compute; discriminate|unfold state2; apply (run_result (enqueueCommand _ _ _ _)); vm_compute; reflexivity].
  apply (pend_request env "LIST" state0 0 "" (client 1) ["a"] state0 state1 []);
    [by apply pend_start|exact I|unfold state1; apply (run_result (enqueueCommand _ _ _ _)); vm_compute; reflexivity].
Qed.


Definition sent_list : pendingUpstreamCommand := Pending 1 "" (mk_msg "LIST" []) (Some 0).
Definition waiting : ust unit := on_uc (set_queue "LIST" [sent_list]) state0.


Lemma label_roundtrip_witness : parseLabel (format_label 12 3456 "a-b") = Ok (12, "a-b").
Proof. apply (label_roundtrip 12 3456 "a-b"); lia. Defined.
End PendingWitness.
