(* ===== verification/Upstream.v ===== *)
(** * Upstream connections (upstream.go)

    The methods of an upstream connection that [handleMessage] is built from:
    ISUPPORT and capability negotiation, the user cache, the message log,
    MONITOR lists and the nick regain timer. *)

From stdpp Require Import base list gmap strings.
From Stdlib Require Import ZArith Ascii.
From S2P Require Import Prelude GoStrings GoText Casemapping Xirc Whox Genmsg Irc Rate Database.
From S2P Require Import Handler Session Network Pending.

Local Open Scope Z_scope.

Definition serviceNick : string := "BouncerServ".
Definition serviceNickCM : string := "bouncerserv".

Definition permanentUpstreamCaps : gmap string unit := list_to_map ((fun c => (c, tt)) <$>
  ["account-notify"; "account-tag"; "away-notify"; "batch"; "chghost"; "echo-message"; "extended-join";
   "extended-monitor"; "invite-notify"; "labeled-response"; "message-tags"; "multi-prefix"; "sasl";
   "server-time"; "setname"; "draft/account-registration"; "draft/extended-monitor";
   "draft/message-redaction"]).

Definition storableMessageTags : list string := ["+react"; "+unreact"; "+draft/react"; "+draft/unreact"].

(** ** Registration errors *)

Definition Reason (err : message) : string :=
  match last (Params err) with Some p => p | None => Command err end.

(** [err.Params[1]] panics for a FAIL without a code. *)
Definition Temporary (err : message) : res uerror bool :=
  if bool_decide (Command err ∈ ["464"; "432"]) (* ERR_PASSWDMISMATCH, ERR_ERRONEUSNICKNAME *) then Ok false
  else if bool_decide (Command err = "FAIL") then
    match Params err !! 1%nat with
    | Some code => Ok (negb (bool_decide (code = "ACCOUNT_REQUIRED")))
    | None => Panic
    end
  else Ok true.

(** ** Cached users *)

Definition has_whox_field (uu : upstreamUser) (field : ascii) : bool :=
  if byte_eqb field "n" then nonempty (uu_Nickname uu)
  else if byte_eqb field "u" then nonempty (uu_Username uu)
  else if byte_eqb field "h" then nonempty (uu_Hostname uu)
  else if byte_eqb field "s" then nonempty (uu_Server uu)
  else if byte_eqb field "f" then nonempty (uu_Flags uu)
  else if byte_eqb field "a" then nonempty (uu_Account uu)
  else if byte_eqb field "r" then nonempty (uu_Realname uu)
  else existsb (byte_eqb field) ["t"; "c"; "i"; "d"; "l"; "o"]%char.

Definition hasWHOXFields (uu : upstreamUser) (fields : string) : bool :=
  forallb (has_whox_field uu) (schars fields).

Definition updateFrom (uu update : upstreamUser) : upstreamUser :=
  let pick old new := if nonempty new then new else old in
  UUser (pick (uu_Nickname uu) (uu_Nickname update)) (pick (uu_Username uu) (uu_Username update))
    (pick (uu_Hostname uu) (uu_Hostname update)) (pick (uu_Server uu) (uu_Server update))
    (pick (uu_Flags uu) (uu_Flags update)) (pick (uu_Account uu) (uu_Account update))
    (pick (uu_Realname uu) (uu_Realname update)).

(** The connection [connectToUpstream] returns. *)
Definition new_upstreamConn (clientCertSent : bool) : upstreamConn :=
  let cm := casemapRFC1459 in
  UConn (Prefix "*" "" "") "" "" stdChannelModes stdChannelTypes "" stdMemberships ∅
    false "" "" "" "" "" (NewCaseMappingMap cm) (NewCaseMappingMap cm) NewCapRegistry ∅ false "" 0
    (NewCaseMappingMap cm) None false ∅ "" None None false clientCertSent true true [].

(** ** Parsing of tokens *)

Fixpoint membership_loop (available : list Membership) (s : string) : list Membership * string :=
  match available with
  | [] => ([], s)
  | m :: available' =>
      match s with
      | EmptyString => ([], s)
      | String c s' =>
          if byte_eqb c (MPrefix m)
          then let '(ms, nick) := membership_loop available' s' in (m :: ms, nick)
          else membership_loop available' s
      end
  end.

Definition parseMembershipPrefix (uc : upstreamConn) (s : string) : list Membership * string :=
  membership_loop (uc_availableMemberships uc) s.

Definition add_modes (mt : channelModeType) (modes : gmap ascii channelModeType) (part : string)
    : gmap ascii channelModeType :=
  foldl (fun m mode => <[mode := mt]> m) modes (schars part).

Definition handleChanModes (s : string) (uc : upstreamConn) : res uerror upstreamConn :=
  match SplitN s "," 5 with
  | a :: b :: c :: d :: _ =>
      Ok (set_uc_availableChannelModes
            (add_modes modeTypeD (add_modes modeTypeC (add_modes modeTypeB (add_modes modeTypeA ∅ a) b) c) d) uc)
  | _ => Err (ErrMalformed s)
  end.

Definition handleMemberships (s : string) (uc : upstreamConn) : res uerror upstreamConn :=
  match s with
  | EmptyString => Ok (set_uc_availableMemberships [] uc)
  | String c0 _ =>
      if negb (byte_eqb c0 "(") then Err (ErrMalformed s)
      else match IndexByte s ")" with
      | None => Err (ErrMalformed s)
      | Some sep =>
          if negb (slen s =? sep * 2)%nat then Err (ErrMalformed s)
          else
            let n := (slen s / 2 - 1)%nat in
            Ok (set_uc_availableMemberships
                  (zip_with Memb (take n (drop 1 (schars s))) (take n (drop (sep + 1) (schars s)))) uc)
      end
  end.

Section Upstream.
Context {St : Type} {HSt : Store St} {MO : MapOrder} {UN : Unicode} {EV : Env}.
Notation H := (handler (ust St) uerror).

(** ** Downstream connections of the network *)

Definition forEachDownstreamByID (id : Z) (f : downstreamConn -> H unit) : H unit :=
  forEachDownstream (fun dc => if negb (Z.eqb id 0) && negb (Z.eqb id (dc_id dc)) then mret tt else f dc).

Definition forwardMessage (msg : message) : H unit :=
  forEachDownstream (fun dc => down dc (SendMessage msg)).

Definition forwardMsgByID (id : Z) (msg : message) : H unit :=
  forEachDownstreamByID id (fun dc => down dc (SendMessage msg)).

Definition getChannel (name : string) : H upstreamChannel :=
  och ← get_uc (fun uc => Get (uc_channels uc) name);
  match och with
  | None => raise (ErrUnknownChannel name)
  | Some ch => mret ch
  end.

Definition isChannel (uc : upstreamConn) (entity : string) : bool :=
  match entity with
  | EmptyString => false
  | String c _ => Contains (uc_availableChannelTypes uc) (EncodeRune (byteZ c))
  end.

Definition is_our_nick (net : network) (uc : upstreamConn) (nick : string) : bool :=
  equalCasemap net (uc_nick uc) nick.

Definition isOurNick (nick : string) : H bool :=
  gets (fun s => is_our_nick (su_net s) (su_uc s) nick).

(** ** Capabilities *)

Definition add_cap (caps : CapRegistry) (s : string) : CapRegistry :=
  let '(k, v) := Split2 s "=" in SetAvailable caps (ToLower k) (default "" v).

Definition handleSupportedCaps (capsStr : string) (uc : upstreamConn) : upstreamConn :=
  set_uc_caps (foldl add_cap (uc_caps uc) (Fields capsStr)) uc.

(** The capabilities to request. *)
Definition request_caps (caps : CapRegistry) : list string :=
  let permanent := filter (fun c => IsAvailable caps c && negb (IsEnabled caps c) = true)
                     (map_order permanentUpstreamCaps).*1 in
  let echoMessage := IsAvailable caps "labeled-response" in
  if negb (IsEnabled caps "echo-message") && echoMessage then permanent ++ ["echo-message"]
  else if IsEnabled caps "echo-message" && negb echoMessage then permanent ++ ["-echo-message"]
  else permanent.

Definition updateCaps : H unit :=
  caps ← get_uc uc_caps;
  let requestCaps := request_caps caps in
  if (length requestCaps =? 0)%nat then mret tt
  else uc_SendMessage (mk_msg "CAP" ["REQ"; Join requestCaps " "]).

Definition supportsSASL (uc : upstreamConn) (mech : string) : bool :=
  match Available (uc_caps uc) !! "sasl" with
  | None => false
  | Some v => if bool_decide (v = "") then true else existsb (fun m => EqualFold m mech) (Split v ",")
  end.

Definition requestSASL (net : network) (uc : upstreamConn) : bool :=
  let mech := s_Mechanism (n_SASL (nw_rec net)) in
  if bool_decide (mech = "") then false else supportsSASL uc mech.

Definition handleCapAck (name : string) (ok : bool) : H unit :=
  modify_uc (fun uc => set_uc_caps (SetEnabled (uc_caps uc) name ok) uc);;
  if bool_decide (name = "sasl") then
    request ← gets (fun s => requestSASL (su_net s) (su_uc s));
    if negb request then mret tt
    else if negb ok then mret tt
    else
      auth ← get_net (fun net => n_SASL (nw_rec net));
      if bool_decide (s_Mechanism auth = "PLAIN") then
        modify_uc (set_uc_saslClient (Some (PlainClient "" (s_PlainUsername auth) (s_PlainPassword auth))));;
        uc_SendMessage (mk_msg "AUTHENTICATE" [s_Mechanism auth])
      else if bool_decide (s_Mechanism auth = "EXTERNAL") then
        modify_uc (set_uc_saslClient (Some (ExternalClient "")));;
        uc_SendMessage (mk_msg "AUTHENTICATE" [s_Mechanism auth])
      else raise (ErrMalformed name)
  else mret tt.

(** ** Registration *)

Definition register : H unit :=
  r ← get_net nw_rec;
  modify_uc (fun uc => set_uc_realname (GetRealname env_user (Some r))
    (set_uc_username (GetUsername env_user (Some r)) (set_uc_nick (GetNick env_user (Some r)) uc)));;
  uc_SendMessage (mk_msg "CAP" ["LS"; "302"]);;
  when (nonempty (n_Pass r)) (uc_SendMessage (mk_msg "PASS" [n_Pass r]));;
  uc ← gets su_uc;
  uc_SendMessage (mk_msg "NICK" [uc_nick uc]);;
  uc_SendMessage (mk_msg "USER" [uc_username uc; "0"; "*"; uc_realname uc]).

(** ** Users *)

Definition shouldCacheUserInfo (net : network) (uc : upstreamConn) (nick : string) : bool :=
  is_our_nick net uc nick || Has (uc_monitored uc) nick
  || existsb (fun e => Has (uch_Members (value e)) nick) (iter (uc_channels uc)).

(** The cache after [uc.cacheUserInfo(nick, info)] for a non-empty nick. *)
Definition cache_user (users : CaseMappingMap upstreamUser) (nick : string) (info : upstreamUser)
    : CaseMappingMap upstreamUser :=
  match Get users nick with
  | None =>
      let info := if nonempty (uu_Nickname info) then info
                  else UUser nick (uu_Username info) (uu_Hostname info) (uu_Server info) (uu_Flags info) (uu_Account info)
                         (uu_Realname info) in
      Set_ users (uu_Nickname info) info
  | Some uu =>
      let uu := updateFrom uu info in
      if nonempty (uu_Nickname info) && negb (bool_decide (nick = uu_Nickname info))
      then Set_ (Del users nick) (uu_Nickname uu) uu
      else Set_ users nick uu
  end.

Definition cacheUserInfo (nick : string) (info : upstreamUser) : H unit :=
  if bool_decide (nick = "") then panic
  else modify_uc (fun uc => set_uc_users (cache_user (uc_users uc) nick info) uc).

(** [if !uc.shouldCacheUserInfo(nick) { uc.users.Del(nick) }] *)
Definition forget_user (nick : string) : H unit :=
  keep ← gets (fun s => shouldCacheUserInfo (su_net s) (su_uc s) nick);
  when (negb keep) (modify_uc (fun uc => set_uc_users (Del (uc_users uc) nick) uc)).

(** The members of a channel, when every one has the fields. *)
Fixpoint cached_members (uc : upstreamConn) (fields : string) (l : list string) : option (list upstreamUser) :=
  match l with
  | [] => Some []
  | nick :: l' =>
      match Get (uc_users uc) nick with
      | Some uu => if hasWHOXFields uu fields then cons uu <$> cached_members uc fields l' else None
      | None => None
      end
  end.

(** [None] is [ok = false]. *)
Definition getCachedWHO (uc : upstreamConn) (mask fields0 : string) : option (list upstreamUser) :=
  let fields := if bool_decide (fields0 = "") then "cuhsnfdr" else fields0 in
  if byte_in "a" fields && negb (IsEnabled (uc_caps uc) "account-notify") then None
  else if byte_in "f" fields && negb (IsEnabled (uc_caps uc) "away-notify") then None
  else match Get (uc_users uc) mask with
  | Some uu => if hasWHOXFields uu fields then Some [uu] else None
  | None =>
      match Get (uc_channels uc) mask with
      | Some uch => cached_members uc fields (originalKey <$> iter (uch_Members uch))
      | None => None
      end
  end.

(** ** Message log *)

(** The messages [appendLog] leaves out. *)
Definition loggable (net : network) (entity : string) (msg : message) : bool :=
  (negb (bool_decide (Command msg = "TAGMSG"))
   || existsb (fun t => bool_decide (is_Some (Tags msg !! t))) storableMessageTags)
  && negb (HasPrefix entity "$")
  && negb (bool_decide (nw_casemap net entity = "nickserv")).

Definition appendLog (entity : string) (msg : message) : H string :=
  store ← gets su_store;
  net ← gets su_net;
  match store with
  | None => mret ""
  | Some st =>
      if negb (loggable net entity msg) then mret ""
      else
        let entityCM := nw_casemap net entity in
        let append :=
          let '(st', id) := st_Append st (nw_rec net) entityCM msg in
          modify (on_store (fun _ => Some st'));; mret (default "" id) in
        if negb (ds_Empty (nw_delivered net)) && negb (ds_HasTarget (nw_delivered net) entity) then
          match st_LastMsgID st (nw_rec net) entityCM env_now with
          | None => mret ""
          | Some lastID =>
              modify_net (fun net => set_nw_delivered
                (foldl (fun ds client => ds_StoreID ds entity client lastID) (nw_delivered net)
                   (ds_ForEachClient (nw_delivered net))) net);;
              append
          end
        else append
  end.

(** What [produce] does for one downstream connection. *)
Definition produce_call (net : network) (uc : upstreamConn) (blocked detached ignored : bool)
    (msg : message) (msgID : string) (originID : Z) (dc : downstreamConn) : option down_call :=
  if blocked && negb (bool_decide ("soju.im/blocked" ∈ dc_metadataSubs dc)) then None
  else
    let echo := Z.eqb (dc_id dc) originID
                && match MsgPrefix msg with Some p => is_our_nick net uc (Name p) | None => false end in
    if negb detached && negb ignored && (negb echo || IsEnabled (dc_caps dc) "echo-message")
    then Some (sendMessageWithID msg msgID) else Some (advanceMessageWithID msg msgID).

(** [blocked] is the value of the context under [contextSourceBlockedKey]. *)
Definition produce (blocked : bool) (target : string) (msg : message) (originID : Z) : H unit :=
  msgID ← (if nonempty target then appendLog target msg else mret "");
  net ← gets su_net;
  uc ← gets su_uc;
  let detached := match Get (nw_channels net) target with Some ch => ch_Detached ch | None => false end in
  let ignored := isIgnored net (MsgPrefix msg) in
  forEachDownstream (fun dc =>
    match produce_call net uc blocked detached ignored msg msgID originID dc with
    | Some call => down dc call
    | None => mret tt
    end).

(** ** Away, MONITOR and the desired nick *)

Definition updateAway : H unit :=
  s ← gets id;
  if negb (n_AutoAway (nw_rec (su_net s))) then mret tt
  else
    let away := forallb (fun dc => bool_decide (is_Some (dc_away dc)))
                  (filter (fun dc => dc_network dc = Some (su_ref s)) env_downs) in
    if Bool.eqb away (uc_away (su_uc s)) then mret tt
    else
      (if away then
         uc_SendMessage (mk_msg "AWAY" [if IsAvailable (uc_caps (su_uc s)) "draft/pre-away" then "*" else "Auto away"])
       else uc_SendMessage (mk_msg "AWAY" []));;
      modify_uc (set_uc_away away).

(** The targets to add, in order and without duplicates, and the monitored
    targets seen. *)
Definition monitor_target (net : network) (uc : upstreamConn) (acc : list string * list string) (target : string)
    : list string * list string :=
  let '(addList, seen) := acc in
  let targetCM := nw_casemap net target in
  if bool_decide (targetCM = serviceNickCM) then acc
  else if negb (Has (uc_monitored uc) targetCM) then
    if bool_decide (targetCM ∈ addList) then acc else (addList ++ [targetCM], seen)
  else (addList, targetCM :: seen).

Definition monitor_add (net : network) (uc : upstreamConn) (dcs : list downstreamConn) : list string * list string :=
  foldl (monitor_target net uc) ([], []) (dcs ≫= fun dc => originalKey <$> iter (dc_monitored dc)).

Definition monitor_wanted (net : network) (uc : upstreamConn) (addList : list string) : list string :=
  let wantNick := GetNick env_user (Some (nw_rec net)) in
  let wantNickCM := nw_casemap net wantNick in
  if negb (bool_decide (wantNickCM ∈ addList)) && negb (Has (uc_monitored uc) wantNick)
     && negb (is_our_nick net uc wantNick) && negb (uc_hasDesiredNick uc)
  then addList ++ [wantNickCM] else addList.

Definition monitor_remove (net : network) (uc : upstreamConn) (seen : list string) : list string :=
  filter (fun nick => nw_casemap net nick ∉ seen) (originalKey <$> iter (uc_monitored uc)).

(** The messages that take the server from the old list to the new one. *)
Definition monitor_msgs (removeAll : bool) (addList removeList : list string) : list message :=
  if removeAll && (length addList =? 0)%nat && (0 <? length removeList)%nat
  then [mk_msg "MONITOR" ["C"]]
  else GenerateMonitor "-" removeList ++ GenerateMonitor "+" addList.

Definition updateMonitor : H unit :=
  s ← gets id;
  let uc := su_uc s in
  let net := su_net s in
  match uc_isupport uc !! "MONITOR" with
  | None => mret tt
  | Some _ =>
      let '(addList, seen) :=
        monitor_add net uc (filter (fun dc => dc_network dc = Some (su_ref s)) env_downs) in
      let addList := monitor_wanted net uc addList in
      let removeList := monitor_remove net uc seen in
      let removeAll := forallb (fun nick => negb (bool_decide (nw_casemap net nick ∈ seen)))
                         (originalKey <$> iter (uc_monitored uc)) in
      for_each (monitor_msgs removeAll addList removeList) uc_SendMessage;;
      for_each removeList (fun target =>
        modify_uc (fun uc => set_uc_monitored (Del (uc_monitored uc) target) uc);;
        forget_user target)
  end.

Definition stopRegainNickTimer (uc : upstreamConn) : upstreamConn :=
  set_uc_regainNickBackoff None (set_uc_regainNickTimer None uc).

Definition second : Z := 1000000000.

Definition startRegainNickTimer : H unit :=
  s ← gets id;
  match uc_regainNickBackoff (su_uc s), uc_regainNickTimer (su_uc s) with
  | None, None =>
      let wantNick := GetNick env_user (Some (nw_rec (su_net s))) in
      if is_our_nick (su_net s) (su_uc s) wantNick then mret tt
      else
        let '(b, d) := bo_Next (newBackoffer (15 * second) (10 * 60 * second) (10 * second)) env_rand in
        modify_uc (fun uc => set_uc_regainNickTimer (Some d) (set_uc_regainNickBackoff (Some b) uc))
  | _, _ => panic
  end.

(** [uc.regainNickBackoff.Next()] panics on a nil back-off. *)
Definition tryRegainNick (nick : string) : H unit :=
  s ← gets id;
  match uc_regainNickTimer (su_uc s) with
  | None => mret tt
  | Some _ =>
      let wantNick := GetNick env_user (Some (nw_rec (su_net s))) in
      if negb (bool_decide (wantNick = nick)) || is_our_nick (su_net s) (su_uc s) wantNick
      then modify_uc stopRegainNickTimer
      else match uc_regainNickBackoff (su_uc s) with
      | None => panic
      | Some b =>
          let '(b, d) := bo_Next b env_rand in
          modify_uc (fun uc => set_uc_regainNickTimer (Some d) (set_uc_regainNickBackoff (Some b) uc));;
          if nonempty (uc_pendingRegainNick (su_uc s)) then mret tt
          else uc_SendMessage (mk_msg "NICK" [wantNick]);;
               modify_uc (set_uc_pendingRegainNick wantNick)
      end
  end.

(** ** Detached channels *)

Definition handleDetachedMessage (name : string) (ch : ChannelRec) (msg : message) : H unit :=
  relay ← detachedMessageNeedsRelay ch msg;
  when relay (forEachDownstream (fun dc => down dc (relayDetachedMessage msg)));;
  reattach ← (if bool_decide (ch_ReattachOn ch = FilterMessage) then mret true
              else if bool_decide (ch_ReattachOn ch = FilterHighlight) then net_isHighlight msg
              else mret false);
  if reattach : bool then
    attach name ch;;
    net ← gets su_net;
    match Get (nw_channels net) name with
    | Some ch' => emit (StoreChannel (n_ID (nw_rec net)) ch')
    | None => mret tt
    end
  else mret tt.

End Upstream.
