(* ===== verification/UpstreamHandlers.v ===== *)
(** * [upstreamConn.handleMessage] (upstream.go)

    One definition per case of the switch on the command, and [handleMessage]
    with the handling of labels, batches and time tags around the switch. *)

From stdpp Require Import base list gmap strings.
From Stdlib Require Import ZArith Ascii.
From S2P Require Import Prelude GoStrings GoText Casemapping Xirc Whox Base64 Genmsg Irc Rate Database.
From S2P Require Import Handler Session Network Pending Upstream.

Local Open Scope Z_scope.

Section Handlers.
Context {St : Type} {HSt : Store St} {MO : MapOrder} {UN : Unicode} {EV : Env}.
Notation H := (handler (ust St) uerror).

(** [parseMessageParams(msg, out...)] with [n] destinations. *)
Definition need (msg : message) (n : nat) : H (list string) :=
  lift (match parseMessageParams msg n with
        | Ok l => Ok l
        | Err (ErrNeedMoreParams cmd) => Err (ErrParams cmd)
        | Panic => Panic
        end).

(** The [i]-th destination. *)
Definition arg (l : list string) (i : nat) : string := default "" (l !! i).

(** [switch msg.Command { case cmds...: m }] *)
Fixpoint switch (cmd : string) (cases : list (list string * H unit)) (dflt : H unit) : H unit :=
  match cases with
  | [] => dflt
  | (cmds, m) :: cases' => if bool_decide (cmd ∈ cmds) then m else switch cmd cases' dflt
  end.

Definition with_params (msg : message) (params : list string) : message :=
  Message (Tags msg) (MsgPrefix msg) (Command msg) params.

(** [msg.Copy()] with its first parameter replaced. *)
Definition with_channel (msg : message) (ch : string) : message :=
  with_params msg (ch :: tail (Params msg)).

(** ** PRIVMSG, NOTICE, TAGMSG, REDACT *)

(** The buffer of a message and whether it is a direct message. *)
Definition message_buffer (s : ust St) (msg : message) (p : prefix) (target : string) : string * bool :=
  let direct := is_our_nick (su_net s) (su_uc s) target in
  let bufferName := if direct then Name p else target in
  match Tags msg !! "+draft/channel-context" with
  | Some t =>
      match Get (uc_channels (su_uc s)) t with
      | Some ch => if Has (uch_Members ch) (Name p) then (uch_Name ch, false) else (bufferName, direct)
      | None => (bufferName, direct)
      end
  | None => (bufferName, direct)
  end.

(** Relaying, highlighting and auto-detaching for a saved channel: whether
    the message is a highlight and whether it is hidden. *)
Definition channel_message (bufferName : string) (msg : message) (isText self : bool) : H (bool * bool) :=
  och ← get_net (fun net => Get (nw_channels net) bufferName);
  match och with
  | None => mret (false, false)
  | Some ch =>
      if isText && negb self then
        when (ch_Detached ch) (handleDetachedMessage bufferName ch msg);;
        highlight ← net_isHighlight msg;
        when (bool_decide (ch_DetachOn ch = FilterMessage) || bool_decide (ch_DetachOn ch = FilterDefault)
              || bool_decide (ch_DetachOn ch = FilterHighlight) && highlight)
          (updateChannelAutoDetach bufferName);;
        och ← get_net (fun net => Get (nw_channels net) bufferName);
        mret (highlight, match och with
                         | Some ch => ch_Detached ch && bool_decide (ch_RelayDetached ch = FilterNone)
                         | None => false
                         end)
      else mret (false, false)
  end.

Definition on_text (msg : message) (p : prefix) (downstreamID : Z) : H unit :=
  let isText := bool_decide (Command msg = "NOTICE") || bool_decide (Command msg = "PRIVMSG") in
  l ← need msg (if isText then 2 else 1)%nat;
  s ← gets id;
  let uc := su_uc s in
  let net := su_net s in
  let target := TrimLeft (arg l 0) (uc_availableStatusMsg uc) in
  if equalCasemap net (Name p) serviceNick then mret tt
  else if equalCasemap net target serviceNick then mret tt
  else if negb (uc_registered uc) || equalCasemap net (Name p) (Name (uc_serverPrefix uc))
          || bool_decide (target = "*") || HasPrefix target "$"
  then produce false "" msg 0
  else
    let '(bufferName, directMessage) := message_buffer s msg p target in
    let self := is_our_nick net uc (Name p) in
    hd ← channel_message bufferName msg isText self;
    let '(highlight, detached) := hd in
    let sendWebPush := negb self && negb detached && isText && (highlight || directMessage) in
    let mt := env_messageTarget (nw_casemap net (Name p)) in
    let '(muted, blocked) := default (false, false) mt in
    when (sendWebPush && negb (muted || blocked))
      (match time_Parse (default "" (Tags msg !! "time")) with
       | None => panic
       | Some timestamp => emit (WebPushAfter (5 * second) bufferName timestamp msg)
       end);;
    produce blocked bufferName msg downstreamID.

(** ** CAP *)

Definition update_downstream_caps : H unit :=
  registered ← get_uc uc_registered;
  when registered (forEachDownstream (fun dc => down dc updateSupportedCaps)).

Definition on_cap_ls (msg : message) (subParams : list string) : H unit :=
  match last subParams with
  | None => raise (ErrParams (Command msg))
  | Some caps =>
      let more := (2 <=? length subParams)%nat
                  && bool_decide (Params msg !! (length subParams - 2)%nat = Some "*") in
      modify_uc (handleSupportedCaps caps);;
      if more then mret tt
      else
        updateCaps;;
        request ← gets (fun s => requestSASL (su_net s) (su_uc s));
        if request : bool then mret tt else uc_SendMessage (mk_msg "CAP" ["END"])
  end.

Definition on_cap_ack (msg : message) (ack : bool) (subParams : list string) : H unit :=
  match head subParams with
  | None => raise (ErrParams (Command msg))
  | Some caps =>
      for_each (Fields caps) (fun name =>
        let '(name, minus) := CutPrefix name "-" in
        handleCapAck (ToLower name) (ack && negb minus));;
      update_downstream_caps
  end.

Definition on_cap (msg : message) : H unit :=
  l ← need msg 2;
  let subCmd := ToUpper (arg l 1) in
  let subParams := drop 2 (Params msg) in
  switch subCmd
    [(["LS"], on_cap_ls msg subParams);
     (["ACK"; "NAK"], on_cap_ack msg (bool_decide (subCmd = "ACK")) subParams);
     (["NEW"], match head subParams with
               | None => raise (ErrParams (Command msg))
               | Some caps => modify_uc (handleSupportedCaps caps);; updateCaps
               end);
     (["DEL"], match head subParams with
               | None => raise (ErrParams (Command msg))
               | Some caps =>
                   modify_uc (fun uc => set_uc_caps (foldl CapDel (uc_caps uc) (Fields caps)) uc);;
                   update_downstream_caps
               end)]
    (mret tt).

(** ** SASL and accounts *)

Definition abort_sasl : H unit := uc_SendMessage (mk_msg "AUTHENTICATE" ["*"]).

Definition on_authenticate (msg : message) : H unit :=
  client ← get_uc uc_saslClient;
  match client with
  | None => raise (ErrUnexpected "AUTHENTICATE")
  | Some client =>
      match head (Params msg) with
      | None => abort_sasl;; raise (ErrParams (Command msg))
      | Some challengeStr =>
          match (if bool_decide (challengeStr = "+") then Some [] else decode64 StdEncoding challengeStr) with
          | None => abort_sasl;; raise ErrSASL
          | Some challenge =>
              started ← get_uc uc_saslStarted;
              resp ← (if started : bool then mret (sasl_Next client challenge)
                      else modify_uc (set_uc_saslStarted true);; mret (sasl_Start client));
              match resp with
              | None => abort_sasl;; raise ErrSASL
              | Some resp => for_each (GenerateSASL resp) uc_SendMessage
              end
          end
      end
  end.

Definition set_user_host (rawPrefix : string) (uc : upstreamConn) : upstreamConn :=
  let prefix := ParsePrefix rawPrefix in
  set_uc_hostname (Host prefix) (set_uc_username (User prefix) uc).

Definition on_loggedin (msg : message) : H unit :=
  l ← need msg 3;
  modify_uc (fun uc => set_user_host (arg l 1) (set_uc_account (arg l 2) uc));;
  forEachDownstream (fun dc => down dc updateAccount;; down dc updateHost).

Definition on_loggedout (msg : message) : H unit :=
  l ← need msg 2;
  modify_uc (fun uc => set_user_host (arg l 1) (set_uc_account "" uc));;
  forEachDownstream (fun dc => down dc updateAccount;; down dc updateHost).

Definition on_visiblehost (msg : message) : H unit :=
  l ← need msg 2;
  modify_uc (fun uc => match Split2 (arg l 1) "@" with
                       | (user, Some host) => set_uc_hostname host (set_uc_username user uc)
                       | (_, None) => set_uc_hostname (arg l 1) uc
                       end);;
  forEachDownstream (fun dc => down dc updateHost).

(** [dc.sasl.plain.Username] panics when the exchange has no PLAIN
    credentials. *)
Definition on_sasl_result (msg : message) : H unit :=
  _ ← need msg 2;
  modify_uc (fun uc => set_uc_saslStarted false (set_uc_saslClient None uc));;
  r ← dequeueCommand "AUTHENTICATE";
  match r with
  | (Some dc, _) =>
      match dc_sasl dc with
      | None => mret tt
      | Some sasl =>
          when (bool_decide (Command msg = "903")) (* RPL_SASLSUCCESS *)
            (match sasl_plain sasl with
             | Some (username, password) => autoSaveSASLPlain username password
             | None => panic
             end);;
          down dc (endSASL_dc msg)
      end
  | (None, _) => mret tt
  end;;
  registered ← get_uc uc_registered;
  when (negb registered) (uc_SendMessage (mk_msg "CAP" ["END"])).

Definition on_register (msg : message) : H unit :=
  r ← dequeueCommand (Command msg);
  match r with
  | (Some dc, cmd) =>
      when (bool_decide (Command msg = "REGISTER"))
        (l ← need msg 2;
         lc ← need (default (mk_msg "" []) cmd) 3;
         autoSaveSASLPlain (arg l 1) (arg lc 2));;
      down dc (SendMessage msg)
  | (None, _) => mret tt
  end.

(** ** Registration and ISUPPORT *)

Definition on_welcome (msg : message) (p : prefix) : H unit :=
  l ← need msg 1;
  modify_uc (fun uc => set_uc_serverPrefix p (set_uc_registered true (set_uc_nick (arg l 0) uc))).

Definition on_myinfo (msg : message) : H unit :=
  l ← need msg 5;
  modify_uc (fun uc => set_uc_availableUserModes (arg l 3) (set_uc_serverName (arg l 1) uc)).

(** [parameter], [value], [hasValue], [negate] of a token. *)
Definition parse_isupport_token (token : string) : string * string * bool * bool :=
  let '(parameter, negate) := CutPrefix token "-" in
  let '(parameter, v, hasValue) := if negate : bool then (parameter, "", false) else Cut token "=" in
  let parameter := (match Cut parameter "/" with
                    | (pre, key, true) => ToLower pre +:+ "/" +:+ ToUpper key
                    | (_, _, false) => ToUpper parameter
                    end) in
  (parameter, DecodeIsupportValue v, hasValue, negate).

Definition set_isupport (parameter v : string) (hasValue negate : bool) (uc : upstreamConn) : upstreamConn :=
  set_uc_isupport
    (if hasValue then <[parameter := Some v]> (uc_isupport uc)
     else if negb negate then <[parameter := None]> (uc_isupport uc)
     else delete parameter (uc_isupport uc)) uc.

(** A change of the connection that may fail. *)
Definition try_uc (f : upstreamConn -> res uerror upstreamConn) : H unit :=
  uc ← gets su_uc;
  uc' ← lift (f uc);
  modify_uc (fun _ => uc').

Definition on_isupport_token (token : string) : H unit :=
  let '(parameter, v, hasValue, negate) := parse_isupport_token token in
  modify_uc (set_isupport parameter v hasValue negate);;
  switch parameter
    [(["CASEMAPPING"], updateCasemapping (default casemapRFC1459 (ParseCaseMapping v)));
     (["CHANMODES"], if negate then modify_uc (set_uc_availableChannelModes stdChannelModes)
                     else try_uc (handleChanModes v));
     (["CHANTYPES"], modify_uc (set_uc_availableChannelTypes (if negate then stdChannelTypes else v)));
     (["STATUSMSG"], modify_uc (set_uc_availableStatusMsg (if negate then "" else v)));
     (["PREFIX"], if negate then modify_uc (set_uc_availableMemberships stdMemberships)
                  else try_uc (handleMemberships v));
     (["soju.im/SAFERATE"], modify_uc (set_uc_rateLimit negate))]
    (mret tt).

(** [msg.Params[1 : len(msg.Params)-1]] *)
Definition isupport_params (msg : message) : list string :=
  take (length (Params msg) - 2) (drop 1 (Params msg)).

Definition on_isupport (msg : message) : H unit :=
  _ ← need msg 2;
  for_each (isupport_params msg) on_isupport_token;;
  updateMonitor;;
  forEachDownstream (fun dc => down dc updateIsupport).

Definition on_endofmotd (msg : message) (downstreamID : Z) : H unit :=
  uc ← gets su_uc;
  if negb (uc_gotMotd uc) then
    modify_uc (set_uc_gotMotd true);;
    when (negb (bool_decide (is_Some (mjoin (uc_isupport uc !! "CASEMAPPING")))))
      (updateCasemapping casemapRFC1459);;
    uc ← gets su_uc;
    when (negb (bool_decide (is_Some (uc_isupport uc !! "MONITOR")))) startRegainNickTimer
  else forwardMsgByID downstreamID msg.

(** ** BATCH *)

Definition on_batch_start (msg : message) (tag label downstreamLabel : string) (downstreamID : Z)
    (msgBatch : option upstreamBatch) : H unit :=
  batches ← get_uc uc_batches;
  if bool_decide (is_Some (batches !! tag)) then raise (ErrBatch tag)
  else
    l ← need msg 2;
    let label := if bool_decide (label = "") then (match msgBatch with Some b => b_Label b | None => label end)
                 else label in
    modify_uc (fun uc => set_uc_batches
      (<[tag := UBatch (arg l 1) (drop 2 (Params msg)) msgBatch label]> (uc_batches uc)) uc);;
    when (negb (Z.eqb downstreamID 0) && nonempty downstreamLabel)
      (forEachDownstreamByID downstreamID (fun dc =>
         down dc clearLabel;;
         down dc (SendMessage (Message {["label" := downstreamLabel]} (Some env_srvPrefix) "BATCH" (Params msg))))).

Definition on_batch_end (msg : message) (tag : string) : H unit :=
  batches ← get_uc uc_batches;
  match batches !! tag with
  | None => raise (ErrBatch tag)
  | Some b =>
      modify_uc (fun uc => set_uc_batches (delete tag (uc_batches uc)) uc);;
      match parseLabel (b_Label b) with
      | Ok (downstreamID, downstreamLabel) =>
          when (negb (Z.eqb downstreamID 0) && nonempty downstreamLabel)
            (forEachDownstreamByID downstreamID (fun dc =>
               down dc (SendMessage (Message ∅ (Some env_srvPrefix) "BATCH" (Params msg)))))
      | _ => mret tt
      end
  end.

Definition on_batch (msg : message) (label downstreamLabel : string) (downstreamID : Z)
    (msgBatch : option upstreamBatch) : H unit :=
  l ← need msg 1;
  match arg l 0 with
  | String "+" tag => on_batch_start msg tag label downstreamLabel downstreamID msgBatch
  | String "-" tag => on_batch_end msg tag
  | tag => raise (ErrBatch tag)
  end.

(** ** Users: NICK, SETNAME, CHGHOST, AWAY, ACCOUNT *)

(** Our own nick changed. *)
Definition our_nick_changed (newNick : string) : H unit :=
  modify_uc (set_uc_nick newNick);;
  s ← gets id;
  when (equalCasemap (su_net s) (uc_pendingRegainNick (su_uc s)) newNick)
    (modify_uc (fun uc => stopRegainNickTimer (set_uc_pendingRegainNick "" uc)));;
  when (equalCasemap (su_net s) (GetNick env_user (Some (nw_rec (su_net s)))) newNick)
    (modify_uc (set_uc_hasDesiredNick true)).

(** The members of one channel after a change of nick. *)
Definition rename_member (old new : string) (uch : upstreamChannel) : upstreamChannel :=
  match Get (uch_Members uch) old with
  | None => uch
  | Some memberships => set_uch_Members (Set_ (Del (uch_Members uch) old) new memberships) uch
  end.

(** [for each channel that has the member: change it and log the message]. *)
Definition for_channels_with (nick : string) (f : upstreamChannel -> upstreamChannel) (msg : message) : H unit :=
  channels ← get_uc (fun uc => iter (uc_channels uc));
  for_each channels (fun e =>
    when (Has (uch_Members (value e)) nick)
      (modify_uc (update_uch (originalKey e) f);;
       _ ← appendLog (uch_Name (value e)) msg; mret tt)).

Definition on_nick (msg : message) (p : prefix) : H unit :=
  l ← need msg 1;
  let newNick := arg l 0 in
  me ← isOurNick (Name p);
  when me (our_nick_changed newNick);;
  for_channels_with (Name p) (rename_member (Name p) newNick) msg;;
  cacheUserInfo (Name p) (UUser newNick "" "" "" "" "" "");;
  if me : bool then forEachDownstream (fun dc => down dc updateNick);; updateMonitor
  else forwardMessage msg.

Definition on_setname (msg : message) (p : prefix) : H unit :=
  l ← need msg 1;
  cacheUserInfo (Name p) (UUser "" "" "" "" "" "" (arg l 0));;
  me ← isOurNick (Name p);
  if me : bool then
    modify_uc (set_uc_realname (arg l 0));; forEachDownstream (fun dc => down dc updateRealname)
  else forwardMessage msg.

Definition on_chghost (msg : message) (p : prefix) : H unit :=
  l ← need msg 2;
  me ← isOurNick (Name p);
  if me : bool then
    modify_uc (fun uc => set_uc_hostname (arg l 1) (set_uc_username (arg l 0) uc));;
    forEachDownstream (fun dc => down dc updateHost)
  else forwardMessage msg.

Definition on_away (msg : message) (p : prefix) : H unit :=
  uu ← get_uc (fun uc => Get (uc_users uc) (Name p));
  match uu with
  | Some uu =>
      when (nonempty (uu_Flags uu))
        (let flags := if (0 <? length (Params msg))%nat then replace_byte "H" "G" (uu_Flags uu)
                      else replace_byte "G" "H" (uu_Flags uu) in
         cacheUserInfo (Name p) (UUser "" "" "" "" flags "" ""))
  | None => mret tt
  end;;
  forwardMessage msg.

Definition on_account (msg : message) (p : prefix) : H unit :=
  l ← need msg 1;
  cacheUserInfo (Name p) (UUser "" "" "" "" "" (arg l 0) "");;
  forwardMessage msg.

(** ** Channel membership: JOIN, PART, KICK, QUIT *)

Definition join_user (uc : upstreamConn) (msg : message) (p : prefix) : upstreamUser :=
  let flags := if IsEnabled (uc_caps uc) "away-notify" then
                 (if bool_decide (is_Some (Tags msg !! "bot"))
                  then "H" +:+ default "" (mjoin (uc_isupport uc !! "BOT")) else "H")
               else "" in
  match Params msg with
  | _ :: account :: realname :: _ => UUser "" (User p) (Host p) "" flags account realname
  | _ => UUser "" (User p) (Host p) "" flags "" ""
  end.

(** A channel object leaves the map without its timer being stopped. *)
Definition orphan_timer (name : string) (uc : upstreamConn) : upstreamConn :=
  match Get (uc_channels uc) name with
  | Some uch => match uch_detachTimer uch with
                | Some d => set_uc_orphanTimers (uc_orphanTimers uc ++ [(uch_Name uch, d)]) uc
                | None => uc
                end
  | None => uc
  end.

Definition join_channel (p : prefix) (ch : string) : H unit :=
  me ← isOurNick (Name p);
  if me : bool then
    cm ← get_net nw_casemap;
    modify_uc (fun uc => let uc := orphan_timer ch uc in
                         set_uc_channels (Set_ (uc_channels uc) ch (new_uch ch cm)) uc);;
    updateChannelAutoDetach ch;;
    uc_SendMessage (mk_msg "MODE" [ch])
  else
    _ ← getChannel ch;
    modify_uc (update_uch ch (fun uch => set_uch_Members (Set_ (uch_Members uch) (Name p) []) uch)).

Definition on_join (msg : message) (p : prefix) : H unit :=
  l ← need msg 1;
  uc ← gets su_uc;
  cacheUserInfo (Name p) (join_user uc msg p);;
  for_each (Split (arg l 0) ",") (fun ch =>
    join_channel p ch;; produce false ch (with_channel msg ch) 0).

(** We left a channel: forget the members that are not needed any more. *)
Definition forget_channel (ch : string) : H unit :=
  och ← get_uc (fun uc => Get (uc_channels uc) ch);
  match och with
  | None => mret tt
  | Some uch =>
      modify_uc (fun uc => set_uc_channels (Del (uc_channels uc) ch) uc);;
      for_each (originalKey <$> iter (uch_Members uch)) forget_user
  end.

Definition remove_member (ch nick : string) : H unit :=
  _ ← getChannel ch;
  modify_uc (update_uch ch (fun uch => set_uch_Members (Del (uch_Members uch) nick) uch));;
  forget_user nick.

Definition on_part (msg : message) (p : prefix) : H unit :=
  l ← need msg 1;
  for_each (Split (arg l 0) ",") (fun ch =>
    me ← isOurNick (Name p);
    (if me : bool then forget_channel ch else remove_member ch (Name p));;
    produce false ch (with_channel msg ch) 0).

Definition on_kick (msg : message) : H unit :=
  l ← need msg 2;
  let channel := arg l 0 in
  let user := arg l 1 in
  me ← isOurNick user;
  (if me : bool then modify_uc (orphan_timer channel);; forget_channel channel
   else remove_member channel user);;
  produce false channel msg 0.

Definition on_quit (msg : message) (p : prefix) : H unit :=
  for_channels_with (Name p) (fun uch => set_uch_Members (Del (uch_Members uch) (Name p)) uch) msg;;
  modify_uc (fun uc => set_uc_users (Del (uc_users uc) (Name p)) uc);;
  nick ← get_uc uc_nick;
  when (negb (bool_decide (Name p = nick))) (forwardMessage msg).

(** ** Topics and modes *)

(** [c == nil || !c.Detached] for the saved channel. *)
Definition is_attached (net : network) (name : string) : bool :=
  match Get (nw_channels net) name with Some c => negb (ch_Detached c) | None => true end.

Definition forward_attached (first : bool) (name : string) (msg : message) : H unit :=
  attached ← get_net (fun net => is_attached net name);
  when (first && attached) (forwardMessage msg).

(** Handle a numeric about a channel: forward it when we are not in it. *)
Definition with_joined (name : string) (downstreamID : Z) (msg : message) (f : upstreamChannel -> H unit) : H unit :=
  och ← get_uc (fun uc => Get (uc_channels uc) name);
  match och with
  | None => forwardMsgByID downstreamID msg
  | Some ch => f ch
  end.

Definition on_rpl_topic (msg : message) (downstreamID : Z) : H unit :=
  l ← need msg 3;
  with_joined (arg l 1) downstreamID msg (fun _ =>
    modify_uc (update_uch (arg l 1)
      (set_uch_Topic (if bool_decide (Command msg = "332") (* RPL_TOPIC *) then arg l 2 else "")))).

Definition on_topic (msg : message) (p : prefix) : H unit :=
  l ← need msg 1;
  ch ← getChannel (arg l 0);
  modify_uc (update_uch (arg l 0) (fun uch =>
    match Params msg !! 1%nat with
    | Some topic => set_uch_TopicTime env_now (set_uch_TopicWho (Some p) (set_uch_Topic topic uch))
    | None => set_uch_Topic "" uch
    end));;
  produce false (uch_Name ch) msg 0.

(** [applyChannelModes(ch, modeStr, args)] on the channel [name], which keeps
    the changes made before an error. *)
Definition apply_modes (name modeStr : string) (args : list string) : H unit :=
  uc ← gets su_uc;
  match Get (uc_channels uc) name with
  | None => mret tt
  | Some ch =>
      let '(st, err) := applyChannelModes (uc_availableMemberships uc) (uc_availableChannelModes uc)
                          (ChanModes (uch_modes ch) (uch_Members ch)) modeStr args in
      modify_uc (update_uch name (fun uch => set_uch_Members (cm_members st) (set_uch_modes (cm_modes st) uch)));;
      match err with Some e => raise (ErrMode e) | None => mret tt end
  end.

Definition apply_user_modes (modeStr : string) : H unit :=
  modes ← get_uc uc_modes;
  let '(modes, err) := um_Apply modes modeStr in
  modify_uc (set_uc_modes modes);;
  match err with Some e => raise (ErrMode e) | None => mret tt end.

Definition on_mode (msg : message) : H unit :=
  l ← need msg 2;
  let name := arg l 0 in
  uc ← gets su_uc;
  if negb (isChannel uc name) then
    if negb (bool_decide (name = uc_nick uc)) then raise (ErrUnexpected "MODE")
    else apply_user_modes (arg l 1);; forwardMessage msg
  else
    ch ← getChannel name;
    apply_modes name (arg l 1) (drop 2 (Params msg));;
    _ ← appendLog (uch_Name ch) msg;
    forward_attached true name msg.

Definition on_umodeis (msg : message) : H unit :=
  _ ← need msg 1;
  modify_uc (set_uc_modes "");;
  apply_user_modes (default "" (Params msg !! 1%nat));;
  forwardMessage msg.

Definition on_channelmodeis (msg : message) (downstreamID : Z) : H unit :=
  l ← need msg 2;
  let channel := arg l 1 in
  with_joined channel downstreamID msg (fun ch =>
    let firstMode := negb (bool_decide (is_Some (uch_modes ch))) in
    modify_uc (update_uch channel (set_uch_modes (Some ∅)));;
    apply_modes channel (default "" (Params msg !! 2%nat)) (drop 3 (Params msg));;
    forward_attached firstMode channel msg).

Definition on_creationtime (msg : message) (downstreamID : Z) : H unit :=
  l ← need msg 3;
  with_joined (arg l 1) downstreamID msg (fun ch =>
    modify_uc (update_uch (arg l 1) (set_uch_creationTime (arg l 2)));;
    forward_attached (bool_decide (uch_creationTime ch = "")) (arg l 1) msg).

Definition on_topicwhotime (msg : message) (downstreamID : Z) : H unit :=
  l ← need msg 4;
  with_joined (arg l 1) downstreamID msg (fun ch =>
    modify_uc (update_uch (arg l 1) (set_uch_TopicWho (Some (ParsePrefix (arg l 2)))));;
    match Atoi (arg l 3) with
    | None => raise (ErrMalformed (arg l 3))
    | Some sec =>
        modify_uc (update_uch (arg l 1) (set_uch_TopicTime (sec * second)));;
        forward_attached (negb (bool_decide (is_Some (uch_TopicWho ch)))) (arg l 1) msg
    end).

(** ** NAMES *)

Definition splitSpace (s : string) : list string := FieldsByte s " ".

Definition on_namreply (msg : message) (downstreamID : Z) : H unit :=
  l ← need msg 4;
  let name := arg l 2 in
  with_joined name downstreamID msg (fun _ =>
    status ← lift (match ParseChannelStatus (arg l 1) with
                   | Ok c => Ok c | Err e => Err (ErrStatus e) | Panic => Panic end);
    modify_uc (update_uch name (set_uch_Status (Some status)));;
    for_each (splitSpace (arg l 3)) (fun s =>
      uc ← gets su_uc;
      let '(memberships, nick) := parseMembershipPrefix uc s in
      modify_uc (update_uch name (fun uch => set_uch_Members (Set_ (uch_Members uch) nick memberships) uch)))).

Definition on_endofnames (msg : message) (downstreamID : Z) : H unit :=
  l ← need msg 2;
  let name := arg l 1 in
  with_joined name downstreamID msg (fun ch =>
    if uch_complete ch then raise (ErrUnexpected "RPL_ENDOFNAMES")
    else
      modify_uc (update_uch name (set_uch_complete true));;
      attached ← get_net (fun net => is_attached net name);
      when attached (forEachDownstream (fun dc => down dc (forwardChannel (set_uch_complete true ch))))).

(** ** Replies to pending commands *)

(** [dc, cmd := currentPendingCommand / dequeueCommand], for which a missing
    command is an error when [strict] and a missing client ends the handler. *)
Definition with_pending_reply (strict : bool) (name : string)
    (m : H (option downstreamConn * option message)) (f : downstreamConn -> message -> H unit) : H unit :=
  r ← m;
  match r with
  | (_, None) => if strict then raise (ErrUnexpected name) else mret tt
  | (None, Some _) => mret tt
  | (Some dc, Some cmd) => f dc cmd
  end.

Definition on_list (msg : message) : H unit :=
  with_pending_reply true "RPL_LIST" (currentPendingCommand "LIST") (fun dc _ => down dc (SendMessage msg)).

Definition on_listend (msg : message) : H unit :=
  with_pending_reply true "RPL_LISTEND" (dequeueCommand "LIST") (fun dc _ => down dc (SendMessage msg)).

(** [if uc.shouldCacheUserInfo(nick) { uc.cacheUserInfo(nick, info) }] *)
Definition cache_known_user (nick : string) (info : upstreamUser) : H unit :=
  known ← gets (fun s => shouldCacheUserInfo (su_net s) (su_uc s) nick);
  when known (cacheUserInfo nick info).

Definition on_whoreply (msg : message) : H unit :=
  l ← need msg 8;
  with_pending_reply true "RPL_WHOREPLY" (currentPendingCommand "WHO") (fun dc _ =>
    match Split2 (arg l 7) " " with
    | (_, None) => raise (ErrMalformed "RPL_WHOREPLY")
    | (_, Some realname) =>
        down dc (SendMessage msg);;
        uc ← gets su_uc;
        cache_known_user (arg l 5)
          (UUser (arg l 5) (arg l 2) (arg l 3) (arg l 4)
             (stripMemberPrefixes (arg l 6) (uc_availableMemberships uc)) "" realname)
    end).

Definition on_whospcrpl (msg : message) : H unit :=
  with_pending_reply true "RPL_WHOSPCRPL" (currentPendingCommand "WHO") (fun dc cmd =>
    down dc (SendMessage msg);;
    match Params cmd !! 1%nat with
    | None => mret tt
    | Some options =>
        let fields := fst (ParseWHOXOptions options) in
        if negb (byte_in "n" fields) then mret tt
        else
          info ← lift (match ParseWHOXReply msg fields with
                       | Ok i => Ok i | Err _ => Err (ErrMalformed "RPL_WHOSPCRPL") | Panic => Panic end);
          uc ← gets su_uc;
          cache_known_user (Nickname info)
            (UUser (Nickname info) (Username info) (Hostname info) (Server info)
               (stripMemberPrefixes (Flags info) (uc_availableMemberships uc)) (Account info)
               (Realname info))
    end).

Definition on_endofwho (msg : message) : H unit :=
  with_pending_reply false "RPL_ENDOFWHO" (dequeueCommand "WHO") (fun dc _ => down dc (SendMessage msg)).

Definition on_whois (msg : message) : H unit :=
  with_pending_reply true "WHOIS" (currentPendingCommand "WHOIS") (fun dc _ => down dc (SendMessage msg)).

Definition on_endofwhois (msg : message) : H unit :=
  with_pending_reply true "RPL_ENDOFWHOIS" (dequeueCommand "WHOIS") (fun dc _ => down dc (SendMessage msg)).

(** [cmd.Params[len(cmd.Params)-1]] panics for a WHOIS without parameters. *)
Definition on_nosuchnick (msg : message) (downstreamID : Z) : H unit :=
  l ← need msg 3;
  cm ← get_net nw_casemap;
  r ← currentPendingCommand "WHOIS";
  match r with
  | (dc, Some cmd) =>
      match last (Params cmd) with
      | None => panic
      | Some nick =>
          if bool_decide (cm nick = cm (arg l 1)) then
            _ ← dequeueCommand "WHOIS";
            match dc with Some dc => down dc (SendMessage msg) | None => mret tt end
          else forwardMsgByID downstreamID msg
      end
  | (_, None) => forwardMsgByID downstreamID msg
  end.

Definition reply_id (downstreamID : Z) (r : option downstreamConn * option message) : Z :=
  match fst r with Some dc => if Z.eqb downstreamID 0 then dc_id dc else downstreamID | None => downstreamID end.

Definition on_command_error (msg : message) (downstreamID : Z) : H unit :=
  l ← need msg 3;
  let command := arg l 1 in
  r ← dequeueCommand command;
  when (bool_decide (command = "AUTHENTICATE"))
    (modify_uc (fun uc => set_uc_saslStarted false (set_uc_saslClient None uc)));;
  forwardMsgByID (reply_id downstreamID r) msg.

Definition on_fail (msg : message) (downstreamID : Z) : H unit :=
  l ← need msg 2;
  registered ← get_uc uc_registered;
  if negb registered && bool_decide (arg l 0 = "*") && bool_decide (arg l 1 = "ACCOUNT_REQUIRED")
  then raise (ErrRegistration msg)
  else
    r ← dequeueCommand (arg l 0);
    forwardMsgByID (reply_id downstreamID r) msg.

(** ** INVITE and MONITOR *)

Definition invite_others (msg : message) (weAreInvited blocked : bool) : H unit :=
  forEachDownstream (fun dc =>
    if negb weAreInvited && negb (IsEnabled (dc_caps dc) "invite-notify") then mret tt
    else if blocked && negb (bool_decide ("soju.im/blocked" ∈ dc_metadataSubs dc)) then mret tt
    else down dc (SendMessage msg));;
  when weAreInvited (emit (WebPush msg)).

Definition on_invite (msg : message) (p : prefix) : H unit :=
  l ← need msg 2;
  weAreInvited ← isOurNick (arg l 0);
  s ← gets id;
  let joined := bool_decide (is_Some (Get (uc_channels (su_uc s)) (arg l 1))) in
  match Get (nw_channels (su_net s)) (arg l 1) with
  | Some c =>
      if weAreInvited && negb joined then
        msgs ← lift (match GenerateJoin [ch_Name c] [ch_Key c] with Ok l => Ok l | _ => Panic end);
        for_each msgs uc_SendMessage
      else invite_others msg weAreInvited
             (weAreInvited && snd (default (false, false) (env_messageTarget (nw_casemap (su_net s) (Name p)))))
  | None =>
      invite_others msg weAreInvited
        (weAreInvited && snd (default (false, false) (env_messageTarget (nw_casemap (su_net s) (Name p)))))
  end.

Definition on_inviting (msg : message) (downstreamID : Z) : H unit :=
  _ ← need msg 3; forwardMsgByID downstreamID msg.

Definition on_monitor (msg : message) : H unit :=
  l ← need msg 2;
  let targets := Split (arg l 1) "," in
  let online := bool_decide (Command msg = "730") (* RPL_MONONLINE *) in
  modify_uc (fun uc => set_uc_monitored
    (foldl (fun m target => Set_ m (Name (ParsePrefix target)) online) (uc_monitored uc) targets) uc);;
  s ← gets id;
  let wantNick := GetNick env_user (Some (nw_rec (su_net s))) in
  when (negb online && negb (is_our_nick (su_net s) (su_uc s) wantNick) && negb (uc_hasDesiredNick (su_uc s))
        && existsb (fun target => equalCasemap (su_net s) (Name (ParsePrefix target)) wantNick) targets)
    (uc_SendMessage (mk_msg "NICK" [wantNick]));;
  forEachDownstream (fun dc =>
    for_each targets (fun target =>
      when (Has (dc_monitored dc) (Name (ParsePrefix target)))
        (down dc (SendMessage (mk_msg (Command msg) [dc_nick dc; target]))))).

Definition on_monlistfull (msg : message) : H unit :=
  l ← need msg 3;
  forEachDownstream (fun dc =>
    for_each (Split (arg l 2) ",") (fun target =>
      when (Has (dc_monitored dc) target)
        (down dc (SendMessage (mk_msg (Command msg) [dc_nick dc; arg l 1; target]))))).

(** ** Errors of registration *)

Definition on_registration_error (msg : message) (downstreamID : Z) : H unit :=
  registered ← get_uc uc_registered;
  if negb registered then raise (ErrRegistration msg) else forwardMsgByID downstreamID msg.

Definition on_nicknameinuse (msg : message) (downstreamID : Z) : H unit :=
  uc ← gets su_uc;
  if negb (uc_registered uc) && (slen (uc_nick uc) + 1 <? 30)%nat then
    modify_uc (fun uc => set_uc_hasDesiredNick false (set_uc_nick (uc_nick uc +:+ "_") uc));;
    nick ← get_uc uc_nick;
    uc_SendMessage (mk_msg "NICK" [nick])
  else
    l ← need msg 2;
    net ← gets su_net;
    if equalCasemap net (uc_pendingRegainNick uc) (arg l 1)
    then modify_uc (set_uc_pendingRegainNick "")
    else on_registration_error msg downstreamID.

(** Messages of the registration burst are forwarded only after it. *)
Definition on_burst (msg : message) (downstreamID : Z) : H unit :=
  gotMotd ← get_uc uc_gotMotd;
  if negb gotMotd then mret tt else forwardMsgByID downstreamID msg.

(** ** The switch *)

Definition whois_replies : list string :=
  ["276"; "307"; "311"; "312"; "319"; "313"; "317"; "320"; "330"; "338"; "378"; "379"; "671"].
Definition burst_replies : list string :=
  ["251"; "252"; "253"; "254"; "255"; "240"; "246"; "247"; "250"; "265"; "266"; "375"; "372"].

Definition dispatch (msg : message) (p : prefix) (label downstreamLabel : string) (downstreamID : Z)
    (msgBatch : option upstreamBatch) : H unit :=
  switch (Command msg)
    [(["PING"], uc_SendMessage (mk_msg "PONG" (Params msg)));
     (["NOTICE"; "PRIVMSG"; "TAGMSG"; "REDACT"], on_text msg p downstreamID);
     (["CAP"], on_cap msg);
     (["AUTHENTICATE"], on_authenticate msg);
     (["900"], on_loggedin msg);
     (["901"], on_loggedout msg);
     (["396"], on_visiblehost msg);
     (["902"; "903"; "904"; "905"; "906"], on_sasl_result msg);
     (["REGISTER"; "VERIFY"], on_register msg);
     (["001"], on_welcome msg p);
     (["004"], on_myinfo msg);
     (["005"], on_isupport msg);
     (["422"; "376"], on_endofmotd msg downstreamID);
     (["BATCH"], on_batch msg label downstreamLabel downstreamID msgBatch);
     (["NICK"], on_nick msg p);
     (["SETNAME"], on_setname msg p);
     (["CHGHOST"], on_chghost msg p);
     (["JOIN"], on_join msg p);
     (["PART"], on_part msg p);
     (["KICK"], on_kick msg);
     (["QUIT"], on_quit msg p);
     (["332"; "331"], on_rpl_topic msg downstreamID);
     (["TOPIC"], on_topic msg p);
     (["MODE"], on_mode msg);
     (["221"], on_umodeis msg);
     (["324"], on_channelmodeis msg downstreamID);
     (["329"], on_creationtime msg downstreamID);
     (["333"], on_topicwhotime msg downstreamID);
     (["321"; "322"], on_list msg);
     (["323"], on_listend msg);
     (["353"], on_namreply msg downstreamID);
     (["366"], on_endofnames msg downstreamID);
     (["352"], on_whoreply msg);
     (["354"], on_whospcrpl msg);
     (["315"], on_endofwho msg);
     (whois_replies, on_whois msg);
     (["318"], on_endofwhois msg);
     (["INVITE"], on_invite msg p);
     (["341"], on_inviting msg downstreamID);
     (["730"; "731"], on_monitor msg);
     (["734"], on_monlistfull msg);
     (["301"], forwardMsgByID downstreamID msg);
     (["AWAY"], on_away msg p);
     (["ACCOUNT"], on_account msg p);
     (["367"; "346"; "348"; "368"; "347"; "349"], forwardMsgByID downstreamID msg);
     (["401"; "402"], on_nosuchnick msg downstreamID);
     (["400"; "421"; "461"; "263"], on_command_error msg downstreamID);
     (["FAIL"], on_fail msg downstreamID);
     (["ACK"; "306"; "305"; "002"; "003"], mret tt);
     (burst_replies, on_burst msg downstreamID);
     (["ERROR"], l ← need msg 1; raise (ErrFatal (arg l 0)));
     (["433"], on_nicknameinuse msg downstreamID);
     (["464"; "432"; "436"; "437"; "463"; "465"], on_registration_error msg downstreamID)]
    (forwardMsgByID downstreamID msg).

(** ** [handleMessage] *)

(** The batch a message refers to, and the label it is handled under. *)
Definition message_label (uc : upstreamConn) (msg : message)
    : res uerror (string * string * bool * option upstreamBatch) :=
  let label := default "" (Tags msg !! "label") in
  match Tags msg !! "batch" with
  | None => Ok (label, "", false, None)
  | Some batchName =>
      match uc_batches uc !! batchName with
      | None => Err (ErrBatch batchName)
      | Some b => if bool_decide (label = "") then Ok (b_Label b, batchName, true, Some b)
                  else Ok (label, batchName, false, Some b)
      end
  end.

(** [defer f()]: [f] runs when [m] returns, also with an error. *)
Definition defer (f m : H unit) : H unit := fun s =>
  let '(s', r) := m s in
  match r with
  | Panic => (s', Panic)
  | _ => let '(s'', r') := f s' in (s'', match r' with Panic => Panic | _ => r end)
  end.

(** The message with its source and time filled in. *)
Definition complete_message (uc : upstreamConn) (msg : message) : message * prefix :=
  let tags := delete "batch" (delete "label" (Tags msg)) in
  let p := default (uc_serverPrefix uc) (MsgPrefix msg) in
  let tags := if isNumeric (Command msg) then tags
              else <["time" := FormatServerTime (default env_now (time_Parse (default "" (tags !! "time"))))]> tags in
  (Message tags (Some p) (Command msg) (Params msg), p).

(** The label context around the switch. *)
Definition handle_labeled (uc : upstreamConn) (msg : message)
    (ml : string * string * bool * option upstreamBatch) : H unit :=
  let '(label, batchName, batchLabel, msgBatch) := ml in
  dl ← lift (parseLabel label);
  let '(downstreamID, downstreamLabel) := dl in
  let '(msg', p) := complete_message uc msg in
  let body := dispatch msg' p label downstreamLabel downstreamID msgBatch in
  if Z.eqb downstreamID 0 then body
  else if batchLabel : bool then
    forEachDownstreamByID downstreamID (fun dc => down dc (labelContext downstreamLabel batchName));; body
  else
    forEachDownstreamByID downstreamID (fun dc => down dc (labelContext downstreamLabel ""));;
    defer (forEachDownstreamByID downstreamID (fun dc => down dc FlushBatch)) body.

Definition handleMessage (msg : message) : H unit :=
  uc ← gets su_uc;
  ml ← lift (message_label uc msg);
  handle_labeled uc msg ml.

End Handlers.
