(* ===== verification/UpstreamSafety.v ===== *)
(** * Safety of the upstream handlers

    The invariant of an upstream connection and its network, and the proof
    that handling a message keeps it and does not panic. *)

From stdpp Require Import base list gmap strings.
From Stdlib Require Import ZArith Ascii.
From S2P Require Import Prelude GoStrings GoText Casemapping Xirc Whox Base64 Genmsg Irc Rate Database.
From S2P Require Import Handler Session Network Pending Upstream UpstreamHandlers.

Local Open Scope Z_scope.

(** ** The invariant *)

(** A case-mapped map is well formed and, in a coherent state, uses the case
    mapping of the network. *)
Definition cmap_ok {V} (cm : option CaseMapping) (m : CaseMappingMap V) : Prop :=
  cmm_wf m /\ match cm with Some cm => cmm_casemap m = cm | None => True end.

Definition members_ok (cm : option CaseMapping) (m : CaseMappingMap upstreamChannel) : Prop :=
  map_Forall (fun _ e => cmap_ok cm (uch_Members (value e))) (cmm_m m).

(** What [abortPendingCommands] and ERR_NOSUCHNICK rely on. *)
Definition pending_msg_ok (cmd : string) (p : pendingUpstreamCommand) : Prop :=
  Command (p_msg p) = cmd /\ cmd ∈ supported_commands /\
  (cmd ∈ ["WHOIS"; "REGISTER"; "VERIFY"] -> Params (p_msg p) <> []).

Definition pending_ok (m : gmap string (list pendingUpstreamCommand)) : Prop :=
  map_Forall (fun cmd l => Forall (pending_msg_ok cmd) l) m.

Record uc_inv (cm : option CaseMapping) (uc : upstreamConn) : Prop := {
  ui_channels : cmap_ok cm (uc_channels uc);
  ui_members : members_ok cm (uc_channels uc);
  ui_users : cmap_ok cm (uc_users uc);
  ui_monitored : cmap_ok cm (uc_monitored uc);
  ui_pending : pending_ok (uc_pendingCmds uc);
  ui_nick : uc_nick uc <> "";
  ui_server : Name (uc_serverPrefix uc) <> "";
  ui_timer : uc_gotMotd uc = false -> uc_regainNickTimer uc = None /\ uc_regainNickBackoff uc = None
}.

Record net_inv (cm : option CaseMapping) (net : network) : Prop := {
  ni_channels : cmap_ok cm (nw_channels net);
  ni_delivered : cmap_ok cm (nw_delivered net)
}.

(** In a coherent state the connection is the one of its network. *)
Record inv (coherent : bool) {St} (s : ust St) : Prop := {
  i_uc : uc_inv (if coherent then Some (nw_casemap (su_net s)) else None) (su_uc s);
  i_net : net_inv (if coherent then Some (nw_casemap (su_net s)) else None) (su_net s);
  i_conn : coherent = true -> su_conn s = true
}.

(** ** Preservation by the primitive changes *)

Section Maps.
Context {V : Type}.
Implicit Type m : CaseMappingMap V.

Lemma cmap_ok_new cm : cmap_ok (Some cm) (NewCaseMappingMap (V := V) cm).
Proof. split; [apply wf_new|done]. Qed.
Lemma cmap_ok_wf (cm : option CaseMapping) m : cmm_wf m -> cm = None -> cmap_ok cm m.
Proof. by intros H ->. Qed.
Lemma cmap_ok_set cm m name v : cmap_ok cm m -> cmap_ok cm (Set_ m name v).
Proof.
  intros [Hw Hc]. split; [by apply wf_set|]. destruct cm; [|done].
  rewrite <- Hc. apply (cmm_step_casemap m (OpSet name v)).
Qed.
Lemma cmap_ok_del cm m name : cmap_ok cm m -> cmap_ok cm (Del m name).
Proof. intros [Hw Hc]. split; [by apply wf_del|done]. Qed.
Lemma cmap_ok_fold {B} (f : CaseMappingMap V -> B -> CaseMappingMap V) cm l m :
  (forall m b, cmap_ok cm m -> cmap_ok cm (f m b)) -> cmap_ok cm m -> cmap_ok cm (foldl f m l).
Proof. intros Hf. revert m; induction l as [|b l IH]; intros m Hm; simpl; auto. Qed.
Lemma cmap_ok_recase `{MapOrder} cm m : cmap_ok (Some cm) (Recase m cm).
Proof. split; [apply wf_set_casemapping|done]. Qed.
Lemma cmap_ok_none cm m : cmap_ok (Some cm) m -> cmap_ok None m.
Proof. by intros [? _]. Qed.
Lemma cmap_ok_if (b : bool) cm m : cmap_ok (Some cm) m -> cmap_ok (if b then Some cm else None) m.
Proof. destruct b; [done|apply cmap_ok_none]. Qed.
End Maps.

#[export] Hint Resolve cmap_ok_set cmap_ok_del : sake.

Lemma members_ok_set cm m name uch :
  members_ok cm m -> cmap_ok cm (uch_Members uch) -> members_ok cm (Set_ m name uch).
Proof.
  intros Hm Hu k e. unfold Set_.
  destruct (cmm_m m !! cmm_casemap m name); cbn; intros [[<- <-]|[_ Hk]]%lookup_insert_Some; cbn; eauto.
Qed.

Lemma members_ok_del cm m name : members_ok cm m -> members_ok cm (Del m name).
Proof. intros Hm k e. cbn. intros [_ Hk]%lookup_delete_Some. eauto. Qed.

Lemma members_ok_get cm m name uch : members_ok cm m -> Get m name = Some uch -> cmap_ok cm (uch_Members uch).
Proof. unfold Get. intros Hm H. case_match eqn:E; simplify_eq. by apply (Hm _ _ E). Qed.

#[export] Hint Resolve members_ok_set members_ok_del members_ok_get : sake.

Lemma uc_inv_update_uch cm name f uc :
  (forall uch, cmap_ok cm (uch_Members uch) -> cmap_ok cm (uch_Members (f uch))) ->
  uc_inv cm uc -> uc_inv cm (update_uch name f uc).
Proof.
  intros Hf [H1 H2 H3 H4 H5 H6 H7 H8]. unfold update_uch.
  destruct (Get (uc_channels uc) name) as [uch|] eqn:E; constructor; cbn; eauto with sake.
Qed.

Lemma pending_ok_set m cmd l :
  pending_ok m -> Forall (pending_msg_ok cmd) l -> pending_ok (<[cmd := l]> m).
Proof. intros Hm Hl k l'. intros [[<- <-]|[_ Hk]]%lookup_insert_Some; [done|by apply (Hm k)]. Qed.

Lemma pending_ok_queue uc cmd : pending_ok (uc_pendingCmds uc) -> Forall (pending_msg_ok cmd) (queue uc cmd).
Proof. intros Hm. unfold queue. destruct (uc_pendingCmds uc !! cmd) eqn:E; cbn; [by apply (Hm _ _ E)|constructor]. Qed.

Lemma net_inv_update_ch cm name f net : net_inv cm net -> net_inv cm (update_ch name f net).
Proof.
  intros [H1 H2]. unfold update_ch. destruct (Get _ _); constructor; cbn; auto with sake.
Qed.

Lemma update_ch_casemap name f net : nw_casemap (update_ch name f net) = nw_casemap net.
Proof. unfold update_ch. by destruct (Get _ _). Qed.

Lemma uc_inv_recase `{MapOrder} (b : bool) cm uc :
  uc_inv None uc -> uc_inv (if b then Some cm else None) (recase_uc cm uc).
Proof.
  intros [H1 H2 H3 H4 H5 H6 H7 H8]. unfold recase_uc.
  constructor; cbn; auto; try (apply cmap_ok_if, cmap_ok_recase).
  - apply cmap_ok_if. split; cbn; [|done]. intros k e. cbn. rewrite lookup_fmap, fmap_Some.
    intros (e' & He & ->). cbn. by apply (wf_set_casemapping (iter (uc_channels uc)) cm k e').
  - intros k e. cbn. rewrite lookup_fmap, fmap_Some. intros (e' & _ & ->). cbn.
    apply cmap_ok_if, cmap_ok_recase.
Qed.

Lemma uc_inv_weaken cm uc : uc_inv cm uc -> uc_inv None uc.
Proof.
  intros [H1 H2 H3 H4 H5 H6 H7 H8]. constructor; auto; try (split; [by apply H1 || by apply H3 || by apply H4|done]).
  intros k e Hk. split; [by apply (H2 _ _ Hk)|done].
Qed.

(** The caches of users and receipts. *)
Lemma cmap_ok_cache_user cm users nick info : cmap_ok cm users -> cmap_ok cm (cache_user users nick info).
Proof. intros Hu. unfold cache_user. destruct (Get users nick); [case_match|]; auto with sake. Qed.

Lemma cmap_ok_StoreID cm ds target client id : cmap_ok cm ds -> cmap_ok cm (ds_StoreID ds target client id).
Proof. intros Hd. unfold ds_StoreID. auto with sake. Qed.

#[export] Hint Resolve cmap_ok_cache_user cmap_ok_StoreID cmap_ok_fold : sake.

Lemma uc_inv_orphan cm name uc : uc_inv cm uc -> uc_inv cm (orphan_timer name uc).
Proof. intros []. unfold orphan_timer. repeat case_match; by constructor. Qed.

Lemma orphan_channels name uc : uc_channels (orphan_timer name uc) = uc_channels uc.
Proof. unfold orphan_timer. by repeat case_match. Qed.

Section Invariant.
Context {St : Type} (coherent : bool).
Implicit Type s : ust St.
Notation I := (inv coherent).

Lemma inv_on_uc f s :
  I s -> (forall cm, uc_inv cm (su_uc s) -> uc_inv cm (f (su_uc s))) -> I (on_uc f s).
Proof. intros [H1 H2 H3] Hf. constructor; cbn; auto. Qed.

Lemma inv_on_net f s :
  I s -> nw_casemap (f (su_net s)) = nw_casemap (su_net s) ->
  (forall cm, net_inv cm (su_net s) -> net_inv cm (f (su_net s))) -> I (on_net f s).
Proof. intros [H1 H2 H3] Hc Hf. constructor; cbn; rewrite ?Hc; auto. Qed.

Lemma inv_on_eff f s : I s -> I (on_eff f s).
Proof. intros [H1 H2 H3]. by constructor. Qed.
Lemma inv_on_store f s : I s -> I (on_store f s).
Proof. intros [H1 H2 H3]. by constructor. Qed.

End Invariant.

#[export] Hint Resolve inv_on_eff inv_on_store : sake.

Lemma safe_forEachDownstream {St} `{Env} coherent (f : downstreamConn -> handler (ust St) uerror unit) :
  (forall dc, safe (inv coherent) (f dc) (fun _ => True)) ->
  safe (inv coherent) (forEachDownstream f) (fun _ => True).
Proof.
  intros Hf s Hs. unfold forEachDownstream. apply wp_bind, wp_gets. by apply safe_for_each_all.
Qed.

Lemma safe_forEachDownstreamByID {St} `{Env} coherent id (f : downstreamConn -> handler (ust St) uerror unit) :
  (forall dc, safe (inv coherent) (f dc) (fun _ => True)) ->
  safe (inv coherent) (forEachDownstreamByID id f) (fun _ => True).
Proof.
  intros Hf. apply safe_forEachDownstream. intros dc. destruct (_ && _); [by intros s Hs|apply Hf].
Qed.

Lemma safe_switch {St} coherent cmd (cases : list (list string * handler (ust St) uerror unit)) dflt :
  Forall (fun c => cmd ∈ fst c -> safe (inv coherent) (snd c) (fun _ => True)) cases ->
  safe (inv coherent) dflt (fun _ => True) ->
  safe (inv coherent) (switch cmd cases dflt) (fun _ => True).
Proof.
  intros Hc Hd. induction Hc as [|[cmds m] cases Hm _ IH]; [done|]. cbn.
  case_bool_decide; [by apply Hm|done].
Qed.

(** ** Automation

    [wp_step] runs one primitive of a handler; a call of another handler is
    closed by its [safe] lemma in the database [safe]. *)
Create HintDb safe discriminated.

(** The invariant after a change of fields it does not mention, or of fields
    whose conditions are at hand. *)
Ltac inv_solve :=
  repeat first
    [ assumption
    | apply inv_on_eff | apply inv_on_store
    | apply inv_on_uc; [|intros ? ?; apply uc_inv_update_uch; [intros; cbn; auto with sake|assumption]]
    | apply inv_on_net; [|apply update_ch_casemap|intros; by apply net_inv_update_ch]
    | apply inv_on_uc; [|let H := fresh in intros ? H; repeat case_match; destruct H; constructor; cbn in *; eauto with sake]
    | apply inv_on_net; [|reflexivity|let H := fresh in intros ? H; destruct H; constructor; cbn in *; eauto with sake] ].

Ltac wp_step :=
  lazymatch goal with
  | |- wp _ (mret _) _ _ => apply wp_ret
  | |- wp _ (_ ≫= _) _ _ => apply wp_bind
  | |- wp _ (gets _) _ _ => apply wp_gets
  | |- wp _ (get_uc _) _ _ => apply wp_gets
  | |- wp _ (get_net _) _ _ => apply wp_gets
  | |- wp _ (modify _) _ _ => apply wp_modify
  | |- wp _ (modify_uc _) _ _ => apply wp_modify
  | |- wp _ (modify_net _) _ _ => apply wp_modify
  | |- wp _ (emit _) _ _ => apply wp_modify
  | |- wp _ (down _ _) _ _ => apply wp_modify
  | |- wp _ (raise _) _ _ => apply wp_raise
  | |- wp _ (lift _) _ _ => apply wp_lift
  | |- wp _ (when ?b _) _ _ => destruct b eqn:?; unfold when
  | |- wp _ (match ?x with _ => _ end) _ _ => destruct x eqn:?
  | |- wp _ (let '(_, _) := ?x in _) _ _ => destruct x eqn:?
  | |- wp _ (for_each _ _) _ _ => eapply wp_call; [apply safe_for_each_all; intros ?| |intros ? ? ? _]
  | |- wp _ (forEachDownstream _) _ _ =>
      eapply wp_call; [apply safe_forEachDownstream; intros ?| |intros ? ? ? _]
  | |- wp _ (forEachDownstreamByID _ _) _ _ =>
      eapply wp_call; [apply safe_forEachDownstreamByID; intros ?| |intros ? ? ? _]
  | |- wp _ (switch _ _ _) _ _ =>
      eapply wp_call; [apply safe_switch; [repeat (apply Forall_cons; split; [cbn [fst snd]; intros ?|]); [..|apply Forall_nil]|]
                      | |intros ? ? ? _]
  | |- wp _ _ _ _ => eapply wp_call; [solve [eauto with safe]| |intros ? ? ? ?]
  | |- safe _ _ _ => first [solve [eauto with safe] | intros ? ?]
  end.

Ltac wp_auto := repeat (wp_step; cbn beta); try solve [done | split; [inv_solve|done] | inv_solve].

Section Safety.
Context {St : Type} {HSt : Store St} {MO : MapOrder} {UN : Unicode} {EV : Env}.
Context (coherent : bool).
Notation H := (handler (ust St) uerror).
Notation I := (inv coherent (St := St)).
Notation "'always'" := (fun _ => True) (only parsing).

(** What the handlers need from outside: the user has a name, a formatted
    time parses, and a client that waits for the end of a SASL exchange with
    the server has PLAIN credentials. *)
Record env_ok : Prop := {
  eo_user : u_Username env_user <> "";
  eo_time : forall t, is_Some (time_Parse (FormatServerTime t));
  eo_sasl : Forall (fun dc => forall x, dc_sasl dc = Some x -> is_Some (sasl_plain x)) env_downs
}.
Context (Henv : env_ok).

Lemma GetNick_nonempty net : GetNick env_user net <> "".
Proof.
  pose proof (eo_user Henv). unfold GetNick, nonempty. destruct net; repeat case_bool_decide; done.
Qed.

(** *** Sending *)

Lemma safe_uc_SendMessage msg : safe I (uc_SendMessage msg) always.
Proof. unfold uc_SendMessage. wp_auto. Qed.
Hint Resolve safe_uc_SendMessage : safe.

Lemma safe_forwardMessage msg : safe I (forwardMessage msg) always.
Proof. unfold forwardMessage. wp_auto. Qed.
Lemma safe_forwardMsgByID id msg : safe I (forwardMsgByID id msg) always.
Proof. unfold forwardMsgByID. wp_auto. Qed.
Lemma safe_need msg n : safe I (need msg n) (fun l => l = take n (Params msg) /\ (n <= length (Params msg))%nat).
Proof.
  unfold need, parseMessageParams. intros s Hs. apply wp_lift.
  destruct (length (Params msg) <? n)%nat eqn:E; [done|]. apply Nat.ltb_ge in E. done.
Qed.
Lemma safe_getChannel name : safe I (getChannel name) always.
Proof. unfold getChannel. wp_auto. Qed.
Lemma safe_isOurNick nick : safe I (isOurNick nick) always.
Proof. unfold isOurNick. wp_auto. Qed.
Hint Resolve safe_forwardMessage safe_forwardMsgByID safe_need safe_getChannel safe_isOurNick : safe.

(** *** Pending commands *)

Lemma safe_SendMessageLabeled label id msg :
  safe I (SendMessageLabeled label id msg) (fun m => Params m = Params msg /\ Command m = Command msg).
Proof. unfold SendMessageLabeled. wp_auto. Qed.
Hint Resolve safe_SendMessageLabeled : safe.

Lemma inv_queue cmd s : I s -> Forall (pending_msg_ok cmd) (queue (su_uc s) cmd).
Proof. intros Hs. apply pending_ok_queue. apply (ui_pending _ _ (i_uc _ _ Hs)). Qed.

Lemma inv_set_queue cmd l s : I s -> Forall (pending_msg_ok cmd) l -> I (on_uc (set_queue cmd l) s).
Proof.
  intros Hs Hl. apply inv_on_uc; [done|]. intros cm []. constructor; cbn; auto.
  by apply pending_ok_set.
Qed.

Lemma safe_sendNext cmd : safe I (sendNextPendingCommand cmd) always.
Proof.
  intros s Hs. unfold sendNextPendingCommand. wp_step. wp_step. pose proof (inv_queue cmd s Hs) as Hq.
  destruct (queue (su_uc s) cmd) as [|p rest]; [done|].
  wp_step. eapply wp_call; [apply safe_SendMessageLabeled|done|]. intros m s' Hs' [Hp Hc].
  wp_step. split; [|done]. apply Forall_cons in Hq as [[H1 [H2 H3]] Hq].
  apply inv_set_queue; [done|]. constructor; [|done]. unfold pending_msg_ok; cbn. rewrite Hc, Hp. done.
Qed.
Hint Resolve safe_sendNext : safe.

(** A reply goes to a client of the user, and its command is one that was
    queued. *)
Definition reply_ok (cmd : string) (r : option downstreamConn * option message) : Prop :=
  (forall dc, fst r = Some dc -> dc ∈ env_downs) /\
  (forall m, snd r = Some m -> cmd ∈ ["WHOIS"; "REGISTER"; "VERIFY"] -> Params m <> []).

Lemma safe_currentPendingCommand cmd : safe I (currentPendingCommand cmd) (reply_ok cmd).
Proof.
  intros s Hs. unfold currentPendingCommand. wp_step. wp_step. pose proof (inv_queue cmd s Hs) as Hq.
  destruct (queue (su_uc s) cmd) as [|p rest]; wp_step; (split; [done|]); split; cbn; try done.
  - intros dc. unfold downstreamByID. rewrite fmap_Some. intros ([i dc'] & Hf & ->). cbn.
    apply list_find_Some in Hf as (Hl & _ & _). by apply list_elem_of_lookup_2 in Hl.
  - intros m [= <-]. apply Forall_cons in Hq as [(_ & _ & H3) _]. done.
Qed.
Hint Resolve safe_currentPendingCommand : safe.

Lemma safe_dequeueCommand cmd : safe I (dequeueCommand cmd) (reply_ok cmd).
Proof.
  intros s Hs. unfold dequeueCommand. wp_step. eapply wp_call; [apply safe_currentPendingCommand|done|].
  intros r s1 Hs1 Hr. wp_step. wp_step. pose proof (inv_queue cmd s1 Hs1) as Hq.
  wp_step. assert (Hs2 : I (on_uc (set_queue cmd (tail (queue (su_uc s1) cmd))) s1)).
  { apply inv_set_queue; [done|]. destruct Hq; [constructor|done]. }
  wp_step; wp_step; wp_auto.
Qed.
Hint Resolve safe_dequeueCommand : safe.

(** *** Networks *)

Lemma safe_updateChannelAutoDetach name : safe I (updateChannelAutoDetach name) always.
Proof. unfold updateChannelAutoDetach. wp_auto. Qed.
Hint Resolve safe_updateChannelAutoDetach : safe.

Lemma safe_attach name ch : safe I (attach name ch) always.
Proof. unfold attach. wp_auto. Qed.
Hint Resolve safe_attach : safe.

Lemma safe_detach name ch : safe I (detach name ch) always.
Proof. unfold detach. wp_auto. Qed.

Lemma safe_deleteChannel name : safe I (deleteChannel name) always.
Proof. unfold deleteChannel. wp_auto. Qed.

Lemma inv_recase cm s : I s -> I (if su_conn s : bool then on_uc (recase_uc cm) (on_net (recase_net cm) s)
                                  else on_net (recase_net cm) s).
Proof.
  intros [H1 H2 H3]. destruct (su_conn s) eqn:Ec.
  - constructor; cbn; [|constructor; cbn; apply cmap_ok_if, cmap_ok_recase|by rewrite Ec].
    apply uc_inv_recase. by eapply uc_inv_weaken.
  - destruct coherent; [by specialize (H3 eq_refl)|].
    constructor; cbn; [done|constructor; cbn; eapply cmap_ok_none, cmap_ok_recase|done].
Qed.

Lemma safe_updateCasemapping cm : safe I (updateCasemapping cm) always.
Proof.
  intros s Hs. pose proof (inv_recase cm s Hs) as Hr. unfold updateCasemapping.
  wp_step. wp_step. wp_step. wp_step. cbn [su_conn on_net].
  destruct (su_conn s); unfold when; wp_auto.
Qed.
Hint Resolve safe_updateCasemapping : safe.

Lemma safe_net_isHighlight msg :
  (Command msg = "PRIVMSG" \/ Command msg = "NOTICE" -> (2 <= length (Params msg))%nat) ->
  is_Some (MsgPrefix msg) -> safe I (net_isHighlight msg) always.
Proof.
  intros Hp [p Hpre] s Hs. unfold net_isHighlight. rewrite Hpre.
  destruct (negb _ && _) eqn:E; [done|].
  destruct (Params msg !! 1%nat) eqn:El.
  - wp_step. wp_step. cbn beta zeta. destruct (bool_decide (Name p = _)); [by wp_step|].
    unfold isHighlight. destruct (slen _ =? 0)%nat eqn:E0; [|done].
    apply Nat.eqb_eq, slen_0 in E0. exfalso. destruct (su_conn _).
    + by apply (ui_nick _ _ (i_uc _ _ Hs)).
    + by apply (GetNick_nonempty _ E0).
  - apply lookup_ge_None in El. exfalso.
    assert (Command msg = "PRIVMSG" \/ Command msg = "NOTICE") as H1.
    { apply andb_false_iff in E as [E|E]; bool_to_prop; auto. }
    specialize (Hp H1). lia.
Qed.

Lemma safe_autoSaveSASLPlain u pw : safe I (autoSaveSASLPlain u pw) always.
Proof. unfold autoSaveSASLPlain. wp_auto. Qed.
Hint Resolve safe_autoSaveSASLPlain : safe.

(** *** Upstream methods *)

Lemma safe_updateCaps : safe I updateCaps always.
Proof. unfold updateCaps. wp_auto. Qed.
Lemma safe_handleCapAck name ok : safe I (handleCapAck name ok) always.
Proof. unfold handleCapAck. wp_auto. Qed.
Lemma safe_cacheUserInfo nick info : nick <> "" -> safe I (cacheUserInfo nick info) always.
Proof. intros Hn. unfold cacheUserInfo. rewrite bool_decide_false by done. wp_auto. Qed.
Lemma safe_forget_user nick : safe I (forget_user nick) always.
Proof. unfold forget_user. wp_auto. Qed.
Lemma safe_appendLog entity msg : safe I (appendLog entity msg) always.
Proof. unfold appendLog. wp_auto. Qed.
Hint Resolve safe_updateCaps safe_handleCapAck safe_cacheUserInfo safe_forget_user safe_appendLog : safe.

Lemma safe_produce blocked target msg origin : safe I (produce blocked target msg origin) always.
Proof. unfold produce. wp_auto. Qed.
Lemma safe_updateAway : safe I updateAway always.
Proof. unfold updateAway. wp_auto. Qed.
Lemma safe_updateMonitor : safe I updateMonitor always.
Proof. unfold updateMonitor. wp_auto. Qed.
Hint Resolve safe_produce safe_updateAway safe_updateMonitor : safe.

Lemma safe_handleDetachedMessage name ch msg :
  (Command msg = "PRIVMSG" \/ Command msg = "NOTICE" -> (2 <= length (Params msg))%nat) ->
  is_Some (MsgPrefix msg) -> safe I (handleDetachedMessage name ch msg) always.
Proof.
  intros H1 H2. pose proof (safe_net_isHighlight msg H1 H2).
  unfold handleDetachedMessage, detachedMessageNeedsRelay. wp_auto.
Qed.

(** The timer is not running before the end of the MOTD. *)
Lemma safe_startRegainNickTimer s :
  I s -> uc_regainNickTimer (su_uc s) = None -> uc_regainNickBackoff (su_uc s) = None ->
  uc_gotMotd (su_uc s) = true -> wp I startRegainNickTimer (fun _ s' => I s' /\ True) s.
Proof.
  intros Hs H1 H2 H3. unfold startRegainNickTimer. wp_step. wp_step. cbn [id]. rewrite H1, H2.
  wp_auto. split; [|done]. apply inv_on_uc; [done|]. intros cm []. constructor; cbn; auto. congruence.
Qed.

Lemma updateCasemapping_eq cm (s : ust St) :
  exists eff, updateCasemapping cm s
    = (on_eff (fun e => e ++ eff)
         (if su_conn s : bool then on_uc (recase_uc cm) (on_net (recase_net cm) s) else on_net (recase_net cm) s), Ok tt).
Proof.
  unfold updateCasemapping, modify_net, modify_uc. rewrite bind_modify, bind_gets. cbn [su_conn on_net].
  destruct (su_conn s); cbn [when]; [rewrite bind_modify|rewrite bind_ret];
    rewrite (forEachDownstream_down (fun _ => updateCasemapping_dc)); by eexists.
Qed.

(** *** Cases of the switch *)

(** The conditions on a message of the server under which handling it does
    not panic: its source, the nicks and the channel status it gives are not
    empty. *)
Record msg_ok (msg : message) : Prop := {
  mo_source : forall p, MsgPrefix msg = Some p -> Name p <> "";
  mo_nick : Command msg ∈ ["001"; "NICK"] -> arg (Params msg) 0 <> "";
  mo_who : Command msg = "352" -> arg (Params msg) 5 <> "";
  mo_status : Command msg = "353" -> arg (Params msg) 1 <> "";
  mo_whox : forall fields info, byte_in "n" fields = true -> ParseWHOXReply msg fields = Ok info -> Nickname info <> ""
}.

Lemma arg_take l n i : (i < n)%nat -> arg (take n l) i = arg l i.
Proof. intros. unfold arg. by rewrite lookup_take_lt. Qed.

Lemma safe_channel_message bufferName msg isText self :
  (isText = true -> (2 <= length (Params msg))%nat) -> isText = bool_decide (Command msg = "NOTICE") || bool_decide (Command msg = "PRIVMSG") ->
  is_Some (MsgPrefix msg) -> safe I (channel_message bufferName msg isText self) always.
Proof.
  intros H1 H2 H3.
  assert (H4 : Command msg = "PRIVMSG" \/ Command msg = "NOTICE" -> (2 <= length (Params msg))%nat).
  { intros [E|E]; rewrite E in H2; by apply H1. }
  pose proof (fun name ch => safe_handleDetachedMessage name ch msg H4 H3).
  pose proof (safe_net_isHighlight msg H4 H3). unfold channel_message. wp_auto.
Qed.

Lemma safe_on_text msg p id :
  is_Some (time_Parse (default "" (Tags msg !! "time"))) -> MsgPrefix msg = Some p ->
  safe I (on_text msg p id) always.
Proof.
  intros [t Ht] Hp s Hs. unfold on_text. set (isText := _ || _).
  apply wp_bind. eapply wp_call; [apply safe_need|done|]. intros l s1 Hs1 [-> Hl].
  assert (Hc : forall b self, safe I (channel_message b msg isText self) always).
  { intros. apply safe_channel_message; [|done|by rewrite Hp]. intros E. by rewrite E in Hl. }
  rewrite Ht. wp_auto.
Qed.

Lemma safe_update_downstream_caps : safe I update_downstream_caps always.
Proof. unfold update_downstream_caps. wp_auto. Qed.
Hint Resolve safe_update_downstream_caps : safe.

Lemma safe_on_cap_ls msg l : safe I (on_cap_ls msg l) always.
Proof. unfold on_cap_ls. wp_auto. Qed.
Lemma safe_on_cap_ack msg b l : safe I (on_cap_ack msg b l) always.
Proof. unfold on_cap_ack. wp_auto. Qed.
Hint Resolve safe_on_cap_ls safe_on_cap_ack : safe.
Lemma safe_on_cap msg : safe I (on_cap msg) always.
Proof. unfold on_cap. wp_auto. Qed.

Lemma safe_on_authenticate msg : safe I (on_authenticate msg) always.
Proof. unfold on_authenticate, abort_sasl. wp_auto. Qed.
Lemma safe_on_loggedin msg : safe I (on_loggedin msg) always.
Proof. unfold on_loggedin. wp_auto. Qed.
Lemma safe_on_loggedout msg : safe I (on_loggedout msg) always.
Proof. unfold on_loggedout. wp_auto. Qed.
Lemma safe_on_visiblehost msg : safe I (on_visiblehost msg) always.
Proof. unfold on_visiblehost. wp_auto. Qed.

Lemma safe_on_sasl_result msg : safe I (on_sasl_result msg) always.
Proof.
  intros s Hs. unfold on_sasl_result. apply wp_bind. eapply wp_call; [apply safe_need|done|].
  intros l s1 Hs1 _. wp_step. wp_step. wp_step. eapply wp_call; [apply (safe_dequeueCommand "AUTHENTICATE")|inv_solve|].
  intros [[dc|] cmd] s2 Hs2 [Hdc _]; [|wp_auto].
  pose proof (eo_sasl Henv) as Hf. rewrite Forall_forall in Hf. specialize (Hf dc (Hdc dc eq_refl)).
  wp_step. destruct (dc_sasl dc) as [x|]; [|wp_auto]. destruct (Hf x eq_refl) as [[u pw] ->]. wp_auto.
Qed.

Lemma safe_on_register msg : safe I (on_register msg) always.
Proof. unfold on_register. wp_auto. Qed.

Lemma safe_on_welcome msg p : msg_ok msg -> Command msg = "001" -> Name p <> "" -> safe I (on_welcome msg p) always.
Proof.
  intros Hm Hc Hp s Hs. unfold on_welcome. apply wp_bind. eapply wp_call; [apply safe_need|done|].
  intros l s1 Hs1 [-> Hl]. wp_step. split; [|done]. apply inv_on_uc; [done|].
  intros cm []. constructor; cbn; auto. rewrite arg_take by lia. apply (mo_nick _ Hm). rewrite Hc. by_eval.
Qed.

Lemma safe_on_myinfo msg : safe I (on_myinfo msg) always.
Proof. unfold on_myinfo. wp_auto. Qed.

Lemma handleChanModes_inv v uc uc' cm : handleChanModes v uc = Ok uc' -> uc_inv cm uc -> uc_inv cm uc'.
Proof. unfold handleChanModes. intros E []. repeat case_match; simplify_eq; by constructor. Qed.
Lemma handleMemberships_inv v uc uc' cm : handleMemberships v uc = Ok uc' -> uc_inv cm uc -> uc_inv cm uc'.
Proof. unfold handleMemberships. intros E []. repeat case_match; simplify_eq; by constructor. Qed.

Lemma safe_try_uc f :
  (forall uc, f uc <> Panic) -> (forall uc uc' cm, f uc = Ok uc' -> uc_inv cm uc -> uc_inv cm uc') ->
  safe I (try_uc f) always.
Proof.
  intros Hp Hf s Hs. unfold try_uc. wp_step. wp_step. wp_step. wp_step.
  destruct (f (su_uc s)) as [uc'|e|] eqn:E; [|done|by apply (Hp _ E)].
  wp_step. split; [|done]. apply inv_on_uc; [done|]. intros cm. by apply Hf.
Qed.

Lemma safe_on_isupport_token token : safe I (on_isupport_token token) always.
Proof.
  assert (H1 : forall v, safe I (try_uc (handleChanModes v)) always).
  { intros v. apply safe_try_uc; [|intros ???; apply handleChanModes_inv].
    intros uc. unfold handleChanModes. by repeat case_match. }
  assert (H2 : forall v, safe I (try_uc (handleMemberships v)) always).
  { intros v. apply safe_try_uc; [|intros ???; apply handleMemberships_inv].
    intros uc. unfold handleMemberships. by repeat case_match. }
  unfold on_isupport_token. wp_auto.
Qed.
Hint Resolve safe_on_isupport_token : safe.

Lemma safe_on_isupport msg : safe I (on_isupport msg) always.
Proof. unfold on_isupport. wp_auto. Qed.

Lemma safe_on_endofmotd msg id : safe I (on_endofmotd msg id) always.
Proof.
  intros s Hs. unfold on_endofmotd. wp_step. wp_step.
  destruct (uc_gotMotd (su_uc s)) eqn:E; cbn [negb]; [wp_auto|].
  destruct (ui_timer _ _ (i_uc _ _ Hs) E) as [Ht Hb].
  wp_step. wp_step. set (s1 := on_uc (set_uc_gotMotd true) s). assert (Hs1 : I s1) by (unfold s1; inv_solve).
  assert (Hk : forall s2, I s2 -> uc_regainNickTimer (su_uc s2) = None -> uc_regainNickBackoff (su_uc s2) = None ->
    uc_gotMotd (su_uc s2) = true ->
    wp I (uc ← gets su_uc; when (negb (bool_decide (is_Some (uc_isupport uc !! "MONITOR")))) startRegainNickTimer)
      (fun a s' => I s' /\ True) s2).
  { intros s2 Hs2 H1 H2 H3. wp_step. wp_step. wp_step; [by apply safe_startRegainNickTimer|by wp_step]. }
  wp_step. wp_step; [|wp_step; by apply Hk].
  pose proof (inv_recase casemapRFC1459 s1 Hs1) as Hr. unfold wp.
  destruct (updateCasemapping_eq casemapRFC1459 s1) as [eff ->].
  apply Hk; [by apply inv_on_eff|..]; by destruct (su_conn s1).
Qed.

Lemma safe_on_batch msg label dl id b : safe I (on_batch msg label dl id b) always.
Proof. unfold on_batch, on_batch_start, on_batch_end. wp_auto. Qed.

Lemma inv_stop_nick s v : I s -> I (on_uc (fun uc => stopRegainNickTimer (set_uc_pendingRegainNick v uc)) s).
Proof. intros Hs. apply inv_on_uc; [done|]. intros cm []. by constructor. Qed.

Lemma safe_our_nick_changed newNick : newNick <> "" -> safe I (our_nick_changed newNick) always.
Proof. intros Hn. unfold our_nick_changed. wp_auto. Qed.

Lemma cmap_ok_rename cm old new uch : cmap_ok cm (uch_Members uch) -> cmap_ok cm (uch_Members (rename_member old new uch)).
Proof. intros Hu. unfold rename_member. case_match; cbn; auto with sake. Qed.
Hint Resolve cmap_ok_rename : sake.

Lemma safe_for_channels_with nick f msg :
  (forall cm uch, cmap_ok cm (uch_Members uch) -> cmap_ok cm (uch_Members (f uch))) ->
  safe I (for_channels_with nick f msg) always.
Proof. intros Hf. unfold for_channels_with. wp_auto. Qed.

Lemma safe_on_nick msg p : msg_ok msg -> Command msg = "NICK" -> Name p <> "" -> safe I (on_nick msg p) always.
Proof.
  intros Hm Hc Hp s Hs. unfold on_nick. apply wp_bind. eapply wp_call; [apply safe_need|done|].
  intros l s1 Hs1 [-> Hl]. rewrite arg_take by lia.
  assert (Hn : arg (Params msg) 0 <> "") by (apply (mo_nick _ Hm); rewrite Hc; by_eval).
  pose proof (safe_our_nick_changed _ Hn).
  pose proof (safe_for_channels_with (Name p) (rename_member (Name p) (arg (Params msg) 0)) msg
    (fun cm uch => cmap_ok_rename cm _ _ uch)).
  wp_auto.
Qed.

Lemma safe_on_setname msg p : Name p <> "" -> safe I (on_setname msg p) always.
Proof. intros Hp. unfold on_setname. wp_auto. Qed.
Lemma safe_on_chghost msg p : safe I (on_chghost msg p) always.
Proof. unfold on_chghost. wp_auto. Qed.
Lemma safe_on_away msg p : Name p <> "" -> safe I (on_away msg p) always.
Proof. intros Hp. unfold on_away. wp_auto. Qed.
Lemma safe_on_account msg p : Name p <> "" -> safe I (on_account msg p) always.
Proof. intros Hp. unfold on_account. wp_auto. Qed.

(** *** Membership *)

Lemma safe_join_channel p ch : safe I (join_channel p ch) always.
Proof.
  intros s0 Hs0. unfold join_channel. wp_step. eapply wp_call; [apply safe_isOurNick|done|].
  intros me s Hs _. destruct me; [|wp_auto]. wp_step. wp_step. wp_step. wp_step.
  assert (Hs' : I (on_uc (fun uc => let uc := orphan_timer ch uc in
      set_uc_channels (Set_ (uc_channels uc) ch (new_uch ch (nw_casemap (su_net s)))) uc) s)).
  { destruct Hs as [H1 H2 H3]. constructor; cbn; [|done|done].
    apply (uc_inv_orphan _ ch) in H1. rewrite orphan_channels. destruct H1. rewrite orphan_channels in *.
    constructor; cbn; auto with sake. apply members_ok_set; [done|]. apply cmap_ok_if, cmap_ok_new. }
  wp_auto.
Qed.
Hint Resolve safe_join_channel : safe.

Lemma safe_on_join msg p : Name p <> "" -> safe I (on_join msg p) always.
Proof. intros Hp. unfold on_join. wp_auto. Qed.

Lemma safe_forget_channel ch : safe I (forget_channel ch) always.
Proof. unfold forget_channel. wp_auto. Qed.
Lemma safe_remove_member ch nick : safe I (remove_member ch nick) always.
Proof. unfold remove_member. wp_auto. Qed.
Hint Resolve safe_forget_channel safe_remove_member : safe.
Lemma safe_on_part msg p : safe I (on_part msg p) always.
Proof. unfold on_part. wp_auto. Qed.
Lemma inv_orphan ch s : I s -> I (on_uc (orphan_timer ch) s).
Proof. intros Hs. apply inv_on_uc; [done|]. intros cm. apply uc_inv_orphan. Qed.
Lemma safe_on_kick msg : safe I (on_kick msg) always.
Proof. pose proof inv_orphan. unfold on_kick. wp_auto; auto. Qed.
Lemma safe_on_quit msg p : safe I (on_quit msg p) always.
Proof.
  pose proof (safe_for_channels_with (Name p) (fun uch => set_uch_Members (Del (uch_Members uch) (Name p)) uch) msg
    (fun cm uch => cmap_ok_del cm _ (Name p))).
  unfold on_quit. wp_auto.
Qed.

(** *** Topics, modes and names *)

Lemma safe_forward_attached b name msg : safe I (forward_attached b name msg) always.
Proof. unfold forward_attached. wp_auto. Qed.
Hint Resolve safe_forward_attached : safe.

Lemma safe_with_joined name id msg f :
  (forall ch, safe I (f ch) always) -> safe I (with_joined name id msg f) always.
Proof. intros Hf. unfold with_joined. wp_auto. Qed.

Lemma safe_on_rpl_topic msg id : safe I (on_rpl_topic msg id) always.
Proof. unfold on_rpl_topic. wp_step. wp_step. wp_step; [done|]. apply safe_with_joined; [intros; wp_auto|done]. Qed.
Lemma safe_on_topic msg p : safe I (on_topic msg p) always.
Proof.
  unfold on_topic. wp_auto. apply inv_on_uc; [done|]. intros cm Hu. apply uc_inv_update_uch; [|done].
  intros uch. by case_match.
Qed.

Lemma cmap_ok_change_member av st plus member mem cm :
  cmap_ok cm (cm_members st) -> cmap_ok cm (cm_members (change_member av st plus member mem)).
Proof. intros Hc. unfold change_member. case_match; cbn; auto with sake. Qed.

Lemma cmap_ok_change_mode st mt plus mode args cm :
  cmap_ok cm (cm_members st) -> cmap_ok cm (cm_members (fst (change_mode st mt plus mode args))).
Proof. intros Hc. by destruct mt, plus. Qed.

Lemma cmap_ok_apply_modes av avm modeStr s sign args st cm :
  cmap_ok cm (cm_members st) -> cmap_ok cm (cm_members (fst (acm_loop av avm modeStr s sign args st))).
Proof.
  revert sign args st; induction s as [|c s IH]; intros sign args st Hc; cbn [acm_loop]; [done|].
  destruct (is_sign c); [by apply IH|]. destruct sign as [sg|]; [|done].
  destruct (find_membership av c) as [mem|].
  - destruct args as [|a args]; [done|]. apply IH. by apply cmap_ok_change_member.
  - destruct (avm !! c) as [mt|]; [|by apply IH].
    pose proof (cmap_ok_change_mode st mt (byte_eqb sg "+") c args cm Hc) as Hm.
    destruct (change_mode st mt (byte_eqb sg "+") c args) as [st' args']. by apply IH.
Qed.

Lemma safe_apply_modes name modeStr args : safe I (apply_modes name modeStr args) always.
Proof.
  intros s Hs. unfold apply_modes. wp_step. wp_step. destruct (Get (uc_channels (su_uc s)) name) as [ch|] eqn:E; [|wp_auto].
  destruct (applyChannelModes _ _ _ _ _) as [st err] eqn:Ea. wp_step. wp_step.
  set (s1 := on_uc _ s). assert (Hs1 : I s1).
  { apply inv_on_uc; [done|]. intros cm Hu. apply uc_inv_update_uch; [|done]. intros uch' _. cbn.
    replace st with (fst (applyChannelModes (uc_availableMemberships (su_uc s)) (uc_availableChannelModes (su_uc s))
      (ChanModes (uch_modes ch) (uch_Members ch)) modeStr args)) by (by rewrite Ea).
    apply cmap_ok_apply_modes. cbn. destruct Hu. eauto with sake. }
  destruct err; wp_auto.
Qed.
Hint Resolve safe_apply_modes : safe.

Lemma safe_apply_user_modes m : safe I (apply_user_modes m) always.
Proof. unfold apply_user_modes. wp_auto. Qed.
Hint Resolve safe_apply_user_modes : safe.

Lemma safe_on_mode msg : safe I (on_mode msg) always.
Proof. unfold on_mode. wp_auto. Qed.
Lemma safe_on_umodeis msg : safe I (on_umodeis msg) always.
Proof. unfold on_umodeis. wp_auto. Qed.

(** A handler that reads parameters and then works on a joined channel. *)
Ltac joined := wp_step; wp_step; wp_step; [done|]; apply safe_with_joined; [intros; wp_auto|done].

Lemma safe_on_channelmodeis msg id : safe I (on_channelmodeis msg id) always.
Proof. unfold on_channelmodeis. joined. Qed.
Lemma safe_on_creationtime msg id : safe I (on_creationtime msg id) always.
Proof. unfold on_creationtime. joined. Qed.
Lemma safe_on_topicwhotime msg id : safe I (on_topicwhotime msg id) always.
Proof. unfold on_topicwhotime. joined. Qed.
Lemma ParseChannelStatus_total st : st <> "" -> ParseChannelStatus st <> Panic.
Proof. intros Hs. unfold ParseChannelStatus. by repeat case_match. Qed.
Lemma safe_on_namreply msg id : msg_ok msg -> Command msg = "353" -> safe I (on_namreply msg id) always.
Proof.
  intros Hm Hc s Hs. unfold on_namreply. apply wp_bind. eapply wp_call; [apply safe_need|done|].
  intros l s1 Hs1 [-> Hl]. rewrite !arg_take by lia. apply safe_with_joined; [|done]. intros ch s2 Hs2.
  pose proof (ParseChannelStatus_total _ (mo_status _ Hm Hc)) as Ht.
  wp_step. wp_step. destruct (ParseChannelStatus _); [wp_auto|done|done].
Qed.
Lemma safe_on_endofnames msg id : safe I (on_endofnames msg id) always.
Proof. unfold on_endofnames. joined. Qed.

(** *** Replies *)

Lemma safe_with_pending_reply strict name cmd m f :
  safe I m (reply_ok cmd) -> (forall dc msg, reply_ok cmd (Some dc, Some msg) -> safe I (f dc msg) always) ->
  safe I (with_pending_reply strict name m f) always.
Proof.
  intros Hm Hf s Hs. unfold with_pending_reply. wp_step. eapply wp_call; [exact Hm|done|].
  intros [[dc|] [msg|]] s1 Hs1 Hr; cbn; [by apply Hf|destruct strict; wp_auto|done|destruct strict; wp_auto].
Qed.

Lemma safe_on_list msg : safe I (on_list msg) always.
Proof. eapply safe_with_pending_reply; [apply safe_currentPendingCommand|]. intros dc m _. wp_auto. Qed.
Lemma safe_on_listend msg : safe I (on_listend msg) always.
Proof. eapply safe_with_pending_reply; [apply safe_dequeueCommand|]. intros dc m _. wp_auto. Qed.
Lemma safe_on_endofwho msg : safe I (on_endofwho msg) always.
Proof. eapply safe_with_pending_reply; [apply safe_dequeueCommand|]. intros dc m _. wp_auto. Qed.
Lemma safe_on_whois msg : safe I (on_whois msg) always.
Proof. eapply safe_with_pending_reply; [apply safe_currentPendingCommand|]. intros dc m _. wp_auto. Qed.
Lemma safe_on_endofwhois msg : safe I (on_endofwhois msg) always.
Proof. eapply safe_with_pending_reply; [apply safe_dequeueCommand|]. intros dc m _. wp_auto. Qed.

Lemma safe_cache_known_user nick info : nick <> "" -> safe I (cache_known_user nick info) always.
Proof. intros Hn. unfold cache_known_user. wp_auto. Qed.

Lemma safe_on_whoreply msg : msg_ok msg -> Command msg = "352" -> safe I (on_whoreply msg) always.
Proof.
  intros Hm Hc s Hs. unfold on_whoreply. apply wp_bind. eapply wp_call; [apply safe_need|done|].
  intros l s1 Hs1 [-> Hl]. rewrite !arg_take by lia.
  eapply safe_with_pending_reply; [apply safe_currentPendingCommand| |done]. intros dc m _.
  pose proof (fun info => safe_cache_known_user _ info (mo_who _ Hm Hc)). wp_auto.
Qed.

Lemma safe_on_whospcrpl msg : msg_ok msg -> safe I (on_whospcrpl msg) always.
Proof.
  intros Hm. eapply safe_with_pending_reply; [apply safe_currentPendingCommand|]. intros dc cmd _ s Hs.
  wp_step. wp_step. set (s1 := on_eff _ s). assert (Hs1 : I s1) by (unfold s1; inv_solve).
  destruct (Params cmd !! 1%nat) as [o|]; [|wp_auto].
  cbn zeta. destruct (byte_in "n" (fst (ParseWHOXOptions o))) eqn:En; cbn [negb]; [|wp_auto].
  wp_step. wp_step. destruct (ParseWHOXReply msg _) as [info|e|] eqn:Ep; [|done|].
  - pose proof (fun i => safe_cache_known_user _ i (mo_whox _ Hm _ _ En Ep)). wp_auto.
  - unfold ParseWHOXReply in Ep. destruct (negb _); [done|]. destruct (Params msg) as [|v vs]; [done|].
    pose proof (parse_fields_error whoxFields (fst (ParseWHOXOptions o)) vs empty_whox) as Hf. by rewrite Ep in Hf.
Qed.

Lemma safe_on_nosuchnick msg id : safe I (on_nosuchnick msg id) always.
Proof.
  intros s Hs. unfold on_nosuchnick. apply wp_bind. eapply wp_call; [apply safe_need|done|].
  intros l s1 Hs1 _. wp_step. wp_step. wp_step. eapply wp_call; [apply (safe_currentPendingCommand "WHOIS")|done|].
  intros [dc [cmd|]] s2 Hs2 [_ Hr]; [|wp_auto]. cbn beta iota.
  destruct (last (Params cmd)) eqn:El; [wp_auto|].
  apply last_None in El. exfalso. apply (Hr cmd eq_refl); [by_eval|done].
Qed.

Lemma safe_on_command_error msg id : safe I (on_command_error msg id) always.
Proof. unfold on_command_error. wp_auto. Qed.
Lemma safe_on_fail msg id : safe I (on_fail msg id) always.
Proof. unfold on_fail. wp_auto. Qed.

Lemma safe_invite_others msg w b : safe I (invite_others msg w b) always.
Proof. unfold invite_others. wp_auto. Qed.
Hint Resolve safe_invite_others : safe.
Lemma safe_on_invite msg p : safe I (on_invite msg p) always.
Proof.
  assert (HJ : forall a b, exists l, GenerateJoin [a] [b] = Ok l) by (intros; by eexists).
  unfold on_invite. wp_auto.
  all: match goal with |- context [GenerateJoin [?a] [?b]] => destruct (HJ a b) as [? ->] end; wp_auto.
Qed.
Lemma safe_on_inviting msg id : safe I (on_inviting msg id) always.
Proof. unfold on_inviting. wp_auto. Qed.
Lemma safe_on_monitor msg : safe I (on_monitor msg) always.
Proof. unfold on_monitor. wp_auto. Qed.
Lemma safe_on_monlistfull msg : safe I (on_monlistfull msg) always.
Proof. unfold on_monlistfull. wp_auto. Qed.
Lemma safe_on_registration_error msg id : safe I (on_registration_error msg id) always.
Proof. unfold on_registration_error. wp_auto. Qed.
Hint Resolve safe_on_registration_error : safe.
Lemma safe_on_nicknameinuse msg id : safe I (on_nicknameinuse msg id) always.
Proof.
  unfold on_nicknameinuse. wp_auto; apply inv_on_uc; try done; intros cm []; constructor; cbn; auto.
  intros [? ?]%sapp_eq_nil. done.
Qed.
Lemma safe_on_burst msg id : safe I (on_burst msg id) always.
Proof. unfold on_burst. wp_auto. Qed.

(** *** [handleMessage] *)

Hint Resolve safe_on_cap safe_on_authenticate safe_on_loggedin safe_on_loggedout safe_on_visiblehost
  safe_on_sasl_result safe_on_register safe_on_myinfo safe_on_isupport safe_on_endofmotd safe_on_batch
  safe_on_setname safe_on_chghost safe_on_join safe_on_part safe_on_kick safe_on_quit safe_on_rpl_topic
  safe_on_topic safe_on_mode safe_on_umodeis safe_on_channelmodeis safe_on_creationtime safe_on_topicwhotime
  safe_on_list safe_on_listend safe_on_endofnames safe_on_whospcrpl safe_on_endofwho safe_on_whois
  safe_on_endofwhois safe_on_invite safe_on_inviting safe_on_monitor safe_on_monlistfull safe_on_away
  safe_on_account safe_on_nosuchnick safe_on_command_error safe_on_fail safe_on_burst
  safe_on_nicknameinuse : safe.

Lemma safe_dispatch msg p label dl id b :
  msg_ok msg -> MsgPrefix msg = Some p -> Name p <> "" ->
  (isNumeric (Command msg) = false -> is_Some (time_Parse (default "" (Tags msg !! "time")))) ->
  safe I (dispatch msg p label dl id b) always.
Proof.
  intros Hm Hp Hn Ht. unfold dispatch.
  apply safe_switch; [|apply safe_forwardMsgByID].
  repeat (apply Forall_cons; split; [cbn [fst snd]; intros Hc|]); [..|apply Forall_nil];
    try solve [eauto with safe].
  - apply safe_on_text; [|done]. apply Ht. clear -Hc.
    rewrite !elem_of_cons, elem_of_nil in Hc. by destruct Hc as [E|[E|[E|[E|[]]]]]; rewrite E.
  - apply list_elem_of_singleton in Hc. by apply safe_on_welcome.
  - apply list_elem_of_singleton in Hc. by apply safe_on_nick.
  - apply list_elem_of_singleton in Hc. by apply safe_on_namreply.
  - apply list_elem_of_singleton in Hc. by apply safe_on_whoreply.
  - intros s Hs. by wp_step.
  - wp_auto.
Qed.

Lemma safe_defer f m : safe I f always -> safe I m always -> safe I (defer f m) always.
Proof.
  intros Hf Hm s Hs. specialize (Hm s Hs). unfold wp, defer in *.
  destruct (m s) as [s1 [a|e|]]; [|..|done].
  - destruct Hm as [Hs1 _]. specialize (Hf s1 Hs1). unfold wp in Hf. by destruct (f s1) as [s2 [a'|e'|]].
  - specialize (Hf s1 Hm). unfold wp in Hf. destruct (f s1) as [s2 [a'|e'|]]; tauto.
Qed.

Lemma msg_ok_complete msg msg' : Command msg' = Command msg -> Params msg' = Params msg ->
  (forall p, MsgPrefix msg' = Some p -> Name p <> "") -> msg_ok msg -> msg_ok msg'.
Proof.
  intros Hc Hp Hs [H0 H1 H2 H3 H4]. constructor; rewrite ?Hc, ?Hp; auto.
  intros fields info. unfold ParseWHOXReply. rewrite Hc, Hp. apply H4.
Qed.

Lemma parseLabel_total label : parseLabel label <> Panic.
Proof. unfold parseLabel. by repeat case_match. Qed.

Lemma wp_handle_labeled msg ml s :
  msg_ok msg -> I s -> wp I (handle_labeled (su_uc s) msg ml) (fun _ s' => I s' /\ True) s.
Proof.
  intros Hm Hs. unfold handle_labeled. destruct ml as [[[label bn] bl] mb]. wp_step. wp_step.
  destruct (parseLabel label) as [[id dl]|e|] eqn:Ep; [|done|by apply (parseLabel_total label)].
  unfold complete_message. set (p := default _ (MsgPrefix msg)). set (m := Message _ _ _ _).
  assert (Hp : Name p <> "").
  { unfold p. destruct (MsgPrefix msg) as [p'|] eqn:E; cbn; [by apply (mo_source _ Hm)|].
    apply (ui_server _ _ (i_uc _ _ Hs)). }
  assert (Hd : safe I (dispatch m p label dl id mb) always).
  { apply safe_dispatch; [|done|done|].
    - apply (msg_ok_complete msg); [done|done| |done]. by intros ? [= <-].
    - cbn. intros ->. rewrite lookup_insert_eq. cbn. apply (eo_time Henv). }
  assert (Hf : safe I (defer (forEachDownstreamByID id (fun dc => down dc FlushBatch)) (dispatch m p label dl id mb)) always).
  { apply safe_defer; [|done]. apply safe_forEachDownstreamByID. intros; wp_auto. }
  wp_auto.
Qed.

Lemma safe_handleMessage msg : msg_ok msg -> safe I (handleMessage msg) always.
Proof.
  intros Hm s Hs. unfold handleMessage. wp_step. wp_step. wp_step. wp_step.
  pose proof (fun ml => wp_handle_labeled msg ml s Hm Hs).
  unfold message_label. destruct (Tags msg !! "batch") as [bn|]; [|done].
  destruct (uc_batches (su_uc s) !! bn); [|done]. by case_bool_decide.
Qed.

End Safety.

(** ** Runs *)

(** Messages handled one after the other, each with what the handler gets
    from outside; the results in order. *)
Fixpoint handle_run {St} {HSt : Store St} {MO : MapOrder} {UN : Unicode} (l : list (Env * message)) (s : ust St)
    : ust St * list (res uerror unit) :=
  match l with
  | [] => (s, [])
  | (EV, msg) :: l' =>
      let '(s1, r) := handleMessage (EV := EV) msg s in
      let '(s2, rs) := handle_run l' s1 in (s2, r :: rs)
  end.

(** ** Properties *)


(** A new connection to a network, after the registration messages were
    sent, satisfies the invariant that upstream_safety preserves, for any saved
    channels and ignores; and the first CASEMAPPING token of the server brings
    the maps of the connection and of the network under the same mapping. *)
Theorem upstream_init {St} {HSt : Store St} {MO : MapOrder} {EV : Env} record channels ignores cert ref (store : option St) :
  env_ok ->
  let s := Ust (new_upstreamConn cert) false (newNetwork record channels ignores) ref store [] in
  exists s1, register s = (s1, Ok tt) /\ inv false s1 /\
    (forall (s2 : ust St) cm, inv false s2 -> su_conn s2 = true -> inv true (fst (updateCasemapping cm s2))).
Proof.
  intros He s.
  assert (Hr : wp (fun _ => False) register (fun _ s1 => inv false s1) s).
  { unfold register, uc_SendMessage. repeat (wp_step; cbn beta); repeat apply inv_on_eff.
    all: constructor; cbn; [|constructor; cbn; (split; [|done])|done]; [|by apply (cmap_ok_fold _ None);
        [intros; apply cmap_ok_set|split; [apply wf_new|]]|apply wf_new].
    all: constructor; cbn; try done; try (split; [apply wf_new|done]); try (intros k e H; by rewrite lookup_empty in H).
    all: exact (GetNick_nonempty He (Some record)). }
  destruct (wp_total _ _ _ Hr) as (s1 & [] & Heq & Hi). exists s1. split_and!; [done|done|].
  intros s2 cm [H1 H2 H3] Hc. destruct (updateCasemapping_eq cm s2) as [eff ->]. rewrite Hc. cbn.
  constructor; cbn; [|constructor; cbn; apply cmap_ok_recase|done].
  apply (uc_inv_recase true). by eapply uc_inv_weaken.
Qed.

(** A JOIN whose source has an empty name makes handleMessage panic, in
    every state: cacheUserInfo panics on an empty nick. *)
Theorem empty_source_panics {St} {HSt : Store St} {MO : MapOrder} {UN : Unicode} {EV : Env} user host ch (s : ust St) :
  snd (handleMessage (Message ∅ (Some (Prefix "" user host)) "JOIN" [ch]) s) = Panic.
Proof. done. Qed.

(** ** Concrete runs *)
Module UpstreamWitness.
Import PendingWitness.

(** A store that forgets everything. *)
#[export] Instance null_store : Store unit :=
  {| st_LastMsgID _ _ _ _ := Some ""; st_Append st _ _ _ := (st, Some "") |}.
#[export] Existing Instance ascii_unicode.

Definition from (nick cmd : string) (params : list string) : message :=
  Message ∅ (Some (Prefix nick "u" "h")) cmd params.

Lemma env_is_ok : env_ok (EV := env).
Proof. constructor; [done|by eexists|]. repeat constructor; done. Qed.

Lemma state0_inv : inv false state0.
Proof.
  constructor; [constructor|constructor|]; cbn; try done; try (split; [apply wf_new|done]).
Qed.

Lemma from_ok nick cmd params : nick <> "" -> cmd ∉ ["001"; "NICK"; "352"; "353"; "354"] -> msg_ok (from nick cmd params).
Proof.
  intros Hn Hc. constructor; cbn; [by intros ? [= <-]|set_solver..|].
  intros fields info _. unfold ParseWHOXReply. cbn. rewrite bool_decide_false; [done|].
  intros ->. set_solver.
Qed.


Lemma upstream_init_witness :
  exists s1 : ust unit,
    register (EV := env) (Ust (new_upstreamConn false) false (newNetwork (NewNetwork "irc.example.org") [] []) 0%nat None [])
    = (s1, Ok tt) /\ inv false s1.
Proof.
  destruct (upstream_init (EV := env) (St := unit) (NewNetwork "irc.example.org") [] [] false 0%nat None env_is_ok)
    as (s1 & H1 & H2 & _). by exists s1.
Defined.
End UpstreamWitness.
