(* ===== verification/Membership.v ===== *)
(** * Channel membership (upstream.go)

    What the messages of a server say about who is in which channel, as an
    abstract state with one function per message, and the proof that the maps
    an upstream connection keeps follow it, whatever other messages arrive in
    between. *)

From stdpp Require Import base list gmap strings.
From Stdlib Require Import ZArith Ascii.
From S2P Require Import Prelude GoStrings GoText Casemapping Xirc Whox Base64 Genmsg Irc Rate Database.
From S2P Require Import Handler Session Network Pending Upstream UpstreamHandlers UpstreamSafety.

Local Open Scope Z_scope.

(** ** The abstract state: our nick and the members of the joined channels,
    all case-mapped *)

Record view := View { v_nick : string; v_chans : gmap string (gset string) }.

Definition with_chans (v : view) (f : gmap string (gset string) -> gmap string (gset string)) : view :=
  View (v_nick v) (f (v_chans v)).

Section Track.
Context (cm : CaseMapping) (avail : list Membership).

(** A JOIN of [nick]: our own creates the channel, another one is an error
    for an unknown channel, which ends the handling of the message. *)
Fixpoint track_join (nick : string) (l : list string) (v : view) : view :=
  match l with
  | [] => v
  | ch :: l' =>
      if bool_decide (v_nick v = cm nick) then track_join nick l' (with_chans v <[cm ch := ∅]>)
      else match v_chans v !! cm ch with
      | None => v
      | Some ms => track_join nick l' (with_chans v <[cm ch := {[cm nick]} ∪ ms]>)
      end
  end.

(** [nick] leaves [ch]; [None] for a channel we are not in. *)
Definition track_leave (nick ch : string) (v : view) : option view :=
  if bool_decide (v_nick v = cm nick) then Some (with_chans v (delete (cm ch)))
  else (fun ms => with_chans v <[cm ch := ms ∖ {[cm nick]}]>) <$> (v_chans v !! cm ch).

Fixpoint track_part (nick : string) (l : list string) (v : view) : view :=
  match l with
  | [] => v
  | ch :: l' => match track_leave nick ch v with None => v | Some v' => track_part nick l' v' end
  end.

Definition rename (old new : string) (ms : gset string) : gset string :=
  if bool_decide (old ∈ ms) then {[new]} ∪ ms ∖ {[old]} else ms.

Definition track_nick (old new : string) (v : view) : view :=
  View (if bool_decide (v_nick v = cm old) then cm new else v_nick v) (rename (cm old) (cm new) <$> v_chans v).

(** The nicks of a NAMES reply, without their prefixes. *)
Definition names_of (names : string) : gset string :=
  list_to_set ((fun s => cm (snd (membership_loop avail s))) <$> splitSpace names).

Definition track (msg : message) (p : prefix) (v : view) : view :=
  let cmd := Command msg in
  if bool_decide (cmd = "001") then
    match Params msg with nick :: _ => View (cm nick) (v_chans v) | _ => v end
  else if bool_decide (cmd = "NICK") then
    match Params msg with nick :: _ => track_nick (Name p) nick v | _ => v end
  else if bool_decide (cmd = "JOIN") then
    match Params msg with chs :: _ => track_join (Name p) (Split chs ",") v | _ => v end
  else if bool_decide (cmd = "PART") then
    match Params msg with chs :: _ => track_part (Name p) (Split chs ",") v | _ => v end
  else if bool_decide (cmd = "KICK") then
    match Params msg with ch :: user :: _ => default v (track_leave user ch v) | _ => v end
  else if bool_decide (cmd = "QUIT") then with_chans v (fmap (fun ms => ms ∖ {[cm (Name p)]}))
  else if bool_decide (cmd = "353") then (* RPL_NAMREPLY *)
    match Params msg with
    | _ :: status :: ch :: names :: _ =>
        if is_ok (ParseChannelStatus status) then with_chans v (alter (union (names_of names)) (cm ch)) else v
    | _ => v
    end
  else v.

(** The commands that change the abstract state. *)
Definition tracked_commands : list string := ["001"; "NICK"; "JOIN"; "PART"; "KICK"; "QUIT"; "353"].

Lemma track_other msg p v : Command msg ∉ tracked_commands -> track msg p v = v.
Proof.
  intros Hc. unfold track. unfold tracked_commands in Hc.
  by rewrite !bool_decide_false by set_solver.
Qed.

End Track.

(** ** The abstraction *)

Definition members_of (uch : upstreamChannel) : gset string := dom (cmm_m (uch_Members uch)).

Definition chans_of (m : CaseMappingMap upstreamChannel) : gmap string (gset string) :=
  (fun e => members_of (value e)) <$> cmm_m m.

Definition view_of (cm : CaseMapping) (uc : upstreamConn) : view :=
  View (cm (uc_nick uc)) (chans_of (uc_channels uc)).

(** A registered connection whose maps are keyed by [cm], the case mapping of
    its network, and whose abstract state is [v]. *)
Record tracks (cm : CaseMapping) (avail : list Membership) (v : view) {St} (s : ust St) : Prop := {
  t_channels : cmap_ok (Some cm) (uc_channels (su_uc s));
  t_members : members_ok (Some cm) (uc_channels (su_uc s));
  t_casemap : nw_casemap (su_net s) = cm;
  t_registered : uc_registered (su_uc s) = true;
  t_avail : uc_availableMemberships (su_uc s) = avail;
  t_view : view_of cm (su_uc s) = v
}.

Section Maps.
Context (cm : CaseMapping).
Implicit Type m : CaseMappingMap upstreamChannel.

Lemma dom_Set {V} (m : CaseMappingMap V) name x : cmm_casemap m = cm ->
  dom (cmm_m (Set_ m name x)) = {[cm name]} ∪ dom (cmm_m m).
Proof. intros <-. unfold Set_. case_match; cbn; by rewrite dom_insert_L. Qed.

Lemma dom_Del {V} (m : CaseMappingMap V) name : cmm_casemap m = cm ->
  dom (cmm_m (Del m name)) = dom (cmm_m m) ∖ {[cm name]}.
Proof. intros <-. cbn. by rewrite dom_delete_L. Qed.

Lemma chans_of_Set m name uch : cmm_casemap m = cm ->
  chans_of (Set_ m name uch) = <[cm name := members_of uch]> (chans_of m).
Proof. intros <-. unfold Set_, chans_of. case_match; cbn; by rewrite fmap_insert. Qed.

Lemma chans_of_Del m name : cmm_casemap m = cm -> chans_of (Del m name) = delete (cm name) (chans_of m).
Proof. intros <-. unfold chans_of. cbn. by rewrite fmap_delete. Qed.

Lemma chans_of_Get m name : cmm_casemap m = cm -> chans_of m !! cm name = members_of <$> Get m name.
Proof. intros <-. unfold chans_of, Get. rewrite lookup_fmap. by destruct (_ !! _). Qed.

End Maps.

(** ** Changes of a state that is tracked *)

Section Tracks.
Context {St : Type} {HSt : Store St} {MO : MapOrder} {UN : Unicode} {EV : Env}.
Context (cm : CaseMapping) (avail : list Membership).
Notation H := (handler (ust St) uerror).
Implicit Type s : ust St.
Notation T := (tracks cm avail).

Lemma t_cmm v s : T v s -> cmm_casemap (uc_channels (su_uc s)) = cm.
Proof. intros Ht. apply Ht. Qed.

Lemma tracks_nick v s : T v s -> cm (uc_nick (su_uc s)) = v_nick v.
Proof. intros Ht. destruct Ht as [_ _ _ _ _ <-]. done. Qed.

Lemma tracks_chans v s : T v s -> chans_of (uc_channels (su_uc s)) = v_chans v.
Proof. intros Ht. destruct Ht as [_ _ _ _ _ <-]. done. Qed.

Lemma tracks_Get v s name : T v s -> v_chans v !! cm name = members_of <$> Get (uc_channels (su_uc s)) name.
Proof. intros Ht. rewrite <- (tracks_chans v s Ht). apply chans_of_Get. by apply (t_cmm v). Qed.

Lemma tracks_own v s nick : T v s -> is_our_nick (su_net s) (su_uc s) nick = bool_decide (v_nick v = cm nick).
Proof. intros Ht. unfold is_our_nick, equalCasemap. rewrite (t_casemap cm avail v s Ht). by rewrite (tracks_nick v s Ht). Qed.

(** A change that leaves the channels, the nick and the memberships alone. *)
Definition frame_uc (f : upstreamConn -> upstreamConn) : Prop := forall uc,
  uc_channels (f uc) = uc_channels uc /\ uc_nick (f uc) = uc_nick uc /\
  uc_registered (f uc) = uc_registered uc /\ uc_availableMemberships (f uc) = uc_availableMemberships uc.

Lemma tracks_frame f v s : frame_uc f -> T v s -> T v (on_uc f s).
Proof.
  intros Hf [H1 H2 H3 H4 H5 H6]. destruct (Hf (su_uc s)) as (E1 & E2 & E3 & E4).
  constructor; cbn; rewrite ?E1, ?E3, ?E4; try done. unfold view_of. by rewrite E1, E2.
Qed.

Lemma tracks_net f v s : (forall net, nw_casemap (f net) = nw_casemap net) -> T v s -> T v (on_net f s).
Proof. intros Hf [H1 H2 H3 H4 H5 H6]. constructor; cbn; try done. by rewrite Hf. Qed.

Lemma tracks_eff f v s : T v s -> T v (on_eff f s).
Proof. by intros [H1 H2 H3 H4 H5 H6]. Qed.

Lemma tracks_store f v s : T v s -> T v (on_store f s).
Proof. by intros [H1 H2 H3 H4 H5 H6]. Qed.

Lemma tracks_Set v s name uch : T v s -> cmap_ok (Some cm) (uch_Members uch) ->
  T (with_chans v <[cm name := members_of uch]>)
    (on_uc (fun uc => set_uc_channels (Set_ (uc_channels uc) name uch) uc) s).
Proof.
  intros Ht Hu. pose proof (t_cmm v s Ht). destruct Ht as [H1 H2 H3 H4 H5 H6]. constructor; cbn; try done.
  - by apply cmap_ok_set.
  - by apply members_ok_set.
  - rewrite <- H6. unfold view_of, with_chans. cbn. by rewrite (chans_of_Set cm).
Qed.

Lemma tracks_Del v s name : T v s ->
  T (with_chans v (delete (cm name))) (on_uc (fun uc => set_uc_channels (Del (uc_channels uc) name) uc) s).
Proof.
  intros Ht. pose proof (t_cmm v s Ht). destruct Ht as [H1 H2 H3 H4 H5 H6]. constructor; cbn; try done.
  - by apply cmap_ok_del.
  - by apply members_ok_del.
  - rewrite <- H6. unfold view_of, with_chans. cbn [su_uc on_uc set_uc_channels uc_channels uc_nick v_nick v_chans]. by rewrite (chans_of_Del cm).
Qed.

(** A change of a channel that changes its members by [g]. *)
Definition acts_as (g : gset string -> gset string) (f : upstreamChannel -> upstreamChannel) : Prop := forall uch,
  cmap_ok (Some cm) (uch_Members uch) ->
  cmap_ok (Some cm) (uch_Members (f uch)) /\ members_of (f uch) = g (members_of uch).

Lemma tracks_update_uch v s name f g : acts_as g f -> T v s ->
  T (with_chans v (alter g (cm name))) (on_uc (update_uch name f) s).
Proof.
  intros Hf Ht. pose proof (tracks_Get v s name Ht) as Hg.
  destruct (Get (uc_channels (su_uc s)) name) as [uch|] eqn:E; cbn in Hg.
  - assert (Hm : cmap_ok (Some cm) (uch_Members uch)) by (eapply members_ok_get; [apply Ht|exact E]).
    destruct (Hf uch Hm) as [H1 H2].
    assert (E1 : with_chans v (alter g (cm name)) = with_chans v <[cm name := members_of (f uch)]>).
    { unfold with_chans. f_equal. rewrite H2. apply map_eq. intros k. rewrite lookup_alter, lookup_insert.
      case_decide; [|done]. subst. by rewrite Hg. }
    rewrite E1.
    replace (on_uc (update_uch name f) s) with (on_uc (fun uc => set_uc_channels (Set_ (uc_channels uc) name (f uch)) uc) s)
      by (unfold on_uc, update_uch; by rewrite E).
    by apply tracks_Set.
  - replace (on_uc (update_uch name f) s) with s by (unfold on_uc, update_uch; rewrite E; by destruct s).
    replace (with_chans v (alter g (cm name))) with v; [done|].
    unfold with_chans. destruct v as [n c]. f_equal. symmetry. apply alter_id. cbn in *. intros ms Hms. by rewrite Hg in Hms.
Qed.

Lemma tracks_update_same v s name f : acts_as id f -> T v s -> T v (on_uc (update_uch name f) s).
Proof.
  intros Hf Ht. replace v with (with_chans v (alter id (cm name))); [by apply tracks_update_uch|].
  unfold with_chans. destruct v as [n c]. f_equal. by apply alter_id.
Qed.

Lemma acts_as_same f : (forall uch, uch_Members (f uch) = uch_Members uch) -> acts_as id f.
Proof. intros Hf uch Hu. unfold members_of. by rewrite Hf. Qed.

Lemma acts_as_set nick ms : acts_as (union {[cm nick]}) (fun uch => set_uch_Members (Set_ (uch_Members uch) nick ms) uch).
Proof.
  intros uch Hu. split; [by apply cmap_ok_set|]. unfold members_of. cbn. by apply dom_Set, Hu.
Qed.

Lemma acts_as_del nick : acts_as (fun ms => ms ∖ {[cm nick]}) (fun uch => set_uch_Members (Del (uch_Members uch) nick) uch).
Proof.
  intros uch Hu. split; [by apply cmap_ok_del|]. unfold members_of. cbn. by apply dom_Del, Hu.
Qed.

Lemma Has_dom {V} (m : CaseMappingMap V) nick : cmm_casemap m = cm -> Has m nick = bool_decide (cm nick ∈ dom (cmm_m m)).
Proof.
  intros <-. unfold Has. destruct (cmm_m m !! _) eqn:E.
  - symmetry. apply bool_decide_eq_true. by apply elem_of_dom_2 in E.
  - symmetry. apply bool_decide_eq_false. by apply not_elem_of_dom.
Qed.

Lemma acts_as_rename old new : acts_as (rename (cm old) (cm new)) (rename_member old new).
Proof.
  intros uch Hu. unfold rename_member, rename, members_of.
  destruct (Get (uch_Members uch) old) as [ms|] eqn:E.
  - assert (Hh : Has (uch_Members uch) old = true) by (apply Has_Get; eauto).
    rewrite Has_dom in Hh by apply Hu. rewrite Hh. split.
    + cbn. by apply cmap_ok_set, cmap_ok_del.
    + cbn [set_uch_Members uch_Members]. rewrite (dom_Set cm) by (cbn; apply Hu). by rewrite (dom_Del cm) by apply Hu.
  - assert (Hh : Has (uch_Members uch) old = false) by (apply not_true_is_false; rewrite Has_Get, E; by intros [? ?]).
    rewrite Has_dom in Hh by apply Hu. by rewrite Hh.
Qed.

(** ** What does not change the membership *)

Context (v : view).
Notation K m := (keeps (E := uerror) (tracks cm avail v (St := St)) m).

Lemma keeps_uc f : frame_uc f -> K (modify_uc f).
Proof. intros Hf. apply keeps_modify. intros s. by apply tracks_frame. Qed.

Lemma keeps_uch name f : (forall uch, uch_Members (f uch) = uch_Members uch) -> K (modify_uc (update_uch name f)).
Proof. intros Hf. apply keeps_modify. intros s. by apply tracks_update_same, acts_as_same. Qed.

Lemma keeps_net f : (forall net, nw_casemap (f net) = nw_casemap net) -> K (modify_net f).
Proof. intros Hf. apply keeps_modify. intros s. by apply tracks_net. Qed.

Lemma keeps_emit e : K (emit e).
Proof. apply keeps_modify. intros s. apply tracks_eff. Qed.

Lemma keeps_store f : K (modify (on_store f)).
Proof. apply keeps_modify. intros s. apply tracks_store. Qed.

Lemma keeps_switch cmd cases (dflt : H unit) :
  Forall (fun c => K (snd c)) cases -> K dflt -> K (switch cmd cases dflt).
Proof.
  intros Hc Hd. induction Hc as [|[cmds m] cases Hm _ IH]; cbn; [done|]. by destruct (bool_decide _).
Qed.

Lemma keeps_forEachDownstream f : (forall dc, K (f dc)) -> K (forEachDownstream f).
Proof. intros Hf. unfold forEachDownstream. apply keeps_bind; [apply keeps_gets|]. intros. by apply keeps_for_each. Qed.

End Tracks.

Create HintDb keeps discriminated.
#[export] Hint Resolve keeps_ret keeps_raise keeps_panic keeps_gets keeps_lift keeps_emit keeps_store : keeps.

(** Take a handler apart; calls are closed by the database. *)
Ltac keep_step :=
  match goal with
  | |- keeps _ (_ ≫= _) => apply keeps_bind; [|intros ?]
  | |- keeps _ (when _ _) => apply keeps_when
  | |- keeps _ (for_each _ _) => apply keeps_for_each; intros ?
  | |- keeps _ (forEachDownstream _) => apply keeps_forEachDownstream; intros ?
  | |- keeps _ (switch _ _ _) =>
      apply keeps_switch; [repeat (apply Forall_cons; split; [cbn [snd]|]); [..|by apply Forall_nil]|]
  | |- keeps _ (modify_uc (update_uch _ _)) => apply keeps_uch; solve [intros; done | intros; by case_match]
  | |- keeps _ (modify_uc _) => apply keeps_uc; intros ?; solve [done | repeat case_match; done]
  | |- keeps _ (modify_net (update_ch _ _)) => apply keeps_net; intros ?; apply update_ch_casemap
  | |- keeps _ (modify_net _) => apply keeps_net; intros ?; done
  | |- keeps _ (get_uc _) => apply keeps_gets
  | |- keeps _ (get_net _) => apply keeps_gets
  | |- keeps _ (down _ _) => apply keeps_emit
  | |- keeps _ (match ?x with _ => _ end) => destruct x
  | |- keeps _ _ => solve [eauto with keeps]
  end.
Ltac keep := repeat keep_step.

Section Keeps.
Context {St : Type} {HSt : Store St} {MO : MapOrder} {UN : Unicode} {EV : Env}.
Context (cm : CaseMapping) (avail : list Membership) (v : view).
Notation H := (handler (ust St) uerror).
Notation K m := (keeps (E := uerror) (tracks cm avail v (St := St)) m).

Lemma keeps_uc_SendMessage msg : K (uc_SendMessage msg).
Proof. unfold uc_SendMessage. keep. Qed.
#[local] Hint Resolve keeps_uc_SendMessage : keeps.
Lemma keeps_need msg n : K (need msg n).
Proof. apply keeps_lift. Qed.
#[local] Hint Resolve keeps_need : keeps.
Lemma keeps_isOurNick nick : K (isOurNick nick).
Proof. apply keeps_gets. Qed.
#[local] Hint Resolve keeps_isOurNick : keeps.
Lemma keeps_getChannel name : K (getChannel name).
Proof. unfold getChannel. keep. Qed.
#[local] Hint Resolve keeps_getChannel : keeps.

Lemma keeps_forEachDownstreamByID id f : (forall dc, K (f dc)) -> K (forEachDownstreamByID id f).
Proof. intros. unfold forEachDownstreamByID. keep. Qed.
#[local] Hint Resolve keeps_forEachDownstreamByID : keeps.
Lemma keeps_forwardMessage msg : K (forwardMessage msg).
Proof. unfold forwardMessage. keep. Qed.
#[local] Hint Resolve keeps_forwardMessage : keeps.
Lemma keeps_forwardMsgByID id msg : K (forwardMsgByID id msg).
Proof. unfold forwardMsgByID. apply keeps_forEachDownstreamByID. intros. keep. Qed.
#[local] Hint Resolve keeps_forwardMsgByID : keeps.

Lemma keeps_SendMessageLabeled label id msg : K (SendMessageLabeled label id msg).
Proof. unfold SendMessageLabeled. keep. Qed.
#[local] Hint Resolve keeps_SendMessageLabeled : keeps.
Lemma keeps_sendNext cmd : K (sendNextPendingCommand cmd).
Proof. unfold sendNextPendingCommand. keep. Qed.
#[local] Hint Resolve keeps_sendNext : keeps.
Lemma keeps_currentPendingCommand cmd : K (currentPendingCommand cmd).
Proof. unfold currentPendingCommand. keep. Qed.
#[local] Hint Resolve keeps_currentPendingCommand : keeps.
Lemma keeps_dequeueCommand cmd : K (dequeueCommand cmd).
Proof. unfold dequeueCommand. keep. Qed.
#[local] Hint Resolve keeps_dequeueCommand : keeps.

Lemma keeps_updateChannelAutoDetach name : K (updateChannelAutoDetach name).
Proof. unfold updateChannelAutoDetach. keep. Qed.
#[local] Hint Resolve keeps_updateChannelAutoDetach : keeps.
Lemma keeps_attach name ch : K (attach name ch).
Proof. unfold attach. keep. Qed.
#[local] Hint Resolve keeps_attach : keeps.
Lemma keeps_net_isHighlight msg : K (net_isHighlight msg).
Proof. unfold net_isHighlight. keep. Qed.
#[local] Hint Resolve keeps_net_isHighlight : keeps.
Lemma keeps_autoSaveSASLPlain u p : K (autoSaveSASLPlain u p).
Proof. unfold autoSaveSASLPlain. keep. Qed.
#[local] Hint Resolve keeps_autoSaveSASLPlain : keeps.
Lemma keeps_handleDetachedMessage name ch msg : K (handleDetachedMessage name ch msg).
Proof. unfold handleDetachedMessage, detachedMessageNeedsRelay. keep. Qed.
#[local] Hint Resolve keeps_handleDetachedMessage : keeps.
Lemma keeps_updateCaps : K updateCaps.
Proof. unfold updateCaps. keep. Qed.
#[local] Hint Resolve keeps_updateCaps : keeps.
Lemma keeps_handleCapAck name ok : K (handleCapAck name ok).
Proof. unfold handleCapAck. keep. Qed.
#[local] Hint Resolve keeps_handleCapAck : keeps.
Lemma keeps_cacheUserInfo nick info : K (cacheUserInfo nick info).
Proof. unfold cacheUserInfo. keep. Qed.
#[local] Hint Resolve keeps_cacheUserInfo : keeps.
Lemma keeps_forget_user nick : K (forget_user nick).
Proof. unfold forget_user. keep. Qed.
#[local] Hint Resolve keeps_forget_user : keeps.
Lemma keeps_appendLog entity msg : K (appendLog entity msg).
Proof. unfold appendLog. keep. Qed.
#[local] Hint Resolve keeps_appendLog : keeps.
Lemma keeps_produce b target msg id : K (produce b target msg id).
Proof. unfold produce. keep. Qed.
#[local] Hint Resolve keeps_produce : keeps.
Lemma keeps_updateMonitor : K updateMonitor.
Proof. unfold updateMonitor. keep. Qed.
#[local] Hint Resolve keeps_updateMonitor : keeps.

(** *** Cases of the switch that leave the membership alone *)

Lemma keeps_channel_message b msg t self : K (channel_message b msg t self).
Proof. unfold channel_message. keep. Qed.
#[local] Hint Resolve keeps_channel_message : keeps.
Lemma keeps_on_text msg p id : K (on_text msg p id).
Proof. unfold on_text. keep. Qed.
Lemma keeps_on_cap msg : K (on_cap msg).
Proof. unfold on_cap, on_cap_ls, on_cap_ack, update_downstream_caps. keep. Qed.
Lemma keeps_on_authenticate msg : K (on_authenticate msg).
Proof. unfold on_authenticate, abort_sasl. keep. Qed.
Lemma keeps_on_loggedin msg : K (on_loggedin msg).
Proof. unfold on_loggedin. keep. Qed.
Lemma keeps_on_loggedout msg : K (on_loggedout msg).
Proof. unfold on_loggedout. keep. Qed.
Lemma keeps_on_visiblehost msg : K (on_visiblehost msg).
Proof. unfold on_visiblehost. keep. Qed.
Lemma keeps_on_sasl_result msg : K (on_sasl_result msg).
Proof. unfold on_sasl_result. keep. Qed.
Lemma keeps_on_register msg : K (on_register msg).
Proof. unfold on_register. keep. Qed.
Lemma keeps_on_myinfo msg : K (on_myinfo msg).
Proof. unfold on_myinfo. keep. Qed.
Lemma keeps_on_batch msg l dl id b : K (on_batch msg l dl id b).
Proof.
  unfold on_batch, on_batch_start, on_batch_end. keep; apply keeps_forEachDownstreamByID; intros; keep.
Qed.
Lemma keeps_on_setname msg p : K (on_setname msg p).
Proof. unfold on_setname. keep. Qed.
Lemma keeps_on_chghost msg p : K (on_chghost msg p).
Proof. unfold on_chghost. keep. Qed.
Lemma keeps_on_away msg p : K (on_away msg p).
Proof. unfold on_away. keep. Qed.
Lemma keeps_on_account msg p : K (on_account msg p).
Proof. unfold on_account. keep. Qed.
Lemma keeps_forward_attached b name msg : K (forward_attached b name msg).
Proof. unfold forward_attached. keep. Qed.
#[local] Hint Resolve keeps_forward_attached : keeps.
Lemma keeps_with_joined name id msg f : (forall ch, K (f ch)) -> K (with_joined name id msg f).
Proof. intros. unfold with_joined. keep. Qed.
Lemma keeps_on_rpl_topic msg id : K (on_rpl_topic msg id).
Proof. unfold on_rpl_topic. keep. apply keeps_with_joined. intros. keep. Qed.
Lemma keeps_on_topic msg p : K (on_topic msg p).
Proof. unfold on_topic. keep. Qed.

Lemma change_member_dom available st plus member mem :
  dom (cmm_m (cm_members (change_member available st plus member mem))) = dom (cmm_m (cm_members st)) /\
  (cmap_ok (Some cm) (cm_members st) -> cmap_ok (Some cm) (cm_members (change_member available st plus member mem))).
Proof.
  unfold change_member. destruct (Get (cm_members st) member) as [l|] eqn:E; [|done]. cbn [cm_members]. split.
  - rewrite (dom_Set (cmm_casemap (cm_members st))) by done.
    assert (cmm_casemap (cm_members st) member ∈ dom (cmm_m (cm_members st))); [|set_solver].
    apply elem_of_dom. unfold Get in E. by destruct (_ !! _).
  - by apply cmap_ok_set.
Qed.

Lemma change_mode_members st mt plus mode args : cm_members (fst (change_mode st mt plus mode args)) = cm_members st.
Proof. unfold change_mode. by destruct mt, plus. Qed.

Lemma acm_loop_dom available modes modeStr str sign args st : cmap_ok (Some cm) (cm_members st) ->
  let st' := fst (acm_loop available modes modeStr str sign args st) in
  dom (cmm_m (cm_members st')) = dom (cmm_m (cm_members st)) /\ cmap_ok (Some cm) (cm_members st').
Proof.
  revert sign args st; induction str as [|mode str IH]; intros sign args st Hst; cbn [acm_loop fst]; [done|].
  destruct (is_sign mode); [by apply IH|]. destruct sign as [sg|]; [|done].
  destruct (find_membership available mode) as [mem|].
  - destruct args as [|member args]; [done|].
    destruct (change_member_dom available st (byte_eqb sg "+") member mem) as [E1 E2]. rewrite <- E1. auto.
  - destruct (modes !! mode) as [mt|]; [|by apply IH].
    pose proof (change_mode_members st mt (byte_eqb sg "+") mode args) as Em.
    destruct (change_mode st mt _ mode args) as [st' args']. cbn in Em. rewrite <- Em in Hst |- *. by apply IH.
Qed.

Lemma keeps_apply_modes name modeStr args : K (apply_modes name modeStr args).
Proof.
  intros s Ht. unfold apply_modes. rewrite bind_gets.
  destruct (Get (uc_channels (su_uc s)) name) as [ch|] eqn:E; [|done].
  assert (Hm : cmap_ok (Some cm) (uch_Members ch)) by (eapply members_ok_get; [apply Ht|exact E]).
  pose proof (acm_loop_dom (uc_availableMemberships (su_uc s)) (uc_availableChannelModes (su_uc s)) modeStr modeStr None args
                (ChanModes (uch_modes ch) (uch_Members ch)) Hm) as [Hd Hc].
  unfold applyChannelModes. destruct (acm_loop _ _ _ _ _ _ _) as [st err]. cbn in Hd, Hc.
  unfold modify_uc. rewrite bind_modify.
  set (f := fun uch => set_uch_Members (cm_members st) (set_uch_modes (cm_modes st) uch)).
  assert (tracks cm avail v (on_uc (update_uch name f) s)); [|by destruct err].
  replace (on_uc (update_uch name f) s) with (on_uc (fun uc => set_uc_channels (Set_ (uc_channels uc) name (f ch)) uc) s)
    by (unfold on_uc, update_uch; by rewrite E).
  replace v with (with_chans v <[cm name := members_of (f ch)]>); [by apply tracks_Set|].
  pose proof (tracks_Get _ _ _ _ name Ht) as Hg. rewrite E in Hg. cbn in Hg.
  unfold with_chans. destruct v as [n c]. f_equal. apply insert_id. cbn in *. rewrite Hg. f_equal.
  unfold members_of, f. cbn. congruence.
Qed.
#[local] Hint Resolve keeps_apply_modes : keeps.

Lemma keeps_apply_user_modes modeStr : K (apply_user_modes modeStr).
Proof. unfold apply_user_modes. keep. Qed.
#[local] Hint Resolve keeps_apply_user_modes : keeps.
Lemma keeps_on_mode msg : K (on_mode msg).
Proof. unfold on_mode. keep. Qed.
Lemma keeps_on_umodeis msg : K (on_umodeis msg).
Proof. unfold on_umodeis. keep. Qed.
Lemma keeps_on_channelmodeis msg id : K (on_channelmodeis msg id).
Proof. unfold on_channelmodeis. keep. apply keeps_with_joined. intros. keep. Qed.
Lemma keeps_on_creationtime msg id : K (on_creationtime msg id).
Proof. unfold on_creationtime. keep. apply keeps_with_joined. intros. keep. Qed.
Lemma keeps_on_topicwhotime msg id : K (on_topicwhotime msg id).
Proof. unfold on_topicwhotime. keep. apply keeps_with_joined. intros. keep. Qed.
Lemma keeps_on_endofnames msg id : K (on_endofnames msg id).
Proof. unfold on_endofnames. keep. apply keeps_with_joined. intros. keep. Qed.
Lemma keeps_cache_known_user nick info : K (cache_known_user nick info).
Proof. unfold cache_known_user. keep. Qed.
#[local] Hint Resolve keeps_cache_known_user : keeps.
Lemma keeps_pending_reply b name m f :
  K m -> (forall dc cmd, K (f dc cmd)) -> K (with_pending_reply b name m f).
Proof. intros. unfold with_pending_reply. keep. Qed.
Ltac keep_reply := apply keeps_pending_reply; [solve [eauto with keeps]|intros; keep].
Lemma keeps_on_whoreply msg : K (on_whoreply msg).
Proof. unfold on_whoreply. keep. keep_reply. Qed.
Lemma keeps_on_whospcrpl msg : K (on_whospcrpl msg).
Proof. unfold on_whospcrpl. keep_reply. Qed.
Lemma keeps_replies msg : K (on_list msg) /\ K (on_listend msg) /\ K (on_endofwho msg) /\ K (on_whois msg) /\ K (on_endofwhois msg).
Proof. split_and!; keep_reply. Qed.
Lemma keeps_on_nosuchnick msg id : K (on_nosuchnick msg id).
Proof. unfold on_nosuchnick. keep. Qed.
Lemma keeps_on_command_error msg id : K (on_command_error msg id).
Proof. unfold on_command_error. keep. Qed.
Lemma keeps_on_fail msg id : K (on_fail msg id).
Proof. unfold on_fail. keep. Qed.
Lemma keeps_on_invite msg p : K (on_invite msg p).
Proof. unfold on_invite, invite_others. keep. Qed.
Lemma keeps_on_inviting msg id : K (on_inviting msg id).
Proof. unfold on_inviting. keep. Qed.
Lemma keeps_on_monitor msg : K (on_monitor msg).
Proof. unfold on_monitor. keep. Qed.
Lemma keeps_on_monlistfull msg : K (on_monlistfull msg).
Proof. unfold on_monlistfull. keep. Qed.
Lemma keeps_on_registration_error msg id : K (on_registration_error msg id).
Proof. unfold on_registration_error. keep. Qed.
#[local] Hint Resolve keeps_on_registration_error : keeps.
Lemma keeps_on_burst msg id : K (on_burst msg id).
Proof. unfold on_burst. keep. Qed.

(** A registered connection does not change its nick on ERR_NICKNAMEINUSE. *)
Lemma keeps_on_nicknameinuse msg id : K (on_nicknameinuse msg id).
Proof.
  intros s Ht. unfold on_nicknameinuse. rewrite bind_gets. rewrite (t_registered cm avail v s Ht). cbn [negb andb].
  match goal with |- tracks _ _ _ (fst (?m s)) => assert (HK : K m) by keep end. exact (HK s Ht).
Qed.

(** *** Calls that succeed *)

Lemma total_forEachDownstream (f : downstreamConn -> H unit) : (forall dc, total (f dc)) -> total (forEachDownstream f).
Proof. intros Hf s. unfold forEachDownstream. rewrite bind_gets. by apply total_for_each. Qed.
Lemma total_appendLog entity msg : total (appendLog (St := St) entity msg).
Proof. intros s. unfold appendLog. rewrite !bind_gets. by repeat case_match. Qed.
Lemma total_produce b target msg id : total (produce (St := St) b target msg id).
Proof.
  unfold produce. apply total_bind; [by destruct (nonempty target); [apply total_appendLog|]|].
  intros msgID. apply total_bind; [done|]. intros net. apply total_bind; [done|]. intros uc.
  apply total_forEachDownstream. intros dc. by destruct (produce_call _ _ _ _ _ _ _ _ _).
Qed.
Lemma total_forwardMessage msg : total (forwardMessage (St := St) msg).
Proof. by apply total_forEachDownstream. Qed.
Lemma total_updateChannelAutoDetach name : total (updateChannelAutoDetach (St := St) name).
Proof. intros s. unfold updateChannelAutoDetach, get_uc, get_net. rewrite bind_gets. case_match; [|done]. rewrite bind_gets. by repeat case_match. Qed.
Lemma total_forget_user nick : total (forget_user (St := St) nick).
Proof. intros s. unfold forget_user. rewrite bind_gets. by destruct (negb _). Qed.
Lemma total_cacheUserInfo nick info : nick <> "" -> total (cacheUserInfo (St := St) nick info).
Proof. intros Hn s. unfold cacheUserInfo. by rewrite bool_decide_false. Qed.
#[local] Hint Resolve total_ret total_gets total_modify total_produce total_appendLog total_forwardMessage
  total_updateChannelAutoDetach total_forget_user total_cacheUserInfo : total.

End Keeps.

#[export] Hint Resolve keeps_uc_SendMessage keeps_need keeps_isOurNick keeps_getChannel keeps_forwardMessage
  keeps_forwardMsgByID keeps_updateChannelAutoDetach keeps_cacheUserInfo keeps_forget_user keeps_appendLog
  keeps_produce keeps_updateMonitor keeps_on_text keeps_on_cap keeps_on_authenticate keeps_on_loggedin
  keeps_on_loggedout keeps_on_visiblehost keeps_on_sasl_result keeps_on_register keeps_on_myinfo keeps_on_batch
  keeps_on_setname keeps_on_chghost keeps_on_away keeps_on_account keeps_on_rpl_topic keeps_on_topic keeps_on_mode
  keeps_on_umodeis keeps_on_channelmodeis keeps_on_creationtime keeps_on_topicwhotime keeps_on_endofnames
  keeps_on_whoreply keeps_on_whospcrpl keeps_on_nosuchnick keeps_on_command_error keeps_on_fail keeps_on_invite
  keeps_on_inviting keeps_on_monitor keeps_on_monlistfull keeps_on_registration_error keeps_on_burst
  keeps_on_nicknameinuse : keeps.

Create HintDb total discriminated.
#[export] Hint Resolve total_ret total_gets total_modify total_produce total_appendLog total_forwardMessage
  total_updateChannelAutoDetach total_forget_user total_cacheUserInfo : total.

(** Run a call that succeeds and keeps the tracked view. *)
Ltac keep_call :=
  match goal with
  | Ht : tracks ?cm ?avail ?v ?s |- context [(?m ≫= ?k) ?s] =>
      let s' := fresh "s" in let a := fresh "a" in let Ht' := fresh "Ht" in
      destruct (bind_step (tracks cm avail v) m k s) as (s' & a & Ht' & ->);
      [solve [eauto with total]|solve [eauto with keeps]|exact Ht|]; clear Ht; clear s; rename s' into s; rename Ht' into Ht
  end.

(** ** What changes the membership *)
Section Moves.
Context {St : Type} {HSt : Store St} {MO : MapOrder} {UN : Unicode} {EV : Env}.
Context (cm : CaseMapping) (avail : list Membership).
Notation H := (handler (ust St) uerror).
Implicit Types (s : ust St) (v : view).
Notation T := (tracks cm avail).

Lemma need_bind {A} msg n (k : list string -> H A) s :
  (need msg n ≫= k) s = if (length (Params msg) <? n)%nat then (s, Err (ErrParams (Command msg))) else k (take n (Params msg)) s.
Proof. unfold need, parseMessageParams, lift, mbind, handler_bind. by destruct (_ <? _)%nat. Qed.

Lemma move_welcome msg p v s : T v s ->
  T (match Params msg with nick :: _ => View (cm nick) (v_chans v) | _ => v end) (fst (on_welcome msg p s)).
Proof.
  intros [H1 H2 H3 H4 H5 H6]. unfold on_welcome. rewrite need_bind.
  destruct (Params msg) as [|nick l]; [done|]. constructor; cbn; try done. subst v. done.
Qed.

Lemma move_join_channel p ch v s : T v s ->
  (exists s', join_channel p ch s = (s', Ok tt) /\
     T (if bool_decide (v_nick v = cm (Name p)) then with_chans v <[cm ch := ∅]>
        else with_chans v (alter (union {[cm (Name p)]}) (cm ch))) s' /\
     (v_nick v = cm (Name p) \/ is_Some (v_chans v !! cm ch))) \/
  (exists s' e, join_channel p ch s = (s', Err e) /\ T v s' /\ v_nick v <> cm (Name p) /\ v_chans v !! cm ch = None).
Proof.
  intros Ht. unfold join_channel, isOurNick. rewrite bind_gets, (tracks_own cm avail v s (Name p) Ht).
  case_bool_decide as Hme.
  - left. unfold get_net. rewrite bind_gets. unfold modify_uc at 1. rewrite bind_modify.
    rewrite (t_casemap cm avail v s Ht).
    match goal with |- context [on_uc ?f0 s] => set (f := f0) end. assert (Ht1 : T (with_chans v <[cm ch := ∅]>) (on_uc f s)).
    { set (g := fun uc => set_uc_channels (Set_ (uc_channels uc) ch (new_uch ch cm)) uc).
      replace (on_uc f s) with (on_uc g (on_uc (orphan_timer ch) s)) by done.
      replace (∅ : gset string) with (members_of (new_uch ch cm)) by (unfold members_of; cbn; apply dom_empty_L).
      apply tracks_Set; [|apply cmap_ok_new]. apply tracks_frame; [|done]. intros uc. unfold orphan_timer. by repeat case_match. }
    destruct (bind_step (T (with_chans v <[cm ch := ∅]>)) (updateChannelAutoDetach ch)
                (fun _ => uc_SendMessage (mk_msg "MODE" [ch])) (on_uc f s)) as (s1 & a & Ht2 & ->);
      [eauto with total|eauto with keeps|done|].
    eexists. split; [reflexivity|]. split; [|by left]. apply (keeps_uc_SendMessage cm avail _ (mk_msg "MODE" [ch]) s1 Ht2).
  - unfold getChannel, get_uc. pose proof (tracks_Get cm avail v s ch Ht) as Hg.
    destruct (Get (uc_channels (su_uc s)) ch) as [uch|] eqn:E; cbn in Hg.
    + left. erewrite bind_ok; [|rewrite bind_gets; by rewrite E]. eexists. split; [reflexivity|].
      split; [|right; by rewrite Hg]. apply tracks_update_uch; [apply acts_as_set|done].
    + right. exists s, (ErrUnknownChannel ch). split_and!; try done.
      unfold mbind, handler_bind at 1. cbn. by rewrite E.
Qed.

Lemma alter_insert {A} (g : A -> A) (k : string) (m : gmap string A) x : m !! k = Some x -> alter g k m = <[k := g x]> m.
Proof.
  intros Hk. apply map_eq. intros j. rewrite lookup_alter, lookup_insert. case_decide; [|done]. subst. by rewrite Hk.
Qed.

Lemma move_joins p msg l v s : T v s ->
  T (track_join cm (Name p) l v)
    (fst (for_each l (fun ch => join_channel p ch;; produce false ch (with_channel msg ch) 0) s)).
Proof.
  revert v s; induction l as [|ch l IH]; intros v s Ht; cbn [for_each track_join]; [done|].
  unfold mbind at 1, handler_bind at 1.
  destruct (move_join_channel p ch v s Ht) as [(s1 & E & Ht1 & Hk)|(s1 & e & E & Ht1 & Hn & Hk)].
  - unfold mbind at 1, handler_bind at 1. rewrite E.
    assert (Hp : forall v', T v' s1 -> exists s2, produce false ch (with_channel msg ch) 0 s1 = (s2, Ok tt) /\ T v' s2).
    { intros v' Hv. pose proof (total_produce false ch (with_channel msg ch) 0 s1) as Hto.
      pose proof (keeps_produce cm avail v' false ch (with_channel msg ch) 0 s1 Hv) as Hke.
      destruct (produce _ _ _ _ s1) as [s2 [[]|e|]]; [eauto|done|done]. }
    destruct (Hp _ Ht1) as (s2 & -> & Ht2). case_bool_decide as Hme; [by apply IH|].
    destruct Hk as [?|[ms Hms]]; [done|]. rewrite Hms. apply IH. unfold with_chans in *.
    by rewrite (alter_insert _ _ _ ms Hms) in Ht2.
  - unfold mbind at 1, handler_bind at 1. rewrite E. cbn [fst]. rewrite bool_decide_false by done. by rewrite Hk.
Qed.

Lemma move_join msg p v s : Name p <> "" -> T v s ->
  T (match Params msg with chs :: _ => track_join cm (Name p) (Split chs ",") v | _ => v end) (fst (on_join msg p s)).
Proof.
  intros Hp Ht. unfold on_join. rewrite need_bind. destruct (Params msg) as [|chs l]; [done|]. cbn [length Nat.ltb Nat.leb].
  rewrite bind_gets. keep_call. by apply move_joins.
Qed.

(** *** Leaving *)

Lemma move_forget_channel ch v s : T v s ->
  exists s', forget_channel ch s = (s', Ok tt) /\ T (with_chans v (delete (cm ch))) s'.
Proof.
  intros Ht. unfold forget_channel, get_uc. rewrite bind_gets. pose proof (tracks_Get cm avail v s ch Ht) as Hg.
  destruct (Get (uc_channels (su_uc s)) ch) as [uch|] eqn:E; cbn in Hg.
  - unfold modify_uc. rewrite bind_modify. pose proof (tracks_Del cm avail v s ch Ht) as Ht1.
    assert (Hto : total (for_each (originalKey <$> iter (uch_Members uch)) (forget_user (St := St)))).
    { apply total_for_each. eauto with total. }
    assert (Hke : keeps (E := uerror) (T (St := St) (with_chans v (delete (cm ch))))
                    (for_each (originalKey <$> iter (uch_Members uch)) forget_user)) by keep.
    match goal with |- context [for_each ?l ?f ?s1] => specialize (Hto s1); specialize (Hke s1 Ht1);
      destruct (for_each l f s1) as [s2 [[]|e|]] end; [eauto|done|done].
  - exists s. split; [done|]. replace (with_chans v (delete (cm ch))) with v; [done|].
    unfold with_chans. destruct v as [n c]. cbn in *. by rewrite delete_id.
Qed.

Lemma move_remove_member ch nick v s : T v s ->
  match v_chans v !! cm ch with
  | Some ms => exists s', remove_member ch nick s = (s', Ok tt) /\ T (with_chans v <[cm ch := ms ∖ {[cm nick]}]>) s'
  | None => exists s' e, remove_member ch nick s = (s', Err e) /\ T v s'
  end.
Proof.
  intros Ht. unfold remove_member, getChannel, get_uc. pose proof (tracks_Get cm avail v s ch Ht) as Hg. rewrite Hg.
  destruct (Get (uc_channels (su_uc s)) ch) as [uch|] eqn:E; cbn in Hg |- *.
  - erewrite bind_ok; [|rewrite bind_gets; by rewrite E]. unfold modify_uc. rewrite bind_modify.
    pose proof (tracks_update_uch cm avail v s ch _ _ (acts_as_del cm nick) Ht) as Ht1.
    unfold with_chans in Ht1. rewrite (alter_insert _ _ _ (members_of uch)) in Ht1 by done.
    match type of Ht1 with tracks _ _ ?v1 ?s1 =>
      pose proof (total_forget_user nick s1) as Hto; pose proof (keeps_forget_user cm avail v1 nick s1 Ht1) as Hke;
      destruct (forget_user nick s1) as [s2 [[]|e|]] end; [eauto|done|done].
  - exists s, (ErrUnknownChannel ch). split; [|done]. unfold mbind, handler_bind at 1. cbn. by rewrite E.
Qed.

(** A handler that makes [nick] leave [ch]. *)
Definition leaves (m : H unit) (nick ch : string) : Prop := forall v s, T v s ->
  match track_leave cm nick ch v with
  | Some v' => exists s', m s = (s', Ok tt) /\ T v' s'
  | None => exists s' e, m s = (s', Err e) /\ T v s'
  end.

Lemma leaves_if (own : ust St -> bool) (m1 m2 : H unit) nick ch :
  (forall v s, T v s -> own s = bool_decide (v_nick v = cm nick)) ->
  (forall v s, T v s -> exists s', m1 s = (s', Ok tt) /\ T (with_chans v (delete (cm ch))) s') ->
  (forall v s, T v s -> match v_chans v !! cm ch with
     | Some ms => exists s', m2 s = (s', Ok tt) /\ T (with_chans v <[cm ch := ms ∖ {[cm nick]}]>) s'
     | None => exists s' e, m2 s = (s', Err e) /\ T v s' end) ->
  leaves (fun s => (if own s then m1 else m2) s) nick ch.
Proof.
  intros Ho H1 H2 v s Ht. unfold track_leave. rewrite (Ho v s Ht). case_bool_decide; [by apply H1|].
  specialize (H2 v s Ht). by destruct (v_chans v !! cm ch).
Qed.

Lemma leaves_part p ch :
  leaves (me ← isOurNick (Name p); if me : bool then forget_channel ch else remove_member ch (Name p)) (Name p) ch.
Proof.
  apply (leaves_if (fun s => is_our_nick (su_net s) (su_uc s) (Name p)) (forget_channel ch) (remove_member ch (Name p))).
  - intros v s. apply tracks_own.
  - intros v s. apply move_forget_channel.
  - intros v s. apply move_remove_member.
Qed.

Lemma leaves_kick channel user :
  leaves (me ← isOurNick user;
          if me : bool then modify_uc (orphan_timer channel);; forget_channel channel else remove_member channel user)
    user channel.
Proof.
  apply (leaves_if (fun s => is_our_nick (su_net s) (su_uc s) user) (modify_uc (orphan_timer channel);; forget_channel channel)
           (remove_member channel user)).
  - intros v s. apply tracks_own.
  - intros v s Ht. unfold modify_uc. rewrite bind_modify. apply move_forget_channel. apply tracks_frame; [|done].
    intros uc. unfold orphan_timer. by repeat case_match.
  - intros v s. apply move_remove_member.
Qed.

(** The message is passed on after a successful change. *)
Lemma leaves_produce m nick ch b target msg id : leaves m nick ch ->
  leaves (m;; produce b target msg id) nick ch.
Proof.
  intros Hm v s Ht. specialize (Hm v s Ht). destruct (track_leave cm nick ch v) as [v'|].
  - destruct Hm as (s1 & E & Ht1). rewrite (bind_ok _ _ _ _ _ E).
    pose proof (total_produce b target msg id s1) as Hto. pose proof (keeps_produce cm avail v' b target msg id s1 Ht1) as Hke.
    destruct (produce b target msg id s1) as [s2 [[]|e|]]; [eauto|done|done].
  - destruct Hm as (s1 & e & E & Ht1). exists s1, e. split; [|done]. unfold mbind, handler_bind. by rewrite E.
Qed.

Lemma move_part msg p v s : T v s ->
  T (match Params msg with chs :: _ => track_part cm (Name p) (Split chs ",") v | _ => v end) (fst (on_part msg p s)).
Proof.
  intros Ht. unfold on_part. rewrite need_bind. destruct (Params msg) as [|chs l]; [done|]. cbn [length Nat.ltb Nat.leb].
  change (arg (take 1 (chs :: l)) 0) with chs. generalize (Split chs ","). intros chans.
  revert v s Ht; induction chans as [|ch chans IH]; intros v s Ht; cbn [for_each track_part]; [done|].
  pose proof (leaves_produce _ _ _ false ch (with_channel msg ch) 0 (leaves_part p ch) v s Ht) as Hl.
  assert (Hassoc : forall s, (me ← isOurNick (Name p);
      (if me : bool then forget_channel ch else remove_member ch (Name p));; produce false ch (with_channel msg ch) 0) s
    = ((me ← isOurNick (Name p); if me : bool then forget_channel ch else remove_member ch (Name p));;
        produce false ch (with_channel msg ch) 0) s) by done.
  destruct (track_leave cm (Name p) ch v) as [v'|].
  - destruct Hl as (s1 & E & Ht1). rewrite <- Hassoc in E. rewrite (bind_ok _ _ _ _ _ E). by apply IH.
  - destruct Hl as (s1 & e & E & Ht1). rewrite <- Hassoc in E. unfold mbind at 1, handler_bind at 1. by rewrite E.
Qed.

Lemma move_kick msg v s : T v s ->
  T (match Params msg with ch :: user :: _ => default v (track_leave cm user ch v) | _ => v end) (fst (on_kick msg s)).
Proof.
  intros Ht. unfold on_kick. rewrite need_bind. destruct (Params msg) as [|ch [|user l]]; [done|done|].
  cbn [length Nat.ltb Nat.leb].
  change (arg (take 2 (ch :: user :: l)) 0) with ch. change (arg (take 2 (ch :: user :: l)) 1) with user.
  pose proof (leaves_produce _ _ _ false ch msg 0 (leaves_kick ch user) v s Ht) as Hl.
  match goal with |- T _ (fst ?x) => match type of Hl with context [?y = (_, _)] => replace x with y by done end end.
  destruct (track_leave cm user ch v) as [v'|]; cbn [default].
  - by destruct Hl as (s1 & -> & Ht1).
  - by destruct Hl as (s1 & e & -> & Ht1).
Qed.

(** *** Changes in every channel of a nick *)

Lemma foldl_alter_lookup {A} (g : A -> A) ks (m : gmap string A) k : NoDup ks ->
  foldl (fun m k => alter g k m) m ks !! k = if bool_decide (k ∈ ks) then g <$> m !! k else m !! k.
Proof.
  revert m; induction ks as [|k' ks IH]; intros m Hnd; [done|].
  apply NoDup_cons in Hnd as [Hk Hnd]. cbn. rewrite IH by done. destruct (decide (k = k')) as [->|Hne].
  - rewrite bool_decide_false by done. by rewrite lookup_alter_eq, bool_decide_true by set_solver.
  - rewrite lookup_alter_ne by done. by rewrite (bool_decide_ext (k ∈ ks) (k ∈ k' :: ks)) by set_solver.
Qed.

Lemma foldl_alter_all {A} (g : A -> A) ks (m : gmap string A) : NoDup ks -> (forall k, k ∈ ks <-> is_Some (m !! k)) ->
  foldl (fun m k => alter g k m) m ks = g <$> m.
Proof.
  intros Hnd Hks. apply map_eq. intros k. rewrite foldl_alter_lookup by done. rewrite lookup_fmap.
  case_bool_decide as Hk; [done|]. destruct (m !! k) eqn:E; [|done]. destruct Hk. apply Hks. by rewrite E.
Qed.

Lemma iter_keys (m : CaseMappingMap upstreamChannel) : cmap_ok (Some cm) m ->
  ((fun e => cm (originalKey e)) <$> iter m) ≡ₚ (map_to_list (cmm_m m)).*1.
Proof.
  intros [Hw Hc]. unfold iter. rewrite map_order_perm, <- list_fmap_compose.
  apply Permutation_refl'. apply list_fmap_ext. intros i [k e] Hi. cbn.
  apply list_elem_of_lookup_2, elem_of_map_to_list in Hi. rewrite <- Hc. symmetry. by apply Hw.
Qed.

(** [f] acts as [g] on the members and [g] leaves channels without the nick
    alone. *)
Lemma move_channels_with nick f g msg v s :
  acts_as cm g f -> (forall ms, cm nick ∉ ms -> g ms = ms) -> T v s ->
  exists s', for_channels_with nick f msg s = (s', Ok tt) /\ T (with_chans v (fmap g)) s'.
Proof.
  intros Hf Hg Ht. unfold for_channels_with, get_uc. rewrite bind_gets.
  pose proof (iter_keys _ (t_channels cm avail v s Ht)) as Hperm.
  pose proof (tracks_chans cm avail v s Ht) as Hv. set (l := iter (uc_channels (su_uc s))) in *.
  set (step := fun e : caseMappingEntry upstreamChannel => _).
  assert (Hsub : Forall (fun e => v_chans v !! cm (originalKey e) = Some (members_of (value e))
                                  /\ cmm_casemap (uch_Members (value e)) = cm) l).
  { apply Forall_forall. intros e [k Hk]%elem_of_iter. destruct (t_channels cm avail v s Ht) as [Hw Hc].
    assert (Hek : cm (originalKey e) = k) by (rewrite <- Hc; symmetry; by apply Hw).
    rewrite <- Hv. unfold chans_of. rewrite lookup_fmap, Hek, Hk. split; [done|].
    by destruct (t_members cm avail v s Ht k e Hk). }
  assert (Hnd : NoDup ((fun e => cm (originalKey e)) <$> l)) by (rewrite Hperm; apply NoDup_fst_map_to_list).
  assert (Hall : forall k, k ∈ ((fun e => cm (originalKey e)) <$> l) <-> is_Some (v_chans v !! k)).
  { intros k. rewrite Hperm, <- Hv. unfold chans_of. rewrite lookup_fmap, fmap_is_Some, list_elem_of_fmap. split.
    - intros ([k' e] & -> & Hin). apply elem_of_map_to_list in Hin. by eexists.
    - intros [e He]. exists (k, e). split; [done|]. by apply elem_of_map_to_list. }
  assert (Hgoal : exists s', for_each l step s = (s', Ok tt)
                  /\ T (with_chans v (fun m => foldl (fun m k => alter g k m) m ((fun e => cm (originalKey e)) <$> l))) s').
  2: { unfold with_chans in *. by rewrite foldl_alter_all in Hgoal. }
  clear Hperm Hall Hv. clearbody l. revert v s Ht Hsub Hnd.
  induction l as [|e l IH]; intros v s Ht Hsub Hnd.
  { exists s. split; [done|]. by destruct v. }
  apply Forall_cons in Hsub as [[He Hcm] Hsub]. rewrite fmap_cons in Hnd. apply NoDup_cons in Hnd as [Hk Hnd].
  set (v1 := with_chans v (alter g (cm (originalKey e)))).
  assert (Hstep : exists s1, step e s = (s1, Ok tt) /\ T v1 s1).
  { unfold step. rewrite (Has_dom cm) by done. case_bool_decide as Hin; cbn [when].
    - unfold modify_uc. rewrite bind_modify. pose proof (tracks_update_uch cm avail v s (originalKey e) f g Hf Ht) as Ht1.
      fold v1 in Ht1. match type of Ht1 with tracks _ _ _ ?s1 =>
        pose proof (total_appendLog (uch_Name (value e)) msg s1) as Hto;
        pose proof (keeps_appendLog cm avail v1 (uch_Name (value e)) msg s1 Ht1) as Hke end.
      unfold mbind, handler_bind. destruct (appendLog _ _ _) as [s2 [id|er|]]; [eauto|done|done].
    - exists s. split; [done|]. unfold v1, with_chans. rewrite (alter_insert _ _ _ _ He), Hg by done.
      rewrite insert_id by done. by destruct v. }
  destruct Hstep as (s1 & E & Ht1). cbn [for_each]. rewrite (bind_ok _ _ _ _ _ E).
  apply (IH v1 s1 Ht1); [|done].
  apply Forall_forall. intros e' Hin. rewrite Forall_forall in Hsub. destruct (Hsub e' Hin) as [H1 H2]. split; [|done].
  unfold v1. cbn. rewrite lookup_alter_ne; [done|]. intros Heq. apply Hk. rewrite Heq.
  by apply (list_elem_of_fmap_2 (fun e => cm (originalKey e))).
Qed.

Lemma move_quit msg p v s : T v s -> T (with_chans v (fmap (fun ms => ms ∖ {[cm (Name p)]}))) (fst (on_quit msg p s)).
Proof.
  intros Ht. unfold on_quit.
  destruct (move_channels_with (Name p) _ _ msg v s (acts_as_del cm (Name p)) ltac:(set_solver) Ht) as (s1 & E & Ht1).
  rewrite (bind_ok _ _ _ _ _ E). match goal with |- T _ (fst (?m s1)) => assert (HK : keeps (T (with_chans v (fmap (fun ms => ms ∖ {[cm (Name p)]})))) m) by keep end.
  exact (HK s1 Ht1).
Qed.

Lemma rename_absent old new ms : old ∉ ms -> rename old new ms = ms.
Proof. intros. unfold rename. by rewrite bool_decide_false. Qed.

Lemma move_our_nick newNick v s : T v s -> exists s', our_nick_changed newNick s = (s', Ok tt) /\ T (View (cm newNick) (v_chans v)) s'.
Proof.
  intros Ht. unfold our_nick_changed. rewrite (bind_ok _ _ s (on_uc (set_uc_nick newNick) s) tt) by done.
  assert (Ht1 : T (View (cm newNick) (v_chans v)) (on_uc (set_uc_nick newNick) s)).
  { destruct Ht as [H1 H2 H3 H4 H5 H6]. constructor; cbn; try done. by subst v. }
  match goal with |- exists s', ?m ?s1 = _ /\ _ => assert (HK : keeps (T (View (cm newNick) (v_chans v))) m) by keep;
    assert (Hto : total m) by (apply total_bind; [done|]; intros; apply total_bind; [by apply total_when|intros; by apply total_when]);
    specialize (HK s1 Ht1); specialize (Hto s1); destruct (m s1) as [s2 [[]|e|]] end; [eauto|done|done].
Qed.

Lemma move_nick msg p v s : Name p <> "" -> T v s ->
  T (match Params msg with nick :: _ => track_nick cm (Name p) nick v | _ => v end) (fst (on_nick msg p s)).
Proof.
  intros Hp Ht. unfold on_nick. rewrite need_bind. destruct (Params msg) as [|new l]; [done|]. cbn [length Nat.ltb Nat.leb].
  change (arg (take 1 (new :: l)) 0) with new. unfold isOurNick. rewrite bind_gets, (tracks_own cm avail v s (Name p) Ht).
  set (me := bool_decide _).
  assert (Hn : exists s1, when me (our_nick_changed new) s = (s1, Ok tt)
                 /\ T (View (if me then cm new else v_nick v) (v_chans v)) s1).
  { destruct me; cbn [when]; [by apply move_our_nick|]. exists s. split; [done|]. by destruct v. }
  destruct Hn as (s1 & E & Ht1). rewrite (bind_ok _ _ _ _ _ E).
  destruct (move_channels_with (Name p) _ _ msg _ s1 (acts_as_rename cm (Name p) new) (rename_absent _ _) Ht1) as (s2 & E2 & Ht2).
  rewrite (bind_ok _ _ _ _ _ E2). change (with_chans _ _) with (track_nick cm (Name p) new v) in Ht2.
  match goal with |- T _ (fst (?m s2)) => assert (HK : keeps (T (track_nick cm (Name p) new v)) m) by keep end.
  exact (HK s2 Ht2).
Qed.

(** *** NAMES *)

Lemma alter_alter {A} (f g : A -> A) k (m : gmap string A) : alter f k (alter g k m) = alter (f ∘ g) k m.
Proof.
  apply map_eq. intros j. rewrite !lookup_alter. repeat case_decide; try done. by destruct (m !! k).
Qed.

Lemma move_names ch l v s : T v s ->
  exists s', for_each l (fun str =>
      uc ← gets su_uc;
      let '(memberships, nick) := parseMembershipPrefix uc str in
      modify_uc (update_uch ch (fun uch => set_uch_Members (Set_ (uch_Members uch) nick memberships) uch))) s = (s', Ok tt)
  /\ T (with_chans v (alter (union (list_to_set ((fun str => cm (snd (membership_loop avail str))) <$> l))) (cm ch))) s'.
Proof.
  revert v s; induction l as [|str l IH]; intros v s Ht.
  - exists s. split; [done|]. replace (with_chans v _) with v; [done|]. unfold with_chans. destruct v as [n c]. f_equal.
    symmetry. apply alter_id. intros ms _. cbn. by rewrite union_empty_l_L.
  - cbn [for_each]. rewrite (bind_ok _ _ s (on_uc (update_uch ch (fun uch => set_uch_Members (Set_ (uch_Members uch)
        (snd (membership_loop avail str)) (fst (membership_loop avail str))) uch)) s) tt).
    2: { rewrite bind_gets. unfold parseMembershipPrefix. rewrite (t_avail cm avail v s Ht). by destruct (membership_loop avail str). }
    destruct (IH _ _ (tracks_update_uch cm avail v s ch _ _ (acts_as_set cm (snd (membership_loop avail str))
                        (fst (membership_loop avail str))) Ht)) as (s1 & E & Ht1).
    exists s1. split; [done|]. unfold with_chans in *. cbn [v_chans v_nick] in Ht1. rewrite alter_alter in Ht1.
    rewrite fmap_cons, list_to_set_cons. erewrite alter_ext; [exact Ht1|]. intros ms _. cbn. set_solver.
Qed.

Lemma move_namreply msg id v s : T v s ->
  T (match Params msg with
     | _ :: status :: ch :: names :: _ =>
         if is_ok (ParseChannelStatus status) then with_chans v (alter (union (names_of cm avail names)) (cm ch)) else v
     | _ => v
     end) (fst (on_namreply msg id s)).
Proof.
  intros Ht. unfold on_namreply. rewrite need_bind.
  destruct (Params msg) as [|me [|status [|ch [|names l]]]]; try done. cbn [length Nat.ltb Nat.leb].
  change (arg (take 4 (me :: status :: ch :: names :: l)) 2) with ch.
  change (arg (take 4 (me :: status :: ch :: names :: l)) 1) with status.
  change (arg (take 4 (me :: status :: ch :: names :: l)) 3) with names.
  unfold with_joined, get_uc. rewrite bind_gets. pose proof (tracks_Get cm avail v s ch Ht) as Hg.
  destruct (Get (uc_channels (su_uc s)) ch) as [uch|]; cbn in Hg.
  - destruct (ParseChannelStatus status) as [c|e|]; [|done|done]. cbn [is_ok].
    rewrite (bind_ok _ _ s s c) by done. rewrite (bind_ok _ _ s (on_uc (update_uch ch (set_uch_Status (Some c))) s) tt) by done.
    assert (Ht1 : T v (on_uc (update_uch ch (set_uch_Status (Some c))) s)) by (by apply tracks_update_same; [apply acts_as_same|]).
    destruct (move_names ch (splitSpace names) v _ Ht1) as (s1 & -> & Ht2). exact Ht2.
  - replace (if is_ok _ then _ else _) with v; [by apply keeps_forwardMsgByID|]. case_match; [|done].
    unfold with_chans. destruct v as [n c]. f_equal. symmetry. apply alter_id. cbn in *. intros ms Hms. by rewrite Hg in Hms.
Qed.

(** *** The switch *)

Lemma switch_run (Q : ust St -> Prop) cmd cases (dflt : H unit) s :
  Forall (fun c => cmd ∈ fst c -> Q (fst (snd c s))) cases ->
  (Forall (fun c => cmd ∉ fst c) cases -> Q (fst (dflt s))) -> Q (fst (switch cmd cases dflt s)).
Proof.
  intros Hc. induction Hc as [|[cmds m] cases Hm _ IH]; intros Hd; cbn; [by apply Hd, Forall_nil|].
  case_bool_decide as Hin; [by apply Hm|]. apply IH. intros Hall. apply Hd. by apply Forall_cons.
Qed.

Lemma untracked cmds cmd : Forall (fun c => c ∉ tracked_commands) cmds -> cmd ∈ cmds -> cmd ∉ tracked_commands.
Proof. rewrite Forall_forall. auto. Qed.

Lemma keeps_track msg p v s (m : H unit) :
  Command msg ∉ tracked_commands -> keeps (T v) m -> T v s -> T (track cm avail msg p v) (fst (m s)).
Proof. intros Hc Hm Ht. rewrite track_other by done. by apply Hm. Qed.

Ltac untracked_case Hin :=
  eapply keeps_track; [eapply untracked; [|exact Hin]; by_eval|solve [keep; eauto with keeps]|eassumption].
Ltac tracked_case Hin :=
  apply list_elem_of_singleton in Hin; unfold track; rewrite Hin;
  rewrite ?(bool_decide_false (_ = _)) by done; rewrite bool_decide_true by done;
  first [by apply move_welcome | by apply move_nick | by apply move_join | by apply move_part | by apply move_kick
        |by apply move_quit | by apply move_namreply].

(** The messages that may change the case mapping or the memberships. *)
Definition remapping_commands : list string := ["005"; "376"; "422"].

Lemma move_dispatch msg p label dl id b v s :
  Name p <> "" -> Command msg ∉ remapping_commands -> T v s ->
  T (track cm avail msg p v) (fst (dispatch msg p label dl id b s)).
Proof.
  intros Hp Hc Ht. unfold dispatch. destruct (keeps_replies (St := St) cm avail v msg) as (R1 & R2 & R3 & R4 & R5).
  apply switch_run.
  - repeat (apply Forall_cons; split; [intros Hin; cbn [fst snd] in *|]); [..|by apply Forall_nil].
    all: try (untracked_case Hin).
    all: try (tracked_case Hin).
    all: unfold remapping_commands in Hc; set_solver.
  - intros Hall. apply keeps_track; [|eauto with keeps|done].
    intros Htr. unfold tracked_commands in Htr. rewrite !elem_of_cons, elem_of_nil in Htr.
    repeat (apply Forall_cons in Hall; destruct Hall as [?Hn Hall]).
    destruct_or! Htr; try done.
    all: match goal with
         | E : Command _ = ?c, Hn : Command _ ∉ fst ([?c], _) |- _ => apply Hn; rewrite E; by apply list_elem_of_singleton
         end.
Qed.

(** *** Whole messages *)

(** A label tag parses and a batch tag names an open batch: other messages
    are dropped. *)
Definition accepted (uc : upstreamConn) (msg : message) : bool :=
  match message_label uc msg with
  | Ok (label, _, _, _) => is_ok (parseLabel label)
  | _ => false
  end.

Lemma fst_defer (P : ust St -> Prop) f m s : keeps P f -> P (fst (m s)) -> P (fst (defer f m s)).
Proof.
  intros Hf Hm. unfold defer. destruct (m s) as [s1 [a|e|]]; [..|done]; specialize (Hf s1 Hm); by destruct (f s1).
Qed.

Lemma move_handleMessage msg p v s :
  MsgPrefix msg = Some p -> Name p <> "" -> Command msg ∉ remapping_commands -> accepted (su_uc s) msg = true ->
  T v s -> T (track cm avail msg p v) (fst (handleMessage msg s)).
Proof.
  intros Hsrc Hp Hc Ha Ht. unfold handleMessage. rewrite bind_gets. unfold accepted in Ha.
  destruct (message_label (su_uc s) msg) as [[[[label bn] bl] mb]|e|]; [|done|done].
  rewrite (bind_ok _ _ s s (label, bn, bl, mb)) by done. unfold handle_labeled.
  destruct (parseLabel label) as [[id dl]|e|]; [|done|done]. rewrite (bind_ok _ _ s s (id, dl)) by done.
  unfold complete_message. rewrite Hsrc.
  change (default (uc_serverPrefix (su_uc s)) (Some p)) with p.
  match goal with |- context [dispatch ?m _ _ _ _ _] => set (msg' := m) end.
  change (track cm avail msg p v) with (track cm avail msg' p v).
  assert (Hd : forall s, T v s -> T (track cm avail msg' p v) (fst (dispatch msg' p label dl id mb s))).
  { intros s1 Ht1. by apply move_dispatch. }
  assert (Hk : forall v c, keeps (E := uerror) (tracks cm avail v (St := St)) (forEachDownstreamByID id (fun dc => down dc c))).
  { intros. apply keeps_forEachDownstreamByID. intros. keep. }
  assert (Hl : forall c, total (E := uerror) (S := ust St) (forEachDownstreamByID id (fun dc => down dc c))).
  { intros c. apply total_forEachDownstream. intros dc. by destruct (_ && _). }
  destruct (Z.eqb id 0); [by apply Hd|].
  destruct bl.
  - destruct (bind_step (T v) (forEachDownstreamByID id (fun dc => down dc (labelContext dl bn)))
                (fun _ => dispatch msg' p label dl id mb) s) as (s1 & a & Ht1 & ->); auto.
  - destruct (bind_step (T v) (forEachDownstreamByID id (fun dc => down dc (labelContext dl "")))
                (fun _ => defer (forEachDownstreamByID id (fun dc => down dc FlushBatch)) (dispatch msg' p label dl id mb)) s)
      as (s1 & a & Ht1 & ->); auto. apply fst_defer; auto.
Qed.

End Moves.

(** ** Runs *)

(** A message that names its source and leaves the case mapping alone. *)
Definition source (msg : message) : prefix := default (Prefix "" "" "") (MsgPrefix msg).

Definition ordinary (msg : message) : bool :=
  nonempty (Name (source msg)) && negb (bool_decide (Command msg ∈ remapping_commands)).

(** The states after the messages of a server, each with its own clock,
    clients and database. *)
Inductive received {St} {HSt : Store St} {MO : MapOrder} {UN : Unicode} : ust St -> list message -> ust St -> Prop :=
| received_nil s : received s [] s
| received_msg EV msg l s s1 s2 r :
    accepted (su_uc s) msg = true -> handleMessage (EV := EV) msg s = (s1, r) -> received s1 l s2 ->
    received s (msg :: l) s2.

Lemma ordinary_source msg : ordinary msg = true ->
  MsgPrefix msg = Some (source msg) /\ Name (source msg) <> "" /\ Command msg ∉ remapping_commands.
Proof.
  unfold ordinary, nonempty. intros H. bool_to_prop. unfold source in *.
  destruct (MsgPrefix msg); [|done]. done.
Qed.

Lemma received_tracks {St} {HSt : Store St} {MO : MapOrder} {UN : Unicode} cm avail v (s s' : ust St) l :
  received s l s' -> tracks cm avail v s -> Forall (fun msg => ordinary msg = true) l ->
  tracks cm avail (foldl (fun v msg => track cm avail msg (source msg) v) v l) s'.
Proof.
  intros Hr. revert v; induction Hr as [s|EV msg l s s1 s2 r Ha Hh _ IH]; intros v Ht Hl; [done|].
  apply Forall_cons in Hl as [Ho Hl]. apply ordinary_source in Ho as (H1 & H2 & H3). cbn [foldl]. apply IH; [|done].
  pose proof (move_handleMessage (EV := EV) cm avail msg (source msg) v s H1 H2 H3 Ha Ht) as Hm. by rewrite Hh in Hm.
Qed.

(** ** Property *)

(** C3: the channels and members an upstream connection keeps are those that the
    messages of the server imply. Starting from a registered connection whose
    maps use the case mapping of its network, let any messages arrive that
    name their source and do not change the case mapping (numerics, MODE,
    TOPIC, PRIVMSG, batches, replies to commands, in any order and
    interleaving, including ones that end in an error). Then the connection is
    again in such a state, its nick is the one that the abstract machine
    computes from the NICK and RPL_WELCOME messages, it is in exactly the
    channels that JOIN, PART and KICK leave it in, and a nick is listed as a
    member of a channel exactly when the JOIN, PART, KICK, QUIT, NICK and
    NAMES messages say so, all up to case mapping. *)
Theorem membership_refines {St} {HSt : Store St} {MO : MapOrder} {UN : Unicode} cm avail (s s' : ust St) l :
  tracks cm avail (view_of cm (su_uc s)) s -> Forall (fun msg => ordinary msg = true) l -> received s l s' ->
  let v := foldl (fun v msg => track cm avail msg (source msg) v) (view_of cm (su_uc s)) l in
  tracks cm avail v s' /\ cm (uc_nick (su_uc s')) = v_nick v /\
  forall ch, match Get (uc_channels (su_uc s')) ch with
             | None => v_chans v !! cm ch = None
             | Some uch => exists ms, v_chans v !! cm ch = Some ms /\
                             forall nick, Has (uch_Members uch) nick = bool_decide (cm nick ∈ ms)
             end.
Proof.
  intros Ht Hl Hr v. pose proof (received_tracks cm avail _ s s' l Hr Ht Hl) as Ht'. fold v in Ht'.
  split; [done|]. split; [by apply (tracks_nick cm avail)|]. intros ch.
  rewrite (tracks_Get cm avail v s' ch Ht').
  destruct (Get (uc_channels (su_uc s')) ch) as [uch|] eqn:E; cbn; [|done].
  exists (members_of uch). split; [done|]. intros nick. apply Has_dom.
  by destruct (members_ok_get _ _ _ _ (t_members cm avail v s' Ht') E).
Qed.

(** ** A concrete run *)
Module MembershipWitness.
Import PendingWitness UpstreamWitness.

Definition messages : list message :=
  [from "me" "JOIN" ["#go"]; from "srv" "353" ["me"; "="; "#go"; "@alice +Bob me"]; from "carol" "JOIN" ["#GO"];
   from "bob" "NICK" ["bobby"]; from "alice" "PRIVMSG" ["#go"; "hi"]; from "alice" "KICK" ["#go"; "carol"];
   from "alice" "QUIT" []].

(** The state after the first messages. *)
Fixpoint after (l : list message) (s : ust unit) : ust unit :=
  match l with
  | [] => s
  | msg :: l' => after l' (fst (handleMessage (EV := env) msg s))
  end.

Lemma received_after l s : (forall uc, Forall (fun msg => accepted uc msg = true) l) -> received s l (after l s).
Proof.
  revert s; induction l as [|msg l IH]; intros s Hl; cbn [after]; [apply received_nil|].
  eapply (received_msg env); [by apply (Forall_inv (Hl _))|apply surjective_pairing|].
  apply IH. intros uc. by apply (Forall_inv_tail (Hl uc)).
Qed.

(** The members of the channel are [bobby] and [me]. *)
Lemma membership_refines_witness :
  exists uch, Get (uc_channels (su_uc (after messages state0))) "#Go" = Some uch /\
    forall nick, Has (uch_Members uch) nick
                 = bool_decide (casemapRFC1459 nick ∈ ({[ "bobby"; "me" ]} : gset string)).
Proof.
  destruct (membership_refines casemapRFC1459 stdMemberships state0 (after messages state0) messages) as (_ & _ & Hq).
  - by constructor.
  - repeat (apply Forall_cons; split; [vm_compute; reflexivity|]). by apply Forall_nil.
  - apply received_after. intros uc. repeat (apply Forall_cons; split; [reflexivity|]). by apply Forall_nil.
  - specialize (Hq "#Go").
    assert (Hs : bool_decide (is_Some (Get (uc_channels (su_uc (after messages state0))) "#Go")) = true) by (vm_compute; reflexivity).
    apply bool_decide_eq_true_1 in Hs as [uch Hu]. exists uch. split; [exact Hu|]. intros nick.
    rewrite Hu in Hq. destruct Hq as (ms & Hms & Hn). rewrite Hn.
    match type of Hms with ?x = _ => assert (Hx : x = Some {[ "bobby"; "me" ]}) by (vm_compute; reflexivity) end.
    rewrite Hx in Hms. by injection Hms as <-.
Defined.

End MembershipWitness.
