(* ===== verification/User.v ===== *)
(** * Users (user.go)

    The methods of a user: its networks as objects of a heap, the list of its
    networks in the order of their IDs, its downstream connections, and the
    operations that create, update and delete networks. *)

From stdpp Require Import base list gmap strings sorting.
From Stdlib Require Import ZArith Ascii.
From S2P Require Import Prelude GoStrings GoText Casemapping Xirc Genmsg Irc Rate Database.
From S2P Require Import Handler Session Network Pending Upstream.

Local Open Scope Z_scope.

(** ** State *)

(** A network object: its identity, its fields and its upstream connection. *)
Record netobj := NetObj {
  no_ref : nat;
  no_net : network;
  no_conn : option upstreamConn
}.

Definition with_net (f : network -> network) (o : netobj) : netobj := NetObj (no_ref o) (f (no_net o)) (no_conn o).
Definition with_conn (c : option upstreamConn) (o : netobj) : netobj := NetObj (no_ref o) (no_net o) c.

(** Effects of a user's methods, in order: calls of downstream connections,
    effects of a network and its connection, and the others. *)
Inductive ueffect :=
| UDown (id : Z) (call : down_call)
| UNet (ref : nat) (e : effect)
| StoreUserDB (u : UserRec)
| StoreNetworkRec (r : NetworkRec)
| DeleteNetworkDB (id : Z)
| RunNetwork (ref : nat)
| RenameNetwork (old new : NetworkRec).

(** [ss_networks] is [u.networks], a list of pointers into the heap. *)
Record session (St : Type) := Session {
  ss_user : UserRec;
  ss_heap : gmap nat netobj;
  ss_networks : list nat;
  ss_downs : list downstreamConn;
  ss_store : option St;
  ss_next : nat;
  ss_eff : list ueffect
}.
Arguments Session {St}.
Arguments ss_user {St}.
Arguments ss_heap {St}.
Arguments ss_networks {St}.
Arguments ss_downs {St}.
Arguments ss_store {St}.
Arguments ss_next {St}.
Arguments ss_eff {St}.

Inductive user_error :=
| ErrMaxNetworks
| ErrURL
| ErrURLUser (scheme : string)
| ErrURLQuery (scheme : string)
| ErrURLFragment (scheme : string)
| ErrURLHost (scheme : string)
| ErrURLPath (scheme : string)
| ErrUnixAdmin
| ErrUnknownScheme (scheme : string)
| ErrNameEmpty
| ErrNameDash
| ErrNameTaken (name : string)
| ErrStoreNetwork
| ErrDeleteNetwork
| ErrStoreUser
| ErrUpstream (e : uerror)
| ErrUpdate (text : string).

(** What a user gets from outside: [db.StoreNetwork] (the ID of the stored
    record), [db.DeleteNetwork], [db.StoreUser], [Config().MaxUserNetworks],
    [url.Parse], [Tags.String] of irc.v4, and whether the message store is a
    [RenameNetworkStore]. *)
Class UserEnv := {
  db_StoreNetwork : NetworkRec -> option Z;
  db_DeleteNetwork : Z -> bool;
  db_StoreUser : UserRec -> bool;
  cfg_MaxUserNetworks : Z;
  url_Parse : string -> option URL;
  tags_String : gmap string string -> string;
  store_renames : bool
}.

Section User.
Context {St : Type} {HSt : Store St} {MO : MapOrder} {UN : Unicode} {EV : Env} {UE : UserEnv}.
Notation U := (handler (session St) user_error).
Implicit Type s : session St.

Definition on_heap (f : gmap nat netobj -> gmap nat netobj) s : session St :=
  Session (ss_user s) (f (ss_heap s)) (ss_networks s) (ss_downs s) (ss_store s) (ss_next s) (ss_eff s).
Definition set_networks (l : list nat) s : session St :=
  Session (ss_user s) (ss_heap s) l (ss_downs s) (ss_store s) (ss_next s) (ss_eff s).
Definition on_downs (f : downstreamConn -> downstreamConn) s : session St :=
  Session (ss_user s) (ss_heap s) (ss_networks s) (f <$> ss_downs s) (ss_store s) (ss_next s) (ss_eff s).
Definition set_user (u : UserRec) s : session St :=
  Session u (ss_heap s) (ss_networks s) (ss_downs s) (ss_store s) (ss_next s) (ss_eff s).
Definition add_eff (l : list ueffect) s : session St :=
  Session (ss_user s) (ss_heap s) (ss_networks s) (ss_downs s) (ss_store s) (ss_next s) (ss_eff s ++ l).
Definition on_obj (ref : nat) (f : netobj -> netobj) : session St -> session St := on_heap (alter f ref).

Definition uemit (e : ueffect) : U unit := modify (add_eff [e]).
Definition udown (dc : downstreamConn) (call : down_call) : U unit := uemit (UDown (dc_id dc) call).

(** [dc.Close()] *)
Definition udown_close (dc : downstreamConn) : U unit :=
  modify (on_downs (fun d => if Z.eqb (dc_id d) (dc_id dc) then set_dc_closed true d else d));;
  udown dc CloseConn.

(** The objects of [u.networks] in order. *)
Definition objs s : list netobj := omap (fun r => ss_heap s !! r) (ss_networks s).

(** ** Handlers of a network run on its object *)

Definition env_of s : Env := {|
  env_user := ss_user s; env_downs := ss_downs s; env_now := env_now; env_rand := env_rand;
  env_srvPrefix := env_srvPrefix; env_messageTarget := env_messageTarget;
  env_DeleteChannel := env_DeleteChannel; env_persistent := env_persistent;
  time_Parse := time_Parse; FormatServerTime := FormatServerTime; ParsePrefix := ParsePrefix;
  prefix_String := prefix_String; sasl_Start := sasl_Start; sasl_Next := sasl_Next |}.

Definition to_ust s (o : netobj) (uc : upstreamConn) (conn : bool) : ust St :=
  Ust uc conn (no_net o) (no_ref o) (ss_store s) [].

Definition of_effect (ref : nat) (e : effect) : ueffect :=
  match e with Down id call => UDown id call | _ => UNet ref e end.

(** The network and the store after a handler ran. *)
Definition from_ust (ref : nat) (conn : option upstreamConn) (t : ust St) s : session St :=
  Session (ss_user s) (<[ref := NetObj ref (su_net t) conn]> (ss_heap s)) (ss_networks s) (ss_downs s)
    (su_store t) (ss_next s) (ss_eff s ++ (of_effect ref <$> su_eff t)).

Definition lift_uerror {A} (r : res uerror A) : res user_error A :=
  match r with Ok a => Ok a | Err e => Err (ErrUpstream e) | Panic => Panic end.

(** Run [m] on the network at [ref] with its connection, if it has one. *)
Definition run_net {A} (ref : nat) (m : Env -> handler (ust St) uerror A) : U A := fun s =>
  match ss_heap s !! ref with
  | None => (s, Panic)
  | Some o =>
      let '(t, r) := m (env_of s) (to_ust s o (default (new_upstreamConn false) (no_conn o))
                                     (bool_decide (is_Some (no_conn o)))) in
      (from_ust ref (match no_conn o with Some _ => Some (su_uc t) | None => None end) t s, lift_uerror r)
  end.

(** Run [m] on the connection [uc], which is no longer that of its network. *)
Definition run_closed {A} (ref : nat) (uc : upstreamConn) (m : Env -> handler (ust St) uerror A) : U A := fun s =>
  match ss_heap s !! ref with
  | None => (s, Panic)
  | Some o =>
      let '(t, r) := m (env_of s) (to_ust s o uc false) in
      (from_ust ref (no_conn o) t s, lift_uerror r)
  end.

(** ** Lookups *)

Definition forEachUpstream (f : nat -> U unit) : U unit :=
  l ← gets objs;
  for_each l (fun o => if no_conn o then f (no_ref o) else mret tt).

Definition getNetwork s (name : string) : option netobj :=
  head (filter (fun o => n_Addr (nw_rec (no_net o)) = name \/
                         (n_Name (nw_rec (no_net o)) <> "" /\ n_Name (nw_rec (no_net o)) = name)) (objs s)).

Definition getNetworkByID s (id : Z) : option netobj :=
  head (filter (fun o => n_ID (nw_rec (no_net o)) = id) (objs s)).

(** ** Notifications *)

Definition sendBouncer (dc : downstreamConn) (netID : string) (attrs : string) : U unit :=
  when (IsEnabled (dc_caps dc) "soju.im/bouncer-networks-notify")
    (udown dc (SendMessage (mk_msg "BOUNCER" ["NETWORK"; netID; attrs]))).

Definition notifyBouncerNetworkState (netID : Z) (attrs : gmap string string) : U unit :=
  s ← gets id;
  if negb (existsb (fun o => Z.eqb (n_ID (nw_rec (no_net o))) netID) (objs s)) then mret tt
  else for_each (ss_downs s) (fun dc => sendBouncer dc (fmt_int netID) (tags_String attrs)).

Definition net_attrs s (o : netobj) : gmap string string :=
  getNetworkAttrs url_Parse (ss_user s) (nw_rec (no_net o)) (bool_decide (is_Some (no_conn o))) (nw_lastError (no_net o)).

(** ** The list of networks *)

Definition net_id s (ref : nat) : Z :=
  match ss_heap s !! ref with Some o => n_ID (nw_rec (no_net o)) | None => 0 end.

Definition by_id s (r1 r2 : nat) : Prop := net_id s r1 <= net_id s r2.
#[export] Instance by_id_dec s r1 r2 : Decision (by_id s r1 r2).
Proof. unfold by_id. apply _. Defined.

Definition addNetwork (ref : nat) : U unit :=
  modify (fun s => let s' := set_networks (ss_networks s ++ [ref]) s in
                   set_networks (merge_sort (by_id s') (ss_networks s')) s');;
  uemit (RunNetwork ref).

(** [network.stop()] *)
Definition stop_network (ref : nat) : U unit := modify (on_obj ref (with_net (set_nw_stopped true))).

Definition removeNetwork (ref : nat) : U unit :=
  stop_network ref;;
  dcs ← gets ss_downs;
  for_each (filter (fun dc => dc_network dc = Some ref) dcs) udown_close;;
  l ← gets ss_networks;
  if bool_decide (ref ∈ l) then modify (set_networks (remove_first (fun r => bool_decide (r = ref)) l)) else panic.

Definition canEnableNewNetwork s : option user_error :=
  let max := if u_MaxNetworks (ss_user s) <? 0 then cfg_MaxUserNetworks else u_MaxNetworks (ss_user s) in
  if max <? 0 then None
  else let n := length (filter (fun o => n_Enabled (nw_rec (no_net o)) = true) (objs s)) in
       if max <=? Z.of_nat n then Some ErrMaxNetworks else None.

(** The checks of [checkNetwork] on the URL. *)
Definition check_url (admin : bool) (u : URL) : option user_error :=
  if url_User u then Some (ErrURLUser (Scheme u))
  else if nonempty (RawQuery u) then Some (ErrURLQuery (Scheme u))
  else if nonempty (Fragment u) then Some (ErrURLFragment (Scheme u))
  else if bool_decide (Scheme u ∈ ["ircs"; "irc+insecure"]) then
    if bool_decide (url_Host u = "") then Some (ErrURLHost (Scheme u))
    else if nonempty (Path u) then Some (ErrURLPath (Scheme u)) else None
  else if bool_decide (Scheme u ∈ ["irc+unix"; "unix"]) then
    if negb admin then Some ErrUnixAdmin
    else if nonempty (url_Host u) then Some (ErrURLHost (Scheme u))
    else if bool_decide (Path u = "") then Some (ErrURLPath (Scheme u)) else None
  else Some (ErrUnknownScheme (Scheme u)).

Definition checkNetwork s (record : NetworkRec) : option user_error :=
  match Network_URL url_Parse record with
  | None => Some ErrURL
  | Some u =>
      match check_url (u_Admin (ss_user s)) u with
      | Some e => Some e
      | None =>
          if bool_decide (GetName record = "") then Some ErrNameEmpty
          else if HasPrefix (GetName record) "-" then Some ErrNameDash
          else if existsb (fun o => bool_decide (GetName (nw_rec (no_net o)) = GetName record)
                                    && negb (Z.eqb (n_ID (nw_rec (no_net o))) (n_ID record))) (objs s)
          then Some (ErrNameTaken (GetName record)) else None
      end
  end.

(** [if err := check; err != nil { return err }] *)
Definition require (check : session St -> option user_error) : U unit :=
  e ← gets check; match e with Some e => raise e | None => mret tt end.

(** A new object for [newNetwork(u, record, channels, ignores)]. *)
Definition alloc_network (record : NetworkRec) (channels : list ChannelRec) (ignores : list IgnoreRec) : U nat :=
  ref ← gets ss_next;
  modify (fun s => Session (ss_user s) (<[ref := NetObj ref (newNetwork record channels ignores) None]> (ss_heap s))
                     (ss_networks s) (ss_downs s) (ss_store s) (S ref) (ss_eff s));;
  mret ref.

(** [db.StoreNetwork(&net.Network)] sets the ID of a new record. *)
Definition storeNetwork (record : NetworkRec) : U NetworkRec :=
  match db_StoreNetwork record with
  | None => raise ErrStoreNetwork
  | Some id => let r := if Z.eqb (n_ID record) 0 then with_ID record id else record in
               uemit (StoreNetworkRec r);; mret r
  end.

Definition createNetwork (record : NetworkRec) (enforceLimit : bool) : U nat :=
  if negb (Z.eqb (n_ID record) 0) then panic
  else
    when (enforceLimit && n_Enabled record) (require canEnableNewNetwork);;
    require (fun s => checkNetwork s record);;
    ref ← alloc_network record [] [];
    record' ← storeNetwork record;
    modify (on_obj ref (with_net (set_nw_rec record')));;
    addNetwork ref;;
    s ← gets id;
    match ss_heap s !! ref with
    | None => panic
    | Some o => notifyBouncerNetworkState (n_ID record') (net_attrs s o);; mret ref
    end.

(** ** Disconnection *)

Definition stop_timers (uc : upstreamConn) : upstreamConn :=
  let ch := uc_channels uc in
  set_uc_channels (CMM ((fun e => CMEntry (originalKey e) (updateAutoDetach 0 (value e))) <$> cmm_m ch) (cmm_casemap ch)) uc.

Definition handleUpstreamDisconnected (ref : nat) (uc : upstreamConn) : U unit :=
  modify (on_obj ref (with_conn None));;
  run_closed ref uc (fun EV =>
    modify_uc stopRegainNickTimer;;
    abortPendingCommands (EV := EV);;
    modify_uc stop_timers;;
    forEachDownstream (fun dc => down dc updateSupportedCaps));;
  s ← gets id;
  match ss_heap s !! ref with
  | None => panic
  | Some o =>
      if bool_decide (ref ∈ ss_networks s) then
        notifyBouncerNetworkState (n_ID (nw_rec (no_net o))) {["state" := "disconnected"]};;
        match nw_lastError (no_net o) with
        | Some _ => mret tt
        | None =>
            for_each (filter (fun dc => dc_network dc = Some ref) (ss_downs s)) (fun dc =>
              when (negb (IsEnabled (dc_caps dc) "soju.im/bouncer-networks"))
                (udown dc (sendServiceNOTICE ("disconnected from " +:+ GetName (nw_rec (no_net o))))))
        end
      else mret tt
  end.

(** ** Updating and deleting networks *)

(** Settings equal to those of the user are wiped. *)
Definition reset_defaults (u : UserRec) (r : NetworkRec) : NetworkRec :=
  with_ident r (n_Name r) (n_Addr r) (if bool_decide (n_Nick r = u_Nick u) then "" else n_Nick r) (n_Username r)
    (if bool_decide (n_Realname r = u_Realname u) then "" else n_Realname r) (n_Pass r).

(** [dc.network = updatedNetwork] for the connections bound to the old one. *)
Definition patch_downs (old new : nat) : session St -> session St :=
  on_downs (fun dc => if bool_decide (dc_network dc = Some old) then set_dc_network (Some new) dc else dc).

(** What the new object takes over from the old one besides the record. *)
Definition transfer (old new : network) : network :=
  let n := set_nw_pushTargets (nw_pushTargets old) (set_nw_delivered (nw_delivered old) new) in
  if n_Enabled (nw_rec n) then set_nw_lastError (nw_lastError old) n else n.

Definition updateNetwork (record : NetworkRec) (enforceLimit : bool) : U nat :=
  if Z.eqb (n_ID record) 0 then panic
  else
    when (enforceLimit && n_Enabled record) (require canEnableNewNetwork);;
    u ← gets ss_user;
    let record := reset_defaults u record in
    require (fun s => checkNetwork s record);;
    onet ← gets (fun s => getNetworkByID s (n_ID record));
    match onet with
    | None => panic
    | Some net =>
        _ ← storeNetwork record;
        ref ← alloc_network record (value <$> iter (nw_channels (no_net net))) (ignoresSnapshot (no_net net));
        stop_network (no_ref net);;
        match no_conn net with
        | Some uc => handleUpstreamDisconnected (no_ref net) uc
        | None => mret tt
        end;;
        modify (patch_downs (no_ref net) ref);;
        removeNetwork (no_ref net);;
        old ← gets (fun s => ss_heap s !! no_ref net);
        match old with
        | None => panic
        | Some old =>
            modify (on_obj ref (with_net (transfer (no_net old))));;
            run_net ref (fun EV => updateCasemapping (EV := EV) (nw_casemap (no_net old)));;
            when (store_renames && negb (bool_decide (GetName record = GetName (nw_rec (no_net old)))))
              (uemit (RenameNetwork (nw_rec (no_net old)) record));;
            addNetwork ref;;
            s ← gets id;
            match ss_heap s !! ref with
            | None => panic
            | Some o => notifyBouncerNetworkState (n_ID record) (net_attrs s o);; mret ref
            end
        end
    end.

Definition deleteNetwork (id : Z) : U unit :=
  onet ← gets (fun s => getNetworkByID s id);
  match onet with
  | None => panic
  | Some net =>
      if negb (db_DeleteNetwork id) then raise ErrDeleteNetwork
      else
        uemit (DeleteNetworkDB id);;
        removeNetwork (no_ref net);;
        dcs ← gets ss_downs;
        for_each dcs (fun dc => sendBouncer dc (fmt_int id) "*")
  end.

(** ** Updating the user *)

(** An error of one update does not stop the others; the last one is kept. *)
Fixpoint update_all (l : list NetworkRec) (netErr : option user_error) : U (option user_error) :=
  match l with
  | [] => mret netErr
  | r :: l' => fun s =>
      match updateNetwork r false s with
      | (s', Ok _) => update_all l' netErr s'
      | (s', Err e) => update_all l' (Some e) s'
      | (s', Panic) => (s', Panic)
      end
  end.

(** Whether a network must re-connect; one that can send SETNAME does so. *)
Definition needs_update (u : UserRec) (realnameUpdated enabledUpdated : bool) (o : netobj) : U bool :=
  if realnameUpdated && negb enabledUpdated then
    if nonempty (n_Realname (nw_rec (no_net o))) then mret false
    else match no_conn o with
    | Some uc =>
        if IsEnabled (uc_caps uc) "setname" then
          run_net (no_ref o) (fun _ => uc_SendMessage (mk_msg "SETNAME" [GetRealname u (Some (nw_rec (no_net o)))]));;
          mret false
        else mret true
    | None => mret true
    end
  else mret true.

Fixpoint collect_updates (u : UserRec) (realnameUpdated enabledUpdated : bool) (l : list netobj) : U (list NetworkRec) :=
  match l with
  | [] => mret []
  | o :: l' =>
      b ← needs_update u realnameUpdated enabledUpdated o;
      rest ← collect_updates u realnameUpdated enabledUpdated l';
      mret (if b : bool then nw_rec (no_net o) :: rest else rest)
  end.

Definition updateUser (update : UserRec -> res user_error UserRec) : U unit :=
  u ← gets ss_user;
  record ← lift (update u);
  let nickUpdated := negb (bool_decide (u_Nick u = u_Nick record)) in
  let realnameUpdated := negb (bool_decide (u_Realname u = u_Realname record)) in
  let enabledUpdated := negb (Bool.eqb (u_Enabled u) (u_Enabled record)) in
  if negb (db_StoreUser record) then raise ErrStoreUser
  else
    uemit (StoreUserDB record);;
    modify (set_user record);;
    l ← gets objs;
    when nickUpdated
      (for_each l (fun o =>
         if nonempty (n_Nick (nw_rec (no_net o))) then mret tt
         else match no_conn o with
              | None => mret tt
              | Some _ => run_net (no_ref o) (fun _ => uc_SendMessage (mk_msg "NICK" [GetNick record (Some (nw_rec (no_net o)))]))
              end));;
    when (realnameUpdated || enabledUpdated)
      (needUpdate ← collect_updates record realnameUpdated enabledUpdated l;
       netErr ← update_all needUpdate None;
       match netErr with Some e => raise e | None => mret tt end);;
    when (negb (u_Enabled record)) (dcs ← gets ss_downs; for_each dcs udown_close).

Definition bumpDownstreamInteractionTime : U unit := fun s =>
  match updateUser (fun u => Ok (MkUser (u_ID u) (u_Username u) (u_Password u) (u_Nick u) (u_Realname u) (u_Admin u)
                                  (u_Enabled u) env_now (u_MaxNetworks u) (u_SourceIP u) (u_CertBlob u) (u_PrivKeyBlob u))) s with
  | (s', Panic) => (s', Panic)
  | (s', _) => (s', Ok tt)
  end.

End User.
