(* ===== verification/UserNetworks.v ===== *)
(** * The networks of a user (user.go): invariant and refinement

    The heap of network objects refines a sorted list of records and a binding
    of the clients to network IDs. *)

From stdpp Require Import base list gmap strings sorting.
From Stdlib Require Import ZArith Ascii.
From S2P Require Import Prelude GoStrings GoText Casemapping Xirc Genmsg Irc Rate Database.
From S2P Require Import Handler Session Network Pending Upstream UpstreamSafety User.

Local Open Scope Z_scope.

(** ** Abstract state *)

Definition rec_of (o : netobj) : NetworkRec := nw_rec (no_net o).

Section Abs.
Context {St : Type}.
Implicit Type s : session St.

(** The records of the networks, in the order of the list. *)
Definition recs s : list NetworkRec := rec_of <$> objs s.

(** The ID of the network a client is bound to. *)
Definition bound s (dc : downstreamConn) : option Z :=
  r ← dc_network dc; o ← ss_heap s !! r; Some (n_ID (rec_of o)).

(** Every client with its network and whether it was closed. *)
Definition bindings s : list (Z * option Z * bool) :=
  (fun dc => (dc_id dc, bound s dc, dc_closed dc)) <$> ss_downs s.

(** ** Invariant *)

(** [extra]: a network object that is about to join the list. *)
Record wf (extra : list nat) s : Prop := {
  so_heap : map_Forall (fun r o => no_ref o = r /\ (r < ss_next s)%nat) (ss_heap s);
  so_live : Forall (fun r => exists o, ss_heap s !! r = Some o /\ nw_stopped (no_net o) = false) (ss_networks s);
  so_nodup : NoDup (ss_networks s);
  so_sorted : StronglySorted Z.lt (n_ID <$> recs s);
  so_positive : Forall (fun r => 0 < n_ID r) (recs s);
  so_names : NoDup (GetName <$> recs s);
  so_downs : Forall (fun dc => forall r, dc_network dc = Some r -> r ∈ ss_networks s ++ extra \/ dc_closed dc = true) (ss_downs s);
  so_clients : NoDup (dc_id <$> ss_downs s);
  so_bound : Forall (fun dc => forall r, dc_network dc = Some r -> is_Some (ss_heap s !! r)) (ss_downs s);
  so_conns : map_Forall (fun _ o => forall uc, no_conn o = Some uc -> pending_ok (uc_pendingCmds uc)) (ss_heap s)
}.

(** What the invariant and the abstract state depend on. *)
Definition same_core s s' : Prop :=
  ss_user s' = ss_user s /\ ss_heap s' = ss_heap s /\ ss_networks s' = ss_networks s /\
  ss_downs s' = ss_downs s /\ ss_next s' = ss_next s.

Lemma same_core_refl s : same_core s s.
Proof. done. Qed.
Lemma same_core_trans s1 s2 s3 : same_core s1 s2 -> same_core s2 s3 -> same_core s1 s3.
Proof. unfold same_core. intuition congruence. Qed.

Lemma objs_core s s' : same_core s s' -> objs s' = objs s.
Proof. intros (_ & E1 & E2 & _). unfold objs. by rewrite E1, E2. Qed.

(** A handler that only emits effects. *)
Definition quiet {A} (m : handler (session St) user_error A) : Prop :=
  forall s, exists s' a, m s = (s', Ok a) /\ same_core s s'.

Lemma quiet_ret {A} (a : A) : quiet (mret a).
Proof. intros s. by exists s, a. Qed.
Lemma quiet_emit e : quiet (uemit e).
Proof. intros s. eexists _, tt. split; [reflexivity|]. done. Qed.
Lemma quiet_gets {A} (f : session St -> A) : quiet (gets f).
Proof. intros s. by exists s, (f s). Qed.
Lemma quiet_bind {A B} (m : handler (session St) user_error A) (k : A -> handler (session St) user_error B) :
  quiet m -> (forall a, quiet (k a)) -> quiet (m ≫= k).
Proof.
  intros Hm Hk s. destruct (Hm s) as (s1 & a & E1 & H1). destruct (Hk a s1) as (s2 & b & E2 & H2).
  exists s2, b. rewrite (bind_ok _ _ _ _ _ E1). split; [done|]. by eapply same_core_trans.
Qed.
Lemma quiet_when b (m : handler (session St) user_error unit) : quiet m -> quiet (when b m).
Proof. intros Hm. destruct b; [done|apply quiet_ret]. Qed.
Lemma quiet_for_each {A} (l : list A) (f : A -> handler (session St) user_error unit) :
  (forall x, quiet (f x)) -> quiet (for_each l f).
Proof. intros Hf. induction l; [apply quiet_ret|]. cbn. apply quiet_bind; auto. Qed.


Lemma wf_core extra s s' : same_core s s' -> wf extra s -> wf extra s'.
Proof.
  intros Hc [H1 H2 H3 H4 H5 H6 H7 H9 H7' H8]. pose proof (objs_core s s' Hc) as Ho.
  destruct Hc as (E1 & E2 & E3 & E4 & E5). constructor; unfold recs in *; rewrite ?E2, ?E3, ?E4, ?E5, ?Ho; done.
Qed.

Lemma recs_core s s' : same_core s s' -> recs s' = recs s.
Proof. intros Hc. unfold recs. by rewrite (objs_core s s' Hc). Qed.

Lemma bindings_core s s' : same_core s s' -> bindings s' = bindings s.
Proof.
  intros (_ & E1 & _ & E2 & _). unfold bindings. rewrite E2. apply list_fmap_ext. intros i dc _.
  unfold bound. by rewrite E1.
Qed.

End Abs.

Notation session_ok := (wf []).

#[export] Hint Resolve quiet_ret quiet_emit quiet_gets : quiet.

Ltac quiet_step :=
  match goal with
  | |- quiet (_ ≫= _) => apply quiet_bind; [|intros ?]
  | |- quiet (when _ _) => apply quiet_when
  | |- quiet (for_each _ _) => apply quiet_for_each; intros ?
  | |- quiet (match ?x with _ => _ end) => destruct x
  | |- quiet (udown _ _) => apply quiet_emit
  | |- quiet _ => solve [eauto with quiet]
  end.

Section Refinement.
Context {St : Type} {HSt : Store St} {MO : MapOrder} {UN : Unicode} {EV : Env} {UE : UserEnv}.
Notation U := (handler (session St) user_error).
Implicit Type s : session St.

Lemma quiet_sendBouncer dc id attrs : quiet (St := St) (sendBouncer dc id attrs).
Proof. unfold sendBouncer. repeat quiet_step. Qed.
Hint Resolve quiet_sendBouncer : quiet.
Lemma quiet_notify id attrs : quiet (St := St) (notifyBouncerNetworkState id attrs).
Proof. unfold notifyBouncerNetworkState. repeat quiet_step. Qed.
Hint Resolve quiet_notify : quiet.

(** ** Lookup *)

Lemma elem_of_objs s o : o ∈ objs s <-> exists r, r ∈ ss_networks s /\ ss_heap s !! r = Some o.
Proof. unfold objs. rewrite list_elem_of_omap. done. Qed.

Lemma getNetworkByID_Some s id o : getNetworkByID s id = Some o -> o ∈ objs s /\ n_ID (rec_of o) = id.
Proof.
  unfold getNetworkByID. intros H. apply head_Some_elem_of, list_elem_of_filter in H as [H1 H2]. done.
Qed.

Lemma objs_live extra s : wf extra s -> ss_networks s = no_ref <$> objs s.
Proof.
  intros Hs. unfold objs. pose proof (so_live _ _ Hs) as Hl. pose proof (so_heap _ _ Hs) as Hh. clear -Hl Hh.
  induction Hl as [|r l (o & Ho & _) _ IH]; [done|]. cbn. rewrite Ho. cbn. by rewrite <- IH, (proj1 (Hh r o Ho)).
Qed.

Lemma net_id_obj s r o : ss_heap s !! r = Some o -> net_id s r = n_ID (rec_of o).
Proof. intros H. unfold net_id. by rewrite H. Qed.

(** ** Sorting *)

#[local] Instance by_id_total s : Total (by_id s).
Proof. intros r1 r2. unfold by_id. lia. Qed.
#[local] Instance by_id_trans s : Transitive (by_id s).
Proof. intros r1 r2 r3. unfold by_id. lia. Qed.

Definition id_le (a b : NetworkRec) : Prop := n_ID a <= n_ID b.

Lemma sorted_recs (h : gmap nat netobj) (l : list nat) :
  StronglySorted (fun r1 r2 => match h !! r1 with Some o => n_ID (rec_of o) | None => 0 end
                               <= match h !! r2 with Some o => n_ID (rec_of o) | None => 0 end) l ->
  StronglySorted id_le (rec_of <$> omap (fun r => h !! r) l).
Proof.
  induction 1 as [|r l Hl IH Hr]; [constructor|]. cbn. destruct (h !! r) as [o|] eqn:E; [|done]. cbn.
  constructor; [done|]. apply Forall_forall. intros rec (o' & -> & Ho')%list_elem_of_fmap.
  apply list_elem_of_omap in Ho' as (r' & Hr' & E'). rewrite Forall_forall in Hr. specialize (Hr r' Hr').
  rewrite E' in Hr. exact Hr.
Qed.

Lemma sorted_lt_le l : StronglySorted Z.lt (n_ID <$> l) -> StronglySorted id_le l.
Proof.
  induction l as [|a l IH]; [constructor|]. cbn. intros H. apply StronglySorted_inv in H as [H1 H2].
  constructor; [auto|]. rewrite Forall_forall in H2. apply Forall_forall. intros b Hb. apply Z.lt_le_incl, H2. by apply list_elem_of_fmap_2.
Qed.

Lemma sorted_le_lt l : StronglySorted id_le l -> NoDup (n_ID <$> l) -> StronglySorted Z.lt (n_ID <$> l).
Proof.
  induction 1 as [|a l Hl IH Ha]; intros Hnd; [constructor|]. cbn in *. apply NoDup_cons in Hnd as [Hn Hnd].
  constructor; [auto|]. rewrite Forall_forall in Ha. apply Forall_forall. intros id (b & -> & Hb)%list_elem_of_fmap. unfold id_le in Ha.
  specialize (Ha b Hb). assert (n_ID a <> n_ID b); [|lia]. intros E. apply Hn. rewrite E.
  by apply list_elem_of_fmap_2.
Qed.

Lemma sorted_NoDup l : StronglySorted Z.lt l -> NoDup l.
Proof.
  induction 1 as [|a l Hl IH Ha]; [constructor|]. constructor; [|done].
  intros Hin. rewrite Forall_forall in Ha. specialize (Ha a Hin). lia.
Qed.

(** Two lists of records with distinct IDs sorted by ID are equal when one is
    a permutation of the other. *)
Lemma sorted_perm_eq l1 l2 : StronglySorted id_le l1 -> StronglySorted id_le l2 -> NoDup (n_ID <$> l1) -> l1 ≡ₚ l2 -> l1 = l2.
Proof.
  intros H1 H2 Hnd Hp. apply (StronglySorted_unique_strong id_le); [|done|done|done].
  intros a b Ha Hb Hab Hba. rewrite <- Hp in Hb. unfold id_le in *.
  apply list_elem_of_lookup_1 in Ha as [i Hi]. apply list_elem_of_lookup_1 in Hb as [j Hj].
  assert (i = j); [|congruence].
  eapply (NoDup_lookup (n_ID <$> l1)); [done|rewrite list_lookup_fmap, Hi; reflexivity|].
  rewrite list_lookup_fmap, Hj. cbn. f_equal. lia.
Qed.

(** ** Adding a network *)

Lemma recs_of_list (h : gmap nat netobj) l1 l2 : l1 ≡ₚ l2 ->
  rec_of <$> omap (fun r => h !! r) l1 ≡ₚ rec_of <$> omap (fun r => h !! r) l2.
Proof. intros Hp. by rewrite Hp. Qed.

Lemma addNetwork_run s ref :
  exists s', addNetwork ref s = (s', Ok tt) /\ ss_user s' = ss_user s /\ ss_heap s' = ss_heap s /\
    ss_downs s' = ss_downs s /\ ss_next s' = ss_next s /\ ss_networks s' ≡ₚ ss_networks s ++ [ref] /\
    StronglySorted id_le (recs s').
Proof.
  eexists. split; [reflexivity|]. split_and!; try done.
  - cbn. apply merge_sort_Permutation.
  - unfold recs, objs. cbn. apply sorted_recs. apply (StronglySorted_merge_sort (by_id (set_networks (ss_networks s ++ [ref]) s))).
Qed.

Lemma wf_add extra s s' ref o :
  wf [ref] s -> ss_heap s !! ref = Some o -> nw_stopped (no_net o) = false -> ref ∉ ss_networks s ->
  0 < n_ID (rec_of o) -> n_ID (rec_of o) ∉ n_ID <$> recs s -> GetName (rec_of o) ∉ GetName <$> recs s ->
  ss_heap s' = ss_heap s -> ss_downs s' = ss_downs s -> ss_next s' = ss_next s ->
  ss_networks s' ≡ₚ ss_networks s ++ [ref] -> StronglySorted id_le (recs s') ->
  wf extra s' /\ recs s' ≡ₚ recs s ++ [rec_of o].
Proof.
  intros [H1 H2 H3 H4 H5 H6 H7 H9 H7' H8] Ho Hst Hn Hpos Hid Hname Eh Ed Ex Hp Hsort.
  assert (Hr : recs s' ≡ₚ recs s ++ [rec_of o]).
  { unfold recs, objs. rewrite Eh, Hp, omap_app, fmap_app. cbn. by rewrite Ho. }
  split; [|done]. constructor; rewrite ?Eh, ?Ed, ?Ex; try done.
  - rewrite Hp. apply Forall_app. split; [done|]. apply Forall_singleton. by exists o.
  - rewrite Hp. apply NoDup_app. split_and!; [done|set_solver|apply NoDup_singleton].
  - apply sorted_le_lt; [done|]. rewrite Hr, fmap_app. apply NoDup_app.
    split_and!; [by apply sorted_NoDup|set_solver|apply NoDup_singleton].
  - rewrite Hr. apply Forall_app. by rewrite Forall_singleton.
  - rewrite Hr, fmap_app. apply NoDup_app. split_and!; [done|set_solver|apply NoDup_singleton].
  - eapply Forall_impl; [exact H7|]. intros dc Hdc r Hr'. destruct (Hdc r Hr') as [Hin|]; [|by right].
    left. apply elem_of_app. left. by rewrite Hp.
Qed.

(** ** Running the checks *)

Lemma require_bind {A} check (k : unit -> U A) s :
  (require check ≫= k) s = match check s with Some e => (s, Err e) | None => k tt s end.
Proof. unfold require, mbind, handler_bind, gets. by destruct (check s). Qed.

Lemma when_require_bind {A} (b : bool) check (k : unit -> U A) s :
  (when b (require check) ≫= k) s = match (if b then check s else None) with Some e => (s, Err e) | None => k tt s end.
Proof. destruct b; [apply require_bind|done]. Qed.

Lemma quiet_run {A B} (m : U A) (k : A -> U B) s : quiet m -> exists s' a, same_core s s' /\ (m ≫= k) s = k a s'.
Proof. intros Hm. destruct (Hm s) as (s' & a & E & Hc). exists s', a. by rewrite (bind_ok _ _ _ _ _ E). Qed.

(** The name of a checked record is not that of another network. *)
Lemma checkNetwork_name s record : checkNetwork s record = None ->
  Forall (fun r => GetName r = GetName record -> n_ID r = n_ID record) (recs s).
Proof.
  unfold checkNetwork. destruct (Network_URL url_Parse record) as [u|]; [|done].
  destruct (check_url _ u); [done|]. case_bool_decide; [done|]. destruct (HasPrefix _ _); [done|].
  destruct (existsb _ _) eqn:E; [done|]. intros _. apply Forall_forall. intros r (o & -> & Ho)%list_elem_of_fmap Hn.
  rewrite <- not_true_iff_false, existsb_exists in E. destruct (Z.eqb_spec (n_ID (rec_of o)) (n_ID record)) as [|Hne]; [done|].
  destruct E. exists o. rewrite <- list_elem_of_In. split; [done|]. unfold rec_of in *.
  rewrite bool_decide_true by done. by rewrite (proj2 (Z.eqb_neq _ _) Hne).
Qed.

(** A database gives a new record an ID that no network of the user has. *)
Definition db_fresh s : Prop := forall r id, n_ID r = 0 -> db_StoreNetwork r = Some id -> 0 < id /\ id ∉ n_ID <$> recs s.

(** ** Creating a network *)

(** Place a record in a list sorted by ID. *)
Fixpoint insert_rec (r : NetworkRec) (l : list NetworkRec) : list NetworkRec :=
  match l with
  | [] => [r]
  | x :: l' => if n_ID r <? n_ID x then r :: l else x :: insert_rec r l'
  end.

Lemma insert_rec_perm r l : insert_rec r l ≡ₚ l ++ [r].
Proof.
  induction l as [|x l IH]; [done|]. cbn. destruct (_ <? _).
  - by rewrite (Permutation_cons_append (x :: l) r).
  - cbn. by rewrite IH.
Qed.

Lemma insert_rec_sorted r l : StronglySorted id_le l -> StronglySorted id_le (insert_rec r l).
Proof.
  induction 1 as [|x l Hl IH Hx]; cbn; [constructor; [constructor|done]|].
  destruct (n_ID r <? n_ID x) eqn:E; bool_to_prop.
  - apply Z.ltb_lt in E. constructor; [by constructor|]. constructor; [unfold id_le; lia|].
    eapply Forall_impl; [exact Hx|]. unfold id_le. intros y Hy. lia.
  - apply Z.ltb_ge in E. constructor; [done|]. rewrite insert_rec_perm. apply Forall_app. split; [done|].
    apply Forall_singleton. exact E.
Qed.

Lemma insert_rec_eq r l l' :
  StronglySorted id_le l' -> StronglySorted id_le l -> NoDup (n_ID <$> l') -> l' ≡ₚ l ++ [r] -> l' = insert_rec r l.
Proof.
  intros H1 H2 Hn Hp. apply sorted_perm_eq; [done|by apply insert_rec_sorted|done|]. by rewrite insert_rec_perm.
Qed.

(** A new object does not disturb the list. *)
Lemma wf_alloc s s' record channels ignores :
  session_ok s ->
  ss_user s' = ss_user s -> ss_networks s' = ss_networks s -> ss_downs s' = ss_downs s -> ss_next s' = S (ss_next s) ->
  ss_heap s' = <[ss_next s := NetObj (ss_next s) (newNetwork record channels ignores) None]> (ss_heap s) ->
  session_ok s' /\ ss_next s ∉ ss_networks s' /\ recs s' = recs s /\ bindings s' = bindings s.
Proof.
  intros [H1 H2 H3 H4 H5 H6 H7 H9 H7' H8] Eu En Ed Ex Eh.
  assert (Hnew : ss_heap s !! ss_next s = None).
  { destruct (ss_heap s !! ss_next s) as [o|] eqn:E; [|done]. destruct (H1 _ _ E). lia. }
  assert (Hni : ss_next s ∉ ss_networks s).
  { intros Hin. rewrite Forall_forall in H2. destruct (H2 _ Hin) as (o & Ho & _). congruence. }
  assert (Hl : forall r, r ∈ ss_networks s -> ss_heap s' !! r = ss_heap s !! r).
  { intros r Hr. rewrite Eh. apply lookup_insert_ne. intros <-. done. }
  assert (Ho : objs s' = objs s).
  { unfold objs. rewrite En. apply list_omap_ext. apply Forall_Forall2_diag, Forall_forall. auto. }
  assert (Hr : recs s' = recs s) by (unfold recs; by rewrite Ho).
  split_and!; [|by rewrite En|done|].
  - constructor; rewrite ?Hr, ?En, ?Ed, ?Ex; try done.
    + rewrite Eh. apply map_Forall_insert_2; [cbn; split; [done|lia]|]. intros r o E. destruct (H1 r o E). split; [done|lia].
    + rewrite Forall_forall in H2 |- *. intros r Hin. rewrite Hl by done. auto.
    + eapply Forall_impl; [exact H7'|]. intros dc Hdc r Hr'. rewrite Eh. apply lookup_insert_is_Some'. auto.
    + rewrite Eh. by apply map_Forall_insert_2.
  - unfold bindings. rewrite Ed. apply list_fmap_ext. intros i dc Hdc. f_equal. f_equal. unfold bound.
    destruct (dc_network dc) as [r|] eqn:Er; [|done]. cbn. rewrite Eh. destruct (decide (r = ss_next s)) as [->|Hne].
    + apply list_elem_of_lookup_2 in Hdc. rewrite Forall_forall in H7'. destruct (H7' dc Hdc (ss_next s) Er). congruence.
    + by rewrite lookup_insert_ne.
Qed.

(** The record of an object that is not in the list changes. *)
Lemma wf_set_rec extra s s' ref o' :
  wf extra s -> ref ∉ ss_networks s -> no_ref o' = ref -> no_conn o' = None -> is_Some (ss_heap s !! ref) ->
  ss_user s' = ss_user s -> ss_networks s' = ss_networks s -> ss_downs s' = ss_downs s -> ss_next s' = ss_next s ->
  ss_heap s' = <[ref := o']> (ss_heap s) ->
  wf extra s' /\ recs s' = recs s.
Proof.
  intros [H1 H2 H3 H4 H5 H6 H7 H9 H7' H8] Hn Hro Hco [o Ho] Eu En Ed Ex Eh.
  assert (Hl : forall r, r ∈ ss_networks s -> ss_heap s' !! r = ss_heap s !! r).
  { intros r Hr. rewrite Eh. apply lookup_insert_ne. intros <-. done. }
  assert (Hr : recs s' = recs s).
  { unfold recs, objs. rewrite En. f_equal. apply list_omap_ext. apply Forall_Forall2_diag, Forall_forall. auto. }
  split; [|done]. constructor; rewrite ?Hr, ?En, ?Ed, ?Ex; try done.
  - rewrite Eh. apply map_Forall_insert_2; [|done]. split; [done|]. by destruct (H1 ref o Ho).
  - rewrite Forall_forall in H2 |- *. intros r Hin. rewrite Hl by done. auto.
  - eapply Forall_impl; [exact H7'|]. intros dc Hdc r Hr'. rewrite Eh. apply lookup_insert_is_Some'. auto.
  - rewrite Eh. apply map_Forall_insert_2; [|done]. intros uc. by rewrite Hco.
Qed.

(** The clients and the list after a call. *)
Definition unchanged s s' : Prop := session_ok s' /\ recs s' = recs s /\ bindings s' = bindings s.

Lemma createNetwork_spec record lim s :
  session_ok s -> n_ID record = 0 -> db_fresh s ->
  match createNetwork record lim s with
  | (s', Ok _) => session_ok s' /\ bindings s' = bindings s /\
      exists id, 0 < id /\ id ∉ n_ID <$> recs s /\ recs s' = insert_rec (with_ID record id) (recs s)
  | (s', Err _) => unchanged s s'
  | (_, Panic) => False
  end.
Proof.
  intros Hs Hid Hdb. unfold createNetwork. rewrite (proj2 (Z.eqb_eq _ _) Hid). cbn [negb].
  rewrite when_require_bind.
  destruct (if lim && n_Enabled record then canEnableNewNetwork s else None); [done|]. rewrite require_bind.
  destruct (checkNetwork s record) eqn:Ec; [done|]. apply checkNetwork_name in Ec.
  unfold alloc_network. rewrite (bind_ok _ _ s
    (Session (ss_user s) (<[ss_next s := NetObj (ss_next s) (newNetwork record [] []) None]> (ss_heap s)) (ss_networks s)
       (ss_downs s) (ss_store s) (S (ss_next s)) (ss_eff s)) (ss_next s)) by done.
  set (ref := ss_next s). set (s1 := Session _ _ _ _ _ _ _).
  destruct (wf_alloc s s1 record [] [] Hs) as (Hs1 & Hn1 & Hr1 & Hb1); try done. fold ref in Hn1.
  unfold storeNetwork. destruct (db_StoreNetwork record) as [id|] eqn:Edb; [|done].
  destruct (Hdb record id Hid Edb) as [Hpos Hfresh]. rewrite (proj2 (Z.eqb_eq _ _) Hid).
  rewrite (bind_ok _ _ s1 (add_eff [StoreNetworkRec (with_ID record id)] s1) (with_ID record id)) by done.
  rewrite bind_modify. set (s2 := on_obj _ _ _).
  set (o := NetObj ref (set_nw_rec (with_ID record id) (newNetwork record [] [])) None).
  assert (Eh2 : ss_heap s2 = <[ref := o]> (ss_heap s1)).
  { unfold s2, on_obj, s1. cbn. rewrite alter_insert_eq, insert_insert_eq. done. }
  destruct (wf_set_rec [] s1 s2 ref o Hs1) as [Hs2 Hr2]; try done.
  { unfold s1. cbn. rewrite lookup_insert_eq. by eexists. }
  destruct (addNetwork_run s2 ref) as (s3 & E3 & Eu3 & Eh3 & Ed3 & Ex3 & Hp3 & Hsort). rewrite (bind_ok _ _ _ _ _ E3).
  assert (Ho3 : ss_heap s2 !! ref = Some o) by (rewrite Eh2; apply lookup_insert_eq).
  assert (Hs2' : wf [ref] s2).
  { destruct Hs2 as [A1 A2 A3 A4 A5 A6 A7 A8 A9 A10]. constructor; try done. eapply Forall_impl; [exact A7|].
    intros dc Hdc r Hr. destruct (Hdc r Hr); [left; set_solver|by right]. }
  destruct (wf_add [] s2 s3 ref o Hs2' Ho3 eq_refl Hn1 Hpos) as [Hs3 Hr3]; try done.
  { by rewrite Hr2, Hr1. }
  { rewrite Hr2, Hr1. rewrite list_elem_of_fmap. intros (r & Hg & Hin). rewrite Forall_forall in Ec.
    specialize (Ec r Hin (eq_sym Hg)). pose proof (so_positive _ _ Hs) as Hp. rewrite Forall_forall in Hp.
    specialize (Hp r Hin). lia. }
  rewrite bind_gets. unfold Datatypes.id. rewrite Eh3, Ho3.
  destruct (quiet_run (notifyBouncerNetworkState (n_ID (with_ID record id)) (net_attrs s3 o)) (fun _ => mret ref) s3
              (quiet_notify _ _)) as (s4 & a & Hc & ->). cbn.
  split; [by apply (wf_core [] s3)|]. split.
  - rewrite (bindings_core s3 s4 Hc). rewrite <- Hb1. unfold bindings. rewrite Ed3. cbn. apply list_fmap_ext.
    intros i dc Hdc. f_equal. f_equal. unfold bound. destruct (dc_network dc) as [r|] eqn:Er; [|done]. cbn.
    rewrite Eh3, Eh2. destruct (decide (r = ref)) as [->|Hne]; [|by rewrite lookup_insert_ne].
    apply list_elem_of_lookup_2 in Hdc. pose proof (so_bound _ _ Hs) as Hbd. rewrite Forall_forall in Hbd.
    destruct (Hbd dc Hdc ref Er) as [o' Ho']. destruct (so_heap _ _ Hs ref o' Ho'). unfold ref in *. lia.
  - exists id. split_and!; [done|done|]. rewrite (recs_core s3 s4 Hc). apply insert_rec_eq; [done| | |].
    + apply sorted_lt_le, (so_sorted _ _ Hs).
    + apply sorted_NoDup, (so_sorted _ _ Hs3).
    + by rewrite Hr3, Hr2, Hr1.
Qed.

(** ** Removing a network *)

(** The clients of a network are closed. *)
Definition close_bound (ref : nat) (dc : downstreamConn) : downstreamConn :=
  if bool_decide (dc_network dc = Some ref) then set_dc_closed true dc else dc.

Lemma close_loop l s :
  exists s', for_each l udown_close s = (s', Ok tt) /\ ss_user s' = ss_user s /\ ss_heap s' = ss_heap s /\
    ss_networks s' = ss_networks s /\ ss_next s' = ss_next s /\
    ss_downs s' = (fun d => if bool_decide (dc_id d ∈ dc_id <$> l) then set_dc_closed true d else d) <$> ss_downs s.
Proof.
  revert s; induction l as [|dc l IH]; intros s.
  - exists s. split_and!; try done. symmetry. etrans; [|apply list_fmap_id]. by apply list_fmap_ext.
  - cbn [for_each]. set (s1 := add_eff [UDown (dc_id dc) CloseConn]
      (on_downs (fun d => if Z.eqb (dc_id d) (dc_id dc) then set_dc_closed true d else d) s)).
    rewrite (bind_ok _ _ s s1 tt) by done. destruct (IH s1) as (s2 & E2 & A1 & A2 & A3 & A4 & A5).
    exists s2. split_and!; try done. rewrite A5. cbn. rewrite <- list_fmap_compose. apply list_fmap_ext. intros i d _. cbn.
    destruct (Z.eqb_spec (dc_id d) (dc_id dc)) as [E|Hne].
    + rewrite (bool_decide_true (dc_id d ∈ _ :: _)) by set_solver. by destruct (bool_decide _).
    + by rewrite (bool_decide_ext (dc_id d ∈ dc_id dc :: (dc_id <$> l)) (dc_id d ∈ dc_id <$> l)) by set_solver.
Qed.

Lemma close_filter ref (l : list downstreamConn) : NoDup (dc_id <$> l) ->
  (fun d => if bool_decide (dc_id d ∈ dc_id <$> filter (fun dc => dc_network dc = Some ref) l) then set_dc_closed true d else d) <$> l
  = close_bound ref <$> l.
Proof.
  intros Hnd. apply list_fmap_ext. intros i d Hd. unfold close_bound.
  assert (Hiff : dc_id d ∈ dc_id <$> filter (fun dc => dc_network dc = Some ref) l <-> dc_network d = Some ref).
  { rewrite list_elem_of_fmap. split.
    - intros (d' & E & [Hn Hin]%list_elem_of_filter). apply list_elem_of_lookup_1 in Hin as [j Hj].
      assert (i = j) as ->; [|congruence].
      eapply NoDup_lookup; [exact Hnd|by rewrite list_lookup_fmap, Hd|]. rewrite list_lookup_fmap, Hj. cbn. by rewrite E.
    - intros Hn. exists d. split; [done|]. apply list_elem_of_filter. split; [done|]. by eapply list_elem_of_lookup_2. }
  by rewrite (bool_decide_ext _ _ Hiff).
Qed.

Lemma removeNetwork_run s ref : ref ∈ ss_networks s -> NoDup (dc_id <$> ss_downs s) ->
  exists s', removeNetwork ref s = (s', Ok tt) /\ ss_user s' = ss_user s /\
    ss_heap s' = alter (with_net (set_nw_stopped true)) ref (ss_heap s) /\
    ss_networks s' = remove_first (fun r => bool_decide (r = ref)) (ss_networks s) /\
    ss_downs s' = close_bound ref <$> ss_downs s /\ ss_next s' = ss_next s.
Proof.
  intros Hin Hnd. unfold removeNetwork. rewrite (bind_ok _ _ s (on_obj ref (with_net (set_nw_stopped true)) s) tt) by done.
  set (s1 := on_obj _ _ s). rewrite bind_gets.
  destruct (close_loop (filter (fun dc => dc_network dc = Some ref) (ss_downs s1)) s1) as (s2 & E2 & A1 & A2 & A3 & A4 & A5).
  rewrite (bind_ok _ _ _ _ _ E2). rewrite bind_gets. rewrite A3. change (ss_networks s1) with (ss_networks s).
  rewrite bool_decide_true by done. eexists. split; [reflexivity|]. cbn. rewrite A1, A2, A4, A5. split_and!; try done.
  change (ss_downs s1) with (ss_downs s). by apply close_filter.
Qed.

Lemma filter_id {A} (P : A -> Prop) `{!forall x, Decision (P x)} (l : list A) : Forall P l -> filter P l = l.
Proof. induction 1 as [|x l Hx _ IH]; [done|]. rewrite filter_cons_True by done. by rewrite IH. Qed.

(** The list without [ref]. *)
Lemma remove_ref_perm (l : list nat) ref : ref ∈ l -> ref :: remove_first (fun r => bool_decide (r = ref)) l ≡ₚ l.
Proof.
  induction l as [|r l IH]; intros Hin; [by apply elem_of_nil in Hin|]. cbn. case_bool_decide as E; [by subst|].
  apply elem_of_cons in Hin as [->|Hin]; [done|]. rewrite Permutation_swap. by rewrite IH.
Qed.

Lemma remove_ref_sublist (l : list nat) ref (h : gmap nat netobj) o :
  h !! ref = Some o -> ref ∈ l -> NoDup (n_ID <$> (rec_of <$> omap (fun r => h !! r) l)) ->
  rec_of <$> omap (fun r => h !! r) (remove_first (fun r => bool_decide (r = ref)) l)
  = filter (fun r => n_ID r <> n_ID (rec_of o)) (rec_of <$> omap (fun r => h !! r) l).
Proof.
  intros Ho. induction l as [|r l IH]; intros Hin Hnd; [by apply elem_of_nil in Hin|]. cbn. case_bool_decide as E.
  - subst r. rewrite Ho. cbn. rewrite decide_False by (intros H; by apply H). cbn in Hnd. rewrite Ho in Hnd. cbn in Hnd.
    apply NoDup_cons in Hnd as [Hnot _]. symmetry. apply filter_id, Forall_forall.
    intros x Hx Heq. apply Hnot. rewrite <- Heq. by apply list_elem_of_fmap_2.
  - apply elem_of_cons in Hin as [->|Hin]; [done|]. cbn in Hnd. destruct (h !! r) as [o'|] eqn:Er; cbn; rewrite ?Er; cbn.
    + cbn in Hnd. apply NoDup_cons in Hnd as [Hnot Hnd]. rewrite decide_True.
      * f_equal. by apply IH.
      * intros Heq. apply Hnot. rewrite Heq. apply list_elem_of_fmap_2. apply list_elem_of_fmap. exists o. split; [done|].
        apply list_elem_of_omap. by exists ref.
    + by apply IH.
Qed.

Lemma rec_of_alter (f : netobj -> netobj) ref (h : gmap nat netobj) (l : list nat) :
  (forall o, rec_of (f o) = rec_of o) ->
  rec_of <$> omap (fun r => alter f ref h !! r) l = rec_of <$> omap (fun r => h !! r) l.
Proof.
  intros Hf. induction l as [|r l IH]; [done|]. cbn. destruct (decide (r = ref)) as [->|Hne].
  - rewrite lookup_alter_eq. destruct (h !! ref) as [o|]; cbn; [|done]. rewrite IH. f_equal. apply Hf.
  - rewrite lookup_alter_ne by done. destruct (h !! r); cbn; [|done]. by rewrite IH.
Qed.

(** What retiring an object does to it. *)
Definition retires (f : netobj -> netobj) : Prop :=
  forall o, no_ref (f o) = no_ref o /\ rec_of (f o) = rec_of o /\ (no_conn (f o) = no_conn o \/ no_conn (f o) = None).

Definition without (ref : nat) (l : list nat) : list nat := remove_first (fun r => bool_decide (r = ref)) l.

Lemma without_spec ref l r : NoDup l -> ref ∈ l -> r ∈ without ref l <-> r ∈ l /\ r <> ref.
Proof.
  intros Hnd Hin. pose proof (remove_ref_perm _ _ Hin) as Hp. fold (without ref l) in Hp. rewrite <- Hp in Hnd.
  apply NoDup_cons in Hnd as [Hn _]. assert (Hi : r ∈ l <-> r ∈ ref :: without ref l) by (by rewrite Hp).
  rewrite Hi, elem_of_cons. split; [|tauto]. intros Hr. split; [by right|]. by intros ->.
Qed.

(** The object [ref] leaves the list, and the clients [g] moves or closes. *)
Lemma wf_retire extra extra' s s' ref o f g :
  wf extra s -> ref ∈ ss_networks s -> ss_heap s !! ref = Some o -> retires f ->
  Forall (fun dc => dc_id (g dc) = dc_id dc /\ forall r, dc_network (g dc) = Some r ->
                    is_Some (ss_heap s !! r) /\ (r ∈ without ref (ss_networks s) ++ extra' \/ dc_closed (g dc) = true)) (ss_downs s) ->
  ss_heap s' = alter f ref (ss_heap s) -> ss_networks s' = without ref (ss_networks s) ->
  ss_downs s' = g <$> ss_downs s -> ss_next s' = ss_next s ->
  wf extra' s' /\ recs s' = filter (fun r => n_ID r <> n_ID (rec_of o)) (recs s).
Proof.
  intros Hwf Hin Ho Hf Hg Eh En Ed Ex. pose proof Hwf as [H1 H2 H3 H4 H5 H6 H7 H9 H7' H8].
  assert (Hsub : without ref (ss_networks s) `sublist_of` ss_networks s) by apply remove_first_sublist.
  assert (Hr : recs s' = filter (fun r => n_ID r <> n_ID (rec_of o)) (recs s)).
  { unfold recs, objs in *. rewrite Eh, En. rewrite rec_of_alter by apply Hf. apply remove_ref_sublist; [done|done|].
    apply sorted_NoDup, H4. }
  pose proof (without_spec ref _ ref H3 Hin) as Hnot.
  split; [|done]. constructor; rewrite ?Hr, ?Ex; try done.
  - rewrite Eh. intros r o' Hl. apply lookup_alter_Some in Hl as [(-> & o2 & Hl & ->)|[_ Hl]]; [|exact (H1 _ _ Hl)].
    rewrite (proj1 (Hf o2)). exact (H1 _ _ Hl).
  - rewrite En, Eh. rewrite Forall_forall in H2 |- *. intros r Hr'. rewrite lookup_alter_ne by (intros <-; tauto).
    apply H2. by eapply elem_of_sublist.
  - rewrite En. eapply sublist_NoDup; [exact H3|exact Hsub].
  - apply sorted_le_lt.
    + clear -H4. apply sorted_lt_le in H4. induction H4 as [|a l Hl IH Ha]; [constructor|]. rewrite filter_cons.
      case_decide; [|done]. constructor; [done|]. by apply Forall_filter.
    + eapply sublist_NoDup; [apply sorted_NoDup, H4|]. apply fmap_sublist, sublist_filter.
  - by apply Forall_filter.
  - eapply sublist_NoDup; [exact H6|]. apply fmap_sublist, sublist_filter.
  - rewrite Ed, En. apply Forall_fmap. eapply Forall_impl; [exact Hg|]. intros dc [_ Hdc] r Er. by apply Hdc.
  - rewrite Ed. rewrite <- list_fmap_compose. erewrite list_fmap_ext; [exact H9|]. intros i dc Hi. cbn.
    rewrite Forall_forall in Hg. apply Hg. by eapply list_elem_of_lookup_2.
  - rewrite Ed, Eh. apply Forall_fmap. eapply Forall_impl; [exact Hg|]. intros dc [_ Hdc] r Er.
    apply lookup_alter_is_Some. by apply Hdc.
  - rewrite Eh. intros r o' Hl. apply lookup_alter_Some in Hl as [(-> & o2 & Hl & ->)|[_ Hl]]; [|exact (H8 _ _ Hl)].
    intros uc. destruct (Hf o2) as (_ & _ & [->| ->]); [apply (H8 _ _ Hl)|done].
Qed.

Lemma without_refold ref l : remove_first (fun r => bool_decide (r = ref)) l = without ref l.
Proof. done. Qed.

(** ** Deleting a network *)

(** The clients bound to the network [id] are closed. *)
Definition close_clients (id : Z) (b : Z * option Z * bool) : Z * option Z * bool :=
  (b.1, b.2 || bool_decide (b.1.2 = Some id)).

Lemma bound_alter s s' f ref dc dc' : retires f ->
  ss_heap s' = alter f ref (ss_heap s) -> dc_network dc' = dc_network dc -> bound s' dc' = bound s dc.
Proof.
  intros Hf Eh En. unfold bound. rewrite En. destruct (dc_network dc) as [r|]; [|done]. cbn. rewrite Eh.
  destruct (decide (r = ref)) as [->|Hne]; [|by rewrite lookup_alter_ne].
  rewrite lookup_alter_eq. destruct (ss_heap s !! ref) as [o|]; [|done]. cbn. by rewrite (proj1 (proj2 (Hf o))).
Qed.

(** A client that is still open is bound to [ref] just when its network has
    the ID of [ref]. *)
Lemma open_bound s dc ref o :
  session_ok s -> dc ∈ ss_downs s -> ref ∈ ss_networks s -> ss_heap s !! ref = Some o -> dc_closed dc = false ->
  dc_network dc = Some ref <-> bound s dc = Some (n_ID (rec_of o)).
Proof.
  intros Hs Hdc Hin Ho Hc. unfold bound. split; [intros ->; cbn; by rewrite Ho|].
  destruct (dc_network dc) as [r|] eqn:Er; [|done]. cbn. destruct (ss_heap s !! r) as [o'|] eqn:Ho'; [|done]. cbn.
  intros [= Hid]. f_equal. pose proof (so_downs _ _ Hs) as Hd. rewrite Forall_forall in Hd.
  destruct (Hd dc Hdc r Er) as [Hin'|]; [|congruence]. rewrite app_nil_r in Hin'.
  pose proof (sorted_NoDup _ (so_sorted _ _ Hs)) as Hnd. pose proof (objs_live _ _ Hs) as Hl.
  assert (Ho2 : o ∈ objs s) by (apply elem_of_objs; eauto). assert (Ho2' : o' ∈ objs s) by (apply elem_of_objs; eauto).
  apply list_elem_of_lookup_1 in Ho2 as [i Hi], Ho2' as [j Hj]. unfold recs in Hnd.
  assert (i = j) as ->.
  { eapply (NoDup_lookup (n_ID <$> (rec_of <$> objs s))); [exact Hnd|by rewrite !list_lookup_fmap, Hi|].
    rewrite !list_lookup_fmap, Hj. cbn. by rewrite Hid. }
  rewrite Hi in Hj. injection Hj as ->. by rewrite <- (proj1 (so_heap _ _ Hs _ _ Ho)), (proj1 (so_heap _ _ Hs _ _ Ho')).
Qed.

Lemma getNetworkByID_ok s id : session_ok s -> id ∈ n_ID <$> recs s ->
  exists o, getNetworkByID s id = Some o /\ ss_heap s !! no_ref o = Some o /\ no_ref o ∈ ss_networks s /\ n_ID (rec_of o) = id.
Proof.
  intros Hs Hin. destruct (getNetworkByID s id) as [o|] eqn:E.
  - destruct (getNetworkByID_Some s id o E) as [Hobj Hid]. exists o. apply elem_of_objs in Hobj as (r & Hr & Ho).
    rewrite (proj1 (so_heap _ _ Hs _ _ Ho)). done.
  - exfalso. apply list_elem_of_fmap in Hin as (r & -> & Hr). apply list_elem_of_fmap in Hr as (o & -> & Ho).
    unfold getNetworkByID in E. apply head_None in E. apply (filter_nil_not_elem_of _ _ o E) in Ho; [done|]. done.
Qed.

Lemma retires_stopped : retires (with_net (set_nw_stopped true)).
Proof. intros o. split_and!; try done. by left. Qed.

Lemma close_bound_fields ref dc :
  dc_id (close_bound ref dc) = dc_id dc /\ dc_network (close_bound ref dc) = dc_network dc.
Proof. unfold close_bound. by case_bool_decide. Qed.

Lemma deleteNetwork_spec id s :
  session_ok s -> id ∈ n_ID <$> recs s ->
  match deleteNetwork id s with
  | (s', Ok _) => session_ok s' /\ recs s' = filter (fun r => n_ID r <> id) (recs s) /\
                  bindings s' = close_clients id <$> bindings s
  | (s', Err _) => unchanged s s'
  | (_, Panic) => False
  end.
Proof.
  intros Hs Hin. destruct (getNetworkByID_ok s id Hs Hin) as (o & Eo & Ho & Hr & Hid).
  unfold deleteNetwork. rewrite bind_gets, Eo. destruct (db_DeleteNetwork id); cbn [negb]; [|done].
  rewrite (bind_ok _ _ s (add_eff [DeleteNetworkDB id] s) tt) by done. set (s0 := add_eff _ s).
  destruct (removeNetwork_run s0 (no_ref o) Hr (so_clients _ _ Hs)) as (s1 & E1 & _ & Eh & En & Ed & Ex).
  rewrite (bind_ok _ _ _ _ _ E1), bind_gets.
  destruct (quiet_for_each (ss_downs s1) (fun dc => sendBouncer dc (fmt_int id) "*") (fun dc => quiet_sendBouncer dc _ _) s1)
    as (s2 & a & E2 & Hc). rewrite E2.
  assert (Hs0 : session_ok s0) by (apply (wf_core [] s); [done|done]).
  destruct (wf_retire [] [] s0 s1 (no_ref o) o _ (close_bound (no_ref o)) Hs0 Hr Ho retires_stopped) as [Hw Hrecs]; try done.
  { apply Forall_forall. intros dc Hdc. destruct (close_bound_fields (no_ref o) dc) as [E3 E4]. split; [done|].
    rewrite E4. intros r Er. pose proof (so_bound _ _ Hs0) as Hb. rewrite Forall_forall in Hb. split; [by apply (Hb dc)|].
    pose proof (so_downs _ _ Hs0) as Hd. rewrite Forall_forall in Hd. unfold close_bound.
    case_bool_decide as Hb'; [by right|]. destruct (Hd dc Hdc r Er) as [Hi|]; [|by right]. left.
    rewrite app_nil_r in Hi |- *. apply without_spec; [apply (so_nodup _ _ Hs0)|done|]. split; [done|]. congruence. }
  split; [by apply (wf_core [] s1)|]. split.
  - rewrite (recs_core _ _ Hc), Hrecs, Hid. by rewrite (recs_core s s0).
  - rewrite (bindings_core _ _ Hc). unfold bindings. rewrite Ed. rewrite <- !list_fmap_compose. apply list_fmap_ext.
    intros i dc Hi. apply list_elem_of_lookup_2 in Hi. cbn. destruct (close_bound_fields (no_ref o) dc) as [E3 E4].
    rewrite (bound_alter s s1 _ (no_ref o) dc _ retires_stopped Eh E4), E3. unfold close_clients. cbn. f_equal.
    pose proof (open_bound s dc (no_ref o) o Hs Hi Hr Ho) as Hiff. rewrite Hid in Hiff. unfold close_bound.
    destruct (dc_closed dc) eqn:Ecl; [by case_bool_decide|]. cbn. specialize (Hiff eq_refl).
    rewrite (bool_decide_ext _ _ Hiff). by case_bool_decide.
Qed.

(** ** Disconnecting a network *)

(** A handler of a network that succeeds and leaves the network alone. *)
Definition keeps_net (t : ust St) (m : handler (ust St) uerror unit) : Prop :=
  is_ok (snd (m t)) = true /\ su_net (fst (m t)) = su_net t.

Lemma run_closed_core ref uc (m : Env -> handler (ust St) uerror unit) s o :
  ss_heap s !! ref = Some o -> no_ref o = ref -> keeps_net (to_ust s o uc false) (m (env_of s)) ->
  exists s', run_closed ref uc m s = (s', Ok tt) /\ same_core s s'.
Proof.
  intros Ho Hr [Hok Hnet]. unfold run_closed. rewrite Ho. destruct (m (env_of s) _) as [t [[]|e|]]; try done.
  eexists. split; [reflexivity|]. unfold same_core; cbn in *. split_and!; try done. subst ref. rewrite Hnet, insert_id; [done|].
  rewrite Ho. by destruct o.
Qed.

Lemma abort_call_ok cmd p dc : pending_msg_ok cmd p -> exists call, abort_call dc (p_msg p) = Ok call.
Proof.
  intros (Hc & Hs & Hp). unfold abort_call. rewrite Hc. clear Hc. unfold supported_commands in Hs.
  assert (Hlast : cmd = "WHOIS" -> exists x, last (Params (p_msg p)) = Some x).
  { intros ->. destruct (last (Params (p_msg p))) eqn:E; [eauto|]. apply last_None in E. destruct Hp; [set_solver|done]. }
  assert (Hhead : cmd ∈ ["REGISTER"; "VERIFY"] -> exists x, head (Params (p_msg p)) = Some x).
  { intros Hin. destruct (head (Params (p_msg p))) eqn:E; [eauto|]. apply head_None in E. destruct Hp; [set_solver|done]. }
  destruct (decide (cmd = "WHOIS")) as [Hw|]; [destruct (Hlast Hw) as [x ->]; subst cmd; by eexists|].
  destruct (decide (cmd ∈ ["REGISTER"; "VERIFY"])) as [Hw|].
  - destruct (Hhead Hw) as [x ->]. repeat (apply elem_of_cons in Hw as [->|Hw]; [by eexists|]). by apply elem_of_nil in Hw.
  - repeat (apply elem_of_cons in Hs as [->|Hs]; [first [done|by eexists|set_solver]|]). by apply elem_of_nil in Hs.
Qed.

Lemma down_keeps_net dc call t : keeps_net t (down dc call).
Proof. done. Qed.

Lemma keeps_net_for_each {A} (l : list A) f t :
  Forall (fun x => forall t, keeps_net t (f x)) l -> keeps_net t (for_each l f).
Proof.
  intros Hl. revert t. induction Hl as [|x l Hx _ IH]; intros t; [done|]. destruct (Hx t) as [H1 H2]. cbn.
  unfold keeps_net, mbind, handler_bind in *. destruct (f x t) as [t' [[]|e|]]; try done. cbn in *. rewrite <- H2. apply IH.
Qed.

Lemma keeps_net_seq (m k : handler (ust St) uerror unit) t :
  keeps_net t m -> (forall t', keeps_net t' k) -> keeps_net t (m;; k).
Proof.
  intros [H1 H2] Hk. unfold keeps_net, mbind, handler_bind in *. destruct (m t) as [t' [[]|e|]]; try done. cbn in *.
  rewrite <- H2. apply Hk.
Qed.

Lemma keeps_net_uc f (k : handler (ust St) uerror unit) t : keeps_net (on_uc f t) k -> keeps_net t (modify_uc f;; k).
Proof. done. Qed.

Lemma abort_keeps_net (EV' : Env) t : pending_ok (uc_pendingCmds (su_uc t)) -> keeps_net t (abortPendingCommands (EV := EV')).
Proof.
  intros Hp. unfold abortPendingCommands, get_uc.
  assert (Hl : Forall (fun kl => forall t, keeps_net t (for_each (snd kl) (fun p =>
    match downstreamByID (EV := EV') (p_downstreamID p) with
    | None => mret tt
    | Some dc => call ← lift (abort_call dc (p_msg p)); down dc (inNewContext call)
    end))) (map_order (uc_pendingCmds (su_uc t)))).
  { apply Forall_forall. intros [cmd l] Hin t'. rewrite map_order_perm in Hin. apply elem_of_map_to_list in Hin.
    apply keeps_net_for_each. eapply Forall_impl; [exact (Hp _ _ Hin)|]. intros p Hpm t2.
    destruct (downstreamByID _) as [dc|]; [|done]. destruct (abort_call_ok cmd p dc Hpm) as [call Hcall]. by rewrite Hcall. }
  apply (keeps_net_seq _ (modify_uc (set_uc_pendingCmds ∅)) t); [|done]. by apply keeps_net_for_each.
Qed.

Definition disconnect (ref : nat) : session St -> session St := on_obj ref (with_conn None).

Lemma handleUpstreamDisconnected_run s ref uc o :
  ss_heap s !! ref = Some o -> no_ref o = ref -> pending_ok (uc_pendingCmds uc) ->
  exists s', handleUpstreamDisconnected ref uc s = (s', Ok tt) /\ same_core (disconnect ref s) s'.
Proof.
  intros Ho Hr Hp. unfold handleUpstreamDisconnected. rewrite bind_modify. fold (disconnect ref).
  set (s1 := disconnect ref s).
  assert (Ho1 : ss_heap s1 !! ref = Some (with_conn None o)) by (cbn; rewrite lookup_alter_eq, Ho; done).
  destruct (run_closed_core ref uc (fun EV =>
    modify_uc stopRegainNickTimer;; abortPendingCommands (EV := EV);; modify_uc stop_timers;;
    forEachDownstream (fun dc => down dc updateSupportedCaps)) s1 _ Ho1 Hr) as (s2 & E2 & Hc).
  { apply keeps_net_uc, keeps_net_seq.
    - by apply abort_keeps_net.
    - intros t'. apply keeps_net_uc. apply keeps_net_for_each, Forall_true. done. }
  rewrite (bind_ok _ _ _ _ _ E2). rewrite bind_gets. unfold Datatypes.id.
  assert (Ho2 : ss_heap s2 !! ref = Some (with_conn None o)) by (by rewrite (proj1 (proj2 Hc))).
  rewrite Ho2.
  match goal with |- exists s', ?m s2 = _ /\ _ => assert (Hq : quiet m) by (repeat quiet_step) end.
  destruct (Hq s2) as (s3 & [] & E3 & Hc3). exists s3. split; [done|]. by eapply same_core_trans.
Qed.

(** ** Updating a network *)

(** The record of the same ID is replaced. *)
Definition replace_rec (record : NetworkRec) (l : list NetworkRec) : list NetworkRec :=
  (fun r => if Z.eqb (n_ID r) (n_ID record) then record else r) <$> l.

Lemma replace_rec_ids record l : n_ID <$> replace_rec record l = n_ID <$> l.
Proof.
  unfold replace_rec. rewrite <- list_fmap_compose. apply list_fmap_ext. intros i r _. cbn.
  destruct (Z.eqb_spec (n_ID r) (n_ID record)); [done|done].
Qed.

Lemma replace_rec_other record l : n_ID record ∉ n_ID <$> l -> replace_rec record l = l.
Proof.
  induction l as [|x l IH]; intros Hn; [done|]. cbn in *. apply not_elem_of_cons in Hn as [Hx Hn].
  rewrite (proj2 (Z.eqb_neq _ _)) by done. f_equal. by apply IH.
Qed.

Lemma replace_rec_perm record l : NoDup (n_ID <$> l) -> n_ID record ∈ n_ID <$> l ->
  replace_rec record l ≡ₚ filter (fun r => n_ID r <> n_ID record) l ++ [record].
Proof.
  induction l as [|x l IH]; intros Hnd Hin; [by apply elem_of_nil in Hin|]. cbn in Hnd. apply NoDup_cons in Hnd as [Hn Hnd].
  rewrite filter_cons. cbn. destruct (Z.eqb_spec (n_ID x) (n_ID record)) as [E|Hne].
  - rewrite decide_False by (intros H; by apply H). fold (replace_rec record l). rewrite E in Hn.
    rewrite replace_rec_other, filter_id; [by rewrite Permutation_app_comm| |done].
    apply Forall_forall. intros r Hr Heq. apply Hn. rewrite <- Heq. by apply list_elem_of_fmap_2.
  - rewrite decide_True by done. cbn. fold (replace_rec record l). f_equiv. apply IH; [done|]. cbn in Hin.
    apply elem_of_cons in Hin as [|]; [congruence|done].
Qed.

Lemma sorted_by_ids l l' : n_ID <$> l = n_ID <$> l' -> StronglySorted Z.lt (n_ID <$> l) -> StronglySorted id_le l'.
Proof. intros E H. rewrite E in H. by apply sorted_lt_le. Qed.

Lemma replace_rec_eq record l l' :
  StronglySorted Z.lt (n_ID <$> l) -> n_ID record ∈ n_ID <$> l ->
  StronglySorted id_le l' -> l' ≡ₚ filter (fun r => n_ID r <> n_ID record) l ++ [record] ->
  l' = replace_rec record l.
Proof.
  intros Hl Hin Hl' Hp. symmetry. apply sorted_perm_eq.
  - eapply (sorted_by_ids l); [by rewrite replace_rec_ids|done].
  - done.
  - rewrite replace_rec_ids. by apply sorted_NoDup.
  - rewrite Hp. apply replace_rec_perm; [by apply sorted_NoDup|done].
Qed.

(** The network of an object without connection changes its case mapping. *)
Lemma run_updateCasemapping s ref o cm :
  ss_heap s !! ref = Some o -> no_conn o = None ->
  exists s', run_net ref (fun EV => updateCasemapping (EV := EV) cm) s = (s', Ok tt) /\
    ss_user s' = ss_user s /\ ss_networks s' = ss_networks s /\ ss_downs s' = ss_downs s /\ ss_next s' = ss_next s /\
    ss_heap s' = <[ref := NetObj ref (recase_net cm (no_net o)) None]> (ss_heap s).
Proof.
  intros Ho Hc. unfold run_net. rewrite Ho, Hc. cbn [is_Some].
  set (t0 := to_ust s o _ _). set (m := updateCasemapping cm).
  assert (Hk : keeps_net (on_net (recase_net cm) t0)
    (forEachDownstream (H0 := env_of s) (fun dc => down dc updateCasemapping_dc))).
  { apply keeps_net_for_each, Forall_true. done. }
  assert (Em : m t0 = forEachDownstream (H0 := env_of s) (fun dc => down dc updateCasemapping_dc) (on_net (recase_net cm) t0)) by done.
  destruct Hk as [Hok Hnet]. rewrite <- Em in Hok, Hnet. destruct (m t0) as [t [[]|e|]]; try done.
  eexists. split; [reflexivity|]. cbn in *. by rewrite Hnet.
Qed.

Definition rebind (old new : nat) (dc : downstreamConn) : downstreamConn :=
  if bool_decide (dc_network dc = Some old) then set_dc_network (Some new) dc else dc.

Lemma rebind_open old new dc : old <> new -> close_bound old (rebind old new dc) = rebind old new dc.
Proof.
  intros Hne. unfold close_bound. rewrite bool_decide_false; [done|]. unfold rebind. case_bool_decide; [|done]. cbn. congruence.
Qed.

Lemma rebind_fields old new dc :
  dc_id (rebind old new dc) = dc_id dc /\ dc_closed (rebind old new dc) = dc_closed dc /\
  dc_network (rebind old new dc) = if bool_decide (dc_network dc = Some old) then Some new else dc_network dc.
Proof. unfold rebind. by case_bool_decide. Qed.

(** The old object is stopped, disconnected and taken off the list after its
    clients were given the new one. *)
Lemma update_retire {A} s old o ref (k : unit -> U A) :
  session_ok s -> old ∈ ss_networks s -> ss_heap s !! old = Some o -> old <> ref ->
  exists s' f, retires f /\ ss_heap s' = alter f old (ss_heap s) /\ ss_networks s' = without old (ss_networks s) /\
    ss_downs s' = rebind old ref <$> ss_downs s /\ ss_next s' = ss_next s /\
    (stop_network old;;
     match no_conn o with Some uc => handleUpstreamDisconnected old uc | None => mret tt end;;
     modify (patch_downs old ref);; removeNetwork old ≫= k) s = k tt s'.
Proof.
  intros Hs Hin Ho Hne. unfold stop_network at 1. rewrite bind_modify.
  set (s2 := on_obj old (with_net (set_nw_stopped true)) s).
  assert (Hdis : exists s3 f, retires f /\ ss_heap s3 = alter f old (ss_heap s) /\ ss_networks s3 = ss_networks s /\
    ss_downs s3 = ss_downs s /\ ss_next s3 = ss_next s /\
    match no_conn o with Some uc => handleUpstreamDisconnected old uc | None => mret tt end s2 = (s3, Ok tt)).
  { destruct (no_conn o) as [uc|] eqn:Ec.
    - destruct (handleUpstreamDisconnected_run s2 old uc (with_net (set_nw_stopped true) o)) as (s3 & E3 & Hc).
      + cbn. by rewrite lookup_alter_eq, Ho.
      + exact (proj1 (so_heap _ _ Hs _ _ Ho)).
      + exact (so_conns _ _ Hs _ _ Ho uc Ec).
      + destruct Hc as (_ & Eh & En & Ed & Ex).
        exists s3, (fun o => with_conn None (with_net (set_nw_stopped true) o)). split_and!; try done.
        * intros o'. split_and!; try done. by right.
        * rewrite Eh. cbn. by rewrite alter_alter_eq.
    - exists s2, (with_net (set_nw_stopped true)). split_and!; try done. apply retires_stopped. }
  destruct Hdis as (s3 & f & Hf & Eh & En & Ed & Ex & E3). rewrite (bind_ok _ _ _ _ _ E3), bind_modify.
  set (s4 := patch_downs old ref s3).
  destruct (removeNetwork_run s4 old) as (s5 & E5 & _ & Eh5 & En5 & Ed5 & Ex5).
  { unfold s4. cbn. by rewrite En. }
  { cbn. rewrite Ed, <- list_fmap_compose. erewrite list_fmap_ext; [apply (so_clients _ _ Hs)|].
    intros i dc _. apply (rebind_fields old ref dc). }
  exists s5, (fun o => with_net (set_nw_stopped true) (f o)). split_and!.
  - intros o'. destruct (Hf o') as (A1 & A2 & A3). done.
  - rewrite Eh5. cbn. by rewrite Eh, alter_alter_eq.
  - rewrite En5. cbn. by rewrite En.
  - rewrite Ed5. cbn. rewrite Ed, <- list_fmap_compose. apply list_fmap_ext. intros i dc _. by apply rebind_open.
  - by rewrite Ex5.
  - by rewrite (bind_ok _ _ _ _ _ E5).
Qed.

Lemma wf_weaken extra extra' s : wf extra s -> extra ⊆ extra' -> wf extra' s.
Proof.
  intros [A1 A2 A3 A4 A5 A6 A7 A8 A9 A10] Hx. constructor; try done. eapply Forall_impl; [exact A7|].
  intros dc Hdc r Hr. destruct (Hdc r Hr); [left; set_solver|by right].
Qed.

(** The clients after their network was replaced by one with the same ID. *)
Lemma rebind_bound s s' old ref o o' f dc :
  retires f -> old <> ref -> ss_heap s !! old = Some o -> n_ID (rec_of o') = n_ID (rec_of o) ->
  (forall r, dc_network dc = Some r -> r <> ref) ->
  ss_heap s' = <[ref := o']> (alter f old (ss_heap s)) -> bound s' (rebind old ref dc) = bound s dc.
Proof.
  intros Hf Hne Ho Hid Hdc Eh. unfold bound. rewrite (proj2 (proj2 (rebind_fields old ref dc))).
  case_bool_decide as Eb; cbn.
  - rewrite Eb, Eh. cbn. rewrite lookup_insert_eq, Ho. cbn. by rewrite Hid.
  - destruct (dc_network dc) as [r|] eqn:Er; [|done]. cbn. specialize (Hdc r eq_refl). rewrite Eh, lookup_insert_ne by done.
    by rewrite lookup_alter_ne by congruence.
Qed.

Lemma transfer_fields old new : nw_rec (transfer old new) = nw_rec new /\ nw_stopped (transfer old new) = nw_stopped new.
Proof. unfold transfer. by destruct (n_Enabled _). Qed.

(** The new object takes over from the old one and joins the list. *)
Lemma update_join s ref o old record :
  wf [ref] s -> ss_heap s !! ref = Some o -> no_ref o = ref -> no_conn o = None -> nw_stopped (no_net o) = false ->
  ref ∉ ss_networks s -> 0 < n_ID (rec_of o) -> n_ID (rec_of o) ∉ n_ID <$> recs s -> GetName (rec_of o) ∉ GetName <$> recs s ->
  exists s' o',
    (modify (on_obj ref (with_net (transfer (no_net old))));;
     run_net ref (fun EV => updateCasemapping (EV := EV) (nw_casemap (no_net old)));;
     when (store_renames && negb (bool_decide (GetName record = GetName (nw_rec (no_net old)))))
       (uemit (RenameNetwork (nw_rec (no_net old)) record));;
     addNetwork ref;;
     s ← gets id;
     match ss_heap s !! ref with
     | None => panic
     | Some o => notifyBouncerNetworkState (n_ID record) (net_attrs s o);; mret ref
     end) s = (s', Ok ref) /\
    session_ok s' /\ recs s' ≡ₚ recs s ++ [rec_of o] /\ ss_downs s' = ss_downs s /\
    ss_heap s' = <[ref := o']> (ss_heap s) /\ rec_of o' = rec_of o.
Proof.
  intros Hs Ho Href Hc Hst Hn Hpos Hid Hname. rewrite bind_modify. set (s3 := on_obj _ _ s).
  set (o3 := with_net (transfer (no_net old)) o).
  assert (Eh3 : ss_heap s3 = <[ref := o3]> (ss_heap s)) by (cbn; rewrite <- (insert_id _ _ _ Ho) at 1; by rewrite alter_insert_eq).
  destruct (run_updateCasemapping s3 ref o3 (nw_casemap (no_net old))) as (s4 & E4 & Eu4 & En4 & Ed4 & Ex4 & Eh4).
  { rewrite Eh3. apply lookup_insert_eq. } { exact Hc. }
  rewrite (bind_ok _ _ _ _ _ E4). set (o4 := NetObj ref _ None) in Eh4. rewrite Eh3, insert_insert_eq in Eh4.
  assert (Hr4 : rec_of o4 = rec_of o) by exact (proj1 (transfer_fields _ _)).
  assert (Hst4 : nw_stopped (no_net o4) = false) by (etrans; [exact (proj2 (transfer_fields _ _))|done]).
  destruct (wf_set_rec [ref] s s4 ref o4 Hs Hn eq_refl eq_refl (ex_intro _ _ Ho) Eu4 En4 Ed4 Ex4 Eh4) as [Hs4 Hrecs4].
  destruct (quiet_run (when (store_renames && negb (bool_decide (GetName record = GetName (nw_rec (no_net old)))))
       (uemit (RenameNetwork (nw_rec (no_net old)) record))) (fun _ => addNetwork ref;;
     s ← gets id;
     match ss_heap s !! ref with
     | None => panic
     | Some o => notifyBouncerNetworkState (n_ID record) (net_attrs s o);; mret ref
     end) s4) as (s5 & _ & Hc5 & ->); [by repeat quiet_step|].
  destruct (addNetwork_run s5 ref) as (s6 & E6 & Eu6 & Eh6 & Ed6 & Ex6 & Hp6 & Hsort). rewrite (bind_ok _ _ _ _ _ E6).
  pose proof (wf_core _ _ _ Hc5 Hs4) as Hs5. pose proof (recs_core _ _ Hc5) as Hrecs5.
  destruct Hc5 as (_ & Eh5 & En5 & Ed5 & _).
  assert (Ho5 : ss_heap s5 !! ref = Some o4) by (rewrite Eh5, Eh4; apply lookup_insert_eq).
  rewrite Hrecs4 in Hrecs5. rewrite <- Hrecs5 in Hid, Hname. rewrite <- Hr4 in Hpos, Hid, Hname.
  destruct (wf_add [] s5 s6 ref o4 Hs5 Ho5 Hst4) as [Hs6 Hr6]; try done; [by rewrite En5, En4|].
  rewrite bind_gets. unfold Datatypes.id. rewrite Eh6, Ho5.
  destruct (quiet_run (notifyBouncerNetworkState (n_ID record) (net_attrs s6 o4)) (fun _ => mret ref) s6
              (quiet_notify _ _)) as (s7 & a & Hc7 & ->).
  exists s7, o4. split_and!; [done|by apply (wf_core [] s6)| | | |done].
  - by rewrite (recs_core _ _ Hc7), Hr6, Hrecs5, Hr4.
  - destruct Hc7 as (_ & _ & _ & Ed7 & _). by rewrite Ed7, Ed6, Ed5, Ed4.
  - destruct Hc7 as (_ & Eh7 & _). by rewrite Eh7, Eh6, Eh5, Eh4.
Qed.

Lemma updateNetwork_spec record lim s :
  session_ok s -> n_ID record <> 0 -> n_ID record ∈ n_ID <$> recs s ->
  match updateNetwork record lim s with
  | (s', Ok _) => session_ok s' /\ bindings s' = bindings s /\
                  recs s' = replace_rec (reset_defaults (ss_user s) record) (recs s)
  | (s', Err _) => unchanged s s'
  | (_, Panic) => False
  end.
Proof.
  intros Hs Hid Hin. unfold updateNetwork. rewrite (proj2 (Z.eqb_neq _ _) Hid), when_require_bind.
  destruct (if lim && n_Enabled record then canEnableNewNetwork s else None); [done|].
  rewrite bind_gets. set (rec := reset_defaults (ss_user s) record).
  assert (Hrid : n_ID rec = n_ID record) by done. rewrite require_bind.
  destruct (checkNetwork s rec) eqn:Ec; [done|]. apply checkNetwork_name in Ec. rewrite bind_gets.
  destruct (getNetworkByID_ok s (n_ID rec) Hs Hin) as (o & -> & Ho & Hr & Hoid).
  unfold storeNetwork. destruct (db_StoreNetwork rec) as [id|]; [|done].
  rewrite (proj2 (Z.eqb_neq (n_ID rec) 0) Hid). set (old := no_ref o) in *.
  set (s0 := add_eff [StoreNetworkRec rec] s). rewrite (bind_ok _ _ s s0 rec) by done.
  assert (Hs0 : session_ok s0) by (by apply (wf_core [] s)).
  set (o1 := NetObj (ss_next s) (newNetwork rec (value <$> iter (nw_channels (no_net o))) (ignoresSnapshot (no_net o))) None).
  set (s1 := Session (ss_user s0) (<[ss_next s := o1]> (ss_heap s0)) (ss_networks s0) (ss_downs s0) (ss_store s0) (S (ss_next s)) (ss_eff s0)).
  rewrite (bind_ok _ _ s0 s1 (ss_next s)) by done. set (ref := ss_next s) in *.
  destruct (wf_alloc s0 s1 rec _ _ Hs0 eq_refl eq_refl eq_refl eq_refl eq_refl) as (Hs1 & Hn1 & Hr1 & Hb1).
  fold ref in Hn1.
  assert (Hne : old <> ref). { intros E. destruct (so_heap _ _ Hs _ _ Ho) as [_ Hlt]. unfold ref in E. lia. }
  assert (Ho1 : ss_heap s1 !! old = Some o). { unfold s1. cbn. by rewrite lookup_insert_ne by done. }
  match goal with |- context [stop_network old;; ?m] =>
    match m with _ ;; (_ ;; (removeNetwork old ≫= ?k)) => destruct (update_retire s1 old o ref k Hs1 Hr Ho1 Hne)
      as (s2 & f & Hf & Eh2 & En2 & Ed2 & Ex2 & E2) end end.
  rewrite E2. clear E2.
  destruct (wf_retire [] [ref] s1 s2 old o f (rebind old ref) Hs1 Hr Ho1 Hf) as [Hs2 Hr2]; try done.
  { apply Forall_forall. intros dc Hdc. destruct (rebind_fields old ref dc) as (A1 & A2 & A3). split; [done|]. rewrite A2, A3.
    pose proof (so_bound _ _ Hs1) as Hb. pose proof (so_downs _ _ Hs1) as Hd. rewrite Forall_forall in Hb, Hd.
    case_bool_decide as Eb.
    - intros r [= <-]. split; [unfold s1; cbn; rewrite lookup_insert_eq; by eexists|]. left. set_solver.
    - intros r Er. split; [by apply (Hb dc)|]. destruct (Hd dc Hdc r Er) as [Hi|]; [|by right]. left.
      apply elem_of_app. left. rewrite app_nil_r in Hi. apply without_spec; [apply (so_nodup _ _ Hs1)|done|].
      split; [done|congruence]. }
  rewrite bind_gets, Eh2, lookup_alter_eq, Ho1. cbn [fmap option_fmap option_map].
  assert (Hnew2 : ss_heap s2 !! ref = Some o1).
  { rewrite Eh2, lookup_alter_ne by done. unfold s1. cbn. apply lookup_insert_eq. }
  destruct (update_join s2 ref o1 (f o) rec Hs2 Hnew2) as (s' & o' & E' & Hs' & Hrecs' & Ed' & Eh' & Hro'); try done.
  { rewrite En2. intros Hi. apply Hn1. by eapply elem_of_sublist; [|apply remove_first_sublist]. }
  { pose proof (so_positive _ _ Hs) as Hp. rewrite Forall_forall in Hp. apply list_elem_of_fmap in Hin as (r & Er & Hin).
    change (n_ID (rec_of o1)) with (n_ID record). rewrite Er. auto. }
  { rewrite Hr2, Hoid. intros (r & Er & [Hf' _]%list_elem_of_filter)%list_elem_of_fmap. by apply Hf'. }
  { rewrite Hr2, Hoid. intros (r & Er & [Hf' Hin']%list_elem_of_filter)%list_elem_of_fmap. apply Hf'.
    rewrite Hr1 in Hin'. rewrite Forall_forall in Ec. by apply (Ec r). }
  rewrite E'. split; [done|]. split.
  - change (bindings s) with (bindings s0). rewrite <- Hb1. unfold bindings. rewrite Ed', Ed2, <- list_fmap_compose. apply list_fmap_ext. intros i dc Hi. cbn.
    apply list_elem_of_lookup_2 in Hi. destruct (rebind_fields old ref dc) as (-> & -> & _). f_equal. f_equal.
    apply (rebind_bound s1 s' old ref o o' f); try done; [by rewrite Hro', Hoid| |by rewrite Eh', Eh2].
    intros r Er ->. pose proof (so_bound _ _ Hs) as Hb. rewrite Forall_forall in Hb. destruct (Hb dc Hi ref Er) as [x Hx].
    destruct (so_heap _ _ Hs _ _ Hx). unfold ref in *. lia.
  - apply replace_rec_eq; [apply (so_sorted _ _ Hs)|by rewrite Hrid|apply sorted_lt_le, (so_sorted _ _ Hs')|].
    rewrite Hrecs', Hr2, Hoid, Hr1. done.
Qed.

(** ** Updating the user *)

(** The identity of each network. *)
Definition idents s : list (Z * string) := (fun r => (n_ID r, GetName r)) <$> recs s.

Lemma idents_ids s : n_ID <$> recs s = (idents s).*1.
Proof. unfold idents. rewrite <- list_fmap_compose. by apply list_fmap_ext. Qed.

(** A network keeps its record when a message is sent on its connection. *)
Lemma run_send_core ref msg s o :
  ss_heap s !! ref = Some o -> no_ref o = ref ->
  exists s', run_net ref (fun _ => uc_SendMessage msg) s = (s', Ok tt) /\ same_core s s'.
Proof.
  intros Ho Hr. unfold run_net. rewrite Ho. set (t := to_ust s o _ _).
  assert (Hsend : exists t', uc_SendMessage (St := St) msg t = (t', Ok tt) /\ su_net t' = su_net t /\ su_uc t' = su_uc t).
  { unfold uc_SendMessage. rewrite (bind_ok _ _ t t (uc_caps (su_uc t))) by done. by eexists. }
  destruct Hsend as (t' & -> & Hn & Hu). eexists. split; [reflexivity|]. split_and!; try done. cbn.
  rewrite Hn, Hu, insert_id; [done|]. rewrite Ho. subst ref. destruct o as [r n [c|]]; done.
Qed.

Lemma needs_update_core u b1 b2 s o :
  ss_heap s !! no_ref o = Some o -> exists s' b, needs_update u b1 b2 o s = (s', Ok b) /\ same_core s s'.
Proof.
  intros Ho. unfold needs_update. destruct (b1 && negb b2); [|by eexists _, _].
  destruct (nonempty _); [by eexists _, _|]. destruct (no_conn o) as [uc|]; [|by eexists _, _].
  destruct (IsEnabled _ _); [|by eexists _, _].
  destruct (run_send_core (no_ref o) (mk_msg "SETNAME" [GetRealname u (Some (nw_rec (no_net o)))]) s o Ho eq_refl) as (s' & E & Hc).
  rewrite (bind_ok _ _ _ _ _ E). by eexists _, _.
Qed.

Lemma collect_updates_core u b1 b2 l s :
  Forall (fun o => ss_heap s !! no_ref o = Some o) l ->
  exists s' l', collect_updates u b1 b2 l s = (s', Ok l') /\ same_core s s' /\ l' `sublist_of` (rec_of <$> l).
Proof.
  intros Hl. revert s Hl. induction l as [|o l IH]; intros s Hl; [by eexists _, _|].
  apply Forall_cons in Hl as [Ho Hl]. cbn. destruct (needs_update_core u b1 b2 s o Ho) as (s1 & b & E1 & Hc1).
  rewrite (bind_ok _ _ _ _ _ E1). destruct (IH s1) as (s2 & l2 & E2 & Hc2 & Hsub); [by rewrite (proj1 (proj2 Hc1))|].
  rewrite (bind_ok _ _ _ _ _ E2). eexists _, _. split; [reflexivity|]. split; [by eapply same_core_trans|].
  destruct b; [by apply sublist_skip|by apply sublist_cons].
Qed.

(** The names of the networks survive the update of a record under the same
    name. *)
Lemma replace_rec_idents record l :
  (n_ID record, GetName record) ∈ (fun r => (n_ID r, GetName r)) <$> l -> NoDup (n_ID <$> l) ->
  (fun r => (n_ID r, GetName r)) <$> replace_rec record l = (fun r => (n_ID r, GetName r)) <$> l.
Proof.
  intros (r0 & E & Hin)%list_elem_of_fmap Hnd. injection E as E1 E2. unfold replace_rec. rewrite <- list_fmap_compose.
  apply list_fmap_ext. intros i r Hi. cbn. destruct (Z.eqb_spec (n_ID r) (n_ID record)) as [E|]; [|done].
  apply list_elem_of_lookup_1 in Hin as [j Hj]. assert (i = j) as ->.
  { eapply NoDup_lookup; [exact Hnd|by rewrite list_lookup_fmap, Hi|]. rewrite list_lookup_fmap, Hj. cbn. congruence. }
  rewrite Hi in Hj. congruence.
Qed.

Lemma update_all_spec l s err :
  session_ok s -> Forall (fun r => (n_ID r, GetName r) ∈ idents s) l ->
  exists s' err', update_all l err s = (s', Ok err') /\ session_ok s' /\ idents s' = idents s /\ bindings s' = bindings s.
Proof.
  intros Hs Hl. revert s err Hs Hl. induction l as [|r l IH]; intros s err Hs Hl; [by eexists _, _|].
  apply Forall_cons in Hl as [Hr Hl]. cbn.
  assert (Hin : n_ID r ∈ n_ID <$> recs s). { rewrite idents_ids. by apply (list_elem_of_fmap_2 fst) in Hr. }
  assert (H0 : n_ID r <> 0).
  { apply list_elem_of_fmap in Hin as (r' & -> & Hr'). pose proof (so_positive _ _ Hs) as Hp. rewrite Forall_forall in Hp.
    specialize (Hp r' Hr'). lia. }
  pose proof (updateNetwork_spec r false s Hs H0 Hin) as Hspec. destruct (updateNetwork r false s) as [s1 [ref|e|]]; [| |done].
  - destruct Hspec as (Hs1 & Hb1 & Hr1). assert (Hi1 : idents s1 = idents s).
    { unfold idents in *. rewrite Hr1. apply replace_rec_idents; [done|]. apply sorted_NoDup, (so_sorted _ _ Hs). }
    destruct (IH s1 err Hs1) as (s2 & e2 & E2 & A1 & A2 & A3); [by rewrite Hi1|]. exists s2, e2.
    split_and!; [done|done|congruence|congruence].
  - destruct Hspec as (Hs1 & Hr1 & Hb1). assert (Hi1 : idents s1 = idents s) by (unfold idents; by rewrite Hr1).
    destruct (IH s1 (Some e) Hs1) as (s2 & e2 & E2 & A1 & A2 & A3); [by rewrite Hi1|]. exists s2, e2.
    split_and!; [done|done|congruence|congruence].
Qed.

Lemma obj_at extra s : wf extra s -> Forall (fun o => ss_heap s !! no_ref o = Some o) (objs s).
Proof.
  intros Hs. apply Forall_forall. intros o (r & _ & Ho)%elem_of_objs. by rewrite (proj1 (so_heap _ _ Hs _ _ Ho)).
Qed.

(** The steps of [updateUser] that send NICK. *)
Lemma send_nicks_core record l s :
  Forall (fun o => ss_heap s !! no_ref o = Some o) l ->
  exists s', for_each l (fun o =>
     if nonempty (n_Nick (nw_rec (no_net o))) then mret tt
     else match no_conn o with
          | None => mret tt
          | Some _ => run_net (no_ref o) (fun _ => uc_SendMessage (mk_msg "NICK" [GetNick record (Some (nw_rec (no_net o)))]))
          end) s = (s', Ok tt) /\ same_core s s'.
Proof.
  intros Hl. revert s Hl. induction l as [|o l IH]; intros s Hl; [by eexists|]. apply Forall_cons in Hl as [Ho Hl]. cbn.
  match goal with |- context [(?m ≫= _) s] => assert (Hm : exists s1, m s = (s1, Ok tt) /\ same_core s s1) end.
  { destruct (nonempty _); [by eexists|]. destruct (no_conn o); [|by eexists]. by apply run_send_core with o. }
  destruct Hm as (s1 & E1 & Hc1). rewrite (bind_ok _ _ _ _ _ E1).
  destruct (IH s1) as (s2 & E2 & Hc2); [by rewrite (proj1 (proj2 Hc1))|]. exists s2. split; [done|]. by eapply same_core_trans.
Qed.

(** All clients are closed. *)
Definition close_all (b : Z * option Z * bool) : Z * option Z * bool := (b.1, true).

Lemma close_downs_wf s : session_ok s ->
  exists s', for_each (ss_downs s) udown_close s = (s', Ok tt) /\ session_ok s' /\ recs s' = recs s /\
             bindings s' = close_all <$> bindings s.
Proof.
  intros Hs. destruct (close_loop (ss_downs s) s) as (s' & E & Eu & Eh & En & Ex & Ed). exists s'. split; [done|].
  assert (Ed' : ss_downs s' = set_dc_closed true <$> ss_downs s).
  { rewrite Ed. apply list_fmap_ext. intros i d Hd. rewrite bool_decide_true; [done|]. apply list_elem_of_fmap_2.
    by eapply list_elem_of_lookup_2. }
  assert (Hr : recs s' = recs s) by (unfold recs, objs; by rewrite Eh, En).
  destruct Hs as [A1 A2 A3 A4 A5 A6 A7 A8 A9 A10]. split_and!; [|done|].
  - constructor; rewrite ?Hr, ?Eh, ?En, ?Ex; try done; rewrite Ed'.
    + apply Forall_fmap, Forall_true. intros dc r _. by right.
    + rewrite <- list_fmap_compose. exact A8.
    + apply Forall_fmap. exact A9.
  - unfold bindings. rewrite Ed', <- !list_fmap_compose. apply list_fmap_ext. intros i dc _. cbn. unfold bound. by rewrite Eh.
Qed.

(** *** The user's record *)

Definition same_user (u : UserRec) s : Prop := ss_user s = u.

Lemma user_run_net {A} u ref (m : Env -> handler (ust St) uerror A) : keeps (same_user u) (run_net ref m).
Proof. intros s Hs. unfold run_net. destruct (ss_heap s !! ref); [|done]. by destruct (m _ _). Qed.
Lemma user_run_closed {A} u ref uc (m : Env -> handler (ust St) uerror A) : keeps (same_user u) (run_closed ref uc m).
Proof. intros s Hs. unfold run_closed. destruct (ss_heap s !! ref); [|done]. by destruct (m _ _). Qed.
Lemma user_quiet {A} u (m : U A) : quiet m -> keeps (same_user u) m.
Proof. intros Hm s Hs. destruct (Hm s) as (s' & a & -> & Hc & _). unfold same_user in *. cbn. congruence. Qed.
Lemma user_require u check : keeps (same_user u) (require (St := St) check).
Proof. intros s Hs. unfold require, mbind, handler_bind, gets. by destruct (check s). Qed.

Ltac keeps_user :=
  repeat match goal with
  | |- keeps _ (_ ≫= _) => apply keeps_bind; [|intros ?]
  | |- keeps _ (when _ _) => apply keeps_when
  | |- keeps _ (for_each _ _) => apply keeps_for_each; intros ?
  | |- keeps _ (mret _) => apply keeps_ret
  | |- keeps _ (raise _) => apply keeps_raise
  | |- keeps _ panic => apply keeps_panic
  | |- keeps _ (gets _) => apply keeps_gets
  | |- keeps _ (modify _) => apply keeps_modify; intros ? ?; assumption
  | |- keeps _ (uemit _) => apply user_quiet, quiet_emit
  | |- keeps _ (require _) => apply user_require
  | |- keeps _ (run_net _ _) => apply user_run_net
  | |- keeps _ (run_closed _ _ _) => apply user_run_closed
  | |- keeps _ (notifyBouncerNetworkState _ _) => apply user_quiet, quiet_notify
  | |- keeps _ (udown _ _) => apply user_quiet, quiet_emit
  | |- keeps _ (if ?b then _ else _) => destruct b
  | |- keeps _ (match ?x with _ => _ end) => destruct x
  end.

Lemma user_updateNetwork u record lim : keeps (same_user u) (updateNetwork (St := St) record lim).
Proof.
  unfold updateNetwork, storeNetwork, alloc_network, handleUpstreamDisconnected, removeNetwork, stop_network, addNetwork,
    udown_close. keeps_user.
Qed.
Lemma user_createNetwork u record lim : keeps (same_user u) (createNetwork (St := St) record lim).
Proof. unfold createNetwork, storeNetwork, alloc_network, addNetwork. keeps_user. Qed.
Lemma user_deleteNetwork u id : keeps (same_user u) (deleteNetwork (St := St) id).
Proof. unfold deleteNetwork, removeNetwork, stop_network, udown_close, sendBouncer. keeps_user. Qed.

Lemma user_close u l : keeps (same_user u) (for_each l (udown_close (St := St))).
Proof. unfold udown_close. keeps_user. Qed.

Lemma user_update_all u l err : keeps (same_user u) (update_all (St := St) l err).
Proof.
  revert err; induction l as [|r l IH]; intros err s Hs; [done|]. cbn.
  pose proof (user_updateNetwork u r false s Hs) as H1. destruct (updateNetwork r false s) as [s1 [ref|e|]]; cbn in *; [by apply IH|by apply IH|done].
Qed.

Lemma wf_set_user u s : session_ok s -> session_ok (set_user u s).
Proof. intros [A1 A2 A3 A4 A5 A6 A7 A8 A9 A10]. by constructor. Qed.

(** The networks of a session that must be updated are its own. *)
Lemma updates_known s l : l `sublist_of` (rec_of <$> objs s) -> Forall (fun r => (n_ID r, GetName r) ∈ idents s) l.
Proof.
  intros Hsub. apply Forall_forall. intros r Hr. unfold idents, recs. apply list_elem_of_fmap. exists r. split; [done|].
  by eapply elem_of_sublist.
Qed.

Lemma updateUser_spec update s :
  session_ok s -> (forall u, update u <> Panic) ->
  match updateUser update s with
  | (s', Ok _) => session_ok s' /\ idents s' = idents s /\ update (ss_user s) = Ok (ss_user s') /\
                  bindings s' = if u_Enabled (ss_user s') then bindings s else close_all <$> bindings s
  | (s', Err _) => session_ok s' /\ idents s' = idents s /\ bindings s' = bindings s
  | (_, Panic) => False
  end.
Proof.
  intros Hs Hup. unfold updateUser. rewrite bind_gets. destruct (update (ss_user s)) as [rec|e|] eqn:Eu; [|done|by apply Hup in Eu].
  rewrite (bind_ok _ _ s s rec) by done. destruct (db_StoreUser rec); cbn [negb]; [|done].
  rewrite (bind_ok _ _ s (add_eff [StoreUserDB rec] s) tt) by done. rewrite bind_modify. set (s0 := set_user rec _).
  assert (Hs0 : session_ok s0) by (by apply wf_set_user, (wf_core [] s)).
  rewrite bind_gets. pose proof (obj_at _ _ Hs0) as Hobj.
  match goal with |- context [(when _ ?m ≫= ?k) s0] => assert (H1 : exists s1, same_core s0 s1 /\ (when (negb (bool_decide (u_Nick (ss_user s) = u_Nick rec))) m ≫= k) s0 = k tt s1) end.
  { destruct (negb (bool_decide (u_Nick _ = _))); [|by exists s0]. destruct (send_nicks_core rec (objs s0) s0 Hobj) as (s1 & E1 & Hc).
    exists s1. split; [done|]. unfold when. by rewrite (bind_ok _ _ _ _ _ E1). }
  destruct H1 as (s1 & Hc1 & ->).
  pose proof (wf_core _ _ _ Hc1 Hs0) as Hs1. assert (Ho1 : objs s1 = objs s0) by by apply objs_core.
  rewrite <- Ho1. clear Hobj. pose proof (obj_at _ _ Hs1) as Hobj. assert (Hu1 : ss_user s1 = rec) by exact (proj1 Hc1).
  assert (Hi1 : idents s1 = idents s) by (unfold idents; by rewrite (recs_core _ _ Hc1)).
  assert (Hb1 : bindings s1 = bindings s) by (by rewrite (bindings_core _ _ Hc1)).
  clear Hc1 Hs0 Ho1. clearbody s0. clear s0.
  set (b1 := negb (bool_decide (u_Realname (ss_user s) = u_Realname rec))).
  set (b2 := negb (Bool.eqb (u_Enabled (ss_user s)) (u_Enabled rec))).
  match goal with |- context [(when (b1 || b2) ?m ≫= ?k) s1] => assert (H2 : exists s2 r, same_user rec s2 /\ session_ok s2 /\
    idents s2 = idents s /\ bindings s2 = bindings s /\ (when (b1 || b2) m ≫= k) s1 = match r with None => k tt s2 | Some e => (s2, Err e) end) end.
  { destruct (b1 || b2); [|by exists s1, None]. unfold when.
    destruct (collect_updates_core rec b1 b2 (objs s1) s1 Hobj) as (s2 & l & E2 & Hc2 & Hsub).
    pose proof (wf_core _ _ _ Hc2 Hs1) as Hs2. rewrite <- (objs_core _ _ Hc2) in Hsub.
    destruct (update_all_spec l s2 None Hs2 (updates_known _ _ Hsub)) as (s3 & err & E3 & A1 & A2 & A3).
    exists s3, err. split_and!; [|done| | |].
    - pose proof (user_update_all rec l None s2) as Hk. rewrite E3 in Hk. apply Hk. unfold same_user. by rewrite (proj1 Hc2).
    - rewrite A2. unfold idents in *. by rewrite (recs_core _ _ Hc2).
    - by rewrite A3, (bindings_core _ _ Hc2).
    - unfold mbind, handler_bind. rewrite E2, E3. by destruct err. }
  destruct H2 as (s2 & [e|] & Hu2 & Hs2 & Hi2 & Hb2 & ->); [done|]. unfold same_user in Hu2. clear Hu1. subst rec.
  destruct (u_Enabled (ss_user s2)) eqn:Een; cbn [negb when].
  - cbn. by rewrite Een.
  - rewrite bind_gets. pose proof (user_close (ss_user s2) (ss_downs s2) s2 eq_refl) as Hu3.
    destruct (close_downs_wf s2 Hs2) as (s3 & E3 & A1 & A2 & A3). rewrite E3 in Hu3 |- *. unfold same_user in Hu3. cbn in Hu3.
    rewrite Hu3, Een. split_and!; [done| |done|by rewrite A3, Hb2]. rewrite <- Hi2. unfold idents. by rewrite A2.
Qed.

End Refinement.
