(* ===== verification/UserRefinement.v ===== *)
(** * The networks of a user (user.go): abstract specification

    A user promises a list of network records sorted by ID with distinct names,
    and that every client stays on its network until that network is deleted or
    the user is disabled. The heap of network objects, the connections and the
    pointers of the clients implement it. *)

From stdpp Require Import base list gmap strings sorting.
From Stdlib Require Import ZArith Ascii.
From S2P Require Import Prelude GoStrings GoText Casemapping Xirc Genmsg Irc Rate Database.
From S2P Require Import Handler Session Network Pending Upstream UpstreamSafety User UserNetworks.

Local Open Scope Z_scope.

(** ** The specification *)

Record desk := Desk {
  dk_user : UserRec;
  dk_nets : list NetworkRec;
  (** the clients: ID, network ID, closed *)
  dk_clients : list (Z * option Z * bool)
}.

Inductive uop :=
| OpCreate (record : NetworkRec) (enforceLimit : bool)
| OpUpdate (record : NetworkRec) (enforceLimit : bool)
| OpDelete (id : Z)
| OpUser (update : UserRec -> res user_error UserRec).

Definition ident_of (r : NetworkRec) : Z * string := (n_ID r, GetName r).

(** What a successful operation does. *)
Inductive desk_step : uop -> desk -> desk -> Prop :=
| desk_create record lim u nets clients id :
    0 < id -> id ∉ n_ID <$> nets ->
    desk_step (OpCreate record lim) (Desk u nets clients) (Desk u (insert_rec (with_ID record id) nets) clients)
| desk_update record lim u nets clients :
    desk_step (OpUpdate record lim) (Desk u nets clients) (Desk u (replace_rec (reset_defaults u record) nets) clients)
| desk_delete id u nets clients :
    desk_step (OpDelete id) (Desk u nets clients)
      (Desk u (filter (fun r => n_ID r <> id) nets) (close_clients id <$> clients))
| desk_user update u u' nets nets' clients :
    update u = Ok u' -> ident_of <$> nets' = ident_of <$> nets ->
    desk_step (OpUser update) (Desk u nets clients)
      (Desk u' nets' (if u_Enabled u' then clients else close_all <$> clients)).

(** What an operation that returns an error does: nothing, except that an
    update of the user may have updated some of its networks. *)
Inductive desk_fail : uop -> desk -> desk -> Prop :=
| desk_fail_op op d : desk_fail op d d
| desk_fail_user update u u' nets nets' clients :
    ident_of <$> nets' = ident_of <$> nets ->
    desk_fail (OpUser update) (Desk u nets clients) (Desk u' nets' clients).

Inductive desk_run : desk -> list (uop * bool) -> desk -> Prop :=
| desk_nil d : desk_run d [] d
| desk_ok d op d' tr d'' : desk_step op d d' -> desk_run d' tr d'' -> desk_run d ((op, true) :: tr) d''
| desk_err d op d' tr d'' : desk_fail op d d' -> desk_run d' tr d'' -> desk_run d ((op, false) :: tr) d''.

Section Runs.
Context {St : Type} {HSt : Store St} {MO : MapOrder} {UN : Unicode}.
Implicit Type s : session St.

Definition abs s : desk := Desk (ss_user s) (recs s) (bindings s).

Definition exec (EV : Env) (UE : UserEnv) (op : uop) : handler (session St) user_error unit :=
  match op with
  | OpCreate record lim => _ ← createNetwork record lim; mret tt
  | OpUpdate record lim => _ ← updateNetwork record lim; mret tt
  | OpDelete id => deleteNetwork id
  | OpUser update => updateUser update
  end.

(** What the callers of the operations ensure, and that the database gives new
    records new IDs. *)
Definition allowed (UE : UserEnv) (op : uop) s : Prop :=
  match op with
  | OpCreate record _ => n_ID record = 0 /\ db_fresh s
  | OpUpdate record _ => n_ID record ∈ n_ID <$> recs s
  | OpDelete id => id ∈ n_ID <$> recs s
  | OpUser update => forall u, update u <> Panic
  end.

(** A sequence of operations with whether they succeeded; time, the database
    and the other environment vary. *)
Inductive session_run : session St -> list (uop * bool) -> session St -> Prop :=
| session_nil s : session_run s [] s
| session_op EV UE s op s' r tr s'' :
    allowed UE op s -> exec EV UE op s = (s', r) -> session_run s' tr s'' ->
    session_run s ((op, is_ok r) :: tr) s''.

Lemma positive_id s id : session_ok s -> id ∈ n_ID <$> recs s -> id <> 0.
Proof.
  intros Hs (r & -> & Hr)%list_elem_of_fmap. pose proof (so_positive _ _ Hs) as Hp. rewrite Forall_forall in Hp.
  specialize (Hp r Hr). lia.
Qed.

Lemma user_after {A} (m : handler (session St) user_error A) s s' r :
  keeps (same_user (ss_user s)) m -> m s = (s', r) -> ss_user s' = ss_user s.
Proof. intros Hk E. specialize (Hk s eq_refl). by rewrite E in Hk. Qed.

(** An operation simulates the specification. *)
Lemma exec_refines EV UE op s :
  session_ok s -> allowed UE op s ->
  match exec EV UE op s with
  | (s', Ok _) => session_ok s' /\ desk_step op (abs s) (abs s')
  | (s', Err _) => session_ok s' /\ desk_fail op (abs s) (abs s')
  | (_, Panic) => False
  end.
Proof.
  intros Hs Ha. destruct op as [record lim|record lim|id|update]; cbn [exec allowed] in *.
  - destruct Ha as [Hid Hdb]. pose proof (createNetwork_spec record lim s Hs Hid Hdb) as H.
    pose proof (user_after (createNetwork record lim) s) as Hu. unfold mbind, handler_bind.
    destruct (createNetwork record lim s) as [s' [ref|e|]]; [| |done].
    + destruct H as (Hs' & Hb & id & Hpos & Hf & Hr). split; [done|]. unfold abs. rewrite Hb, Hr.
      rewrite (Hu s' (Ok ref) (user_createNetwork _ _ _) eq_refl). by constructor.
    + destruct H as (Hs' & Hr & Hb). split; [done|]. unfold abs. rewrite Hb, Hr.
      rewrite (Hu s' (Err e) (user_createNetwork _ _ _) eq_refl). constructor.
  - pose proof (updateNetwork_spec record lim s Hs (positive_id s _ Hs Ha) Ha) as H.
    pose proof (user_after (updateNetwork record lim) s) as Hu. unfold mbind, handler_bind.
    destruct (updateNetwork record lim s) as [s' [ref|e|]]; [| |done].
    + destruct H as (Hs' & Hb & Hr). split; [done|]. unfold abs. rewrite Hb, Hr.
      rewrite (Hu s' (Ok ref) (user_updateNetwork _ _ _) eq_refl). by constructor.
    + destruct H as (Hs' & Hr & Hb). split; [done|]. unfold abs. rewrite Hb, Hr.
      rewrite (Hu s' (Err e) (user_updateNetwork _ _ _) eq_refl). constructor.
  - pose proof (deleteNetwork_spec id s Hs Ha) as H. pose proof (user_after (deleteNetwork id) s) as Hu.
    destruct (deleteNetwork id s) as [s' [[]|e|]]; [| |done].
    + destruct H as (Hs' & Hr & Hb). split; [done|]. unfold abs. rewrite Hb, Hr.
      rewrite (Hu s' (Ok tt) (user_deleteNetwork _ _) eq_refl). by constructor.
    + destruct H as (Hs' & Hr & Hb). split; [done|]. unfold abs. rewrite Hb, Hr.
      rewrite (Hu s' (Err e) (user_deleteNetwork _ _) eq_refl). constructor.
  - pose proof (updateUser_spec update s Hs Ha) as H. destruct (updateUser update s) as [s' [[]|e|]]; [| |done].
    + destruct H as (Hs' & Hi & Hu & Hb). split; [done|]. unfold abs. rewrite Hb. by constructor.
    + destruct H as (Hs' & Hi & Hb). split; [done|]. unfold abs. rewrite Hb. by apply desk_fail_user.
Qed.


End Runs.

Module UserWitness.
Import PendingWitness UpstreamWitness.

(** A database that numbers new networks from [n]. *)
Definition uenv (n : Z) : UserEnv := {|
  db_StoreNetwork r := Some (if Z.eqb (n_ID r) 0 then n else n_ID r); db_DeleteNetwork _ := true; db_StoreUser _ := true;
  cfg_MaxUserNetworks := -1; url_Parse s := Some (MkURL "ircs" false "irc.example.org" "" "" "");
  tags_String _ := ""; store_renames := false |}.

Definition start : session unit := Session (NewUser "user") ∅ [] [] None 0%nat [].
Definition named (name : string) (id : Z) : NetworkRec :=
  MkNetwork id name "irc.example.org" "" "" "" "" [] "" (MkSASL "" "" "" [] []) false true "" false false.

Definition step (n : Z) (op : uop) (s : session unit) : session unit := fst (exec env (uenv n) op s).

(** Two networks, the second created with the lower ID, then the first one
    renamed with a client on it, then deleted. *)
Definition s1 : session unit := step 7 (OpCreate (named "libera" 0) true) start.
Definition s2 : session unit := step 3 (OpCreate (named "oftc" 0) true) s1.
Definition s3 : session unit := step 0 (OpUpdate (named "lib" 7) false) s2.
Definition s4 : session unit := step 0 (OpUpdate (named "oftc" 7) false) s3.
Definition s5 : session unit := step 0 (OpDelete 7) s4.

Lemma start_ok : session_ok start.
Proof. constructor; try done; try constructor. Qed.

Lemma step_run n op b (s : session unit) tr s' :
  is_ok (snd (exec env (uenv n) op s)) = b -> allowed (uenv n) op s -> session_run (step n op s) tr s' ->
  session_run s ((op, b) :: tr) s'.
Proof. intros <- Ha Hr. eapply (session_op env (uenv n)); [done|apply surjective_pairing|done]. Qed.

Lemma fresh n (s : session unit) : 0 < n -> n ∉ n_ID <$> recs s -> db_fresh (UE := uenv n) s.
Proof. intros Hn Hi r id Hr [= <-]. rewrite Hr. done. Qed.

End UserWitness.
