(* ===== verification/Downstream.v ===== *)
(** * Downstream connections (downstream.go)

    The methods of a connection of a client: sending with the capabilities and
    the label of the client, capability negotiation, the state the client is
    told about (ISUPPORT, nick, host, realname, account) and the connection
    registration. *)

From stdpp Require Import base list gmap strings.
From Stdlib Require Import ZArith Ascii.
From S2P Require Import Prelude GoStrings GoText Casemapping Xirc Genmsg Sasl Irc Rate Database.
From S2P Require Import Handler Session Network Pending Upstream UpstreamHandlers User.

Local Open Scope Z_scope.

(** ** State *)

(** [downstreamLabelContext] *)
Record labelCtx := LabelCtx {
  lc_label : string;
  lc_batch : string;
  lc_pendingMsg : option message
}.

(** What a method of a connection works on: the connection, the label context
    of the message being handled, and the messages written to the socket. *)
Record dst := DSt {
  d_dc : downstreamConn;
  d_label : option labelCtx;
  d_out : list message
}.

(** Errors: [ircError] and the others, which end the connection. *)
Inductive derror :=
| IrcError (msg : message)
| OtherError.

(** What the methods read of the user: its record and whether its message store
    is a [ChatHistoryStore], and the network of the connection with its upstream
    connection. *)
Record dview := DView {
  v_user : UserRec;
  v_chathistory : bool;
  v_net : option netobj
}.

(** The configuration of the server and what it takes from outside: the
    authenticators ([None]: not configured; they return the reason of a failure,
    and for a bearer token the user name), the SASL servers of go-sasl after the
    responses they were given, the certificate of the client and the queries of
    the database ([None] is an error; [db_GetUser_admin] tells whether a user is
    an admin). *)
Class SrvEnv := {
  cfg_Hostname : string;
  cfg_Title : string;
  cfg_IconURL : string;
  cfg_IconPath : string;
  cfg_HTTPIngress : string;
  cfg_FileUploader : bool;
  cfg_MOTD : string;
  cfg_ClientCertAuth : bool;
  cfg_chathistory : bool;
  vapid_Public : string;
  auth_Plain : option (string -> string -> option string);
  auth_OAuthBearer : option (string -> string + string);  (* inl: the user name *)
  srv_sasl_Next : sasl_server -> option sasl_cred * res unit (list ascii * bool);
  peer_cert : option (list ascii);
  sha512_Sum512 : list ascii -> list ascii;
  db_GetDeviceCertificate : list ascii -> option (option Z);
  db_GetUsernameByID : Z -> option string;
  db_StoreDeviceCertificate : Z -> bool;
  db_GetUser_admin : string -> option bool;
  db_ListMessageTargets : Z -> option (list MessageTargetRec);
  db_GetReadReceipt : Z -> string -> option (option Z);
  (** irc.v4 *)
  msg_String : message -> string
}.

Definition newUnknownCommandError (cmd : string) : derror := IrcError (mk_msg "421" ["*"; cmd; "Unknown command"]).
Definition newUnknownIRCError (cmd text : string) : derror := IrcError (mk_msg "400" ["*"; cmd; text]).
Definition newNeedMoreParamsError (cmd : string) : derror := IrcError (mk_msg "461" ["*"; cmd; "Not enough parameters"]).

Definition permanentDownstreamCaps : list (string * string) :=
  [("batch", ""); ("cap-notify", ""); ("echo-message", ""); ("invite-notify", ""); ("no-implicit-names", "");
   ("server-time", ""); ("setname", ""); ("draft/extended-isupport", "");
   ("draft/metadata-2", "before-connect,max-keys=0,max-value-bytes=1"); ("draft/no-implicit-names", "");
   ("draft/pre-away", ""); ("draft/read-marker", ""); ("soju.im/account-required", ""); ("soju.im/bouncer-networks", "");
   ("soju.im/bouncer-networks-notify", ""); ("soju.im/no-implicit-names", ""); ("soju.im/read", ""); ("soju.im/webpush", "")].

(** All with an empty value. *)
Definition passthroughDownstreamCaps : list string :=
  ["account-notify"; "account-tag"; "away-notify"; "chghost"; "extended-join"; "extended-monitor"; "labeled-response";
   "message-tags"; "multi-prefix"; "draft/extended-monitor"; "draft/message-redaction"].

Definition permanentIsupport : list string := ["soju.im/SAFERATE"; "draft/ACCOUNTREQUIRED"].

Definition passthroughIsupport : list string :=
  ["ACCOUNTEXTBAN"; "AWAYLEN"; "BOT"; "CASEMAPPING"; "CHANLIMIT"; "CHANMODES"; "CHANNELLEN"; "CHANTYPES"; "CLIENTTAGDENY";
   "ELIST"; "EXCEPTS"; "EXTBAN"; "HOSTLEN"; "INVEX"; "KICKLEN"; "LINELEN"; "MAXLIST"; "MAXTARGETS"; "MODES"; "MONITOR";
   "NAMELEN"; "NETWORK"; "NICKLEN"; "PREFIX"; "SAFELIST"; "STATUSMSG"; "TARGMAX"; "TOPICLEN"; "USERLEN"; "UTF8ONLY"; "WHOX";
   "draft/ICON"].

Definition chatHistoryLimit : Z := 1000.

Section Downstream.
Context {MO : MapOrder} {UN : Unicode} {EV : Env} {SE : SrvEnv}.
Notation D := (handler dst derror).

(** ** Access to the state *)

Definition on_dc (f : downstreamConn -> downstreamConn) (s : dst) : dst := DSt (f (d_dc s)) (d_label s) (d_out s).
Definition set_label (l : option labelCtx) (s : dst) : dst := DSt (d_dc s) l (d_out s).
Definition add_out (m : message) (s : dst) : dst := DSt (d_dc s) (d_label s) (d_out s ++ [m]).

Definition modify_dc (f : downstreamConn -> downstreamConn) : D unit := modify (on_dc f).
Definition get_dc {A} (f : downstreamConn -> A) : D A := gets (fun s => f (d_dc s)).

(** [dc.sendMessage]: the message is written. *)
Definition write (m : message) : D unit := modify (add_out m).

Definition with_tag (k v : string) (m : message) : message :=
  Message (<[k := v]> (Tags m)) (MsgPrefix m) (Command m) (Params m).
Definition with_prefix (p : option prefix) (m : message) : message := Message (Tags m) p (Command m) (Params m).
Definition with_tags (f : gmap string string -> gmap string string) (m : message) : message :=
  Message (f (Tags m)) (MsgPrefix m) (Command m) (Params m).

Definition has_label (s : dst) : option labelCtx :=
  match d_label s with
  | Some lc => if nonempty (lc_label lc) then Some lc else None
  | None => None
  end.

(** ** Sending *)

Definition dc_FlushBatch : D unit :=
  olc ← gets has_label;
  match olc with
  | None => mret tt
  | Some lc =>
      match lc_pendingMsg lc with
      | Some m => write (with_tag "label" (lc_label lc) m)
      | None =>
          if nonempty (lc_batch lc) then write (mk_msg "BATCH" ["-" +:+ lc_batch lc])
          else write (Message {["label" := lc_label lc]} None "ACK" [])
      end
  end.

(** Whether a tag is kept for a client without message-tags. *)
Definition tag_supported (caps : CapRegistry) (name : string) : bool :=
  if bool_decide (name = "time") then IsEnabled caps "server-time"
  else if bool_decide (name = "account") then IsEnabled caps "account-tag"
  else if bool_decide (name = "batch") then IsEnabled caps "batch"
  else false.

(** Commands that are not sent without their capability. *)
Definition command_caps : list (string * string) :=
  [("SETNAME", "setname"); ("CHGHOST", "chghost"); ("AWAY", "away-notify"); ("ACCOUNT", "account-notify");
   ("MARKREAD", "draft/read-marker"); ("READ", "soju.im/read"); ("METADATA", "draft/metadata-2");
   ("REDACT", "draft/message-redaction")].

(** What [SendMessage] sends for a message: [None] when it is dropped.
    [msg.Params[:1]] panics when there is no parameter. *)
Definition dc_prepare (caps : CapRegistry) (msg : message) : res derror (option message) :=
  if negb (IsEnabled caps "message-tags") && bool_decide (Command msg = "TAGMSG") then Ok None
  else
    let msg := if IsEnabled caps "message-tags" then msg
               else with_tags (filter (fun kv => tag_supported caps (fst kv) = true)) msg in
    let msg := if negb (IsEnabled caps "batch") && nonempty (tag (Tags msg) "batch") then with_tags (delete "batch") msg
               else msg in
    if bool_decide (Command msg = "JOIN") && negb (IsEnabled caps "extended-join") && bool_decide (Params msg = []) then Panic
    else
      let msg := if bool_decide (Command msg = "JOIN") && negb (IsEnabled caps "extended-join")
                 then Message (Tags msg) (MsgPrefix msg) (Command msg) (take 1 (Params msg)) else msg in
      if existsb (fun cc => bool_decide (Command msg = fst cc) && negb (IsEnabled caps (snd cc))) command_caps then Ok None
      else
        let msg := match MsgPrefix msg with
                   | Some p => if bool_decide (Name p = "*") then with_prefix None msg else msg
                   | None => msg
                   end in
        Ok (Some (match MsgPrefix msg with
                  | None => if isNumeric (Command msg) then with_prefix (Some env_srvPrefix) msg else msg
                  | Some _ => msg
                  end)).

(** The message in the batch, unless it is in another one. *)
Definition in_batch (batch : string) (m : message) : message :=
  if bool_decide (tag (Tags m) "batch" = "") then with_tag "batch" batch m else m.

Definition next_batch : D string :=
  modify_dc (fun dc => set_dc_lastBatchRef ((dc_lastBatchRef dc + 1) mod 2 ^ 64) dc);;
  get_dc (fun dc => fmt_int (dc_lastBatchRef dc)).

Definition dc_SendMessage (msg : message) : D unit :=
  caps ← get_dc dc_caps;
  omsg ← lift (dc_prepare caps msg);
  match omsg with
  | None => mret tt
  | Some msg =>
      olc ← gets has_label;
      match olc with
      | None => write msg
      | Some lc =>
          lc ← match lc_pendingMsg lc with
               | None => mret lc
               | Some pending =>
                   batch ← next_batch;
                   let lc := LabelCtx (lc_label lc) batch None in
                   write (Message {["label" := lc_label lc]} None "BATCH" ["+" +:+ batch; "labeled-response"]);;
                   write (in_batch batch pending);;
                   modify (set_label (Some lc));;
                   mret lc
               end;
          if nonempty (lc_batch lc) then write (in_batch (lc_batch lc) msg)
          else modify (set_label (Some (LabelCtx (lc_label lc) (lc_batch lc) (Some msg))))
      end
  end.

Definition dc_SendBatch (typ : string) (params : list string) (tags : gmap string string) (f : string -> D unit) : D unit :=
  ref ← next_batch;
  b ← get_dc (fun dc => IsEnabled (dc_caps dc) "batch");
  when b (dc_SendMessage (Message tags None "BATCH" (("+" +:+ ref) :: typ :: params)));;
  f ref;;
  b ← get_dc (fun dc => IsEnabled (dc_caps dc) "batch");
  when b (dc_SendMessage (mk_msg "BATCH" ["-" +:+ ref])).

Definition messageSupportsBacklog (msg : message) : bool := bool_decide (Command msg ∈ ["PRIVMSG"; "NOTICE"]).

Definition sendPing (msgID : string) : D unit := dc_SendMessage (mk_msg "PING" ["soju-msgid-" +:+ msgID]).

Definition dc_advanceMessageWithID (msg : message) (id : string) : D unit :=
  caps ← get_dc dc_caps;
  if bool_decide (id = "") || negb (messageSupportsBacklog msg) || IsEnabled caps "draft/chathistory" then mret tt
  else sendPing id.

Definition dc_sendMessageWithID (msg : message) (id : string) : D unit :=
  dc_SendMessage msg;;
  caps ← get_dc dc_caps;
  if bool_decide (id = "") || negb (messageSupportsBacklog msg) || IsEnabled caps "draft/chathistory" then mret tt
  else sendPing id.

(** ** Capabilities *)

(** [parseMessageParams(msg, out...)] with [n] destinations. *)
Definition dneed (msg : message) (n : nat) : D (list string) :=
  lift (match parseMessageParams msg n with
        | Ok l => Ok l
        | Err (ErrNeedMoreParams cmd) => Err (newNeedMoreParamsError cmd)
        | Panic => Panic
        end).

Definition cap_reply (reply arg : string) : D unit :=
  nick ← get_dc dc_nick;
  dc_SendMessage (with_prefix (Some env_srvPrefix) (mk_msg "CAP" [nick; reply; arg])).

Definition make_available (l : list string) (caps : CapRegistry) : CapRegistry :=
  foldl (fun caps k => Caps (<[k := ""]> (Available caps)) (Enabled caps)) caps l.

(** A capability in the list of CAP LS and in CAP NEW. *)
Definition cap_item (version : Z) (kv : string * string) : string :=
  if (302 <=? version) && nonempty (snd kv) then fst kv +:+ "=" +:+ snd kv else fst kv.

(** The loop of CAP REQ: the changes, or [None] for a NAK. *)
Fixpoint req_loop (dc : downstreamConn) (caps : list string) (m : gmap string bool) : option (gmap string bool) :=
  match caps with
  | [] => Some m
  | name :: caps' =>
      let name := ToLower name in
      let enable := negb (HasPrefix name "-") in
      let name := if enable then name else TrimPrefix name "-" in
      if Bool.eqb enable (IsEnabled (dc_caps dc) name) then req_loop dc caps' m
      else if negb (IsAvailable (dc_caps dc) name) then None
      else if bool_decide (name = "cap-notify") && (302 <=? dc_capVersion dc) && negb enable then None
      else if bool_decide (name = "soju.im/account-required") then None
      else req_loop dc caps' (<[name := enable]> m)
  end.

(** [for name, enable := range m { dc.caps.SetEnabled(name, enable) }] *)
Definition set_all (m : gmap string bool) (caps : CapRegistry) : CapRegistry :=
  foldl (fun caps ne => SetEnabled caps (fst ne) (snd ne)) caps (map_order m).

Definition on_registration (f : downstreamRegistration -> downstreamRegistration) (dc : downstreamConn) : downstreamConn :=
  set_dc_registration (f <$> dc_registration dc) dc.

Definition set_negotiating (b : bool) (r : downstreamRegistration) : downstreamRegistration :=
  DReg (rg_nick r) (rg_username r) (rg_pass r) (rg_networkName r) (rg_networkID r) b (rg_authUsername r).

(** [if !dc.registered { dc.registration.negotiatingCaps = b }] *)
Definition negotiating (b : bool) : D unit :=
  dc ← get_dc id;
  if dc_registered dc then mret tt
  else match dc_registration dc with
       | None => panic
       | Some _ => modify_dc (on_registration (set_negotiating b))
       end.

Definition handleCap (msg : message) : D unit :=
  l ← dneed msg 1;
  let cmd := ToUpper (arg l 0) in
  let args := tail (Params msg) in
  if bool_decide (cmd = "LS") then
    match args with
    | [] => mret tt
    | a :: _ => match Atoi a with
                | Some v => modify_dc (set_dc_capVersion v)
                | None => modify_dc (set_dc_capVersion 0);; raise OtherError
                end
    end;;
    dc ← get_dc id;
    when (negb (dc_registered dc) && (302 <=? dc_capVersion dc))
      (modify_dc (fun dc => set_dc_caps (make_available passthroughDownstreamCaps (dc_caps dc)) dc));;
    caps ← get_dc dc_caps;
    let items := cap_item (dc_capVersion dc) <$> map_order (Available caps) in
    cap_reply "LS" (Join items " ");;
    when (302 <=? dc_capVersion dc) (modify_dc (fun dc => set_dc_caps (SetEnabled (dc_caps dc) "cap-notify" true) dc));;
    negotiating true
  else if bool_decide (cmd = "LIST") then
    caps ← get_dc dc_caps;
    cap_reply "LIST" (Join (map_order (gset_to_gmap tt (Enabled caps))).*1 " ")
  else if bool_decide (cmd = "REQ") then
    match args with
    | [] =>
        nick ← get_dc dc_nick;
        raise (IrcError (mk_msg "410" [nick; cmd; "Missing argument in CAP REQ command"]))
    | a :: _ =>
        dc ← get_dc id;
        reply ← match req_loop dc (Fields a) ∅ with
                | Some m => modify_dc (fun dc => set_dc_caps (set_all m (dc_caps dc)) dc);; mret "ACK"
                | None => mret "NAK"
                end;
        cap_reply reply a;;
        negotiating true
    end
  else if bool_decide (cmd = "END") then negotiating false
  else
    nick ← get_dc dc_nick;
    raise (IrcError (mk_msg "410" [nick; cmd; "Unknown CAP command"])).

Definition setSupportedCap (name value : string) : D unit :=
  caps ← get_dc dc_caps;
  let changed := negb (bool_decide (Available caps !! name = Some value)) in
  modify_dc (set_dc_caps (Caps (<[name := value]> (Available caps)) (Enabled caps)));;
  if negb (IsEnabled caps "cap-notify") || negb changed then mret tt
  else
    version ← get_dc dc_capVersion;
    cap_reply "NEW" (cap_item version (name, value)).

Definition unsetSupportedCap (name : string) : D unit :=
  caps ← get_dc dc_caps;
  modify_dc (set_dc_caps (CapDel caps name));;
  if negb (IsEnabled (CapDel caps name) "cap-notify") || negb (IsAvailable caps name) then mret tt
  else cap_reply "DEL" name.

(** [dc.upstream()] *)
Definition v_upstream (V : dview) : option upstreamConn := o ← v_net V; no_conn o.

Definition is_Some_b {A} (x : option A) : bool := match x with Some _ => true | None => false end.

(** The passthrough capabilities with whether they are supported. *)
Definition supported_caps (V : dview) : gmap string bool :=
  list_to_map ((fun cap => (cap, match v_upstream V with Some uc => IsEnabled (uc_caps uc) cap | None => true end))
               <$> passthroughDownstreamCaps).

(** The first [before-connect] is removed. *)
Definition account_registration_value (uc : upstreamConn) : string :=
  Join (remove_first (fun v => bool_decide (v = "before-connect"))
          (Split (default "" (Available (uc_caps uc) !! "draft/account-registration")) ",")) ",".

Definition dc_updateSupportedCaps (V : dview) : D unit :=
  for_each (map_order (supported_caps V)) (fun cb =>
    if snd cb : bool then setSupportedCap (fst cb) "" else unsetSupportedCap (fst cb));;
  match v_upstream V with
  | Some uc => if supportsSASL uc "PLAIN" then setSupportedCap "sasl" "PLAIN,ANONYMOUS" else unsetSupportedCap "sasl"
  | None => when (is_Some_b (v_net V)) (unsetSupportedCap "sasl")
  end;;
  match v_upstream V with
  | Some uc => if IsEnabled (uc_caps uc) "draft/account-registration"
               then setSupportedCap "draft/account-registration" (account_registration_value uc)
               else unsetSupportedCap "draft/account-registration"
  | None => unsetSupportedCap "draft/account-registration"
  end;;
  if v_chathistory V && is_Some_b (v_net V) then setSupportedCap "draft/event-playback" ""
  else unsetSupportedCap "draft/event-playback".

(** ** ISUPPORT *)

Definition opt_insert (b : bool) (k : string) (v : option string) (m : gmap string (option string)) : gmap string (option string) :=
  if b then <[k := v]> m else m.

(** The tokens of a connection that is bound to no network. *)
Definition bouncer_isupport (m : gmap string (option string)) : gmap string (option string) :=
  <["LINELEN" := Some "4096"]> (<["CHANTYPES" := Some ""]> (<["WHOX" := None]>
    (<["CASEMAPPING" := Some "ascii"]> (<["BOT" := Some "B"]> m)))).

(** The tokens passed through from the upstream server. *)
Definition pass_isupport (uc : upstreamConn) (m : gmap string (option string)) : gmap string (option string) :=
  foldl (fun m k => match uc_isupport uc !! k with Some v => <[k := v]> m | None => m end) m passthroughIsupport.

Definition buildIsupport (V : dview) (dc : downstreamConn) : gmap string (option string) :=
  let bound := is_Some_b (v_net V) in
  let m := list_to_map ((fun k => (k, None)) <$> permanentIsupport) in
  let m := match v_net V with Some o => <["BOUNCER_NETID" := Some (fmt_int (n_ID (nw_rec (no_net o))))]> m | None => m end in
  let m := opt_insert (negb bound && nonempty cfg_Title) "NETWORK" (Some cfg_Title) m in
  let m := if negb bound && nonempty cfg_IconURL then <["draft/ICON" := Some cfg_IconURL]> m
           else opt_insert (negb bound && nonempty cfg_IconPath) "draft/ICON" (Some (cfg_HTTPIngress +:+ "/icon")) m in
  let m :=
    if dc_hasUser dc then
      let m := if bound then m else bouncer_isupport m in
      let m := if v_chathistory V && bound
               then <["MSGREFTYPES" := Some "timestamp"]> (<["CHATHISTORY" := Some (fmt_int chatHistoryLimit)]> m) else m in
      let m := opt_insert (IsEnabled (dc_caps dc) "soju.im/webpush") "VAPID" (Some vapid_Public) m in
      opt_insert cfg_FileUploader "soju.im/FILEHOST" (Some (cfg_HTTPIngress +:+ "/uploads")) m
    else m in
  match v_upstream V with
  | None => m
  | Some uc =>
      pass_isupport uc (opt_insert (negb (is_Some_b (uc_isupport uc !! "CLIENTTAGDENY")) && negb (IsEnabled (uc_caps uc) "message-tags"))
                          "CLIENTTAGDENY" (Some "*") m)
  end.

(** The tokens that change, and [-TOKEN] for those that are gone. *)
Definition isupport_changes (old new : gmap string (option string)) : gmap string (option string) :=
  let changed := filter (fun kv => old !! fst kv <> Some (snd kv)) new in
  foldl (fun m k => if is_Some_b (new !! k) then m else <["-" +:+ k := None]> m) changed (map_order old).*1.

Definition sendIsupport (isupport : gmap string (option string)) : D unit :=
  caps ← get_dc dc_caps;
  if IsEnabled caps "draft/extended-isupport" then
    dc_SendBatch "draft/isupport" [] ∅ (fun batchRef =>
      for_each (GenerateIsupport isupport) (fun msg => dc_SendMessage (with_tag "batch" batchRef msg)))
  else for_each (GenerateIsupport isupport) dc_SendMessage.

Definition dc_updateIsupport (V : dview) : D unit :=
  dc ← get_dc id;
  if negb (dc_registered dc) && negb (IsEnabled (dc_caps dc) "draft/extended-isupport") then mret tt
  else
    let isupport := buildIsupport V dc in
    sendIsupport (isupport_changes (dc_isupport dc) isupport);;
    modify_dc (set_dc_isupport isupport).

(** ** Nick, host, realname, account *)

(** [database.GetNick(&dc.user.User, &dc.network.Network)] or with [nil] *)
Definition v_rec (V : dview) : option NetworkRec := (fun o => nw_rec (no_net o)) <$> v_net V.

Definition dc_updateNick (V : dview) : D unit :=
  let nick := match v_upstream V with Some uc => uc_nick uc | None => GetNick (v_user V) (v_rec V) end in
  dc ← get_dc id;
  if bool_decide (nick = dc_nick dc) then mret tt
  else
    dc_SendMessage (with_prefix (Some (dc_prefix dc)) (mk_msg "NICK" [nick]));;
    modify_dc (fun dc => set_dc_nickCM (dc_casemap dc nick) (set_dc_nick nick dc)).

Definition dc_updateHost (V : dview) : D unit :=
  match v_upstream V with
  | None => mret tt
  | Some uc =>
      dc ← get_dc id;
      if bool_decide (uc_hostname uc = "") then mret tt
      else if bool_decide (uc_hostname uc = dc_hostname dc) && bool_decide (uc_username uc = dc_username dc) then mret tt
      else
        (if IsEnabled (dc_caps dc) "chghost" then
           dc_SendMessage (with_prefix (Some (dc_prefix dc)) (mk_msg "CHGHOST" [uc_username uc; uc_hostname uc]))
         else when (negb (bool_decide (uc_hostname uc = dc_hostname dc)))
           (dc_SendMessage (with_prefix (Some (dc_prefix dc)) (mk_msg "396" [dc_nick dc; uc_hostname uc; "is now your visible host"]))));;
        modify_dc (fun dc => set_dc_username (uc_username uc) (set_dc_hostname (uc_hostname uc) dc))
  end.

Definition dc_updateRealname (V : dview) : D unit :=
  dc ← get_dc id;
  if negb (IsEnabled (dc_caps dc) "setname") then mret tt
  else
    let realname := match v_upstream V with Some uc => uc_realname uc | None => GetRealname (v_user V) (v_rec V) end in
    when (negb (bool_decide (realname = dc_realname dc)))
      (dc_SendMessage (with_prefix (Some (dc_prefix dc)) (mk_msg "SETNAME" [realname]));;
       modify_dc (set_dc_realname realname)).

Definition dc_updateAccount (V : dview) : D unit :=
  match (match v_net V with
         | None => Some (u_Username (v_user V))
         | Some _ => uc_account <$> v_upstream V
         end) with
  | None => mret tt
  | Some account =>
      dc ← get_dc id;
      if bool_decide (dc_account dc = account) || negb (IsEnabled (dc_caps dc) "sasl") then mret tt
      else
        (if nonempty account
         then dc_SendMessage (mk_msg "900" [dc_nick dc; prefix_String (dc_prefix dc); account; "You are logged in as " +:+ account])
         else dc_SendMessage (mk_msg "901" [dc_nick dc; prefix_String (dc_prefix dc); "You are logged out"]));;
        modify_dc (set_dc_account account)
  end.

Definition dc_updateCasemapping (V : dview) : D unit :=
  let cm := match v_net V with Some o => nw_casemap (no_net o) | None => casemapASCII end in
  modify_dc (fun dc => set_dc_monitored (Recase (dc_monitored dc) cm) (set_dc_nickCM (cm (dc_nick dc)) (set_dc_casemap cm dc))).

Definition dc_endSASL (msg : option message) : D unit :=
  dc ← get_dc id;
  match dc_sasl dc with
  | None => mret tt
  | Some _ =>
      modify_dc (set_dc_sasl None);;
      dc_SendMessage (default (mk_msg "903" [dc_nick dc; "SASL authentication successful"]) msg)
  end.

(** ** Channels *)

Definition dc_sendTopic (ch : upstreamChannel) : D unit :=
  nick ← get_dc dc_nick;
  if nonempty (uch_Topic ch) then
    dc_SendMessage (mk_msg "332" [nick; uch_Name ch; uch_Topic ch]);;
    match uch_TopicWho ch with
    | Some who => dc_SendMessage (mk_msg "333" [nick; uch_Name ch; prefix_String who; fmt_int (uch_TopicTime ch / second)])
    | None => mret tt
    end
  else dc_SendMessage (mk_msg "331" [nick; uch_Name ch; "No topic is set"]).

(** [irc.Message.String] is that of irc.v4; a channel without status has the
    zero byte. *)
Definition dc_sendNames (ch : upstreamChannel) : D unit :=
  caps ← get_dc dc_caps;
  let members := (fun e => formatMemberPrefix (value e) (IsEnabled caps "multi-prefix") +:+ originalKey e) <$> iter (uch_Members ch) in
  for_each (GenerateNamesReply msg_String (uch_Name ch) (default "000"%char (uch_Status ch)) members) dc_SendMessage.

(** [net] is the network of the channel. *)
Definition dc_forwardChannel (net : network) (ch : upstreamChannel) : D unit :=
  if negb (uch_complete ch) then panic
  else
    when (nonempty (uch_Topic ch)) (dc_sendTopic ch);;
    caps ← get_dc dc_caps;
    let markReadCmd := if IsEnabled caps "draft/read-marker" then "MARKREAD"
                       else if IsEnabled caps "soju.im/read" then "READ" else "" in
    when (nonempty markReadCmd)
      (match db_GetReadReceipt (n_ID (nw_rec net)) (nw_casemap net (uch_Name ch)) with
       | None => mret tt
       | Some r =>
           dc ← get_dc id;
           dc_SendMessage (with_prefix (Some (dc_prefix dc))
             (mk_msg markReadCmd [uch_Name ch; match r with Some t => "timestamp=" +:+ FormatServerTime t | None => "*" end]))
       end);;
    if IsEnabled caps "soju.im/no-implicit-names" || IsEnabled caps "no-implicit-names" || IsEnabled caps "draft/no-implicit-names"
    then mret tt else dc_sendNames ch.

(** ** Connection registration *)

Definition user_sep (c : ascii) : bool := bool_decide (c ∈ ["/"%char; "@"%char]).

(** [strings.IndexAny(s, "/@")] and [strings.LastIndexAny(s, "/@")] *)
Definition IndexSep (s : string) : option nat := fst <$> list_find (fun c => user_sep c = true) (schars s).
Definition LastIndexSep (s : string) : option nat :=
  (fun i => (slen s - 1 - i)%nat) <$> (fst <$> list_find (fun c => user_sep c = true) (reverse (schars s))).

Definition char_at (s : string) (i : nat) : ascii := default "000"%char (schars s !! i).

(** The name after the separator at [i], up to [j], is that of a client after
    an at sign and that of a network after a slash. *)
Definition unmarshal_part (s : string) (i j : nat) (cn : string * string) : string * string :=
  let part := stake (j - (i + 1)) (sdrop (i + 1) s) in
  if bool_decide (char_at s i = "@"%char) then (part, snd cn) else (fst cn, part).

Definition unmarshalUsername (rawUsername : string) : string * string * string :=
  match IndexSep rawUsername, LastIndexSep rawUsername with
  | Some i, Some j =>
      let cn := unmarshal_part rawUsername j (slen rawUsername) ("", "") in
      let cn := if (i <? j)%nat then unmarshal_part rawUsername i j cn else cn in
      (stake i rawUsername, fst cn, snd cn)
  | _, _ => (rawUsername, "", "")
  end.

Definition set_auth (username networkName : string) (r : downstreamRegistration) : downstreamRegistration :=
  DReg (rg_nick r) (rg_username r) (rg_pass r) networkName (rg_networkID r) (rg_negotiatingCaps r) username.

(** [dc.registration.x = ...] panics when the registration is over. *)
Definition modify_reg (f : downstreamRegistration -> downstreamRegistration) : D unit :=
  r ← get_dc dc_registration;
  match r with None => panic | Some _ => modify_dc (on_registration f) end.
Definition get_reg {A} (f : downstreamRegistration -> A) : D A :=
  r ← get_dc dc_registration;
  match r with None => panic | Some r => mret (f r) end.

Definition setAuthUsername (username clientName networkName : string) : D unit :=
  modify_dc (set_dc_clientName clientName);;
  modify_reg (set_auth username networkName).

Definition new_sasl_server (mech : string) : sasl_server := (mech, []).

(** [server.Next] of go-sasl. *)
Definition sasl_next (srv : sasl_server) (resp : option (list ascii))
    : sasl_server * option sasl_cred * res unit (list ascii * bool) :=
  let srv' := (fst srv, snd srv ++ [resp]) in
  let '(c, r) := srv_sasl_Next srv' in (srv', c, r).

(** [handleAuthenticate] on the connection. *)
Definition dc_handleAuthenticate (msg : message) : D (option dsasl) :=
  dc ← get_dc id;
  let '(sc, out, r) := handleAuthenticate new_sasl_server sasl_next
                         (SaslConn (dc_caps dc) (dc_nick dc) (dc_sasl dc)) msg in
  modify_dc (set_dc_sasl (sc_sasl sc));;
  for_each out dc_SendMessage;;
  match r with
  | AuthFail m => raise (IrcError m)
  | AuthServerError => raise OtherError
  | AuthDone s => mret (Some s)
  | AuthMore => mret None
  end.

(** A user name, client name, network name and whether an admin impersonates
    the user, or the reason for the client. A failure of SASL PLAIN is wrapped
    in another error, so its reason is lost. *)
Definition authenticated : Type := string * string * string * bool.
Definition auth_failed : string := "Authentication failed".

Definition auth_plain (identity rawUsername password : string) : authenticated + string :=
  let '(username, client, net) := unmarshalUsername rawUsername in
  match auth_Plain with
  | None => inr auth_failed
  | Some auth =>
      match auth username password with
      | Some _ => inr auth_failed
      | None =>
          if nonempty identity && negb (bool_decide (identity = rawUsername)) then
            match db_GetUser_admin username with
            | Some true =>
                let '(username, client, net) := unmarshalUsername identity in
                match db_GetUser_admin username with
                | Some _ => inl (username, client, net, true)
                | None => inr auth_failed
                end
            | _ => inr auth_failed
            end
          else inl (username, client, net, false)
      end
  end.

Definition auth_oauth (rawUsername token : string) : authenticated + string :=
  match auth_OAuthBearer with
  | None => inr auth_failed
  | Some auth =>
      match auth token with
      | inr reason => inr reason
      | inl username =>
          if nonempty rawUsername && negb (bool_decide (rawUsername = username)) then inr auth_failed
          else inl (username, "", "", false)
      end
  end.

Definition auth_external : authenticated + string :=
  if negb cfg_ClientCertAuth then inr auth_failed
  else match peer_cert with
  | None => inr auth_failed
  | Some cert =>
      match db_GetDeviceCertificate (sha512_Sum512 cert) with
      | None | Some None => inr auth_failed
      | Some (Some userID) =>
          match db_GetUsernameByID userID with
          | None => inr auth_failed
          | Some username =>
              if bool_decide (username = "") then inl ("", "", "", false)
              else if db_StoreDeviceCertificate userID then inl (username, "", "", false) else inr auth_failed
          end
      end
  end.

(** [credentials.plain] and [credentials.oauthBearer] are nil when the callback
    of the SASL server did not run. *)
Definition check_credentials (c : dsasl) : res derror (authenticated + string) :=
  if bool_decide (mechanism c = "PLAIN") then
    match cred c with Some (PlainCred i u p) => Ok (auth_plain i u p) | _ => Panic end
  else if bool_decide (mechanism c = "OAUTHBEARER") then
    match auth_OAuthBearer, cred c with
    | None, _ => Ok (inr auth_failed)
    | Some _, Some (OAuthCred u t) => Ok (auth_oauth u t)
    | Some _, _ => Panic
    end
  else if bool_decide (mechanism c = "EXTERNAL") then Ok auth_external
  else Ok (inr auth_failed).

Definition handle_authenticate_unregistered (msg : message) : D unit :=
  oc ← dc_handleAuthenticate msg;
  match oc with
  | None => mret tt
  | Some c =>
      r ← lift (check_credentials c);
      nick ← get_dc dc_nick;
      match r with
      | inr reason => dc_endSASL (Some (mk_msg "904" [nick; reason]))
      | inl (username, clientName, networkName, impersonating) =>
          if bool_decide (username = "") then panic
          else
            setAuthUsername username clientName networkName;;
            modify_dc (set_dc_impersonating impersonating);;
            dc_endSASL None
      end
  end.

(** ** METADATA subscriptions *)

Definition metadata_keys : list string := ["soju.im/pinned"; "soju.im/muted"; "soju.im/blocked"].

Definition bool_digit (b : bool) : string := if b then "1" else "0".

Definition getMessageTargetMetadata (mt : MessageTargetRec) : gmap string string :=
  {["soju.im/pinned" := bool_digit (mt_Pinned mt); "soju.im/muted" := bool_digit (mt_Muted mt);
    "soju.im/blocked" := bool_digit (mt_Blocked mt)]}.

(** The metadata of the targets of the network. *)
Definition send_subscribed (V : dview) (k : string) : D unit :=
  match v_net V with
  | None => mret tt
  | Some o =>
      match db_ListMessageTargets (n_ID (nw_rec (no_net o))) with
      | None => raise (IrcError (mk_msg "FAIL" ["METADATA"; "INTERNAL_ERROR"; "*"; "Internal error"]))
      | Some targets =>
          for_each targets (fun mt =>
            match getMessageTargetMetadata mt !! k with
            | Some v => dc_SendMessage (mk_msg "METADATA" [mt_Target mt; k; "*"; v])
            | None => mret tt
            end)
      end
  end.

(** One key of METADATA SUB or UNSUB. *)
Definition metadata_sub (V : dview) (cmd : string) (sub : bool) (k : string) : D unit :=
  let k := ToLower k in
  if negb (bool_decide (k ∈ metadata_keys)) then dc_SendMessage (mk_msg "FAIL" [cmd; "KEY_INVALID"; k; "Invalid key"])
  else if sub then
    modify_dc (fun dc => set_dc_metadataSubs ({[k]} ∪ dc_metadataSubs dc) dc);;
    send_subscribed V k;;
    dc_SendMessage (mk_msg "770" ["*"; k])
  else
    modify_dc (fun dc => set_dc_metadataSubs (dc_metadataSubs dc ∖ {[k]}) dc);;
    dc_SendMessage (mk_msg "771" ["*"; k]).

(** Whether the message was handled. *)
Definition handleMetadataSub (V : dview) (msg : message) : D bool :=
  l ← dneed msg 2;
  let subcommand := arg l 1 in
  if bool_decide (subcommand ∈ ["SUB"; "UNSUB"]) then
    for_each (drop 2 (Params msg)) (metadata_sub V (Command msg) (bool_decide (subcommand = "SUB")));;
    mret true
  else if bool_decide (subcommand = "SUBS") then
    subs ← get_dc dc_metadataSubs;
    for_each (map_order (gset_to_gmap tt subs)).*1 (fun k => dc_SendMessage (mk_msg "772" ["*"; k]));;
    mret true
  else mret false.

(** ** Messages before the registration *)

Definition set_rg_nick (v : string) (r : downstreamRegistration) : downstreamRegistration :=
  DReg v (rg_username r) (rg_pass r) (rg_networkName r) (rg_networkID r) (rg_negotiatingCaps r) (rg_authUsername r).
Definition set_rg_username (v : string) (r : downstreamRegistration) : downstreamRegistration :=
  DReg (rg_nick r) v (rg_pass r) (rg_networkName r) (rg_networkID r) (rg_negotiatingCaps r) (rg_authUsername r).
Definition set_rg_pass (v : string) (r : downstreamRegistration) : downstreamRegistration :=
  DReg (rg_nick r) (rg_username r) v (rg_networkName r) (rg_networkID r) (rg_negotiatingCaps r) (rg_authUsername r).
Definition set_rg_networkName (v : string) (r : downstreamRegistration) : downstreamRegistration :=
  DReg (rg_nick r) (rg_username r) (rg_pass r) v (rg_networkID r) (rg_negotiatingCaps r) (rg_authUsername r).
Definition set_rg_networkID (v : Z) (r : downstreamRegistration) : downstreamRegistration :=
  DReg (rg_nick r) (rg_username r) (rg_pass r) (rg_networkName r) v (rg_negotiatingCaps r) (rg_authUsername r).

Definition handle_bouncer_unregistered (msg : message) : D unit :=
  l ← dneed msg 1;
  let subcommand := arg l 0 in
  if bool_decide (ToUpper subcommand = "BIND") then
    l ← dneed msg 2;
    user ← get_reg rg_authUsername;
    if bool_decide (user = "") then
      raise (IrcError (mk_msg "FAIL" ["BOUNCER"; "ACCOUNT_REQUIRED"; "BIND"; "Authentication needed to bind to bouncer network"]))
    else
      id ← lift (match parseBouncerNetID subcommand (arg l 1) with Ok id => Ok id | Err m => Err (IrcError m) | Panic => Panic end);
      modify_reg (set_rg_networkID id)
  else raise (IrcError (mk_msg "FAIL" ["BOUNCER"; "UNKNOWN_COMMAND"; subcommand; "Unknown subcommand"])).

Definition handle_metadata_unregistered (V : dview) (msg : message) : D unit :=
  l ← dneed msg 2;
  handled ← handleMetadataSub V msg;
  if handled : bool then mret tt
  else raise (IrcError (mk_msg "FAIL" ["METADATA"; "INVALID_PARAMS"; arg l 1; "Unknown command"])).

Definition handleMessageUnregistered (V : dview) (msg : message) : D unit :=
  let cmd := Command msg in
  if bool_decide (cmd = "NICK") then l ← dneed msg 1; modify_reg (set_rg_nick (arg l 0))
  else if bool_decide (cmd = "USER") then l ← dneed msg 4; modify_reg (set_rg_username (arg l 0))
  else if bool_decide (cmd = "PASS") then l ← dneed msg 1; modify_reg (set_rg_pass (arg l 0))
  else if bool_decide (cmd = "CAP") then handleCap msg
  else if bool_decide (cmd = "AUTHENTICATE") then handle_authenticate_unregistered msg
  else if bool_decide (cmd = "BOUNCER") then handle_bouncer_unregistered msg
  else if bool_decide (cmd = "AWAY") then
    modify_dc (set_dc_away (head (Params msg)));;
    dc_SendMessage (generateAwayReply (is_Some_b (head (Params msg))))
  else if bool_decide (cmd = "METADATA") then handle_metadata_unregistered V msg
  else raise (newUnknownCommandError cmd).

(** ** Handling a message *)

(** [if ircErr, ok := err.(ircError); ok { send it } else if err != nil { return err }] *)
Definition reply_error (m : D unit) : D unit := fun s =>
  match m s with
  | (s', Err (IrcError msg)) => dc_SendMessage (with_prefix (Some env_srvPrefix) msg) s'
  | r => r
  end.

(** [dc.handleMessage]; [handler] is the handler of the state of the
    connection. [QUIT] shuts the connection down. *)
Definition dc_handleMessage (V : dview) (handler : message -> D unit) (msg : message) : D unit :=
  caps ← get_dc dc_caps;
  modify (set_label (match Tags msg !! "label" with
                     | Some label => if IsEnabled caps "labeled-response" then Some (LabelCtx label "" None) else None
                     | None => None
                     end));;
  (if bool_decide (Command msg = "QUIT") then modify_dc (set_dc_closed true)
   else if bool_decide (Command msg = "ISUPPORT") then
     if negb (IsEnabled caps "draft/extended-isupport") then raise (newUnknownCommandError (Command msg))
     else
       isupport ← get_dc (buildIsupport V);
       sendIsupport isupport;;
       modify_dc (set_dc_isupport isupport)
   else reply_error (handler msg));;
  dc_FlushBatch.

(** ** Registration *)

(** Authentication with PASS. *)
Definition register_pass (dc : downstreamConn) (password rawUsername : string) : D unit :=
  if bool_decide (password = "") then
    if IsEnabled (dc_caps dc) "sasl"
    then raise (IrcError (mk_msg "FAIL" ["*"; "ACCOUNT_REQUIRED"; "Authentication required"]))
    else raise (IrcError (mk_msg "464" [dc_nick dc; "Authentication required"]))
  else match auth_Plain with
  | None => raise (IrcError (mk_msg "464" [dc_nick dc; "PASS authentication disabled"]))
  | Some auth =>
      let '(username, clientName, networkName) := unmarshalUsername rawUsername in
      match auth username password with
      | Some reason => raise (IrcError (mk_msg "464" [dc_nick dc; reason]))
      | None => setAuthUsername username clientName networkName
      end
  end.

(** The client and network names of the user name complete those of the
    authentication. *)
Definition register_names (nick rawUsername : string) : D unit :=
  let '(_, fallbackClientName, fallbackNetworkName) := unmarshalUsername rawUsername in
  clientName ← get_dc dc_clientName;
  (if bool_decide (clientName = "") then modify_dc (set_dc_clientName fallbackClientName)
   else if nonempty fallbackClientName && negb (bool_decide (clientName = fallbackClientName))
   then raise (IrcError (mk_msg "432" [nick; "Client name mismatch in usernames"])) else mret tt);;
  networkName ← get_reg rg_networkName;
  if bool_decide (networkName = "") then modify_reg (set_rg_networkName fallbackNetworkName)
  else if nonempty fallbackNetworkName && negb (bool_decide (networkName = fallbackNetworkName))
  then raise (IrcError (mk_msg "432" [nick; "Network name mismatch in usernames"])) else mret tt.

Definition dc_register : D unit :=
  dc ← get_dc id;
  if dc_registered dc then panic
  else
    when (is_Some_b (dc_sasl dc)) (dc_endSASL (Some (mk_msg "906" [dc_nick dc; "SASL authentication aborted"])));;
    password ← get_reg rg_pass;
    modify_reg (set_rg_pass "");;
    authUsername ← get_reg rg_authUsername;
    rawUsername ← get_reg rg_username;
    when (bool_decide (authUsername = "")) (register_pass dc password rawUsername);;
    register_names (dc_nick dc) rawUsername;;
    authUsername ← get_reg rg_authUsername;
    modify_dc (fun dc => set_dc_username authUsername (set_dc_registered true dc)).

(** The view of a connection that is not registered. *)
Definition no_view : dview := DView env_user false None.

(** The call of [register]: an [ircError] is sent and ends the connection. *)
Definition try_register : D bool := fun s =>
  match dc_register s with
  | (s', Ok _) => (s', Ok false)
  | (s', Err (IrcError m)) => (dc_SendMessage (with_prefix (Some env_srvPrefix) m);; raise OtherError) s'
  | (s', Err OtherError) => (s', Err OtherError)
  | (s', Panic) => (s', Panic)
  end.

(** One turn of [runUntilRegistered] with the message [msg]: [true] when the
    loop goes on, [false] when it ends with the connection registered. *)
Definition register_turn (msg : message) : D bool :=
  dc_handleMessage no_view (handleMessageUnregistered no_view) msg;;
  modify (set_label None);;
  r ← get_reg id;
  if bool_decide (rg_nick r = "") || bool_decide (rg_username r = "") || rg_negotiatingCaps r then mret true
  else try_register.

(** [runUntilRegistered] on the messages the client sends; [Ok true] when they
    are over before the registration. *)
Fixpoint runUntilRegistered (msgs : list message) : D bool :=
  match msgs with
  | [] => mret true
  | msg :: msgs' =>
      more ← register_turn msg;
      if more : bool then runUntilRegistered msgs' else mret false
  end.

Definition serverSASLMechanisms : list string :=
  (if auth_Plain then ["PLAIN"] else []) ++ (if auth_OAuthBearer then ["OAUTHBEARER"] else []).

(** A new connection from the address [remoteAddr]. *)
Definition newDownstreamConn (id : Z) (remoteAddr : string) : downstreamConn :=
  let mechs := serverSASLMechanisms ++ (if cfg_ClientCertAuth && is_Some_b peer_cert then ["EXTERNAL"] else []) in
  let available : gmap string string := list_to_map permanentDownstreamCaps in
  let available := <["sasl" := Join mechs ","]> available in
  let available := if cfg_chathistory then <["soju.im/search" := ""]> (<["draft/chathistory" := ""]> available) else available in
  let available := if cfg_ClientCertAuth then <["soju.im/client-cert" := ""]> available else available in
  DConn id None false false "" false "*" "*" "" "~u"
    (match SplitHostPort remoteAddr with Some (host, _) => host | None => remoteAddr end) "" None 0
    (Caps available ∅) ∅ None (Some (DReg "" "" "" "" 0 false "")) 0 casemapASCII (NewCaseMappingMap casemapASCII) ∅ false.

End Downstream.

(** A server that knows one user, for the witnesses. *)
Module DownWitness.
Import PendingWitness.

Definition check_pw (u p : string) : option string :=
  if bool_decide (u = "alice") && bool_decide (p = "secret") then None else Some "Invalid credentials".

Definition srv : SrvEnv := {|
  cfg_Hostname := "bouncer"; cfg_Title := ""; cfg_IconURL := ""; cfg_IconPath := ""; cfg_HTTPIngress := "";
  cfg_FileUploader := false; cfg_MOTD := ""; cfg_ClientCertAuth := false; cfg_chathistory := false; vapid_Public := "";
  auth_Plain := Some check_pw;
  auth_OAuthBearer := None;
  srv_sasl_Next srv := (None, Err tt); peer_cert := None; sha512_Sum512 l := l; db_GetDeviceCertificate _ := None;
  db_GetUsernameByID _ := None; db_StoreDeviceCertificate _ := false; db_GetUser_admin _ := None;
  db_ListMessageTargets _ := None; db_GetReadReceipt _ _ := None; msg_String _ := "" |}.

#[export] Existing Instance ascii_unicode.
#[export] Existing Instance env.
#[export] Existing Instance srv.

End DownWitness.
