(* ===== verification/DownstreamLabels.v ===== *)
(** * Labeled responses (downstream.go)

    A message with a label gets exactly one labeled reply: an ACK, the reply
    itself, or a batch of all replies. *)

From stdpp Require Import base list gmap strings.
From Stdlib Require Import ZArith Ascii.
From S2P Require Import Prelude GoStrings GoText Casemapping Xirc Genmsg Sasl Irc Rate Database.
From S2P Require Import Handler Session Network Pending Upstream UpstreamHandlers User Downstream.

Local Open Scope Z_scope.

(** ** Specification *)

Definition batch_start (label ref : string) : message :=
  Message {["label" := label]} None "BATCH" ["+" +:+ ref; "labeled-response"].
Definition batch_end (ref : string) : message := mk_msg "BATCH" ["-" +:+ ref].

(** What a client gets for the replies [l] to a message with [label]. *)
Definition labeled_reply (label ref : string) (l : list message) : list message :=
  match l with
  | [] => [Message {["label" := label]} None "ACK" []]
  | [m] => [with_tag "label" label m]
  | _ => batch_start label ref :: (in_batch ref <$> l) ++ [batch_end ref]
  end.

(** The state after the replies [l], before the flush. *)
Definition responding (label : string) (out : list message) (l : list message) (s : dst) : Prop :=
  match l with
  | [] => d_label s = Some (LabelCtx label "" None) /\ d_out s = out
  | [m] => d_label s = Some (LabelCtx label "" (Some m)) /\ d_out s = out
  | _ => exists ref, ref <> "" /\ d_label s = Some (LabelCtx label ref None) /\
                     d_out s = out ++ batch_start label ref :: (in_batch ref <$> l)
  end.

Definition labeled (label : string) (out : list message) (s : dst) : Prop := exists l, responding label out l s.

Lemma digits_nonempty fuel n acc : acc <> "" \/ (0 < fuel)%nat -> digits fuel n acc <> "".
Proof.
  revert n acc; induction fuel as [|fuel IH]; intros n acc H; cbn [digits]; [destruct H; [done|lia]|].
  destruct (_ <? _); [done|]. apply IH. by left.
Qed.

Lemma fmt_int_nonempty n : fmt_int n <> "".
Proof. unfold fmt_int. destruct (_ <? _); [done|]. apply digits_nonempty. right. lia. Qed.

Section Labels.
Context {MO : MapOrder} {UN : Unicode} {EV : Env} {SE : SrvEnv}.
Context (label : string) (out : list message) (Hlabel : label <> "").
Notation D := (handler dst derror).
Notation P := (labeled label out).

Lemma has_label_of lc s : d_label s = Some lc -> lc_label lc = label -> has_label s = Some lc.
Proof. intros H1 H2. unfold has_label, nonempty. rewrite H1, H2. by rewrite bool_decide_false. Qed.

(** A reply joins those before it. *)
Lemma SendMessage_responding l m s m' :
  responding label out l s -> dc_prepare (dc_caps (d_dc s)) m = Ok (Some m') ->
  exists s', dc_SendMessage m s = (s', Ok tt) /\ responding label out (l ++ [m']) s'.
Proof.
  intros Hl Hp. unfold dc_SendMessage, get_dc. rewrite bind_gets. unfold lift. rewrite (bind_ok _ _ s s (Some m')) by (by rewrite Hp).
  rewrite bind_gets. destruct l as [|m1 [|m2 l]].
  - destruct Hl as [Hl Ho]. rewrite (has_label_of _ _ Hl eq_refl). cbn. eexists. split; [reflexivity|]. done.
  - destruct Hl as [Hl Ho]. rewrite (has_label_of _ _ Hl eq_refl). cbn [lc_pendingMsg lc_label].
    set (s1 := on_dc (fun dc => set_dc_lastBatchRef ((dc_lastBatchRef dc + 1) mod 2 ^ 64) dc) s).
    set (ref := fmt_int (dc_lastBatchRef (d_dc s1))). assert (Href : ref <> "") by apply fmt_int_nonempty.
    set (s2 := set_label (Some (LabelCtx label ref None)) (add_out (in_batch ref m1) (add_out (batch_start label ref) s1))).
    rewrite (bind_ok _ _ s s2 (LabelCtx label ref None)) by reflexivity. clearbody ref. cbn [lc_batch].
    unfold nonempty. rewrite bool_decide_false by done. eexists. split; [reflexivity|]. exists ref. split_and!; [done|done|]. cbn.
    rewrite Ho. by rewrite <- !app_assoc.
  - destruct Hl as (ref & Hr & Hl & Ho). rewrite (has_label_of _ _ Hl eq_refl). cbn [lc_pendingMsg lc_label].
    rewrite bind_ret. cbn [lc_batch]. unfold nonempty.
    rewrite bool_decide_false by done. eexists. split; [reflexivity|]. exists ref. split_and!; [done|done|]. cbn. rewrite Ho.
    rewrite fmap_app. cbn. by rewrite <- app_assoc.
Qed.

Lemma keeps_SendMessage m : keeps P (dc_SendMessage m).
Proof.
  intros s [l Hl]. destruct (dc_prepare (dc_caps (d_dc s)) m) as [[m'|]|e|] eqn:Ep.
  - destruct (SendMessage_responding l m s m' Hl Ep) as (s' & -> & H'). by exists (l ++ [m']).
  - unfold dc_SendMessage, get_dc. rewrite bind_gets. unfold lift, mbind, handler_bind. rewrite Ep. by exists l.
  - unfold dc_SendMessage, get_dc. rewrite bind_gets. unfold lift, mbind, handler_bind. rewrite Ep. by exists l.
  - unfold dc_SendMessage, get_dc. rewrite bind_gets. unfold lift, mbind, handler_bind. rewrite Ep. by exists l.
Qed.

Lemma keeps_modify_dc f : keeps (E := derror) P (modify_dc f).
Proof. apply keeps_modify. intros s [l Hl]. by exists l. Qed.
Lemma keeps_get_dc {A} (f : downstreamConn -> A) : keeps (E := derror) P (get_dc f).
Proof. apply keeps_gets. Qed.
Lemma keeps_dneed msg n : keeps P (dneed msg n).
Proof. apply keeps_lift. Qed.

(** What the handlers of a connection are made of. *)
Ltac keeps_label :=
  repeat match goal with
  | |- keeps _ (_ ≫= _) => apply keeps_bind; [|intros ?]
  | |- keeps _ (when _ _) => apply keeps_when
  | |- keeps _ (for_each _ _) => apply keeps_for_each; intros ?
  | |- keeps _ (mret _) => apply keeps_ret
  | |- keeps _ (raise _) => apply keeps_raise
  | |- keeps _ panic => apply keeps_panic
  | |- keeps _ (gets _) => apply keeps_gets
  | |- keeps _ (get_dc _) => apply keeps_gets
  | |- keeps _ (lift _) => apply keeps_lift
  | |- keeps _ (dneed _ _) => apply keeps_lift
  | |- keeps _ (modify_dc _) => apply keeps_modify_dc
  | |- keeps _ (dc_SendMessage _) => apply keeps_SendMessage
  | |- keeps _ (let '(_, _) := ?x in _) => destruct x
  | |- keeps _ (if ?b then _ else _) => destruct b
  | |- keeps _ (match ?x with _ => _ end) => destruct x
  | |- keeps _ _ => progress unfold next_batch, cap_reply, negotiating, get_reg, modify_reg, sendPing, setAuthUsername
  end.

Lemma keeps_SendBatch typ params tags f : (forall r, keeps P (f r)) -> keeps P (dc_SendBatch typ params tags f).
Proof. intros Hf. unfold dc_SendBatch. keeps_label. apply Hf. Qed.

Lemma keeps_sendIsupport m : keeps P (sendIsupport m).
Proof. unfold sendIsupport. keeps_label. apply keeps_SendBatch. intros r. keeps_label. Qed.

Lemma keeps_handleCap msg : keeps P (handleCap msg).
Proof. unfold handleCap. keeps_label. Qed.

Lemma keeps_endSASL m : keeps P (dc_endSASL m).
Proof. unfold dc_endSASL. keeps_label. Qed.

Lemma keeps_authenticate msg : keeps P (dc_handleAuthenticate msg).
Proof. unfold dc_handleAuthenticate. keeps_label. Qed.

Lemma keeps_metadata V msg : keeps P (handleMetadataSub V msg).
Proof. unfold handleMetadataSub, metadata_sub, send_subscribed. keeps_label. Qed.

Lemma keeps_unregistered V msg : keeps P (handleMessageUnregistered V msg).
Proof.
  unfold handleMessageUnregistered, handle_authenticate_unregistered, handle_bouncer_unregistered, handle_metadata_unregistered.
  keeps_label; first [apply keeps_handleCap|apply keeps_authenticate|apply keeps_endSASL|apply keeps_metadata].
Qed.

Lemma keeps_reply_error m : keeps P m -> keeps P (reply_error m).
Proof.
  intros Hm s Hs. unfold reply_error. specialize (Hm s Hs). destruct (m s) as [s' [a|[msg|]|]]; try done.
  by apply keeps_SendMessage.
Qed.

(** The flush ends the response. *)
Lemma FlushBatch_responding l s :
  responding label out l s -> exists s' ref, dc_FlushBatch s = (s', Ok tt) /\ d_out s' = out ++ labeled_reply label ref l.
Proof.
  intros Hl. unfold dc_FlushBatch. rewrite bind_gets. destruct l as [|m1 [|m2 l]].
  - destruct Hl as [Hl Ho]. rewrite (has_label_of _ _ Hl eq_refl). cbn. eexists _, "". split; [reflexivity|]. cbn. by rewrite Ho.
  - destruct Hl as [Hl Ho]. rewrite (has_label_of _ _ Hl eq_refl). cbn. eexists _, "". split; [reflexivity|]. cbn. by rewrite Ho.
  - destruct Hl as (ref & Hr & Hl & Ho). rewrite (has_label_of _ _ Hl eq_refl). cbn. unfold nonempty.
    rewrite bool_decide_false by done. eexists _, ref. split; [reflexivity|]. cbn. rewrite Ho. by rewrite <- app_assoc.
Qed.

End Labels.

Section Response.
Context {MO : MapOrder} {UN : Unicode} {EV : Env} {SE : SrvEnv}.

(** A handler that sends only through [SendMessage]. *)
Definition sends_replies (m : handler dst derror unit) : Prop :=
  forall label out, label <> "" -> keeps (labeled label out) m.

Lemma handleMessage_labeled V h msg label s s' :
  sends_replies (h msg) -> IsEnabled (dc_caps (d_dc s)) "labeled-response" = true ->
  Tags msg !! "label" = Some label -> label <> "" ->
  dc_handleMessage V h msg s = (s', Ok tt) ->
  exists ref l, d_out s' = d_out s ++ labeled_reply label ref l.
Proof.
  intros Hh Hcap Htag Hlabel. unfold dc_handleMessage, get_dc. rewrite bind_gets, bind_modify, Htag, Hcap.
  set (s0 := set_label _ s). assert (H0 : labeled label (d_out s) s0) by (by exists []).
  match goal with |- (?m ≫= _) _ = _ -> _ => assert (Hm : keeps (labeled label (d_out s)) m) end.
  { case_bool_decide; [apply keeps_modify_dc|]. case_bool_decide; [|by apply keeps_reply_error, Hh].
    destruct (negb _); [apply keeps_raise|]. apply keeps_bind; [apply keeps_gets|]. intros isupport.
    apply keeps_bind; [by apply keeps_sendIsupport|]. intros _. apply keeps_modify_dc. }
  intros (s1 & [] & E1 & E2)%bind_inv. specialize (Hm s0 H0). rewrite E1 in Hm. destruct Hm as [l Hl].
  destruct (FlushBatch_responding label (d_out s) Hlabel l s1 Hl) as (s2 & ref & E3 & Ho).
  rewrite E3 in E2. injection E2 as <-. by exists ref, l.
Qed.

(** C7: a message with a label that a client sends before its registration and
    that is handled gets exactly one labeled response: an ACK when nothing is
    sent, the only reply with the label, or a batch that starts with the label
    and holds all replies; nothing of the response is lost or sent outside of
    it. *)
Theorem labeled_response V msg label s s' :
  IsEnabled (dc_caps (d_dc s)) "labeled-response" = true -> Tags msg !! "label" = Some label -> label <> "" ->
  dc_handleMessage V (handleMessageUnregistered V) msg s = (s', Ok tt) ->
  exists ref l, d_out s' = d_out s ++ labeled_reply label ref l.
Proof. intros H1 H2 H3. apply handleMessage_labeled; [|done..]. intros lb out Hlb. by apply keeps_unregistered. Qed.

End Response.

Module LabelWitness.
Import PendingWitness DownWitness.

(** A client that enabled labels, batches and metadata. *)
Definition start : dst :=
  let dc := newDownstreamConn 1 "127.0.0.1:4000" in
  DSt (set_dc_caps (Caps (Available (dc_caps dc)) {[ "labeled-response"; "batch"; "message-tags" ]}) dc) None [].
Definition request : message :=
  Message {["label" := "L1"]} None "METADATA" ["*"; "SUB"; "soju.im/pinned"; "soju.im/muted"].

Lemma labeled_response_witness :
  exists ref l, d_out (fst (dc_handleMessage no_view (handleMessageUnregistered no_view) request start))
                = labeled_reply "L1" ref l.
Proof.
  apply (labeled_response no_view request "L1" start); [by_eval|by_eval|by_eval|].
  apply run_result. vm_compute. reflexivity.
Defined.

End LabelWitness.
