(* ===== verification/Registration.v ===== *)
(** * Registration of a client (downstream.go): authentication

    A connection is registered only as a user that its credentials authorize,
    and no sequence of messages makes the registration panic. *)

From stdpp Require Import base list gmap strings.
From Stdlib Require Import ZArith Ascii.
From S2P Require Import Prelude GoStrings GoText Casemapping Xirc Base64 Genmsg Sasl Irc Rate Database.
From S2P Require Import Handler Session Network Pending Upstream UpstreamHandlers User Downstream.

Local Open Scope Z_scope.

Section Registration.
Context {MO : MapOrder} {UN : Unicode} {EV : Env} {SE : SrvEnv}.
Notation D := (handler dst derror).

(** ** Who may log in *)

(** The password, a bearer token or the client certificate is that of the
    user, or, for an impersonated user, the password is that of an admin. *)
Definition password_ok (u : string) : Prop := exists auth pw, auth_Plain = Some auth /\ auth u pw = None.
Definition token_ok (u : string) : Prop := exists auth tok, auth_OAuthBearer = Some auth /\ auth tok = inl u.
Definition cert_ok (u : string) : Prop :=
  exists cert id, cfg_ClientCertAuth = true /\ peer_cert = Some cert /\
    db_GetDeviceCertificate (sha512_Sum512 cert) = Some (Some id) /\ db_GetUsernameByID id = Some u.

Definition authorized (u : string) (impersonating : bool) : Prop :=
  if impersonating then (exists a, password_ok a /\ db_GetUser_admin a = Some true) /\ is_Some (db_GetUser_admin u)
  else password_ok u \/ token_ok u \/ cert_ok u.

(** What the code relies on: a SASL server records the credentials when it is
    done, and no user has an empty name. *)
Record auth_env_ok : Prop := {
  ae_sasl : forall srv c ch, srv_sasl_Next srv = (c, Ok (ch, true)) ->
    (fst srv = "PLAIN" -> exists i u p, c = Some (PlainCred i u p)) /\
    (fst srv = "OAUTHBEARER" -> exists u t, c = Some (OAuthCred u t));
  ae_plain : forall auth pw, auth_Plain = Some auth -> auth "" pw <> None;
  ae_token : forall auth tok, auth_OAuthBearer = Some auth -> auth tok <> inl "";
  ae_cert : forall id, db_GetUsernameByID id <> Some "";
  ae_user : db_GetUser_admin "" = None
}.
Context (Hae : auth_env_ok).

(** ** Invariant *)

Record reg_inv (dc : downstreamConn) : Prop := {
  ri_reg : is_Some (dc_registration dc);
  ri_auth : forall r, dc_registration dc = Some r -> rg_authUsername r <> "" -> authorized (rg_authUsername r) (dc_impersonating dc);
  ri_imp : forall r, dc_registration dc = Some r -> rg_authUsername r = "" -> dc_impersonating dc = false;
  ri_unreg : dc_registered dc = false;
  ri_sasl : forall x, dc_sasl dc = Some x -> mechanism x = fst (server x)
}.

Definition RI (s : dst) : Prop := reg_inv (d_dc s).

(** A message that can be sent, and the errors that are sent as such. *)
Definition sendable (m : message) : Prop := Command m <> "JOIN".
Definition err_ok (e : derror) : Prop := match e with IrcError m => sendable m | OtherError => True end.

Notation always := (fun _ => True).

Lemma dc_prepare_ok caps m : sendable m -> exists om, dc_prepare caps m = Ok om.
Proof.
  intros Hm. unfold dc_prepare. destruct (negb _ && _); [by eexists|]. cbv zeta.
  set (m1 := if IsEnabled caps "message-tags" then m else _). assert (H1 : Command m1 = Command m) by (unfold m1; by destruct (IsEnabled _ _)).
  set (m2 := if _ && nonempty _ then _ else m1). assert (H2 : Command m2 = Command m) by (unfold m2; by destruct (_ && _)).
  clearbody m2. rewrite bool_decide_false by (by rewrite H2). cbn [andb]. destruct (existsb _ _); by eexists.
Qed.

(** ** Steps *)

(** Sending changes nothing that the invariant is about. *)
Definition same_conn (s s' : dst) : Prop :=
  exists n, d_dc s' = set_dc_lastBatchRef n (d_dc s) \/ d_dc s' = d_dc s.

Lemma SendMessage_run m s : sendable m -> exists s', dc_SendMessage m s = (s', Ok tt) /\ same_conn s s'.
Proof.
  intros Hm. unfold dc_SendMessage, get_dc. rewrite bind_gets. destruct (dc_prepare_ok (dc_caps (d_dc s)) m Hm) as [om Hp].
  rewrite (bind_ok _ _ s s om) by (unfold lift; by rewrite Hp). destruct om as [m'|]; [|exists s; split; [done|exists 0; by right]].
  rewrite bind_gets. destruct (has_label s) as [lc|]; [|eexists; split; [reflexivity|exists 0; by right]].
  destruct (lc_pendingMsg lc) as [pm|].
  - set (s1 := on_dc (fun dc => set_dc_lastBatchRef ((dc_lastBatchRef dc + 1) mod 2 ^ 64) dc) s).
    set (ref := fmt_int (dc_lastBatchRef (d_dc s1))).
    set (s2 := set_label (Some (LabelCtx (lc_label lc) ref None)) (add_out (in_batch ref pm)
                 (add_out (Message {["label" := lc_label lc]} None "BATCH" ["+" +:+ ref; "labeled-response"]) s1))).
    rewrite (bind_ok _ _ s s2 (LabelCtx (lc_label lc) ref None)) by reflexivity. clearbody ref.
    destruct (nonempty _); (eexists; split; [reflexivity|]); eexists; left; reflexivity.
  - rewrite bind_ret. destruct (nonempty _); (eexists; split; [reflexivity|]); exists 0; by right.
Qed.

Lemma RI_same s s' : same_conn s s' -> RI s -> RI s'.
Proof. unfold RI. intros [n [E|E]] [H1 H2 H3 H4 H5]; rewrite E; by constructor. Qed.

Lemma safe_SendMessage m : sendable m -> safee RI err_ok (dc_SendMessage m) always.
Proof.
  intros Hm s Hs. unfold wpe. destruct (SendMessage_run m s Hm) as (s' & -> & Hc). split; [|done]. by apply (RI_same s).
Qed.

Lemma safe_modify_dc f : (forall dc, reg_inv dc -> reg_inv (f dc)) -> safee RI err_ok (modify_dc f) always.
Proof. intros Hf s Hs. split; [|done]. by apply Hf. Qed.

Lemma safe_dneed msg n : safee RI err_ok (dneed msg n) (fun l => l = take n (Params msg)).
Proof.
  intros s Hs. unfold dneed. apply wpe_lift. unfold parseMessageParams. destruct (_ <? _)%nat; [|done]. by split.
Qed.

Lemma safe_weakene {A} (m : D A) (Φ Φ' : A -> Prop) : (forall a, Φ a -> Φ' a) -> safee RI err_ok m Φ -> safee RI err_ok m Φ'.
Proof.
  intros H Hm s Hs. specialize (Hm s Hs). unfold wpe in *. destruct (m s) as [s' [a|e|]]; [|done|done]. destruct Hm. split; auto.
Qed.

Lemma safe_modify_reg f :
  (forall r, rg_authUsername (f r) = rg_authUsername r) -> safee RI err_ok (modify_reg f) always.
Proof.
  intros Hf s Hs. unfold modify_reg, get_dc. apply wpe_bind, wpe_gets. destruct Hs as [[r Hr] H2 H3 H4 H5]. rewrite Hr.
  apply wpe_modify. split; [|done]. unfold RI. cbn. constructor; cbn; rewrite ?Hr; cbn; try done.
  - intros r' [= <-]. rewrite Hf. by apply H2.
  - intros r' [= <-]. rewrite Hf. by apply H3.
Qed.

Lemma safe_get_reg {A} (f : downstreamRegistration -> A) : safee RI err_ok (get_reg f) always.
Proof.
  intros s Hs. unfold get_reg, get_dc. apply wpe_bind, wpe_gets. destruct Hs as [[r Hr] H2 H3 H4 H5]. by rewrite Hr.
Qed.

Lemma reg_inv_same dc dc' :
  dc_registration dc' = dc_registration dc -> dc_impersonating dc' = dc_impersonating dc ->
  dc_registered dc' = dc_registered dc -> dc_sasl dc' = dc_sasl dc ->
  reg_inv dc -> reg_inv dc'.
Proof. intros E1 E2 E3 E5 [H1 H2 H3 H4 H5]. constructor; rewrite ?E1, ?E2, ?E3, ?E5; done. Qed.

End Registration.

(** Steps of a proof that a handler is safe. *)
Ltac dsafe_step :=
  lazymatch goal with
  | |- safee _ _ _ _ => intros ? ?
  | |- wpe _ (mret _) _ _ => apply wpe_ret
  | |- wpe _ (_ ≫= _) _ _ => apply wpe_bind
  | |- wpe _ (gets _) _ _ => apply wpe_gets
  | |- wpe _ (get_dc _) _ _ => apply wpe_gets
  | |- wpe _ (raise _) _ _ => apply wpe_raise
  | |- wpe _ (when ?b _) _ _ => destruct b eqn:?; unfold when
  | |- wpe _ (modify_dc _) _ _ =>
      eapply wpe_call; [apply safe_modify_dc; let dc := fresh in let Hdc := fresh in intros dc Hdc; apply (reg_inv_same dc); [reflexivity..|exact Hdc]|eassumption|by auto|intros ? ? ? _]
  | |- wpe _ (modify_reg _) _ _ =>
      eapply wpe_call; [apply safe_modify_reg; reflexivity|eassumption|by auto|intros ? ? ? _]
  | |- wpe _ (get_reg _) _ _ => eapply wpe_call; [apply safe_get_reg|eassumption|by auto|intros ? ? ? _]
  | |- wpe _ (dneed _ _) _ _ => eapply wpe_call; [apply safe_dneed|eassumption|by auto|intros ? ? ? ->]
  | |- wpe _ (dc_SendMessage _) _ _ =>
      eapply wpe_call; [apply safe_SendMessage; first [assumption|discriminate]|eassumption|by auto|intros ? ? ? _]
  | |- wpe _ (for_each _ _) _ _ =>
      eapply wpe_call; [apply (safee_for_each _ _ _ _ (fun _ => True)); [by apply Forall_true|intros ? _]|eassumption|by auto|intros ? ? ? _]
  | |- wpe _ (if ?b then _ else _) _ _ => destruct b eqn:?
  | |- wpe _ (match ?x with _ => _ end) _ _ => destruct x eqn:?
  | |- _ /\ _ => split
  | |- True => exact I
  | |- wpe _ _ _ _ => eapply wpe_call; [solve [eauto with dsafe]|eassumption|by auto|intros ? ? ? ?]
  end.
Ltac dsafe := repeat dsafe_step; try eassumption; try discriminate; try done.

Section Safety.
Context {MO : MapOrder} {UN : Unicode} {EV : Env} {SE : SrvEnv}.
Context (Hae : auth_env_ok).
Notation D := (handler dst derror).
Notation always := (fun _ => True).
Notation safed := (safee RI err_ok).

Create HintDb dsafe.

Lemma safe_cap_reply r a : safed (cap_reply r a) always.
Proof. unfold cap_reply. dsafe. Qed.
Hint Resolve safe_cap_reply : dsafe.

Lemma safe_negotiating b : safed (negotiating b) always.
Proof.
  intros s Hs. unfold negotiating. dsafe_step. dsafe_step. destruct (dc_registered _); [done|]. unfold Datatypes.id.
  destruct (dc_registration (d_dc s)) eqn:Er; [|destruct Hs as [[r Hr] _ _ _ _]; congruence].
  pose proof (safe_modify_reg (set_negotiating b) (fun r => eq_refl) s Hs) as H. unfold modify_reg, get_dc in H.
  unfold wpe in H. rewrite bind_gets, Er in H. exact H.
Qed.
Hint Resolve safe_negotiating : dsafe.

Lemma safe_handleCap msg : safed (handleCap msg) always.
Proof. unfold handleCap. dsafe. Qed.

Lemma safe_SendBatch typ params tags f : (forall r, safed (f r) always) -> safed (dc_SendBatch typ params tags f) always.
Proof. intros Hf. unfold dc_SendBatch, next_batch. dsafe. Qed.

Lemma safe_send_subscribed V k : safed (send_subscribed V k) always.
Proof. unfold send_subscribed. dsafe. Qed.
Hint Resolve safe_send_subscribed : dsafe.
Lemma safe_metadata_sub V cmd b k : safed (metadata_sub V cmd b k) always.
Proof. unfold metadata_sub. dsafe. Qed.
Hint Resolve safe_metadata_sub : dsafe.
Lemma safe_handleMetadataSub V msg : safed (handleMetadataSub V msg) always.
Proof. unfold handleMetadataSub. dsafe. Qed.
Hint Resolve safe_handleMetadataSub : dsafe.

(** *** SASL *)

Definition sasl_ok (x : option dsasl) : Prop := forall s, x = Some s -> mechanism s = fst (server s).

(** Credentials that match their mechanism. *)
Definition cred_ok (s : dsasl) : Prop :=
  (mechanism s = "PLAIN" -> exists i u p, cred s = Some (PlainCred i u p)) /\
  (mechanism s = "OAUTHBEARER" -> exists u t, cred s = Some (OAuthCred u t)).

Definition auth_result_ok (r : auth_result (Server := sasl_server) (Cred := sasl_cred)) : Prop :=
  match r with AuthFail m => sendable m | AuthDone s => cred_ok s | _ => True end.

Lemma auth_next_ok sc s resp sc' out r :
  mechanism s = fst (server s) -> auth_next sasl_next sc s resp = (sc', out, r) ->
  sasl_ok (sc_sasl sc') /\ Forall sendable out /\ auth_result_ok r.
Proof.
  intros Hm. unfold auth_next, sasl_next. destruct (srv_sasl_Next _) as [c [[ch done]|e|]] eqn:E; [|by intros [= <- <- <-]..].
  destruct done; intros [= <- <- <-]; cbn; (split; [intros x [= <-]; exact Hm|]).
  - split; [constructor|]. destruct (ae_sasl Hae _ _ _ E) as [A1 A2]. cbn in A1, A2. split; cbn; intros Hx.
    + destruct (A1 (eq_trans (eq_sym Hm) Hx)) as (i & u & p & ->). eauto.
    + destruct (A2 (eq_trans (eq_sym Hm) Hx)) as (u & t & ->). eauto.
  - split; [|done]. by repeat constructor.
Qed.

Lemma handleAuthenticate_ok sc msg sc' out r :
  sasl_ok (sc_sasl sc) -> handleAuthenticate new_sasl_server sasl_next sc msg = (sc', out, r) ->
  sasl_ok (sc_sasl sc') /\ Forall sendable out /\ auth_result_ok r.
Proof.
  intros Hs. unfold handleAuthenticate, auth_fail. destruct (negb _); [by intros [= <- <- <-]|].
  destruct (Params msg) as [|p0 ps]; [by intros [= <- <- <-]|]. case_bool_decide; [by intros [= <- <- <-]|].
  destruct (sc_sasl sc) as [x|] eqn:Ex.
  - cbv zeta. destruct (Nat.ltb _ _); [by intros [= <- <- <-]|]. specialize (Hs x eq_refl). destruct (Nat.eqb _ _).
    + intros [= <- <- <-]. split; [intros y [= <-]; exact Hs|done].
    + destruct (decode64 _ _); [|by intros [= <- <- <-]]. by apply auth_next_ok.
  - destruct (known_mechanism _); [|by intros [= <- <- <-]]. by apply auth_next_ok.
Qed.

Lemma safe_handleAuthenticate msg : safed (dc_handleAuthenticate msg) (fun o => forall c, o = Some c -> cred_ok c).
Proof.
  intros s Hs. unfold dc_handleAuthenticate. dsafe_step. dsafe_step. unfold Datatypes.id.
  destruct (handleAuthenticate _ _ _ _) as [[sc out] r] eqn:E.
  pose proof (fun H => handleAuthenticate_ok _ _ _ _ _ H E) as Hok. destruct (Hok (ri_sasl _ Hs)) as (H1 & H2 & H3).
  dsafe_step. eapply wpe_call; [apply safe_modify_dc|exact Hs|by auto|].
  { intros dc [A1 A2 A3 A4 A5]. by constructor. }
  intros _ s1 Hs1 _. dsafe_step. eapply wpe_call; [by apply (safee_for_each RI err_ok _ _ sendable H2); intros m Hm; apply safe_SendMessage|done|by auto|].
  intros _ s2 Hs2 _. destruct r; dsafe. intros c [= <-]. exact H3.
Qed.

Lemma safe_endSASL m : (forall x, m = Some x -> sendable x) -> safed (dc_endSASL m) always.
Proof.
  intros Hm s Hs. unfold dc_endSASL. dsafe_step. dsafe_step. unfold Datatypes.id. destruct (dc_sasl (d_dc s)) eqn:Ex; [|done].
  dsafe_step. eapply wpe_call; [apply safe_modify_dc|exact Hs|by auto|].
  { intros dc [A1 A2 A3 A4 A5]. by constructor. }
  intros _ s1 Hs1 _. eapply wpe_call; [apply safe_SendMessage|done|by auto|done]. destruct m as [m|]; cbn; [by apply Hm|discriminate].
Qed.

(** *** Authentication *)

Lemma auth_plain_ok i raw pw u c n imp : auth_plain i raw pw = inl (u, c, n, imp) -> authorized u imp /\ u <> "".
Proof.
  unfold auth_plain. destruct (unmarshalUsername raw) as [[u0 c0] n0]. destruct auth_Plain as [auth|] eqn:Ea; [|done].
  destruct (auth u0 pw) eqn:Epw; [done|]. assert (Hpw : password_ok u0) by (by exists auth, pw).
  assert (Hne : u0 <> "") by (intros ->; by apply (ae_plain Hae auth pw)).
  destruct (nonempty i && _).
  - destruct (db_GetUser_admin u0) as [[]|] eqn:Ead; [|done|done]. destruct (unmarshalUsername i) as [[u1 c1] n1].
    destruct (db_GetUser_admin u1) eqn:E1; [|done]. intros [= <- <- <- <-]. split; [|intros ->; rewrite (ae_user Hae) in E1; done].
    split; [by exists u0|by eexists].
  - intros [= <- <- <- <-]. split; [by left|done].
Qed.

Lemma auth_oauth_ok raw tok u c n imp : auth_oauth raw tok = inl (u, c, n, imp) -> authorized u imp /\ u <> "".
Proof.
  unfold auth_oauth. destruct auth_OAuthBearer as [auth|] eqn:Ea; [|done]. destruct (auth tok) as [u0|] eqn:Et; [|done].
  destruct (_ && _); [done|]. intros [= <- <- <- <-]. split; [right; left; by exists auth, tok|].
  intros ->. by apply (ae_token Hae auth tok).
Qed.

Lemma auth_external_ok u c n imp : auth_external = inl (u, c, n, imp) -> authorized u imp /\ u <> "".
Proof.
  unfold auth_external. destruct cfg_ClientCertAuth eqn:Ec; [|done]. cbn. destruct peer_cert as [cert|] eqn:Ep; [|done].
  destruct (db_GetDeviceCertificate _) as [[id|]|] eqn:Ed; [|done|done]. destruct (db_GetUsernameByID id) as [u0|] eqn:Eu; [|done].
  case_bool_decide as E0; [subst; by apply (ae_cert Hae) in Eu|]. destruct (db_StoreDeviceCertificate id); [|done].
  intros [= <- <- <- <-]. split; [|done]. right. right. by exists cert, id.
Qed.

Lemma check_credentials_ok c : cred_ok c ->
  match check_credentials c with
  | Ok (inl (u, _, _, imp)) => authorized u imp /\ u <> ""
  | Ok (inr _) => True
  | _ => False
  end.
Proof.
  intros [H1 H2]. unfold check_credentials. case_bool_decide as E1; [|case_bool_decide as E2; [|case_bool_decide as E3; [|done]]].
  - destruct (H1 E1) as (i & u & p & ->). destruct (auth_plain i u p) as [[[[? ?] ?] ?]|] eqn:E; [|done]. by eapply auth_plain_ok.
  - destruct (H2 E2) as (u & t & ->). destruct auth_OAuthBearer eqn:Ea; [|done].
    destruct (auth_oauth u t) as [[[[? ?] ?] ?]|] eqn:E; [|done]. by eapply auth_oauth_ok.
  - destruct auth_external as [[[[? ?] ?] ?]|] eqn:E; [|done]. by eapply auth_external_ok.
Qed.

(** The user name and the flag are set together. *)
Lemma set_user_run {A} u c n imp (k : unit -> D A) s : RI s -> authorized u imp -> u <> "" ->
  exists s', (setAuthUsername u c n;; modify_dc (set_dc_impersonating imp) ≫= k) s = k tt s' /\ RI s'.
Proof.
  intros [[r Hr] H2 H3 H4 H5] Ha Hne. unfold setAuthUsername, modify_reg, get_dc, modify_dc.
  unfold mbind, handler_bind, modify, gets. cbn. rewrite Hr. cbn. eexists. split; [reflexivity|].
  unfold RI. cbn. constructor; cbn; rewrite ?Hr; cbn; try done.
  - by intros r' [= <-] _.
  - by intros r' [= <-].
Qed.

Lemma safe_authenticate msg : safed (handle_authenticate_unregistered msg) always.
Proof.
  intros s Hs. unfold handle_authenticate_unregistered. dsafe_step. eapply wpe_call; [apply safe_handleAuthenticate|done|by auto|].
  intros [c|] s1 Hs1 Hc; [|done]. specialize (check_credentials_ok c (Hc c eq_refl)). intros Hcr.
  dsafe_step. apply wpe_lift. destruct (check_credentials c) as [[[[[u cl] n] imp]|reason]|e|]; try done.
  - dsafe_step. dsafe_step. destruct Hcr as [Ha Hne]. rewrite bool_decide_false by done.
    destruct (set_user_run u cl n imp (fun _ => dc_endSASL None) s1 Hs1 Ha Hne) as (s2 & E2 & Hs2).
    unfold wpe. rewrite E2. by apply (safe_endSASL None).
  - dsafe_step. dsafe_step. eapply wpe_call; [apply safe_endSASL|done|by auto|done]. by intros x [= <-].
Qed.

Lemma safe_bouncer msg : safed (handle_bouncer_unregistered msg) always.
Proof.
  unfold handle_bouncer_unregistered. dsafe. apply wpe_lift. unfold parseBouncerNetID.
  destruct (Atoi _); [destruct (_ <? _)%Z|]; dsafe.
Qed.

Hint Resolve safe_authenticate safe_bouncer safe_handleCap : dsafe.

Lemma safe_unregistered V msg : safed (handleMessageUnregistered V msg) always.
Proof.
  unfold handleMessageUnregistered, handle_metadata_unregistered. dsafe.
  eapply wpe_call; [apply safe_SendMessage|done|by auto|done]. by destruct (head _).
Qed.

Lemma isupport_loop_numeric fuel tokens : Forall (fun m => Command m = RPL_ISUPPORT) (isupport_loop fuel tokens).
Proof.
  revert tokens; induction fuel as [|fuel IH]; intros [|t tokens]; cbn [isupport_loop]; try constructor.
  destruct (_ <? _)%nat; repeat constructor. apply IH.
Qed.

Lemma safe_sendIsupport m : safed (sendIsupport m) always.
Proof.
  pose proof (isupport_loop_numeric (length (isupport_tokens m)) (isupport_tokens m)) as Hn. unfold sendIsupport. dsafe_step. dsafe_step. dsafe_step.
  destruct (IsEnabled _ _).
  - apply safe_SendBatch; [|done]. intros r. eapply (safee_for_each RI err_ok _ _ _ Hn). intros x Hx. apply safe_SendMessage.
    unfold sendable. cbn. by rewrite Hx.
  - eapply (safee_for_each RI err_ok _ _ _ Hn); [|done]. intros x Hx. apply safe_SendMessage. unfold sendable. by rewrite Hx.
Qed.
Hint Resolve safe_sendIsupport : dsafe.

Lemma safe_reply_error m : safed m always -> safed (reply_error m) always.
Proof.
  intros Hm s Hs. specialize (Hm s Hs). unfold wpe, reply_error in *. destruct (m s) as [s' [[]|[msg|]|]]; try done.
  destruct Hm as [H1 H2]. by apply (safe_SendMessage (with_prefix (Some env_srvPrefix) msg) H2).
Qed.

Lemma safe_FlushBatch : safed dc_FlushBatch always.
Proof.
  intros s Hs. unfold dc_FlushBatch. dsafe_step. dsafe_step. destruct (has_label s) as [lc|]; [|done].
  destruct (lc_pendingMsg lc); [done|]. by destruct (nonempty _).
Qed.

Lemma safe_dc_handleMessage V msg : safed (dc_handleMessage V (handleMessageUnregistered V) msg) always.
Proof.
  intros s Hs. unfold dc_handleMessage. dsafe_step. dsafe_step. dsafe_step. apply wpe_modify. set (s0 := set_label _ s).
  assert (Hs0 : RI s0) by exact Hs. dsafe_step.
  case_bool_decide; [dsafe; eapply wpe_call; [apply safe_FlushBatch|done|by auto|done]|].
  case_bool_decide; [dsafe; eapply wpe_call; [apply safe_FlushBatch|done|by auto|done]|].
  eapply wpe_call; [apply safe_reply_error, safe_unregistered|done|by auto|]. intros _ s1 Hs1 _.
  eapply wpe_call; [apply safe_FlushBatch|done|by auto|done].
Qed.

(** *** The end of the registration *)

(** Registered as a user that the credentials authorize. *)
Definition logged_in (s : dst) : Prop :=
  dc_registered (d_dc s) = true /\ authorized (dc_username (d_dc s)) (dc_impersonating (d_dc s)) /\
  dc_username (d_dc s) <> "" /\ forall r, dc_registration (d_dc s) = Some r -> rg_pass r = "".

(** Authenticated, with the password forgotten. *)
Definition ready (s : dst) : Prop :=
  RI s /\ exists r, dc_registration (d_dc s) = Some r /\ rg_authUsername r <> "" /\ rg_pass r = "".

Lemma get_reg_run {A} (f : downstreamRegistration -> A) s r : dc_registration (d_dc s) = Some r -> get_reg f s = (s, Ok (f r)).
Proof. intros Hr. unfold get_reg, get_dc. by rewrite bind_gets, Hr. Qed.

Lemma modify_reg_run f s r : dc_registration (d_dc s) = Some r -> modify_reg f s = (on_dc (on_registration f) s, Ok tt).
Proof. intros Hr. unfold modify_reg, get_dc. by rewrite bind_gets, Hr. Qed.

Notation Qerr := (fun e s' => RI s' /\ err_ok e).

Lemma register_pass_wpe dc pw raw s r :
  RI s -> dc_registration (d_dc s) = Some r -> rg_authUsername r = "" -> rg_pass r = "" ->
  wpe Qerr (register_pass dc pw raw) (fun _ s' => ready s') s.
Proof.
  intros Hs Hr Hu Hp. unfold register_pass. case_bool_decide; [destruct (IsEnabled _ _); by split|].
  destruct auth_Plain as [auth|] eqn:Ea; [|by split]. destruct (unmarshalUsername raw) as [[u c] n].
  destruct (auth u pw) eqn:Epw; [by split|]. pose proof (ri_imp _ Hs r Hr Hu) as Himp. destruct Hs as [_ H2 H3 H4 H5].
  unfold setAuthUsername, modify_dc. dsafe_step. apply wpe_modify. unfold wpe.
  rewrite (modify_reg_run _ _ r) by exact Hr. split; cbn; [|eexists; rewrite Hr; split_and!; [done| |done]; cbn; intros Hu0; subst u; by apply (ae_plain Hae auth pw) in Epw].
  constructor; cbn; rewrite ?Hr; cbn; try done.
  - intros r' [= <-] _. cbn. rewrite Himp. left. by exists auth, pw.
Qed.

Lemma register_names_wpe nick raw s : ready s -> wpe Qerr (register_names nick raw) (fun _ s' => ready s') s.
Proof.
  intros Hs. unfold register_names. destruct (unmarshalUsername raw) as [[u c] n]. dsafe_step. dsafe_step. dsafe_step.
  assert (Hgo : forall s, ready s -> wpe Qerr (networkName ← get_reg rg_networkName;
    (if bool_decide (networkName = "") then modify_reg (set_rg_networkName n)
     else if nonempty n && negb (bool_decide (networkName = n))
     then raise (IrcError (mk_msg "432" [nick; "Network name mismatch in usernames"])) else mret tt)) (fun _ s' => ready s') s).
  { clear. intros s (Hs & r & Hr & Hu & Hp). dsafe_step. eapply wpe_run; [apply (get_reg_run _ _ r Hr)|].
    case_bool_decide; [|destruct (_ && _); [by split|split; [done|by exists r]]].
    unfold wpe. rewrite (modify_reg_run _ _ r Hr). destruct Hs as [_ H2 H3 H4 H5]. split; cbn; [|eexists; by rewrite Hr].
    constructor; cbn; rewrite ?Hr; cbn; try done.
    - intros r' [= <-]. cbn. by apply H2.
    - intros r' [= <-]. cbn. by apply H3. }
  case_bool_decide; [|destruct (_ && _); [split; [apply Hs|done]|by apply Hgo]].
  apply wpe_modify, Hgo. destruct Hs as (Hs & r & Hr). split; [|by exists r]. by apply (reg_inv_same (d_dc s)).
Qed.

Lemma register_wpe s : RI s -> wpe Qerr dc_register (fun _ s' => logged_in s') s.
Proof.
  intros Hs. unfold dc_register. dsafe_step. dsafe_step. unfold Datatypes.id. rewrite (ri_unreg _ Hs). dsafe_step.
  assert (Hgo : forall dc s, RI s -> wpe Qerr (password ← get_reg rg_pass; modify_reg (set_rg_pass "");;
    authUsername ← get_reg rg_authUsername; rawUsername ← get_reg rg_username;
    when (bool_decide (authUsername = "")) (register_pass dc password rawUsername);;
    register_names (dc_nick dc) rawUsername;;
    authUsername ← get_reg rg_authUsername;
    modify_dc (fun dc => set_dc_username authUsername (set_dc_registered true dc))) (fun _ s' => logged_in s') s); [|
    dsafe_step; [eapply wpe_call; [apply safe_endSASL; by intros x [= <-]|done|by auto|]; intros _ s1 Hs1 _; by apply Hgo|by apply Hgo]].
  clear s Hs. intros dc s Hs. pose proof Hs as [[r Hr] _ _ _ _].
  assert (Hend : forall s, ready s -> wpe Qerr (authUsername ← get_reg rg_authUsername;
    modify_dc (fun dc => set_dc_username authUsername (set_dc_registered true dc))) (fun _ s' => logged_in s') s).
  { clear. intros s (Hs & r & Hr & Hu & Hp). dsafe_step. eapply wpe_run; [apply (get_reg_run _ _ r Hr)|]. apply wpe_modify.
    split_and!; cbn; [done|by apply (ri_auth _ Hs)|done|]. intros r'. rewrite Hr. by intros [= <-]. }
  dsafe_step. eapply wpe_run; [apply (get_reg_run _ _ r Hr)|]. dsafe_step. eapply wpe_run; [apply (modify_reg_run _ _ r Hr)|].
  set (s1 := on_dc _ s). assert (Hr1 : dc_registration (d_dc s1) = Some (set_rg_pass "" r)) by (cbn; by rewrite Hr).
  assert (Hs1 : RI s1).
  { destruct Hs as [_ H2 H3 H4 H5]. constructor; rewrite ?Hr1; try done; intros r' [= <-]; cbn; [by apply H2|by apply H3]. }
  dsafe_step. eapply wpe_run; [apply (get_reg_run _ _ _ Hr1)|]. dsafe_step. eapply wpe_run; [apply (get_reg_run _ _ _ Hr1)|].
  clearbody s1. dsafe_step. assert (Hready : forall s, ready s -> wpe Qerr (register_names (dc_nick dc) (rg_username (set_rg_pass "" r));;
    authUsername ← get_reg rg_authUsername; modify_dc (fun dc => set_dc_username authUsername (set_dc_registered true dc)))
    (fun _ s' => logged_in s') s).
  { intros s2 Hs2. dsafe_step. pose proof (register_names_wpe (dc_nick dc) (rg_username (set_rg_pass "" r)) s2 Hs2) as H.
    eapply wpe_mono; [exact H|]. intros [] s3 Hs3. by apply Hend. }
  case_bool_decide as Hu; [|apply Hready; split; [done|by eexists]].
  pose proof (register_pass_wpe dc (rg_pass r) (rg_username (set_rg_pass "" r)) s1 _ Hs1 Hr1 Hu eq_refl) as H.
  eapply wpe_mono; [exact H|]. intros [] s2 Hs2. by apply Hready.
Qed.

Lemma register_turn_wpe msg s : RI s ->
  wpe (fun _ s' => RI s') (register_turn msg) (fun more s' => if more : bool then RI s' else logged_in s') s.
Proof.
  intros Hs. unfold register_turn. apply wpe_bind. eapply wpe_call; [apply safe_dc_handleMessage|done|by auto|]. intros _ s1 Hs1 _.
  apply wpe_bind, wpe_modify. set (s2 := set_label None s1). assert (Hs2 : RI s2) by exact Hs1. clearbody s2.
  apply wpe_bind. eapply wpe_call; [apply safe_get_reg|done|by auto|]. intros r s3 Hs3 _.
  destruct (_ || _ || _); [done|]. pose proof (register_wpe s3 Hs3) as H. unfold try_register, wpe in *.
  destruct (dc_register s3) as [s4 [[]|[m|]|]]; [done| |apply H|done]. destruct H as [H1 H2].
  destruct (SendMessage_run (with_prefix (Some env_srvPrefix) m) s4 H2) as (s5 & E5 & Hc). rewrite (bind_ok _ _ _ _ _ E5). cbn.
  by apply (RI_same s4).
Qed.

Lemma runUntilRegistered_wpe msgs s : RI s ->
  wpe (fun _ s' => RI s') (runUntilRegistered msgs) (fun more s' => if more : bool then RI s' else logged_in s') s.
Proof.
  revert s; induction msgs as [|msg msgs IH]; intros s Hs; [done|]. cbn. apply wpe_bind.
  eapply wpe_mono; [apply register_turn_wpe; exact Hs|]. intros [] s1 Hs1; [by apply IH|done].
Qed.

Lemma RI_new id addr : RI (DSt (newDownstreamConn id addr) None []).
Proof. constructor; cbn; try done. by intros r [= <-]. Qed.

End Safety.

Section Theorems.
Context {MO : MapOrder} {UN : Unicode} {EV : Env} {SE : SrvEnv}.

(** C2: whatever messages a client sends on a new connection, the registration
    does not panic, and a connection becomes registered only as a user, with a
    non-empty name, that its password, bearer token or client certificate is
    accepted for, or that exists and is impersonated by an admin who gave the
    right password; the password of PASS is erased. *)
Theorem registration_authenticated id addr msgs s r :
  auth_env_ok -> runUntilRegistered msgs (DSt (newDownstreamConn id addr) None []) = (s, r) ->
  r <> Panic /\ (dc_registered (d_dc s) = true <-> r = Ok false) /\
  (dc_registered (d_dc s) = true ->
     authorized (dc_username (d_dc s)) (dc_impersonating (d_dc s)) /\ dc_username (d_dc s) <> "" /\
     forall reg, dc_registration (d_dc s) = Some reg -> rg_pass reg = "").
Proof.
  intros Hae E. pose proof (runUntilRegistered_wpe Hae msgs _ (RI_new id addr)) as H. unfold wpe in H. rewrite E in H.
  destruct r as [[]|e|]; [| | |done].
  - pose proof (ri_unreg _ H) as Hu. rewrite Hu. split_and!; done.
  - destruct H as (H1 & H2 & H3 & H4). rewrite H1. split_and!; done.
  - pose proof (ri_unreg _ H) as Hu. rewrite Hu. split_and!; done.
Qed.

(** ** Completion *)

Definition msg_pass (pw : string) : message := mk_msg "PASS" [pw].
Definition msg_nick (nick : string) : message := mk_msg "NICK" [nick].
Definition msg_user (username : string) : message := mk_msg "USER" [username; "0"; "*"; "real name"].

(** The state of the registration while only PASS, NICK and USER were sent. *)
Definition plain_conn id addr (reg : downstreamRegistration) : dst :=
  DSt (set_dc_registration (Some reg) (newDownstreamConn id addr)) None [].

(** A command that only changes the registration. *)
Lemma reg_turn id addr reg msg f :
  Tags msg = ∅ -> Command msg <> "QUIT" -> Command msg <> "ISUPPORT" ->
  (forall s, handleMessageUnregistered no_view msg s = modify_reg f s) ->
  dc_handleMessage no_view (handleMessageUnregistered no_view) msg (plain_conn id addr reg) = (plain_conn id addr (f reg), Ok tt).
Proof.
  intros Ht H1 H2 Hh. unfold dc_handleMessage, get_dc. rewrite bind_gets, bind_modify, Ht, lookup_empty.
  rewrite !bool_decide_false by done. rewrite (bind_ok _ _ _ (plain_conn id addr (f reg)) tt); [done|].
  unfold reply_error. rewrite Hh. done.
Qed.

(** A turn that does not end the registration. *)
Lemma reg_turn_more id addr reg msg f :
  Tags msg = ∅ -> Command msg <> "QUIT" -> Command msg <> "ISUPPORT" ->
  (forall s, handleMessageUnregistered no_view msg s = modify_reg f s) ->
  rg_nick (f reg) = "" \/ rg_username (f reg) = "" ->
  register_turn msg (plain_conn id addr reg) = (plain_conn id addr (f reg), Ok true).
Proof.
  intros Ht H1 H2 Hh Hmore. unfold register_turn. rewrite (bind_ok _ _ _ _ _ (reg_turn id addr reg msg f Ht H1 H2 Hh)).
  rewrite (bind_ok _ _ (plain_conn id addr (f reg)) (plain_conn id addr (f reg)) tt) by done.
  rewrite (bind_ok _ _ _ _ _ (get_reg_run Datatypes.id (plain_conn id addr (f reg)) _ eq_refl)). unfold Datatypes.id.
  destruct Hmore as [-> | ->]; [done|]. rewrite (bool_decide_true ("" = "")) by done. by rewrite orb_true_r.
Qed.

Lemma handle_pass pw s : handleMessageUnregistered no_view (msg_pass pw) s = modify_reg (set_rg_pass pw) s.
Proof. done. Qed.
Lemma handle_nick nick s : handleMessageUnregistered no_view (msg_nick nick) s = modify_reg (set_rg_nick nick) s.
Proof. done. Qed.
Lemma handle_user u s : handleMessageUnregistered no_view (msg_user u) s = modify_reg (set_rg_username u) s.
Proof. done. Qed.

(** The names of the user name do not contradict themselves. *)
Lemma register_names_own nick raw u c n s r :
  unmarshalUsername raw = (u, c, n) -> dc_clientName (d_dc s) = c -> dc_registration (d_dc s) = Some r -> rg_networkName r = n ->
  exists s', register_names nick raw s = (s', Ok tt) /\ dc_clientName (d_dc s') = c /\ d_out s' = d_out s /\
    exists r', dc_registration (d_dc s') = Some r' /\ rg_networkName r' = n /\ rg_nick r' = rg_nick r /\
               rg_authUsername r' = rg_authUsername r.
Proof.
  intros Hraw Hc Hr Hn. unfold register_names. rewrite Hraw. unfold get_dc at 1. rewrite bind_gets, Hc.
  set (s1 := if bool_decide (c = "") then on_dc (set_dc_clientName c) s else s).
  assert (Hr1 : dc_registration (d_dc s1) = Some r) by (unfold s1; by case_bool_decide).
  rewrite (bind_ok _ _ s s1 tt); [|unfold s1; case_bool_decide; [done|]; rewrite (bool_decide_true (c = c)) by done; by rewrite andb_false_r].
  rewrite (bind_ok _ _ _ _ _ (get_reg_run rg_networkName s1 r Hr1)), Hn.
  assert (Hc1 : dc_clientName (d_dc s1) = c) by (unfold s1; by case_bool_decide).
  assert (Ho1 : d_out s1 = d_out s) by (unfold s1; by case_bool_decide). clearbody s1. case_bool_decide as En.
  - rewrite (modify_reg_run _ _ _ Hr1). eexists. split_and!; [reflexivity|done|done|]. cbn. rewrite Hr1. eexists. by split_and!.
  - rewrite (bool_decide_true (n = n)), andb_false_r by done. exists s1. split_and!; [done|done|done|]. by exists r.
Qed.

(** C12: a client that sends PASS, NICK and USER with the right password gets
    registered as its user, with the client and network names of its user name,
    without an error message. *)
Theorem registration_completes id addr auth raw u c n pw nick :
  auth_Plain = Some auth -> unmarshalUsername raw = (u, c, n) -> auth u pw = None ->
  pw <> "" -> nick <> "" -> raw <> "" ->
  exists s reg, runUntilRegistered [msg_pass pw; msg_nick nick; msg_user raw] (DSt (newDownstreamConn id addr) None []) = (s, Ok false) /\
    dc_registered (d_dc s) = true /\ dc_username (d_dc s) = u /\ dc_clientName (d_dc s) = c /\
    dc_registration (d_dc s) = Some reg /\ rg_networkName reg = n /\ rg_nick reg = nick /\ d_out s = [].
Proof.
  intros Ha Hraw Hpw Hp Hn Hr. set (r0 := DReg "" "" "" "" 0 false "").
  change (DSt (newDownstreamConn id addr) None []) with (plain_conn id addr r0). cbn [runUntilRegistered].
  rewrite (bind_ok _ _ _ _ _ (reg_turn_more id addr r0 (msg_pass pw) (set_rg_pass pw) eq_refl ltac:(done) ltac:(done) (handle_pass pw) (or_introl eq_refl))).
  set (r1 := set_rg_pass pw r0).
  rewrite (bind_ok _ _ _ _ _ (reg_turn_more id addr r1 (msg_nick nick) (set_rg_nick nick) eq_refl ltac:(done) ltac:(done) (handle_nick nick) (or_intror eq_refl))).
  set (r2 := set_rg_nick nick r1). set (r3 := set_rg_username raw r2). set (s3 := plain_conn id addr r3).
  assert (Hreg : exists s reg, dc_register s3 = (s, Ok tt) /\
    dc_registered (d_dc s) = true /\ dc_username (d_dc s) = u /\ dc_clientName (d_dc s) = c /\
    dc_registration (d_dc s) = Some reg /\ rg_networkName reg = n /\ rg_nick reg = nick /\ d_out s = []).
  { unfold dc_register, get_dc. rewrite bind_gets. unfold Datatypes.id. set (dc0 := d_dc s3).
    change (dc_registered dc0) with false. cbv iota.
    rewrite (bind_ok _ _ s3 s3 tt) by done. rewrite (bind_ok _ _ _ _ _ (get_reg_run rg_pass s3 r3 eq_refl)).
    set (s4 := plain_conn id addr (set_rg_pass "" r3)). rewrite (bind_ok _ _ s3 s4 tt) by done.
    rewrite (bind_ok _ _ s4 s4 "") by done. rewrite (bind_ok _ _ s4 s4 raw) by done.
    set (s5 := on_dc (on_registration (set_auth u n)) (on_dc (set_dc_clientName c) s4)).
    rewrite (bind_ok _ _ s4 s5 tt).
    2: { unfold register_pass. change (rg_pass r3) with pw. unfold when. rewrite (bool_decide_true ("" = "")) by done.
         rewrite bool_decide_false by exact Hp. by rewrite Ha, Hraw, Hpw. }
    destruct (register_names_own (dc_nick dc0) raw u c n s5 (set_auth u n (set_rg_pass "" r3)) Hraw eq_refl eq_refl eq_refl)
      as (s6 & E6 & Hc6 & Ho6 & r6 & Hr6 & Hn6 & Hk6 & Hu6).
    rewrite (bind_ok _ _ _ _ _ E6). rewrite (bind_ok _ _ _ _ _ (get_reg_run rg_authUsername s6 r6 Hr6)).
    eexists _, r6. split; [reflexivity|]. cbn. split_and!; try done. }
  destruct Hreg as (s & reg & Ereg & Hrest). exists s, reg. split; [|exact Hrest].
  rewrite (bind_ok _ _ _ s false); [done|]. unfold register_turn.
  rewrite (bind_ok _ _ _ _ _ (reg_turn id addr r2 (msg_user raw) (set_rg_username raw) eq_refl ltac:(done) ltac:(done) (handle_user raw))).
  rewrite (bind_ok _ _ (plain_conn id addr (set_rg_username raw r2)) s3 tt) by done. rewrite (bind_ok _ _ _ _ _ (get_reg_run Datatypes.id s3 r3 eq_refl)).
  unfold Datatypes.id. cbn [rg_nick rg_username rg_negotiatingCaps r3 r2 r1 r0 set_rg_username set_rg_nick set_rg_pass].
  rewrite !bool_decide_false by done. cbn [orb]. unfold try_register. by rewrite Ereg.
Qed.

End Theorems.

(** ** User names *)

Definition no_sep (s : string) : Prop := Forall (fun c => user_sep c = false) (schars s).

Lemma slen_cons c s : slen (String c s) = S (slen s).
Proof. done. Qed.

Lemma IndexSep_at a c b : no_sep a -> user_sep c = true -> IndexSep (a +:+ String c b) = Some (slen a).
Proof.
  intros Ha Hc. unfold IndexSep. rewrite schars_app. change (schars (String c b)) with (c :: schars b).
  assert (E : list_find (fun c => user_sep c = true) (schars a ++ c :: schars b) = Some (length (schars a), c)).
  { apply list_find_Some. split_and!; [by rewrite lookup_app_r, Nat.sub_diag by lia|done|].
    intros j y Hj Hlt. rewrite lookup_app_l in Hj by done. apply list_elem_of_lookup_2 in Hj.
    unfold no_sep in Ha. rewrite Forall_forall in Ha. by rewrite (Ha y Hj). }
  rewrite E. cbn. by rewrite length_schars.
Qed.

Lemma LastIndexSep_at a c b : no_sep b -> user_sep c = true -> LastIndexSep (a +:+ String c b) = Some (slen a).
Proof.
  intros Hb Hc. unfold LastIndexSep. rewrite schars_app. change (schars (String c b)) with (c :: schars b). rewrite reverse_app, reverse_cons, <- app_assoc.
  assert (E : list_find (fun c => user_sep c = true) (reverse (schars b) ++ [c] ++ reverse (schars a)) = Some (length (schars b), c)).
  { apply list_find_Some. split_and!; [by rewrite lookup_app_r, length_reverse, Nat.sub_diag by (rewrite length_reverse; lia)|done|].
    intros j y Hj Hlt. rewrite lookup_app_l in Hj by (by rewrite length_reverse). apply list_elem_of_lookup_2 in Hj. rewrite elem_of_reverse in Hj.
    unfold no_sep in Hb. rewrite Forall_forall in Hb. by rewrite (Hb y Hj). }
  rewrite E. cbn. f_equal. rewrite slen_app, slen_cons, length_schars. lia.
Qed.

Lemma IndexSep_none a : no_sep a -> IndexSep a = None.
Proof.
  intros Ha. unfold IndexSep. destruct (list_find _ _) as [[i x]|] eqn:E; [|done]. apply list_find_Some in E as (Hl & Hx & _).
  apply list_elem_of_lookup_2 in Hl. unfold no_sep in Ha. rewrite Forall_forall in Ha. by rewrite (Ha x Hl) in Hx.
Qed.

Lemma sdrop_S a c b : sdrop (slen a + 1) (a +:+ String c b) = b.
Proof.
  rewrite <- (sapp_nil_l b) at 1. rewrite <- sapp_cons, sapp_assoc.
  replace (slen a + 1)%nat with (slen (a +:+ String c "")) by (by rewrite slen_app). apply sdrop_app.
Qed.

Lemma char_at_app a c b : char_at (a +:+ String c b) (slen a) = c.
Proof.
  unfold char_at. rewrite schars_app, lookup_app_r; rewrite length_schars; [|lia]. by rewrite Nat.sub_diag.
Qed.

Lemma unmarshal_part_at a c p rest cn :
  unmarshal_part (a +:+ String c (p +:+ rest)) (slen a) (slen a + 1 + slen p) cn
  = if bool_decide (c = "@"%char) then (p, snd cn) else (fst cn, p).
Proof.
  unfold unmarshal_part. rewrite char_at_app, sdrop_S. replace (slen a + 1 + slen p - (slen a + 1))%nat with (slen p) by lia.
  by rewrite stake_app.
Qed.

(** One separator. *)
Lemma unmarshal_one u c p : no_sep u -> no_sep p -> user_sep c = true ->
  unmarshalUsername (u +:+ String c p) = (u, if bool_decide (c = "@"%char) then p else "", if bool_decide (c = "@"%char) then "" else p).
Proof.
  intros Hu Hp Hc. unfold unmarshalUsername. rewrite (IndexSep_at u c p), (LastIndexSep_at u c p) by done.
  rewrite Nat.ltb_irrefl, stake_app. rewrite <- (sapp_nil_r p) at 1 3.
  replace (slen (u +:+ String c p)) with (slen u + 1 + slen p)%nat by (rewrite slen_app, slen_cons; lia).
  rewrite unmarshal_part_at. by case_bool_decide.
Qed.

(** Two separators. *)
Lemma unmarshal_two u c p d q : no_sep u -> no_sep p -> no_sep q -> user_sep c = true -> user_sep d = true -> c <> d ->
  unmarshalUsername (u +:+ String c (p +:+ String d q))
  = (u, if bool_decide (c = "@"%char) then p else q, if bool_decide (c = "@"%char) then q else p).
Proof.
  intros Hu Hp Hq Hc Hd Hne. unfold unmarshalUsername. rewrite (IndexSep_at u c) by done.
  assert (E : u +:+ String c (p +:+ String d q) = (u +:+ String c p) +:+ String d q) by (by rewrite <- sapp_assoc, sapp_cons).
  rewrite E at 1. rewrite (LastIndexSep_at _ d q) by done.
  assert (Hl : slen (u +:+ String c p) = (slen u + 1 + slen p)%nat) by (rewrite slen_app, slen_cons; lia).
  rewrite (proj2 (Nat.ltb_lt _ _)) by lia. rewrite stake_app.
  assert (E1 : unmarshal_part (u +:+ String c (p +:+ String d q)) (slen (u +:+ String c p)) (slen (u +:+ String c (p +:+ String d q))) ("", "")
               = if bool_decide (d = "@"%char) then (q, "") else ("", q)).
  { rewrite E. replace (slen ((u +:+ String c p) +:+ String d q)) with (slen (u +:+ String c p) + 1 + slen q)%nat
      by (rewrite !slen_app, !slen_cons; lia).
    pose proof (unmarshal_part_at (u +:+ String c p) d q "" ("", "")) as H. by rewrite sapp_nil_r in H. }
  rewrite E1, Hl, unmarshal_part_at. clear E1. unfold user_sep in *. apply bool_decide_eq_true in Hc, Hd.
  assert (Hx : (c = "@"%char /\ d = "/"%char) \/ (c = "/"%char /\ d = "@"%char)) by set_solver.
  destruct Hx as [[-> ->]|[-> ->]]; done.
Qed.

(** C38: a user name, a client name and a network name without separators are
    recovered from the user name a client sends, in either order and with either
    part missing. *)
Theorem unmarshalUsername_roundtrip u c n : no_sep u -> no_sep c -> no_sep n ->
  unmarshalUsername (u +:+ "/" +:+ n +:+ "@" +:+ c) = (u, c, n) /\
  unmarshalUsername (u +:+ "@" +:+ c +:+ "/" +:+ n) = (u, c, n) /\
  unmarshalUsername (u +:+ "/" +:+ n) = (u, "", n) /\
  unmarshalUsername (u +:+ "@" +:+ c) = (u, c, "") /\
  unmarshalUsername u = (u, "", "").
Proof.
  intros Hu Hc Hn. split_and!.
  - apply (unmarshal_two u "/"%char n "@"%char c); done.
  - apply (unmarshal_two u "@"%char c "/"%char n); done.
  - apply (unmarshal_one u "/"%char n); done.
  - apply (unmarshal_one u "@"%char c); done.
  - unfold unmarshalUsername. by rewrite IndexSep_none.
Qed.

Module RegistrationWitness.
Import PendingWitness DownWitness.

Lemma srv_auth_ok : auth_env_ok.
Proof. constructor; cbn; try done. intros auth pw [= <-]. done. Qed.

Definition dialog : list message := [msg_pass "secret"; msg_nick "al"; msg_user "alice/libera@phone"].

Lemma registration_authenticated_witness :
  authorized "alice" false /\
  dc_username (d_dc (fst (runUntilRegistered dialog (DSt (newDownstreamConn 1 "127.0.0.1:4000") None [])))) = "alice".
Proof.
  destruct (registration_authenticated 1 "127.0.0.1:4000" dialog
    (fst (runUntilRegistered dialog (DSt (newDownstreamConn 1 "127.0.0.1:4000") None [])))
    (snd (runUntilRegistered dialog (DSt (newDownstreamConn 1 "127.0.0.1:4000") None [])))) as (_ & _ & H).
  - exact srv_auth_ok.
  - apply surjective_pairing.
  - destruct H as (H & _); [vm_compute; reflexivity|]. split; [|vm_compute; reflexivity].
    assert (E1 : dc_username (d_dc (fst (runUntilRegistered dialog (DSt (newDownstreamConn 1 "127.0.0.1:4000") None [])))) = "alice")
      by (vm_compute; reflexivity).
    assert (E2 : dc_impersonating (d_dc (fst (runUntilRegistered dialog (DSt (newDownstreamConn 1 "127.0.0.1:4000") None [])))) = false)
      by (vm_compute; reflexivity).
    by rewrite E1, E2 in H.
Defined.

Lemma registration_completes_witness :
  exists s, runUntilRegistered [msg_pass "secret"; msg_nick "al"; msg_user "alice@phone"] (DSt (newDownstreamConn 1 "a") None []) = (s, Ok false) /\
    dc_username (d_dc s) = "alice" /\ dc_clientName (d_dc s) = "phone".
Proof.
  destruct (registration_completes 1 "a" check_pw "alice@phone" "alice" "phone" "" "secret" "al") as (s & reg & H1 & H2 & H3 & H4 & _);
    [reflexivity|vm_compute; reflexivity|vm_compute; reflexivity|discriminate..|]. by exists s.
Defined.

Lemma unmarshalUsername_roundtrip_witness : unmarshalUsername "alice/libera@phone" = ("alice", "phone", "libera").
Proof. apply (unmarshalUsername_roundtrip "alice" "phone" "libera"); by_eval. Defined.

End RegistrationWitness.
