(* ===== verification/DownstreamCaps.v ===== *)
(** * Capabilities of a client (downstream.go)

    Requests are granted as a whole or not at all, only available capabilities
    are enabled, and a client that is notified of changes knows the available
    ones. *)

From stdpp Require Import base list gmap strings.
From Stdlib Require Import ZArith Ascii.
From S2P Require Import Prelude GoStrings GoText Casemapping Xirc Genmsg Sasl Irc Rate Database.
From S2P Require Import Handler Session Network Pending Upstream UpstreamHandlers User Downstream.

Local Open Scope Z_scope.

(** ** Sending without a label *)

(** Commands that [SendMessage] passes on for every client. *)
Definition plain_command (cmd : string) : Prop :=
  cmd ∉ ["TAGMSG"; "JOIN"; "SETNAME"; "CHGHOST"; "AWAY"; "ACCOUNT"; "MARKREAD"; "READ"; "METADATA"; "REDACT"].

Section Send.
Context {MO : MapOrder} {UN : Unicode} {EV : Env} {SE : SrvEnv}.
Notation D := (handler dst derror).

Lemma dc_prepare_plain caps m : plain_command (Command m) ->
  exists m', dc_prepare caps m = Ok (Some m') /\ Command m' = Command m /\ Params m' = Params m.
Proof.
  intros Hc. unfold plain_command in Hc. unfold dc_prepare.
  rewrite (bool_decide_false (Command m = "TAGMSG")), andb_false_r by set_solver. cbv zeta.
  set (m1 := if IsEnabled caps "message-tags" then m else _).
  assert (H1 : Command m1 = Command m /\ Params m1 = Params m) by (unfold m1; by destruct (IsEnabled _ _)). clearbody m1.
  set (m2 := if _ && nonempty _ then _ else m1).
  assert (H2 : Command m2 = Command m /\ Params m2 = Params m) by (unfold m2; by destruct (_ && _)). clearbody m2.
  destruct H2 as [H2 H2']. rewrite (bool_decide_false (Command m2 = "JOIN")) by (rewrite H2; set_solver). cbn [andb].
  rewrite (proj1 (not_true_iff_false (existsb _ _))).
  2: { intros (cc & Hin & Hcc)%existsb_exists. apply andb_true_iff in Hcc as [Hcc _]. apply bool_decide_eq_true in Hcc.
       rewrite H2 in Hcc. rewrite Hcc in Hc. unfold command_caps in Hin. rewrite <- list_elem_of_In in Hin.
       repeat (apply elem_of_cons in Hin as [->|Hin]; [set_solver|]). by apply elem_of_nil in Hin. }
  set (m3 := match MsgPrefix m2 with Some p => _ | None => m2 end).
  assert (H3 : Command m3 = Command m /\ Params m3 = Params m).
  { unfold m3. destruct (MsgPrefix m2); [|done]. by case_bool_decide. } clearbody m3.
  eexists. split; [reflexivity|]. destruct (MsgPrefix m3); [done|]. by destruct (isNumeric _).
Qed.

(** Without a label the message is written. *)
Lemma SendMessage_write m s m' :
  has_label s = None -> dc_prepare (dc_caps (d_dc s)) m = Ok (Some m') -> dc_SendMessage m s = (add_out m' s, Ok tt).
Proof.
  intros Hl Hp. unfold dc_SendMessage, get_dc. rewrite bind_gets. rewrite (bind_ok _ _ s s (Some m')) by (unfold lift; by rewrite Hp).
  by rewrite bind_gets, Hl.
Qed.

(** ** CAP REQ *)

(** A word of the request: a capability and whether it is to be enabled. *)
Definition req_item (tok : string) : string * bool :=
  let name := ToLower tok in
  if HasPrefix name "-" then (TrimPrefix name "-", false) else (name, true).

(** What the server does not do. *)
Definition refused (dc : downstreamConn) (item : string * bool) : bool :=
  negb (Bool.eqb (snd item) (IsEnabled (dc_caps dc) (fst item))) &&
  (negb (IsAvailable (dc_caps dc) (fst item))
   || (bool_decide (fst item = "cap-notify") && (302 <=? dc_capVersion dc) && negb (snd item))
   || bool_decide (fst item = "soju.im/account-required")).

Definition req_change (dc : downstreamConn) (m : gmap string bool) (item : string * bool) : gmap string bool :=
  if Bool.eqb (snd item) (IsEnabled (dc_caps dc) (fst item)) then m else <[fst item := snd item]> m.

Lemma req_loop_spec dc toks m :
  req_loop dc toks m = if existsb (refused dc) (req_item <$> toks) then None else Some (foldl (req_change dc) m (req_item <$> toks)).
Proof.
  revert m; induction toks as [|tok toks IH]; intros m; [done|]. cbn [req_loop fmap list_fmap existsb foldl].
  set (name := if negb (HasPrefix (ToLower tok) "-") then _ else _).
  assert (E : req_item tok = (name, negb (HasPrefix (ToLower tok) "-"))) by (unfold req_item, name; by destruct (HasPrefix _ _)).
  rewrite E. unfold refused at 1, req_change at 2. cbn [fst snd]. clearbody name. destruct (HasPrefix _ _); cbn [negb];
    destruct (Bool.eqb _ _); cbn [negb andb]; try apply IH;
    (destruct (IsAvailable _ _); cbn [negb orb]; [|done]); rewrite ?andb_false_r, ?andb_true_r; cbn [orb].
  - destruct (_ && _); cbn [orb]; [done|]. case_bool_decide; [done|]. apply IH.
  - case_bool_decide; [done|]. apply IH.
Qed.

(** A request that does not name a capability with both signs. *)
Definition consistent (items : list (string * bool)) : Prop :=
  forall n b b', (n, b) ∈ items -> (n, b') ∈ items -> b = b'.

Lemma req_fold_other dc items m n : n ∉ items.*1 -> foldl (req_change dc) m items !! n = m !! n.
Proof.
  revert m; induction items as [|[n0 b0] items IH]; intros m Hn; [done|]. cbn in *. apply not_elem_of_cons in Hn as [H0 Hn].
  rewrite IH by done. unfold req_change. cbn. destruct (Bool.eqb _ _); [done|]. by rewrite lookup_insert_ne.
Qed.

Lemma req_fold_item dc items m n b : consistent items -> (n, b) ∈ items ->
  foldl (req_change dc) m items !! n = if Bool.eqb b (IsEnabled (dc_caps dc) n) then m !! n else Some b.
Proof.
  revert m; induction items as [|[n0 b0] items IH]; intros m Hc Hin; [by apply elem_of_nil in Hin|]. cbn [foldl].
  assert (Hc' : consistent items) by (intros x y z Hy Hz; apply (Hc x); by apply elem_of_cons; right).
  assert (Hm : forall m, req_change dc m (n, b) !! n = if Bool.eqb b (IsEnabled (dc_caps dc) n) then m !! n else Some b).
  { intros m'. unfold req_change. cbn. destruct (Bool.eqb _ _); [done|]. apply lookup_insert_eq. }
  destruct (decide ((n, b) ∈ items)) as [Hin'|Hnin].
  - rewrite (IH _ Hc' Hin'). destruct (decide (n0 = n)) as [->|Hne].
    + assert (b0 = b) as -> by (apply (Hc n); [by left|by right]). rewrite Hm. by destruct (Bool.eqb _ _).
    + unfold req_change. cbn. destruct (Bool.eqb b0 _); [done|]. by rewrite lookup_insert_ne.
  - apply elem_of_cons in Hin as [[= <- <-]|]; [|done]. rewrite req_fold_other; [apply Hm|].
    intros ([n' b'] & Hn' & Hin)%list_elem_of_fmap. cbn in Hn'. subst n'. apply Hnin.
    assert (b = b') as -> by (apply (Hc n); [by left|by right]). done.
Qed.

Lemma set_fold caps l n : NoDup l.*1 ->
  IsEnabled (foldl (fun caps ne => SetEnabled caps (fst ne) (snd ne)) caps l) n
  = match list_to_map (M := gmap string bool) l !! n with Some b => b | None => IsEnabled caps n end.
Proof.
  revert caps; induction l as [|[n0 b0] l IH]; intros caps Hnd; [done|]. cbn in *. apply NoDup_cons in Hnd as [Hn Hnd].
  rewrite (IH _ Hnd), IsEnabled_SetEnabled. destruct (decide (n0 = n)) as [->|Hne].
  - rewrite lookup_insert_eq. by rewrite (not_elem_of_list_to_map_1 l n Hn).
  - by rewrite lookup_insert_ne.
Qed.

Lemma map_order_NoDup {V} (m : gmap string V) : NoDup (map_order m).*1.
Proof. rewrite map_order_perm. apply NoDup_fst_map_to_list. Qed.

Lemma set_all_enabled m caps n : IsEnabled (set_all m caps) n = default (IsEnabled caps n) (m !! n).
Proof.
  unfold set_all. rewrite set_fold by apply map_order_NoDup.
  rewrite (list_to_map_proper _ (map_to_list m)); [|apply map_order_NoDup|apply map_order_perm]. by rewrite list_to_map_to_list.
Qed.

Lemma set_all_available m caps : Available (set_all m caps) = Available caps.
Proof.
  unfold set_all. generalize (map_order m). intros l. revert caps. induction l as [|[n b] l IH]; intros caps; [done|]. cbn.
  rewrite IH. by destruct b.
Qed.

(** A client whose registration state is known, as it is from [newDownstreamConn]
    on. *)
Definition reg_known (dc : downstreamConn) : Prop := dc_registered dc = true \/ is_Some (dc_registration dc).

Lemma negotiating_run b s : reg_known (d_dc s) ->
  exists s', negotiating b s = (s', Ok tt) /\ dc_caps (d_dc s') = dc_caps (d_dc s) /\ d_out s' = d_out s.
Proof.
  intros Hr. unfold negotiating, get_dc. rewrite bind_gets. unfold Datatypes.id. destruct (dc_registered (d_dc s)) eqn:E; [by exists s|].
  destruct Hr as [|[r Hr]]; [congruence|]. rewrite Hr. eexists. split; [reflexivity|]. done.
Qed.

Lemma cap_reply_run reply arg s : has_label s = None ->
  exists m, cap_reply reply arg s = (add_out m s, Ok tt) /\ Command m = "CAP" /\ Params m = [dc_nick (d_dc s); reply; arg].
Proof.
  intros Hl. unfold cap_reply, get_dc. rewrite bind_gets.
  destruct (dc_prepare_plain (dc_caps (d_dc s)) (with_prefix (Some env_srvPrefix) (mk_msg "CAP" [dc_nick (d_dc s); reply; arg])))
    as (m & Hp & Hc & Hps); [unfold plain_command; by_eval|].
  exists m. by rewrite (SendMessage_write _ _ _ Hl Hp).
Qed.


End Send.

(** ** Enabled capabilities are available *)

Record caps_ok (caps : CapRegistry) : Prop := {
  co_available : forall n, IsEnabled caps n = true -> IsAvailable caps n = true;
  co_notify : IsAvailable caps "cap-notify" = true;
  co_account : IsEnabled caps "soju.im/account-required" = false
}.

(** What handlers that do not touch the capabilities keep. *)
Definition on_caps (Q : CapRegistry -> Prop) (s : dst) : Prop := Q (dc_caps (d_dc s)).

Ltac keeps_caps :=
  repeat match goal with
  | |- keeps _ (_ ≫= _) => apply keeps_bind; [|intros ?]
  | |- keeps _ (when _ _) => apply keeps_when
  | |- keeps _ (for_each _ _) => apply keeps_for_each; intros ?
  | |- keeps _ (mret _) => apply keeps_ret
  | |- keeps _ (raise _) => apply keeps_raise
  | |- keeps _ panic => apply keeps_panic
  | |- keeps _ (gets _) => apply keeps_gets
  | |- keeps _ (get_dc _) => apply keeps_gets
  | |- keeps _ (lift _) => apply keeps_lift
  | |- keeps _ (dneed _ _) => apply keeps_lift
  | |- keeps _ (write _) => apply keeps_modify; intros ? ?; assumption
  | |- keeps _ (modify (set_label _)) => apply keeps_modify; intros ? ?; assumption
  | |- keeps _ (modify_dc _) => apply keeps_modify; intros ? ?; assumption
  | |- keeps _ (let '(_, _) := ?x in _) => destruct x
  | |- keeps _ (if ?b then _ else _) => destruct b
  | |- keeps _ (match ?x with _ => _ end) => destruct x
  | |- keeps _ (dc_SendMessage _) => solve [auto with keeps_caps]
  | |- keeps _ _ => progress unfold next_batch, cap_reply, negotiating, get_reg, modify_reg, sendPing, setAuthUsername, dc_endSASL
  end.

Create HintDb keeps_caps.

Section Invariant.
Context {MO : MapOrder} {UN : Unicode} {EV : Env} {SE : SrvEnv}.

Section Other.
Context (Q : CapRegistry -> Prop).
Notation P := (on_caps Q).

Lemma caps_SendMessage m : keeps P (dc_SendMessage m).
Proof. unfold dc_SendMessage. keeps_caps. Qed.
Hint Resolve caps_SendMessage : keeps_caps.

Lemma caps_FlushBatch : keeps P dc_FlushBatch.
Proof. unfold dc_FlushBatch. keeps_caps. Qed.
Lemma caps_cap_reply r a : keeps P (cap_reply r a).
Proof. keeps_caps. Qed.
Lemma caps_negotiating b : keeps P (negotiating b).
Proof. keeps_caps. Qed.
Lemma caps_sendIsupport m : keeps P (sendIsupport m).
Proof. unfold sendIsupport, dc_SendBatch. keeps_caps. Qed.

(** All commands before the registration but CAP. *)
Lemma caps_unregistered V msg : Command msg <> "CAP" -> keeps P (handleMessageUnregistered V msg).
Proof.
  intros Hc. unfold handleMessageUnregistered. rewrite (bool_decide_false (Command msg = "CAP")) by done.
  unfold handle_authenticate_unregistered, dc_handleAuthenticate, handle_bouncer_unregistered, handle_metadata_unregistered,
    handleMetadataSub, metadata_sub, send_subscribed. keeps_caps.
Qed.

End Other.

(** *** CAP *)

Lemma caps_ok_set caps n b : caps_ok caps -> (b = true -> IsAvailable caps n = true) -> (n = "soju.im/account-required" -> b = false) ->
  caps_ok (SetEnabled caps n b).
Proof.
  intros [H1 H2 H3] Hav Hacc. assert (Ha : forall n', IsAvailable (SetEnabled caps n b) n' = IsAvailable caps n') by (by destruct b).
  constructor.
  - intros n'. rewrite IsEnabled_SetEnabled, Ha. case_decide as E; [subst; apply Hav|apply H1].
  - by rewrite Ha.
  - rewrite IsEnabled_SetEnabled. case_decide; [by apply Hacc|done].
Qed.

Lemma caps_ok_same caps caps' : caps_ok caps -> Enabled caps' = Enabled caps ->
  (forall n, IsAvailable caps n = true -> IsAvailable caps' n = true) -> caps_ok caps'.
Proof.
  intros [H1 H2 H3] He Ha. constructor; unfold IsEnabled in *; rewrite ?He; auto.
Qed.

Lemma make_available_mono l caps : Enabled (make_available l caps) = Enabled caps /\
  forall n, IsAvailable caps n = true -> IsAvailable (make_available l caps) n = true.
Proof.
  revert caps; induction l as [|k l IH]; intros caps; [done|]. cbn. destruct (IH (Caps (<[k := ""]> (Available caps)) (Enabled caps))) as [E1 E2].
  split; [done|]. intros n Hn. apply E2. unfold IsAvailable in *. cbn. apply bool_decide_eq_true in Hn. apply bool_decide_true.
  apply lookup_insert_is_Some'. by right.
Qed.

Lemma req_fold_inv dc items m n b : foldl (req_change dc) m items !! n = Some b ->
  m !! n = Some b \/ ((n, b) ∈ items /\ b <> IsEnabled (dc_caps dc) n).
Proof.
  revert m; induction items as [|[n0 b0] items IH]; intros m H; [by left|]. cbn in H. apply IH in H as [H|[H1 H2]]; [|right; split; [by right|done]].
  unfold req_change in H. cbn in H. destruct (Bool.eqb b0 _) eqn:E; [by left|]. destruct (decide (n0 = n)) as [->|Hne].
  - rewrite lookup_insert_eq in H. injection H as ->. right. split; [by left|]. intros Hb. rewrite Hb, Bool.eqb_reflx in E. done.
  - rewrite lookup_insert_ne in H by done. by left.
Qed.

Lemma caps_ok_req dc toks m : caps_ok (dc_caps dc) -> req_loop dc toks ∅ = Some m -> caps_ok (set_all m (dc_caps dc)).
Proof.
  intros [H1 H2 H3]. rewrite req_loop_spec. destruct (existsb _ _) eqn:Ex; [done|]. intros [= <-].
  assert (Hm : forall n b, foldl (req_change dc) ∅ (req_item <$> toks) !! n = Some b ->
                           IsAvailable (dc_caps dc) n = true /\ n <> "soju.im/account-required").
  { intros n b Hb. apply req_fold_inv in Hb as [Hb|[Hin Hne]]; [by rewrite lookup_empty in Hb|].
    rewrite <- not_true_iff_false, existsb_exists in Ex.
    assert (Hr : refused dc (n, b) = false). { apply not_true_iff_false. intros Hr. apply Ex. exists (n, b). by rewrite <- list_elem_of_In. }
    unfold refused in Hr. cbn in Hr. destruct (Bool.eqb b _) eqn:Eb; [by apply Bool.eqb_prop in Eb|]. cbn in Hr.
    apply orb_false_iff in Hr as [Hr Hacc]. apply orb_false_iff in Hr as [Hr _]. apply negb_false_iff in Hr.
    apply bool_decide_eq_false in Hacc. done. }
  assert (Ha : forall n, IsAvailable (set_all (foldl (req_change dc) ∅ (req_item <$> toks)) (dc_caps dc)) n = IsAvailable (dc_caps dc) n).
  { intros n. unfold IsAvailable. by rewrite set_all_available. }
  constructor; [|by rewrite Ha|].
  - intros n. rewrite Ha, set_all_enabled. destruct (_ !! n) as [b|] eqn:Eb; [|apply H1]. intros _. by apply (Hm n b).
  - rewrite set_all_enabled. destruct (_ !! "soju.im/account-required") as [b|] eqn:Eb; [|done]. by destruct (Hm _ _ Eb).
Qed.

Notation P := (on_caps caps_ok).
Hint Resolve caps_SendMessage : keeps_caps.

Lemma keeps_set_caps f : (forall dc, caps_ok (dc_caps dc) -> caps_ok (f (dc_caps dc))) ->
  keeps (E := derror) P (modify_dc (fun dc => set_dc_caps (f (dc_caps dc)) dc)).
Proof. intros Hf. apply keeps_modify. intros s Hs. by apply Hf. Qed.

Lemma caps_handleCap msg : keeps P (handleCap msg).
Proof.
  unfold handleCap. apply keeps_bind; [apply keeps_lift|]. intros l. case_bool_decide; [|case_bool_decide; [|case_bool_decide; [|case_bool_decide]]].
  - apply keeps_bind; [keeps_caps|]. intros _. apply keeps_bind; [keeps_caps|]. intros dc. apply keeps_bind.
    { apply keeps_when, keeps_set_caps. intros dc' Hdc. destruct (make_available_mono passthroughDownstreamCaps (dc_caps dc')) as [E1 E2].
      by apply (caps_ok_same (dc_caps dc')). }
    intros _. apply keeps_bind; [keeps_caps|]. intros caps. apply keeps_bind; [apply caps_cap_reply|]. intros _.
    apply keeps_bind; [|intros _; apply caps_negotiating]. apply keeps_when, (keeps_set_caps (fun caps => SetEnabled caps "cap-notify" true)). intros dc' Hdc.
    apply caps_ok_set; [done|intros _; exact (co_notify _ Hdc)|done].
  - keeps_caps.
  - destruct (tail (Params msg)) as [|a args]; [keeps_caps|]. intros s Hs.
    unfold get_dc. rewrite bind_gets. unfold Datatypes.id. destruct (req_loop (d_dc s) (Fields a) ∅) as [m|] eqn:Er.
    + set (s1 := on_dc (fun dc => set_dc_caps (set_all m (dc_caps dc)) dc) s). rewrite (bind_ok _ _ s s1 "ACK") by done.
      assert (Hs1 : P s1) by (by apply (caps_ok_req (d_dc s) (Fields a))). revert Hs1. generalize s1. fold (keeps P (cap_reply "ACK" a;; negotiating true)).
      keeps_caps.
    + rewrite bind_ret. revert s Hs Er. intros s Hs _. revert s Hs. fold (keeps P (cap_reply "NAK" a;; negotiating true)). keeps_caps.
  - apply caps_negotiating.
  - keeps_caps.
Qed.

(** *** Changes of the network *)

(** The capabilities [updateSupportedCaps] works on. *)
Definition dynamic_caps : list string := passthroughDownstreamCaps ++ ["sasl"; "draft/account-registration"; "draft/event-playback"].

Lemma caps_setSupportedCap name value : keeps P (setSupportedCap name value).
Proof.
  intros s Hs. unfold setSupportedCap, get_dc, modify_dc. rewrite bind_gets, bind_modify.
  set (s1 := on_dc _ s). assert (Hs1 : P s1).
  { apply (caps_ok_same (dc_caps (d_dc s))); [done|done|]. intros n Hn. unfold IsAvailable in *. cbn. apply bool_decide_eq_true in Hn.
    apply bool_decide_true, lookup_insert_is_Some'. by right. }
  clearbody s1. destruct (_ || _); [done|]. rewrite bind_gets. by apply caps_cap_reply.
Qed.

Lemma caps_unsetSupportedCap name : name <> "cap-notify" -> keeps P (unsetSupportedCap name).
Proof.
  intros Hn s [H1 H2 H3]. unfold unsetSupportedCap, get_dc, modify_dc. rewrite bind_gets, bind_modify.
  set (s1 := on_dc _ s). assert (Hs1 : P s1).
  { constructor; cbn.
    - intros n. rewrite IsEnabled_CapDel, IsAvailable_CapDel. case_decide; [done|]. apply H1.
    - rewrite IsAvailable_CapDel. by case_decide.
    - rewrite IsEnabled_CapDel. by case_decide. }
  clearbody s1. destruct (_ || _); [done|]. by apply caps_cap_reply.
Qed.

Lemma supported_caps_keys V cb : cb ∈ map_order (supported_caps V) -> fst cb ∈ passthroughDownstreamCaps.
Proof.
  rewrite map_order_perm. destruct cb as [k b]. rewrite elem_of_map_to_list. unfold supported_caps. intros H.
  apply elem_of_list_to_map_2, list_elem_of_fmap in H as (c & [= -> _] & Hin). done.
Qed.

Lemma keeps_for_each_in {A} (P' : dst -> Prop) (l : list A) (f : A -> handler dst derror unit) :
  (forall x, x ∈ l -> keeps P' (f x)) -> keeps P' (for_each l f).
Proof.
  intros Hf. induction l as [|x l IH]; [apply keeps_ret|]. cbn. apply keeps_bind; [apply Hf; by left|].
  intros _. apply IH. intros y Hy. apply Hf. by right.
Qed.

Lemma caps_updateSupportedCaps V : keeps P (dc_updateSupportedCaps V).
Proof.
  unfold dc_updateSupportedCaps. apply keeps_bind.
  { apply keeps_for_each_in. intros cb Hin. apply supported_caps_keys in Hin. destruct (snd cb); [apply caps_setSupportedCap|].
    apply caps_unsetSupportedCap. intros E. rewrite E in Hin. revert Hin. by_eval. }
  intros _. apply keeps_bind; [|intros _; apply keeps_bind; [|intros _]]; keeps_caps;
    first [apply caps_setSupportedCap|apply caps_unsetSupportedCap; discriminate].
Qed.

Lemma caps_ok_new id addr : caps_ok (dc_caps (newDownstreamConn id addr)).
Proof.
  constructor; cbn; [done| |done]. apply bool_decide_true.
  repeat (match goal with |- context [if ?b then _ else _] => destruct b end); rewrite ?lookup_insert_ne by done; by eexists.
Qed.

(** What happens to a connection: messages of the client, before and after the
    registration, and changes of its network. *)
Inductive caps_step : dst -> dst -> Prop :=
| caps_message V msg s s' r : dc_handleMessage V (handleMessageUnregistered V) msg s = (s', r) -> caps_step s s'
| caps_command msg s s' r : handleCap msg s = (s', r) -> caps_step s s'
| caps_network V s s' r : dc_updateSupportedCaps V s = (s', r) -> caps_step s s'.

Lemma caps_handleMessage V msg : keeps P (dc_handleMessage V (handleMessageUnregistered V) msg).
Proof.
  assert (Hu : keeps P (handleMessageUnregistered V msg)).
  { destruct (decide (Command msg = "CAP")) as [E|E]; [|by apply caps_unregistered]. unfold handleMessageUnregistered. rewrite E.
    apply caps_handleCap. }
  unfold dc_handleMessage. apply keeps_bind; [keeps_caps|]. intros caps. apply keeps_bind; [keeps_caps|]. intros _.
  apply keeps_bind; [|intros _; apply caps_FlushBatch]. case_bool_decide; [keeps_caps|]. case_bool_decide.
  - destruct (negb _); [keeps_caps|]. apply keeps_bind; [keeps_caps|]. intros m. apply keeps_bind; [apply caps_sendIsupport|]. intros _. keeps_caps.
  - intros s Hs. unfold reply_error. specialize (Hu s Hs). destruct (handleMessageUnregistered V msg s) as [s' [a|[m|]|]]; try done.
    by apply caps_SendMessage.
Qed.

(** C14: whatever a client sends and however its network changes, the enabled
    capabilities of a connection are available ones, cap-notify stays available
    and the informational account-required is never enabled. *)
Theorem caps_invariant id addr s :
  rtc caps_step (DSt (newDownstreamConn id addr) None []) s -> caps_ok (dc_caps (d_dc s)).
Proof.
  intros Hrun. remember (DSt (newDownstreamConn id addr) None []) as s0 eqn:E0.
  assert (H0 : P s0) by (subst; apply caps_ok_new). clear E0. induction Hrun as [|s1 s2 s3 Hstep _ IH]; [done|]. apply IH.
  destruct Hstep as [V msg s1 s2 r E|msg s1 s2 r E|V s1 s2 r E].
  - pose proof (caps_handleMessage V msg s1 H0) as H. by rewrite E in H.
  - pose proof (caps_handleCap msg s1 H0) as H. by rewrite E in H.
  - pose proof (caps_updateSupportedCaps V s1 H0) as H. by rewrite E in H.
Qed.

(** ** Notifications *)

(** The capabilities a client believes in after a message. *)
Definition cap_view (v : gmap string string) (m : message) : gmap string string :=
  match Params m with
  | [_; sub; item] =>
      if bool_decide (Command m = "CAP" /\ sub = "NEW") then let '(name, value, _) := Cut item "=" in <[name := value]> v
      else if bool_decide (Command m = "CAP" /\ sub = "DEL") then delete item v
      else v
  | _ => v
  end.

(** A client of version 302 that is notified, and what it was told so far. *)
Record notified (out : list message) (v : gmap string string) (s : dst) : Prop := {
  nt_label : has_label s = None;
  nt_version : 302 <= dc_capVersion (d_dc s);
  nt_enabled : IsEnabled (dc_caps (d_dc s)) "cap-notify" = true;
  nt_view : exists l, d_out s = out ++ l /\ foldl cap_view v l = Available (dc_caps (d_dc s))
}.

(** A name that a client can tell from its value. *)
Definition good_name (name : string) : Prop :=
  name <> "cap-notify" /\ (forall v, Cut (name +:+ "=" +:+ v) "=" = (name, v, true)) /\ Cut name "=" = (name, "", false).

Lemma good_item version name value : good_name name -> 302 <= version ->
  exists b, Cut (cap_item version (name, value)) "=" = (name, value, b).
Proof.
  intros (_ & H1 & H2) Hv. unfold cap_item. rewrite (proj2 (Z.leb_le _ _) Hv). cbn [andb fst snd]. unfold nonempty.
  case_bool_decide; cbn [negb]; [subst; eauto|]. rewrite H1. eauto.
Qed.

Lemma notified_set out v s name value : good_name name -> notified out v s ->
  exists s', setSupportedCap name value s = (s', Ok tt) /\ notified out v s'.
Proof.
  intros Hg [H1 H2 H3 (l & Ho & Hv)]. unfold setSupportedCap, get_dc, modify_dc. rewrite bind_gets, bind_modify. rewrite H3. cbn [negb orb].
  set (s1 := on_dc _ s). case_bool_decide as Ea; cbn [negb].
  - exists s1. split; [done|]. constructor; try done. exists l. split; [done|]. cbn. rewrite Hv. by rewrite insert_id.
  - rewrite bind_gets. destruct (cap_reply_run "NEW" (cap_item (dc_capVersion (d_dc s1)) (name, value)) s1 H1) as (m & E & Hc & Hp).
    rewrite E. eexists. split; [reflexivity|]. constructor; try done. exists (l ++ [m]). cbn. rewrite Ho, app_assoc. split; [done|].
    rewrite foldl_snoc, Hv. unfold cap_view. rewrite Hp. rewrite (bool_decide_true (Command m = "CAP" /\ _)) by done.
    destruct (good_item (dc_capVersion (d_dc s1)) name value Hg H2) as [b ->]. done.
Qed.

Lemma notified_unset out v s name : good_name name -> notified out v s ->
  exists s', unsetSupportedCap name s = (s', Ok tt) /\ notified out v s'.
Proof.
  intros Hg [H1 H2 H3 (l & Ho & Hv)]. unfold unsetSupportedCap, get_dc, modify_dc. rewrite bind_gets, bind_modify.
  assert (He : IsEnabled (CapDel (dc_caps (d_dc s)) name) "cap-notify" = true).
  { rewrite IsEnabled_CapDel. case_decide; [by destruct Hg|done]. }
  rewrite He. cbn [negb orb]. set (s1 := on_dc _ s). destruct (IsAvailable (dc_caps (d_dc s)) name) eqn:Ea; cbn [negb].
  - destruct (cap_reply_run "DEL" name s1 H1) as (m & E & Hc & Hp). rewrite E. eexists. split; [reflexivity|]. constructor; try done.
    exists (l ++ [m]). cbn. rewrite Ho, app_assoc. split; [done|]. rewrite foldl_snoc, Hv. unfold cap_view. rewrite Hp.
    rewrite (bool_decide_false (Command m = "CAP" /\ _)) by (intros [_ ?]; done). by rewrite bool_decide_true.
  - exists s1. split; [done|]. constructor; try done. exists l. split; [done|]. cbn. rewrite Hv. symmetry. apply delete_id.
    unfold IsAvailable in Ea. apply bool_decide_eq_false, eq_None_not_Some in Ea. done.
Qed.

Lemma dynamic_good : Forall good_name dynamic_caps.
Proof. repeat (apply Forall_cons; split; [split_and!; [discriminate|intros v; reflexivity|reflexivity]|]). by apply Forall_nil. Qed.

Lemma dynamic_good_in name : name ∈ dynamic_caps -> good_name name.
Proof. pose proof dynamic_good as H. rewrite Forall_forall in H. apply H. Qed.

Lemma notified_seq out v s (m : handler dst derror unit) (k : unit -> handler dst derror unit) :
  (exists s', m s = (s', Ok tt) /\ notified out v s') -> (forall s', notified out v s' -> exists s'', k tt s' = (s'', Ok tt) /\ notified out v s'') ->
  exists s', (m ≫= k) s = (s', Ok tt) /\ notified out v s'.
Proof. intros (s1 & E1 & H1) Hk. rewrite (bind_ok _ _ _ _ _ E1). by apply Hk. Qed.

Lemma notified_for_each {A} out v (l : list A) (f : A -> handler dst derror unit) :
  (forall x s, x ∈ l -> notified out v s -> exists s', f x s = (s', Ok tt) /\ notified out v s') ->
  forall s, notified out v s -> exists s', for_each l f s = (s', Ok tt) /\ notified out v s'.
Proof.
  induction l as [|x l IH]; intros Hf s Hs; [by exists s|]. cbn. apply notified_seq; [apply Hf; [by left|done]|].
  intros s' Hs'. apply IH; [|done]. intros y s2 Hy. apply Hf. by right.
Qed.

(** C8: a change of the network keeps a client that enabled cap-notify (of
    version 302) informed: applied to the capabilities it knew, the CAP NEW and
    CAP DEL messages give exactly the available capabilities and their values. *)
Theorem cap_notify_sync V s :
  has_label s = None -> 302 <= dc_capVersion (d_dc s) -> IsEnabled (dc_caps (d_dc s)) "cap-notify" = true ->
  exists s' l, dc_updateSupportedCaps V s = (s', Ok tt) /\ d_out s' = d_out s ++ l /\
    foldl cap_view (Available (dc_caps (d_dc s))) l = Available (dc_caps (d_dc s')).
Proof.
  intros H1 H2 H3. set (v := Available (dc_caps (d_dc s))). set (out := d_out s).
  assert (Hs : notified out v s) by (constructor; try done; exists []; by rewrite app_nil_r).
  assert (Hset : forall name value s, name ∈ dynamic_caps -> notified out v s -> exists s', setSupportedCap name value s = (s', Ok tt) /\ notified out v s')
    by (intros; apply notified_set; [by apply dynamic_good_in|done]).
  assert (Hun : forall name s, name ∈ dynamic_caps -> notified out v s -> exists s', unsetSupportedCap name s = (s', Ok tt) /\ notified out v s')
    by (intros; apply notified_unset; [by apply dynamic_good_in|done]).
  assert (H : exists s', dc_updateSupportedCaps V s = (s', Ok tt) /\ notified out v s').
  { unfold dc_updateSupportedCaps. apply notified_seq.
    - apply notified_for_each; [|done]. intros cb s1 Hin Hs1. apply supported_caps_keys in Hin.
      assert (Hd : fst cb ∈ dynamic_caps) by (apply elem_of_app; by left). destruct (snd cb); auto.
    - intros s1 Hs1. apply notified_seq.
      + destruct (v_upstream V); [destruct (supportsSASL _ _)|destruct (is_Some_b _); [unfold when|by exists s1]]; first [apply Hset; [by_eval|done]|apply Hun; [by_eval|done]].
      + intros s2 Hs2. apply notified_seq.
        * destruct (v_upstream V); [destruct (IsEnabled (uc_caps _) _)|]; first [apply Hset; [by_eval|done]|apply Hun; [by_eval|done]].
        * intros s3 Hs3. destruct (v_chathistory V && _); first [apply Hset; [by_eval|done]|apply Hun; [by_eval|done]]. }
  destruct H as (s' & E & [_ _ _ (l & Ho & Hv)]). exists s', l. done.
Qed.

End Invariant.

Module CapsWitness.
Import PendingWitness DownWitness.

(** A client of version 302 after CAP LS. *)
Definition start : dst := fst (handleCap (mk_msg "CAP" ["LS"; "302"]) (DSt (newDownstreamConn 1 "a") None [])).
Definition req (a : string) : message := mk_msg "CAP" ["REQ"; a].


Lemma caps_invariant_witness : caps_ok (dc_caps (d_dc (fst (handleCap (req "batch") start)))).
Proof.
  apply (caps_invariant 1 "a"). eapply rtc_l; [eapply (caps_command (mk_msg "CAP" ["LS"; "302"])); apply surjective_pairing|].
  eapply rtc_l; [eapply (caps_command (req "batch")); apply surjective_pairing|]. apply rtc_refl.
Defined.

(** A network without an upstream connection appears. *)
Definition view : dview := DView (NewUser "user") true (Some (NetObj 0%nat net0 None)).

Lemma cap_notify_sync_witness :
  exists s' l, dc_updateSupportedCaps view start = (s', Ok tt) /\ d_out s' = d_out start ++ l /\
    foldl cap_view (Available (dc_caps (d_dc start))) l = Available (dc_caps (d_dc s')).
Proof. apply (cap_notify_sync view start); by_eval. Defined.

End CapsWitness.
