(* ===== verification/DownstreamIsupport.v ===== *)
(** * ISUPPORT of a client (downstream.go)

    The RPL_ISUPPORT messages of [updateIsupport] keep the tokens the client
    knows equal to those of the connection. *)

From stdpp Require Import base list gmap strings sorting.
From Stdlib Require Import ZArith Ascii.
From S2P Require Import Prelude GoStrings GoText Casemapping Xirc Genmsg Sasl Irc Rate Database.
From S2P Require Import Handler Session Network Pending Upstream UpstreamHandlers User Downstream DownstreamCaps.

Local Open Scope Z_scope.

(** ** The client *)

(** A token: [-KEY] removes, [KEY] and [KEY=value] set. *)
Definition isupport_view (v : gmap string (option string)) (tok : string) : gmap string (option string) :=
  if HasPrefix tok "-" then delete (TrimPrefix tok "-") v
  else let '(k, val, found) := Cut tok "=" in <[k := if found : bool then Some val else None]> v.

Definition client_isupport (v : gmap string (option string)) (m : message) : gmap string (option string) :=
  if bool_decide (Command m = RPL_ISUPPORT) then foldl isupport_view v (isupport_received m) else v.

(** A key whose tokens are unambiguous. *)
Definition good_key (k : string) : Prop :=
  HasPrefix k "-" = false /\ (forall v, HasPrefix (k +:+ "=" +:+ v) "-" = false) /\
  (forall v, Cut (k +:+ "=" +:+ v) "=" = (k, v, true)) /\ Cut k "=" = (k, "", false).

Definition good_keys (m : gmap string (option string)) : Prop := map_Forall (fun k _ => good_key k) m.

(** ** Changes *)

(** What an entry of the changes does: a key, and its new value or removal. *)
Inductive change_of : string * option string -> string -> option (option string) -> Prop :=
| change_set k v : good_key k -> change_of (k, v) k (Some v)
| change_del k : good_key k -> change_of ("-" +:+ k, None) k None.

Lemma view_change v kv k x : change_of kv k x ->
  isupport_view v (isupport_token kv) = match x with Some val => <[k := val]> v | None => delete k v end.
Proof.
  intros [k' val (H1 & H2 & H3 & H4)|k' (H1 & H2 & H3 & H4)]; unfold isupport_view, isupport_token; cbn [fst snd].
  - destruct val as [val|]; [by rewrite H2, H3|by rewrite H1, H4].
  - rewrite HasPrefix_app. unfold TrimPrefix, CutPrefix. rewrite HasPrefix_app. cbn [fst]. by rewrite sdrop_app.
Qed.

(** Entries with distinct keys, in any order. *)
Lemma view_fold L ks v :
  Forall2 (fun kv kx => change_of kv (fst kx) (snd kx)) L ks -> NoDup ks.*1 ->
  (forall k x, (k, x) ∈ ks -> foldl isupport_view v (isupport_token <$> L) !! k = x) /\
  (forall k, k ∉ ks.*1 -> foldl isupport_view v (isupport_token <$> L) !! k = v !! k).
Proof.
  intros HL. revert v. induction HL as [|kv [k0 x0] L ks Hkv HL IH]; intros v Hnd; [split; [intros k x Hin; by apply elem_of_nil in Hin|done]|].
  cbn in Hnd. apply NoDup_cons in Hnd as [Hn Hnd]. cbn [fmap list_fmap foldl]. rewrite (view_change v kv k0 x0 Hkv).
  destruct (IH (match x0 with Some val => <[k0 := val]> v | None => delete k0 v end) Hnd) as [IH1 IH2]. split.
  - intros k x [[= -> ->]|Hin]%elem_of_cons; [|by apply IH1]. rewrite IH2 by done.
    destruct x0; [by rewrite lookup_insert_eq|by rewrite lookup_delete_eq].
  - intros k Hk. cbn in Hk. apply not_elem_of_cons in Hk as [Hk0 Hk]. rewrite IH2 by done.
    destruct x0; [by rewrite lookup_insert_ne|by rewrite lookup_delete_ne].
Qed.

Section Changes.
Context {MO : MapOrder}.
Implicit Types old new : gmap string (option string).

Definition removals new (m : gmap string (option string)) (l : list string) : gmap string (option string) :=
  foldl (fun m k => if is_Some_b (new !! k) then m else <["-" +:+ k := None]> m) m l.

Lemma removals_inv new m l j x : removals new m l !! j = Some x ->
  m !! j = Some x \/ exists k, k ∈ l /\ j = "-" +:+ k /\ new !! k = None /\ x = None.
Proof.
  revert m; induction l as [|k l IH]; intros m H; [by left|]. cbn in H. apply IH in H as [H|(k' & Hin & H)]; [|right; exists k'; set_solver].
  destruct (new !! k) eqn:Ek; cbn in H; [by left|]. destruct (decide ("-" +:+ k = j)) as [<-|Hne].
  - rewrite lookup_insert_eq in H. injection H as <-. right. exists k. set_solver.
  - rewrite lookup_insert_ne in H by done. by left.
Qed.

Lemma removals_keep new m l j : HasPrefix j "-" = false -> removals new m l !! j = m !! j.
Proof.
  intros Hj. revert m; induction l as [|k l IH]; intros m; [done|]. cbn. etrans; [apply IH|]. destruct (is_Some_b _); [done|].
  rewrite lookup_insert_ne; [done|]. intros <-. by rewrite HasPrefix_app in Hj.
Qed.

Lemma removals_del new m l k : k ∈ l -> new !! k = None -> removals new m l !! ("-" +:+ k) = Some None.
Proof.
  assert (Hkeep : forall l m, m !! ("-" +:+ k) = Some None -> removals new m l !! ("-" +:+ k) = Some None).
  { clear l m. induction l as [|k' l IH]; intros m Hm; [done|]. cbn. apply IH. destruct (is_Some_b _); [done|].
    destruct (decide (k' = k)) as [->|Hne]; [by rewrite lookup_insert_eq|]. rewrite lookup_insert_ne; [done|].
    intros Heq. by apply sapp_inv_head in Heq. }
  revert m; induction l as [|k' l IH]; intros m Hin Hk; [by apply elem_of_nil in Hin|]. cbn. destruct (decide (k' = k)) as [->|Hne].
  - rewrite Hk. cbn. apply Hkeep, lookup_insert_eq.
  - apply IH; [|done]. apply elem_of_cons in Hin as [|]; [congruence|done].
Qed.

Lemma changes_eq old new : isupport_changes old new = removals new (filter (fun kv => old !! fst kv <> Some (snd kv)) new) (map_order old).*1.
Proof. done. Qed.

Lemma old_keys old k : k ∈ (map_order old).*1 <-> is_Some (old !! k).
Proof.
  rewrite map_order_perm, list_elem_of_fmap. split.
  - intros ([k' v] & -> & Hin). apply elem_of_map_to_list in Hin. cbn. by eexists.
  - intros [v Hv]. exists (k, v). split; [done|]. by apply elem_of_map_to_list.
Qed.

Lemma changes_entry old new kv : good_keys old -> good_keys new -> kv ∈ map_to_list (isupport_changes old new) ->
  exists k, change_of kv k (new !! k) /\ old !! k <> new !! k.
Proof.
  intros Ho Hn. destruct kv as [j x]. rewrite elem_of_map_to_list, changes_eq. intros [H|(k & Hin & -> & Hk & ->)]%removals_inv.
  - apply map_lookup_filter_Some in H as [H1 H2]. cbn in H2. exists j. rewrite H1. split; [|done]. constructor. by apply (Hn j x).
  - exists k. rewrite Hk. apply old_keys in Hin as [v Hv]. split; [|by rewrite Hv]. constructor. by apply (Ho k v).
Qed.

Lemma changes_complete old new k : good_keys old -> good_keys new -> old !! k <> new !! k ->
  exists kv, kv ∈ map_to_list (isupport_changes old new) /\ change_of kv k (new !! k).
Proof.
  intros Ho Hn Hne. destruct (new !! k) as [v|] eqn:Ek.
  - pose proof (Hn k v Ek) as Hg. exists (k, v). split; [|by constructor]. rewrite elem_of_map_to_list, changes_eq, removals_keep by apply Hg.
    apply map_lookup_filter_Some. done.
  - destruct (old !! k) as [v|] eqn:Eo; [|done]. pose proof (Ho k v Eo) as Hg. exists ("-" +:+ k, None). split; [|by constructor].
    rewrite elem_of_map_to_list, changes_eq. apply removals_del; [|done]. apply old_keys. by eexists.
Qed.

Definition key_of (kv : string * option string) : string := if HasPrefix (fst kv) "-" then TrimPrefix (fst kv) "-" else fst kv.

Lemma key_of_change kv k x : change_of kv k x -> key_of kv = k.
Proof.
  intros [k' v (H1 & _)|k' _]; unfold key_of; cbn [fst]; [by rewrite H1|]. rewrite HasPrefix_app. unfold TrimPrefix, CutPrefix.
  rewrite HasPrefix_app. cbn [fst]. by rewrite sdrop_app.
Qed.

(** Two entries for a key are the same. *)
Lemma change_unique kv kv' k x : change_of kv k x -> change_of kv' k x -> kv = kv'.
Proof. intros H1 H2. destruct H1; inversion H2; congruence. Qed.

(** The tokens of the changes, in any order, turn the old tokens into the new
    ones. *)
Lemma changes_apply old new L :
  good_keys old -> good_keys new -> L ≡ₚ map_to_list (isupport_changes old new) ->
  foldl isupport_view old (isupport_token <$> L) = new.
Proof.
  intros Ho Hn Hp. set (ks := (fun kv => (key_of kv, new !! key_of kv)) <$> L).
  assert (HL : forall kv, kv ∈ L -> change_of kv (key_of kv) (new !! key_of kv) /\ old !! key_of kv <> new !! key_of kv).
  { intros kv Hin. rewrite Hp in Hin. destruct (changes_entry old new kv Ho Hn Hin) as (k & Hc & Hne).
    by rewrite (key_of_change _ _ _ Hc). }
  destruct (view_fold L ks old) as [H1 H2].
  - unfold ks. apply Forall2_fmap_r, Forall_Forall2_diag, Forall_forall. intros kv Hin. by apply HL.
  - unfold ks. rewrite <- list_fmap_compose. apply NoDup_fmap_2_strong; [|rewrite Hp; apply NoDup_map_to_list].
    intros kv kv' Hin Hin' E. cbn in E. destruct (HL kv Hin) as [Hc _], (HL kv' Hin') as [Hc' _]. rewrite <- E in Hc'.
    by eapply change_unique.
  - apply map_eq. intros k. destruct (decide (k ∈ ks.*1)) as [Hin|Hnin].
    + apply H1. unfold ks in *. apply list_elem_of_fmap in Hin as ([k' x] & -> & Hin). apply list_elem_of_fmap in Hin as (kv & [= -> ->] & Hin).
      apply list_elem_of_fmap. by exists kv.
    + rewrite H2 by done. destruct (decide (old !! k = new !! k)) as [|Hne]; [done|]. exfalso. apply Hnin.
      destruct (changes_complete old new k Ho Hn Hne) as (kv & Hin & Hc). rewrite <- Hp in Hin. apply list_elem_of_fmap.
      exists (key_of kv, new !! key_of kv). split; [by rewrite (key_of_change _ _ _ Hc)|]. apply list_elem_of_fmap. by exists kv.
Qed.

(** The messages carry the tokens. *)
Lemma isupport_messages v m :
  exists L, L ≡ₚ map_to_list m /\ foldl client_isupport v (GenerateIsupport m) = foldl isupport_view v (isupport_token <$> L) /\
    Forall (fun msg => Command msg = RPL_ISUPPORT) (GenerateIsupport m).
Proof.
  assert (Hp : isupport_token <$> map_to_list m ≡ₚ isupport_tokens m) by (symmetry; apply merge_sort_Permutation).
  destruct (Permutation_map_inv isupport_token (l1 := isupport_tokens m) (map_to_list m)) as (L & HL & HpL).
  { by symmetry. }
  exists L. split; [by symmetry|]. unfold GenerateIsupport.
  destruct (isupport_loop_spec (length (isupport_tokens m)) (isupport_tokens m)) as (gs & Heq & Hcat & _); [done|].
  rewrite Heq. change (isupport_token <$> L) with (map isupport_token L). rewrite <- HL, <- Hcat. clear. split.
  - revert v. induction gs as [|g gs IH]; intros v; [done|]. cbn [fmap list_fmap foldl concat]. rewrite foldl_app, <- IH.
    f_equal. unfold client_isupport. rewrite bool_decide_true by done. by rewrite isupport_received_msg.
  - apply Forall_fmap, Forall_true. done.
Qed.

End Changes.

(** ** The keys of a connection *)

Definition known_keys : list string :=
  permanentIsupport ++ passthroughIsupport ++
  ["BOUNCER_NETID"; "CHATHISTORY"; "MSGREFTYPES"; "VAPID"; "soju.im/FILEHOST"].

Lemma known_good : Forall good_key known_keys.
Proof. repeat (apply Forall_cons; split; [split_and!; [reflexivity|intros v; reflexivity|intros v; reflexivity|reflexivity]|]). by apply Forall_nil. Qed.

Lemma known_good_in k : k ∈ known_keys -> good_key k.
Proof. pose proof known_good as H. rewrite Forall_forall in H. apply H. Qed.

Section Sync.
Context {MO : MapOrder} {UN : Unicode} {EV : Env} {SE : SrvEnv}.

Lemma good_insert k v m : good_key k -> good_keys m -> good_keys (<[k := v]> m).
Proof. intros Hk Hm. by apply map_Forall_insert_2. Qed.

Lemma good_opt_insert b k v m : good_key k -> good_keys m -> good_keys (opt_insert b k v m).
Proof. intros Hk Hm. destruct b; [by apply good_insert|done]. Qed.

Lemma good_pass uc m : good_keys m -> good_keys (pass_isupport uc m).
Proof.
  assert (H : forall l m, (forall k, k ∈ l -> good_key k) -> good_keys m ->
    good_keys (foldl (fun m k => match uc_isupport uc !! k with Some v => <[k := v]> m | None => m end) m l)).
  { induction l as [|k l IH]; intros m' Hl Hm; [done|]. cbn. apply IH; [intros k' Hk'; apply Hl; by right|].
    destruct (uc_isupport uc !! k); [|done]. apply good_insert; [apply Hl; by left|done]. }
  apply H. intros k Hk. apply known_good_in. unfold known_keys. set_solver.
Qed.

Ltac good_keys :=
  repeat match goal with
  | |- good_keys (<[_ := _]> _) => apply good_insert; [apply known_good_in; by_eval|]
  | |- good_keys (opt_insert _ _ _ _) => apply good_opt_insert; [apply known_good_in; by_eval|]
  | |- good_keys (pass_isupport _ _) => apply good_pass
  | |- good_keys (match ?x with _ => _ end) => destruct x
  end.

Lemma good_build V dc : good_keys (buildIsupport V dc).
Proof.
  assert (H0 : good_keys (list_to_map ((fun k => (k, None)) <$> permanentIsupport))) by (cbn; good_keys; apply map_Forall_empty).
  unfold buildIsupport, bouncer_isupport. cbv zeta. destruct (v_upstream V); good_keys; apply H0.
Qed.

(** ** Sending *)

(** Messages that are not dropped, and what the client makes of them; [f] adds
    tags. *)
Lemma send_isupport_run f l s v :
  (forall m, Command (f m) = Command m /\ Params (f m) = Params m) ->
  has_label s = None -> Forall (fun m => Command m = RPL_ISUPPORT) l ->
  exists s' out, for_each l (fun m => dc_SendMessage (f m)) s = (s', Ok tt) /\ d_dc s' = d_dc s /\ has_label s' = None /\
    d_out s' = d_out s ++ out /\ foldl client_isupport v out = foldl client_isupport v l.
Proof.
  intros Hf Hl HF. revert s v Hl. induction HF as [|m l Hm HF IH]; intros s v Hl; [exists s, []; by rewrite app_nil_r|].
  destruct (Hf m) as [Hf1 Hf2].
  destruct (dc_prepare_plain (dc_caps (d_dc s)) (f m)) as (m' & Hp & Hc & Hps); [rewrite Hf1, Hm; unfold plain_command; by_eval|].
  cbn [for_each]. rewrite (bind_ok _ _ _ _ _ (SendMessage_write (f m) s m' Hl Hp)).
  destruct (IH (add_out m' s) (client_isupport v m) Hl) as (s' & out & E & Hd & Hl' & Ho & Hv).
  exists s', (m' :: out). split_and!; [done|done|done| |].
  - rewrite Ho. cbn. by rewrite <- app_assoc.
  - cbn [foldl]. rewrite <- Hv. f_equal. unfold client_isupport, isupport_received. by rewrite Hc, Hps, Hf1, Hf2.
Qed.

Lemma send_plain_run m s v : has_label s = None -> plain_command (Command m) -> Command m <> RPL_ISUPPORT ->
  exists m', dc_SendMessage m s = (add_out m' s, Ok tt) /\ client_isupport v m' = v.
Proof.
  intros Hl Hm Hne. destruct (dc_prepare_plain (dc_caps (d_dc s)) m Hm) as (m' & Hp & Hc & Hps). exists m'.
  split; [by apply SendMessage_write|]. unfold client_isupport. by rewrite bool_decide_false by (by rewrite Hc).
Qed.

Lemma sendIsupport_run m s v : has_label s = None ->
  exists s' out n, sendIsupport m s = (s', Ok tt) /\ (d_dc s' = d_dc s \/ d_dc s' = set_dc_lastBatchRef n (d_dc s)) /\
    d_out s' = d_out s ++ out /\ foldl client_isupport v out = foldl client_isupport v (GenerateIsupport m).
Proof.
  intros Hl. destruct (isupport_messages v m) as (_ & _ & _ & HF). unfold sendIsupport, get_dc. rewrite bind_gets.
  destruct (IsEnabled _ _).
  2: { destruct (send_isupport_run (fun m => m) _ s v (fun _ => conj eq_refl eq_refl) Hl HF) as (s' & out & E & Hd & _ & Ho & Hv).
       exists s', out, 0. split_and!; try done. by left. }
  unfold dc_SendBatch. set (n := (dc_lastBatchRef (d_dc s) + 1) mod 2 ^ 64). set (s1 := on_dc (set_dc_lastBatchRef n) s).
  set (ref := fmt_int n). rewrite (bind_ok _ _ s s1 ref) by done. clearbody ref.
  assert (Hbatch : forall (b : bool) m' s v, has_label s = None -> Command m' = "BATCH" ->
    exists s' out, when b (dc_SendMessage m') s = (s', Ok tt) /\ d_dc s' = d_dc s /\ has_label s' = None /\ d_out s' = d_out s ++ out /\
                   foldl client_isupport v out = v).
  { intros [] m' s2 v' Hl2 Hm'; [|exists s2, []; by rewrite app_nil_r].
    destruct (send_plain_run m' s2 v' Hl2) as (m2 & E2 & Hv2); [rewrite Hm'; unfold plain_command; by_eval|by rewrite Hm'|].
    exists (add_out m2 s2), [m2]. split_and!; done. }
  unfold get_dc. rewrite bind_gets. set (b := IsEnabled (dc_caps (d_dc s1)) "batch").
  destruct (Hbatch b (Message ∅ None "BATCH" (("+" +:+ ref) :: "draft/isupport" :: [])) s1 v Hl eq_refl) as (s2 & o2 & E2 & Hd2 & Hl2 & Ho2 & Hv2).
  rewrite (bind_ok _ _ _ _ _ E2).
  destruct (send_isupport_run (with_tag "batch" ref) (GenerateIsupport m) s2 v (fun _ => conj eq_refl eq_refl) Hl2 HF)
    as (s3 & o3 & E3 & Hd3 & Hl3 & Ho3 & Hv3).
  rewrite (bind_ok _ _ _ _ _ E3). rewrite bind_gets.
  destruct (Hbatch (IsEnabled (dc_caps (d_dc s3)) "batch") (mk_msg "BATCH" ["-" +:+ ref]) s3 (foldl client_isupport v o3) Hl3 eq_refl)
    as (s4 & o4 & E4 & Hd4 & _ & Ho4 & Hv4).
  exists s4, (o2 ++ o3 ++ o4), n. split_and!.
  - done.
  - right. by rewrite Hd4, Hd3, Hd2.
  - rewrite Ho4, Ho3, Ho2. cbn. by rewrite <- !app_assoc.
  - by rewrite !foldl_app, Hv2, Hv4, Hv3.
Qed.

(** C9: after [updateIsupport] the client knows exactly the ISUPPORT tokens of
    the connection: applied to the tokens it knew, the RPL_ISUPPORT messages of
    the call, decoded as a client decodes them, give the tokens of
    [buildIsupport], removed ones included, whatever the order of the maps. *)
Theorem isupport_sync V s :
  has_label s = None -> good_keys (dc_isupport (d_dc s)) ->
  dc_registered (d_dc s) || IsEnabled (dc_caps (d_dc s)) "draft/extended-isupport" = true ->
  exists s' out, dc_updateIsupport V s = (s', Ok tt) /\ d_out s' = d_out s ++ out /\
    foldl client_isupport (dc_isupport (d_dc s)) out = dc_isupport (d_dc s') /\
    dc_isupport (d_dc s') = buildIsupport V (d_dc s) /\ good_keys (dc_isupport (d_dc s')).
Proof.
  intros Hl Hg Hreg. unfold dc_updateIsupport, get_dc. rewrite bind_gets. unfold Datatypes.id.
  rewrite <- negb_orb, Hreg. cbn [negb].
  set (new := buildIsupport V (d_dc s)). set (old := dc_isupport (d_dc s)). pose proof (good_build V (d_dc s)) as Hn. fold new in Hn.
  destruct (sendIsupport_run (isupport_changes old new) s old Hl) as (s1 & out & n & E1 & Hd & Ho & Hv).
  rewrite (bind_ok _ _ _ _ _ E1). eexists _, out. split; [reflexivity|]. cbn. split_and!; try done.
  rewrite Hv. destruct (isupport_messages old (isupport_changes old new)) as (L & HL & -> & _). by apply changes_apply.
Qed.

End Sync.

Module IsupportWitness.
Import PendingWitness DownWitness.

(** A registered client of a network whose server has three tokens; it knows
    one that is gone. *)
Definition uc : upstreamConn := set_uc_isupport {["CHANTYPES" := Some "#"; "WHOX" := None; "XYZ" := Some "1"]} conn0.
Definition view : dview := DView (NewUser "user") false (Some (NetObj 0%nat net0 (Some uc))).
Definition start : dst :=
  DSt (set_dc_registered true (set_dc_isupport {["BOT" := Some "B"; "CHANTYPES" := Some ""]} (newDownstreamConn 1 "a"))) None [].

Lemma isupport_sync_witness :
  exists s' out, dc_updateIsupport view start = (s', Ok tt) /\ d_out s' = d_out start ++ out /\
    foldl client_isupport (dc_isupport (d_dc start)) out = dc_isupport (d_dc s') /\
    dc_isupport (d_dc s') !! "CHANTYPES" = Some (Some "#") /\ dc_isupport (d_dc s') !! "BOT" = None.
Proof.
  destruct (isupport_sync view start) as (s' & out & H1 & H2 & H3 & H4 & _); [reflexivity| |reflexivity|].
  - apply good_insert; [apply known_good_in; by_eval|]. apply good_insert; [apply known_good_in; by_eval|]. apply map_Forall_empty.
  - exists s', out. split_and!; [exact H1|exact H2|exact H3|rewrite H4; vm_compute; reflexivity|rewrite H4; vm_compute; reflexivity].
Defined.

End IsupportWitness.
