(* ===== verification/Client.v ===== *)
(** * Registered clients (downstream.go): the state of their handlers

    The messages of a registered client are handled on the state of its user:
    the networks, the upstream connections, all clients and the message store.
    This file holds that state, how methods of clients, networks and the user
    run on it, and the methods of a client that read the message store. *)

From stdpp Require Import base list gmap strings.
From Stdlib Require Import ZArith Ascii.
From S2P Require Import Prelude GoStrings GoText Casemapping Xirc Whox Genmsg Sasl Irc Rate MsgStore Database.
From S2P Require Import Handler Session Network Pending Upstream UpstreamHandlers User Downstream.

Local Open Scope Z_scope.

(** ** Records and stores *)

Record WebPushSubscription := MkWebPush {
  wps_ID : Z;
  wps_Endpoint : string;
  wps_UpdatedAt : Z;
  wps_Auth : string;
  wps_P256DH : string;
  wps_VAPID : string
}.

Record DeviceCertificate := MkDeviceCert {
  cert_Label : string;
  cert_Fingerprint : list ascii;
  cert_LastUsed : Z;
  cert_LastIP : string
}.

Record SearchMessageOptions := MkSearch {
  so_Start : Z;
  so_End : Z;
  so_Limit : Z;
  so_From : string;
  so_In : string;
  so_Text : string
}.

(** [time.Time{}], in nanoseconds since the Unix epoch. *)
Definition zeroTime : Z := -62135596800 * second.

(** What a message store offers for history queries; [None] is an error.
    [st_chathistory], [st_search] and [st_fs] tell whether it is a
    [ChatHistoryStore], a [SearchStore] and the file store. *)
Class HistoryStore (St : Type) := {
  st_LoadLatestID : St -> string -> NetworkRec -> string -> Z -> option (list message);
  st_chathistory : St -> bool;
  st_LoadBeforeTime : St -> Z -> Z -> NetworkRec -> string -> Z -> bool -> option (list message);
  st_LoadAfterTime : St -> Z -> Z -> NetworkRec -> string -> Z -> bool -> option (list message);
  st_ListTargets : St -> NetworkRec -> Z -> Z -> Z -> bool -> option (list (string * Z));
  st_search : St -> bool;
  st_Search : St -> NetworkRec -> SearchMessageOptions -> option (list message);
  st_fs : St -> bool
}.

(** What the handlers get from outside: queries and updates of the database
    ([None] and [false] are errors; a duplicate device certificate is not one),
    the delivery of a Web Push message, the address of the client, the
    parser of tags of irc.v4, [Format] of the server-time layout without a
    conversion to UTC, whether a TLS connection to an address can be opened, and the texts of the errors of other packages. *)
Class ClientEnv := {
  db_GetMessageTarget : Z -> string -> option MessageTargetRec;
  db_StoreMessageTarget : Z -> MessageTargetRec -> bool;
  db_StoreReadReceipt : Z -> string -> Z -> bool;
  db_StoreChannel : Z -> ChannelRec -> option Z;
  db_ListWebPushSubscriptions : Z -> Z -> option (list WebPushSubscription);
  db_StoreWebPushSubscription : Z -> Z -> WebPushSubscription -> bool;
  db_DeleteWebPushSubscription : Z -> bool;
  srv_sendWebPush : WebPushSubscription -> message -> bool;
  db_ListDeviceCertificates : Z -> option (list DeviceCertificate);
  db_CreateDeviceCertificate : Z -> DeviceCertificate -> bool;
  db_DeleteDeviceCertificate : Z -> list ascii -> bool;
  client_IP : string;
  ParseTags : string -> gmap string string;
  time_Format : Z -> string;
  tls_Dial : string -> bool;
  fmt_q : string -> string;
  url_error : string;
  db_error : string
}.

(** What a handler of a client did, in order. *)
Inductive ceffect :=
| Wrote (id : Z) (msg : message)
| Did (e : ueffect)
| StoredMessageTarget (netID : Z) (mt : MessageTargetRec)
| StoredReadReceipt (netID : Z) (target : string) (timestamp : Z)
| StoredWebPush (netID : Z) (sub : WebPushSubscription)
| DeletedWebPush (id : Z)
| CreatedDeviceCert (cert : DeviceCertificate)
| DeletedDeviceCert (fingerprint : list ascii)
| Broadcast (msg : message)
| Printed (text : string)
| CreatedUser (u : UserRec)
| UpdatedUser (username : string)
| RanAs (username : string) (words : list string)
| StoppedUser (username : string)
| DeletedUser (id : Z)
| StoredIgnore (netID : Z) (ig : IgnoreRec)
| DeletedIgnore (id : Z)
| OpenedFile (path : string)
| SetDebug (enabled : bool)
| RunResult (err : option string)
| ListedSessions (l : list (Z * string * string * string)).

(** ** State *)

(** [c_fresh] is a connection that is not in the list of the user yet (it is
    being welcomed); [c_ctx] are the label contexts of the clients. *)
Record cst (St : Type) := CSt {
  c_ss : session St;
  c_fresh : option downstreamConn;
  c_ctx : gmap Z labelCtx;
  c_eff : list ceffect
}.
Arguments CSt {St}.
Arguments c_ss {St}.
Arguments c_fresh {St}.
Arguments c_ctx {St}.
Arguments c_eff {St}.

Definition servicePrefix : prefix := Prefix serviceNick serviceNick serviceNick.
Definition serviceRealname : string := "soju bouncer service".
Definition backlogLimit : Z := 4000.

(** The text of an error of the user's methods. *)
Definition user_error_text {CE : ClientEnv} (e : user_error) : string :=
  match e with
  | ErrMaxNetworks => "maximum number of enabled networks reached"
  | ErrURL => "failed to parse upstream server URL: " +:+ url_error
  | ErrURLUser scheme => scheme +:+ ":// URL must not have username and password information"
  | ErrURLQuery scheme => scheme +:+ ":// URL must not have query values"
  | ErrURLFragment scheme => scheme +:+ ":// URL must not have a fragment"
  | ErrURLHost scheme =>
      scheme +:+ (if bool_decide (scheme ∈ ["ircs"; "irc+insecure"]) then ":// URL must have a host" else ":// URL must not have a host")
  | ErrURLPath scheme =>
      scheme +:+ (if bool_decide (scheme ∈ ["ircs"; "irc+insecure"]) then ":// URL must not have a path" else ":// URL must have a path")
  | ErrUnixAdmin => "non-admin users cannot add networks with a unix address"
  | ErrUnknownScheme scheme => "unknown URL scheme " +:+ fmt_q scheme
  | ErrNameEmpty => "network name cannot be empty"
  | ErrNameDash => "network name cannot start with a dash character"
  | ErrNameTaken name => "a network with the name " +:+ fmt_q name +:+ " already exists"
  | ErrStoreNetwork | ErrDeleteNetwork | ErrStoreUser | ErrUpstream _ => db_error
  | ErrUpdate text => text
  end.

(** ** Methods of a client that read its network and the message store *)

Section Methods.
Context {St : Type} {HH : HistoryStore St} {MO : MapOrder} {UN : Unicode} {EV : Env} {SE : SrvEnv}.
Notation D := (handler dst derror).

Definition dc_sendServiceNOTICE (text : string) : D unit :=
  nick ← get_dc dc_nick;
  dc_SendMessage (with_prefix (Some servicePrefix) (mk_msg "NOTICE" [nick; text])).

Definition dc_sendServicePRIVMSG (text : string) : D unit :=
  nick ← get_dc dc_nick;
  dc_SendMessage (with_prefix (Some servicePrefix) (mk_msg "PRIVMSG" [nick; text])).

(** [net.isHighlight(msg)] for the network of the view. *)
Definition v_isHighlight (V : dview) (o : netobj) (msg : message) : res derror bool :=
  if negb (bool_decide (Command msg ∈ ["PRIVMSG"; "NOTICE"])) then Ok false
  else match Params msg !! 1%nat, MsgPrefix msg with
  | Some text, Some p =>
      let nick := match no_conn o with Some uc => uc_nick uc | None => GetNick (v_user V) (Some (nw_rec (no_net o))) end in
      if bool_decide (Name p = nick) then Ok false
      else match isHighlight text nick with Ok b => Ok b | _ => Panic end
  | _, _ => Panic
  end.

Definition v_needsRelay (V : dview) (o : netobj) (ch : ChannelRec) (msg : message) : res derror bool :=
  let? highlight := v_isHighlight V o msg in
  Ok (bool_decide (ch_RelayDetached ch = FilterMessage)
      || (bool_decide (ch_RelayDetached ch = FilterHighlight)
          || bool_decide (ch_RelayDetached ch = FilterDefault)) && highlight).

Definition dc_relayDetachedMessage (V : dview) (o : netobj) (msg : message) : D unit :=
  if negb (bool_decide (Command msg ∈ ["PRIVMSG"; "NOTICE"])) then mret tt
  else match MsgPrefix msg, Params msg with
  | Some p, target :: text :: _ =>
      highlight ← lift (v_isHighlight V o msg);
      dc_sendServiceNOTICE ((if highlight : bool then "highlight in " else "message in ") +:+ target +:+ ": <" +:+ Name p +:+ "> " +:+ text)
  | _, _ => panic
  end.

(** One message of the backlog. *)
Definition backlog_message (V : dview) (o : netobj) (ch : option ChannelRec) (batchRef : string) (msg : message) : D unit :=
  match ch with
  | Some c =>
      if ch_Detached c then
        relay ← lift (v_needsRelay V o c msg);
        when relay (dc_relayDetachedMessage V o msg)
      else dc_SendMessage (with_tag "batch" batchRef msg)
  | None => dc_SendMessage (with_tag "batch" batchRef msg)
  end.

(** [dc.sendTargetBacklog(ctx, net, target, msgID)] *)
Definition dc_sendTargetBacklog (V : dview) (store : option St) (o : netobj) (target msgID : string) : D unit :=
  caps ← get_dc dc_caps;
  match store with
  | None => mret tt
  | Some st =>
      if IsEnabled caps "draft/chathistory" then mret tt
      else
        let net := no_net o in
        let ch := Get (nw_channels net) target in
        match st_LoadLatestID st msgID (nw_rec net) (nw_casemap net target) backlogLimit with
        | None => mret tt
        | Some history =>
            dc_SendBatch "chathistory" [target] ∅ (fun batchRef => for_each history (backlog_message V o ch batchRef))
        end
  end.

(** A call recorded by another component, run on the connection. *)
Fixpoint dc_call (V : dview) (store : option St) (call : down_call) : D unit :=
  match call with
  | SendMessage msg => dc_SendMessage msg
  | sendMessageWithID msg id => dc_sendMessageWithID msg id
  | advanceMessageWithID msg id => dc_advanceMessageWithID msg id
  | updateSupportedCaps => dc_updateSupportedCaps V
  | updateIsupport => dc_updateIsupport V
  | updateNick => dc_updateNick V
  | updateHost => dc_updateHost V
  | updateRealname => dc_updateRealname V
  | updateAccount => dc_updateAccount V
  | updateCasemapping_dc => dc_updateCasemapping V
  | endSASL_dc msg => dc_endSASL (Some msg)
  | relayDetachedMessage msg => match v_net V with Some o => dc_relayDetachedMessage V o msg | None => mret tt end
  | forwardChannel ch => match v_net V with Some o => dc_forwardChannel (no_net o) ch | None => mret tt end
  | sendTargetBacklog target msgID => match v_net V with Some o => dc_sendTargetBacklog V store o target msgID | None => mret tt end
  | sendServiceNOTICE text => dc_sendServiceNOTICE text
  | labelContext label batch => modify (set_label (Some (LabelCtx label batch None)))
  | clearLabel => modify (fun s => set_label ((fun lc => LabelCtx "" (lc_batch lc) (lc_pendingMsg lc)) <$> d_label s) s)
  | FlushBatch => dc_FlushBatch
  | CloseConn => modify_dc (set_dc_closed true)
  | inNewContext call =>
      label ← gets d_label;
      modify (set_label None);;
      dc_call V store call;;
      modify (set_label label)
  end.

End Methods.

(** ** Running methods on the state of the user *)

Section Client.
Context {St : Type} {HSt : Store St} {HH : HistoryStore St} {BC : BareCodec Z}.
Context {MO : MapOrder} {UN : Unicode} {EV : Env} {UE : UserEnv} {SE : SrvEnv} {CE : ClientEnv}.
Notation C := (handler (cst St) derror).
Notation D := (handler dst derror).
Notation U := (handler (session St) user_error).
Implicit Type s : cst St.

Definition with_ss (f : session St -> session St) s : cst St := CSt (f (c_ss s)) (c_fresh s) (c_ctx s) (c_eff s).
Definition set_ctx (c : gmap Z labelCtx) s : cst St := CSt (c_ss s) (c_fresh s) c (c_eff s).
Definition log (l : list ceffect) s : cst St := CSt (c_ss s) (c_fresh s) (c_ctx s) (c_eff s ++ l).
Definition did (e : ceffect) : C unit := modify (log [e]).

Definition find_conn (id : Z) (l : list downstreamConn) : option downstreamConn :=
  head (filter (fun dc => dc_id dc = id) l).

(** The connection with an ID: the fresh one or one of the user. *)
Definition get_conn s (id : Z) : option downstreamConn :=
  match c_fresh s with
  | Some dc => if Z.eqb (dc_id dc) id then Some dc else find_conn id (ss_downs (c_ss s))
  | None => find_conn id (ss_downs (c_ss s))
  end.

Definition put_conn (id : Z) (dc : downstreamConn) s : cst St :=
  match c_fresh s with
  | Some f => if Z.eqb (dc_id f) id then CSt (c_ss s) (Some dc) (c_ctx s) (c_eff s)
              else with_ss (on_downs (fun d => if Z.eqb (dc_id d) id then dc else d)) s
  | None => with_ss (on_downs (fun d => if Z.eqb (dc_id d) id then dc else d)) s
  end.

(** What the methods of a connection read of its user. *)
Definition view_of (ss : session St) (dc : downstreamConn) : dview :=
  DView (ss_user ss) (match ss_store ss with Some st => st_chathistory st | None => false end)
    (r ← dc_network dc; ss_heap ss !! r).

Definition put_label (id : Z) (l : option labelCtx) (c : gmap Z labelCtx) : gmap Z labelCtx :=
  match l with Some lc => <[id := lc]> c | None => delete id c end.

(** Run a method of the connection [id]: its state, its label context and the
    messages it wrote. *)
Definition run_conn {A} (id : Z) (m : dview -> option St -> D A) : C A := fun s =>
  match get_conn s id with
  | None => (s, Panic)
  | Some dc =>
      let '(d, r) := m (view_of (c_ss s) dc) (ss_store (c_ss s)) (DSt dc (c_ctx s !! id) []) in
      (log (Wrote id <$> d_out d) (set_ctx (put_label id (d_label d) (c_ctx s)) (put_conn id (d_dc d) s)), r)
  end.

(** The calls a method of the user or of a network made on clients are run
    when it returns, in order; the other effects are recorded. *)
Definition replay (e : ueffect) : C unit := fun s =>
  match e with
  | UDown id call =>
      match get_conn s id with
      | None => (s, Ok tt)
      | Some _ => run_conn id (fun V store => dc_call V store call) s
      end
  | _ => did (Did e) s
  end.

Definition clear_eff (ss : session St) : session St :=
  Session (ss_user ss) (ss_heap ss) (ss_networks ss) (ss_downs ss) (ss_store ss) (ss_next ss) [].

(** Run a method of the user; its error is a value. *)
Definition run_user {A} (m : U A) : C (user_error + A) := fun s =>
  let '(ss, r) := m (clear_eff (c_ss s)) in
  (for_each (ss_eff ss) replay;;
   match r with Ok a => mret (inr a) | Err e => mret (inl e) | Panic => panic end)
  (with_ss (fun _ => clear_eff ss) s).

(** Run a method of the network at [ref] and its connection. *)
Definition run_up {A} (ref : nat) (m : Env -> handler (ust St) uerror A) : C (user_error + A) := run_user (run_net ref m).

(** ** The connection whose message is handled *)

Context (self : Z).

Definition on_self {A} (m : D A) : C A := run_conn self (fun _ _ => m).
Definition on_view {A} (m : dview -> D A) : C A := run_conn self (fun V _ => m V).
Definition reply (msg : message) : C unit := on_self (dc_SendMessage msg).
Definition self_dc : C downstreamConn := on_self (get_dc id).
Definition set_self (f : downstreamConn -> downstreamConn) : C unit := on_self (modify_dc f).

Definition the_user : C UserRec := gets (fun s => ss_user (c_ss s)).
Definition the_store : C (option St) := gets (fun s => ss_store (c_ss s)).

(** The object at [ref]; a nil pointer would panic. *)
Definition obj_at_ref (ref : nat) : C netobj := fun s =>
  match ss_heap (c_ss s) !! ref with Some o => (s, Ok o) | None => (s, Panic) end.
Definition modify_obj (ref : nat) (f : netobj -> netobj) : C unit := modify (with_ss (on_obj ref f)).

(** [dc.network] *)
Definition my_network : C (option netobj) :=
  dc ← self_dc;
  match dc_network dc with
  | None => mret None
  | Some r => o ← obj_at_ref r; mret (Some o)
  end.

(** [dc.upstream()] with its network. *)
Definition my_upstream : C (option (netobj * upstreamConn)) :=
  onet ← my_network;
  mret (o ← onet; uc ← no_conn o; Some (o, uc)).

Definition upstreamForCommand (cmd : string) : C (netobj * upstreamConn) :=
  onet ← my_network;
  match onet with
  | None => raise (newUnknownIRCError cmd "Cannot interact with channels and users on the bouncer connection. Did you mean to use a specific network?")
  | Some o =>
      match no_conn o with
      | None => raise (newUnknownIRCError cmd "Disconnected from upstream network")
      | Some uc => mret (o, uc)
      end
  end.

Definition cneed (msg : message) (n : nat) : C (list string) :=
  lift (match parseMessageParams msg n with
        | Ok l => Ok l
        | Err (ErrNeedMoreParams cmd) => Err (newNeedMoreParamsError cmd)
        | Panic => Panic
        end).

(** ** Labels *)

Definition self_label : C (option labelCtx) := gets (fun s => c_ctx s !! self).

(** [labelCtx.label = ""] *)
Definition drop_label : C unit :=
  modify (fun s => set_ctx (alter (fun lc => LabelCtx "" (lc_batch lc) (lc_pendingMsg lc)) self (c_ctx s)) s).

(** The label for a message to the server. *)
Definition take_label : C string :=
  olc ← self_label;
  match olc with
  | None => mret ""
  | Some lc => drop_label;; mret (lc_label lc)
  end.

(** [uc.SendMessageLabeled(ctx, dc.id, msg)]; the result is the message with
    the tags the call set. [labeled] is false for a context without the label. *)
Definition send_labeled_in (labeled : bool) (ref : nat) (msg : message) : C message :=
  olc ← self_label;
  match (if labeled then olc else None) with
  | None => r ← run_up ref (fun _ => SendMessageLabeled "" self msg);
            mret (match r with inr m => m | inl _ => msg end)
  | Some lc =>
      if is_Some_b (lc_pendingMsg lc) || nonempty (lc_batch lc) then panic
      else
        drop_label;;
        r ← run_up ref (fun _ => SendMessageLabeled (lc_label lc) self msg);
        mret (match r with inr m => m | inl _ => msg end)
  end.

Definition send_labeled (ref : nat) (msg : message) : C unit := _ ← send_labeled_in true ref msg; mret tt.

(** [uc.enqueueCommand(ctx, dc, msg)] *)
Definition enqueue (ref : nat) (msg : message) : C unit :=
  label ← take_label;
  dc ← self_dc;
  _ ← run_up ref (fun EV => enqueueCommand (EV := EV) label dc msg);
  mret tt.

(** ** Acknowledged messages *)

Definition ackMsgID (id : string) : C unit :=
  match ParseMsgID_header (B := Z) id with
  | Ok (netID, entity) =>
      onet ← gets (fun s => getNetworkByID (c_ss s) netID);
      match onet with
      | None => mret tt
      | Some o =>
          dc ← self_dc;
          modify_obj (no_ref o) (with_net (fun net => set_nw_delivered (ds_StoreID (nw_delivered net) entity (dc_clientName dc) id) net))
      end
  | _ => mret tt
  end.

Definition handlePong (token : string) : C unit :=
  if negb (HasPrefix token "soju-msgid-") then mret tt else ackMsgID (TrimPrefix token "soju-msgid-").

(** [network.forEachDownstream] on the clients themselves. *)
Definition each_client (ref : nat) (f : downstreamConn -> C unit) : C unit :=
  dcs ← gets (fun s => filter (fun dc => dc_network dc = Some ref) (ss_downs (c_ss s)));
  for_each dcs f.

(** The clients that are bound to no network. *)
Definition each_unbound (f : downstreamConn -> C unit) : C unit :=
  dcs ← gets (fun s => filter (fun dc => dc_network dc = None) (ss_downs (c_ss s)));
  for_each dcs f.

(** [dc.SendBatch] with a body that works on more than the connection. *)
Definition send_batch (typ : string) (params : list string) (f : string -> C unit) : C unit :=
  ref ← on_self next_batch;
  dc ← self_dc;
  when (IsEnabled (dc_caps dc) "batch") (reply (mk_msg "BATCH" (("+" +:+ ref) :: typ :: params)));;
  f ref;;
  dc ← self_dc;
  when (IsEnabled (dc_caps dc) "batch") (reply (mk_msg "BATCH" ["-" +:+ ref])).

(** [xirc.FormatServerTime] truncated to seconds for the file store. *)
Definition user_FormatServerTime (store : option St) (t : Z) : string :=
  FormatServerTime (match store with Some st => if st_fs st then t - t mod second else t | None => t end).

(** [db.StoreNetwork] of a record that exists. *)
Definition store_network_rec (r : NetworkRec) : C bool :=
  match db_StoreNetwork r with
  | None => mret false
  | Some _ => did (Did (StoreNetworkRec r));; mret true
  end.

(** [db.StoreChannel]: a new record gets its ID; an error is logged. *)
Definition store_channel (ref : nat) (name : string) : C unit :=
  o ← obj_at_ref ref;
  match Get (nw_channels (no_net o)) name with
  | None => mret tt
  | Some ch =>
      match db_StoreChannel (n_ID (nw_rec (no_net o))) ch with
      | None => mret tt
      | Some id =>
          let ch' := if Z.eqb (ch_ID ch) 0
                     then MkChannel id (ch_Name ch) (ch_Key ch) (ch_Detached ch) (ch_DetachedInternalMsgID ch) (ch_RelayDetached ch)
                            (ch_ReattachOn ch) (ch_DetachAfter ch) (ch_DetachOn ch)
                     else ch in
          modify_obj ref (with_net (update_ch name (fun _ => ch')));;
          did (Did (UNet ref (StoreChannel (n_ID (nw_rec (no_net o))) ch')))
      end
  end.

End Client.
