(* ===== verification/ClientHandlers.v ===== *)
(** * Messages of registered clients (downstream.go)

    [handleMessageRegistered]: one definition per case of its switch. The
    handler of commands to the bouncer service is a parameter. *)

From stdpp Require Import base list gmap strings.
From Stdlib Require Import ZArith Ascii.
From S2P Require Import Prelude GoStrings GoText Casemapping Xirc Whox Genmsg Sasl Irc Rate MsgStore Database.
From S2P Require Import Handler Session Network Pending Upstream UpstreamHandlers User Downstream Client.

Local Open Scope Z_scope.

Definition illegalNickChars : string := " :@!*?$,.".
Definition illegalChanChars : string := " ," +:+ String "007" "".

(** [strings.ContainsAny] for ASCII characters. *)
Definition ContainsAny (s chars : string) : bool := existsb (fun c => byte_in c chars) (schars s).

Definition with_Nick (n : NetworkRec) (nick : string) : NetworkRec :=
  with_ident n (n_Name n) (n_Addr n) nick (n_Username n) (n_Realname n) (n_Pass n).
Definition with_Realname (n : NetworkRec) (realname : string) : NetworkRec :=
  with_ident n (n_Name n) (n_Addr n) (n_Nick n) (n_Username n) realname (n_Pass n).
Definition user_with_Nick (u : UserRec) (nick : string) : UserRec :=
  MkUser (u_ID u) (u_Username u) (u_Password u) nick (u_Realname u) (u_Admin u) (u_Enabled u) (u_DownstreamInteractedAt u)
    (u_MaxNetworks u) (u_SourceIP u) (u_CertBlob u) (u_PrivKeyBlob u).
Definition user_with_Realname (u : UserRec) (realname : string) : UserRec :=
  MkUser (u_ID u) (u_Username u) (u_Password u) (u_Nick u) realname (u_Admin u) (u_Enabled u) (u_DownstreamInteractedAt u)
    (u_MaxNetworks u) (u_SourceIP u) (u_CertBlob u) (u_PrivKeyBlob u).

Definition with_Key (c : ChannelRec) (key : string) : ChannelRec :=
  MkChannel (ch_ID c) (ch_Name c) key (ch_Detached c) (ch_DetachedInternalMsgID c) (ch_RelayDetached c) (ch_ReattachOn c)
    (ch_DetachAfter c) (ch_DetachOn c).

Definition newChannel (name key : string) (detached : bool) : ChannelRec :=
  MkChannel 0 name key detached "" FilterDefault FilterDefault 0 FilterDefault.

(** ** NickServ credentials *)

Definition parseNickServCredentials {UN : Unicode} (text nick : string) : option (string * string) :=
  match Fields text with
  | cmd :: p0 :: params =>
      if bool_decide (ToUpper cmd = "REGISTER") then Some (nick, p0)
      else if bool_decide (ToUpper cmd = "IDENTIFY") then
        match params with [] => Some (nick, p0) | p1 :: _ => Some (p0, p1) end
      else if bool_decide (ToUpper cmd = "SET") then
        match params with
        | [p1] => if EqualFold p0 "PASSWORD" then Some (nick, p1) else Some ("", "")
        | _ => Some ("", "")
        end
      else None
  | _ => None
  end.

(** [err == nil] *)
Definition succeeded {A B} (r : A + B) : bool := match r with inl _ => false | inr _ => true end.

Section Handlers.
Context {St : Type} {HSt : Store St} {HH : HistoryStore St} {BC : BareCodec Z}.
Context {MO : MapOrder} {UN : Unicode} {EV : Env} {UE : UserEnv} {SE : SrvEnv} {CE : ClientEnv}.
Notation C := (handler (cst St) derror).
Context (self : Z).
(** [handleServicePRIVMSG] on behalf of the client; [Some] is an error. *)
Context (service : string -> C (option string)).

Notation reply := (reply self).
Notation self_dc := (self_dc self).

(** An error reply with the nick of the client. *)
Definition fail_nick (cmd : string) (params : list string) : C unit :=
  dc ← self_dc; raise (IrcError (mk_msg cmd (dc_nick dc :: params))).
Definition fail (params : list string) : C unit := raise (IrcError (mk_msg "FAIL" params)).
(** A numeric reply to the client. *)
Definition numeric (cmd : string) (params : list string) : C unit :=
  dc ← self_dc; reply (mk_msg cmd (dc_nick dc :: params)).

(** ** PING, PONG *)

Definition on_ping (msg : message) : C unit :=
  l ← cneed msg 1;
  let destination := default "" (Params msg !! 1%nat) in
  if nonempty destination && negb (bool_decide (destination = cfg_Hostname))
  then fail_nick "402" [destination; "No such server"]
  else reply (with_prefix (Some env_srvPrefix) (mk_msg "PONG" [cfg_Hostname; arg l 0])).

Definition on_pong (msg : message) : C unit :=
  match last (Params msg) with
  | None => raise (newNeedMoreParamsError (Command msg))
  | Some token => handlePong self token
  end.

(** ** NICK, SETNAME *)

Definition set_nick (nick : string) : C bool :=
  onet ← my_network self;
  match onet with
  | Some o => store_network_rec (with_Nick (nw_rec (no_net o)) nick)
  | None => r ← run_user (updateUser (fun u => Ok (user_with_Nick u nick))); mret (succeeded r)
  end.

Definition on_client_nick (msg : message) : C unit :=
  l ← cneed msg 1;
  let nick := arg l 0 in
  dc ← self_dc;
  if bool_decide (nick = "") || ContainsAny nick illegalNickChars
  then fail_nick "432" [nick; "Nickname contains illegal characters"]
  else if bool_decide (dc_casemap dc nick = serviceNickCM)
  then fail_nick "433" [nick; "Nickname reserved for bouncer service"]
  else
    ok ← set_nick nick;
    if negb ok then fail_nick "400" ["NICK"; "Failed to update nick"]
    else
      onet ← my_network self;
      match onet with
      | Some o =>
          modify_obj (no_ref o) (with_net (fun net => set_nw_rec (with_Nick (nw_rec net) nick) net));;
          match no_conn o with
          | Some _ => send_labeled self (no_ref o) (mk_msg "NICK" [nick])
          | None => on_view self dc_updateNick
          end
      | None => each_unbound (fun c => run_conn (dc_id c) (fun V _ => dc_updateNick V))
      end.

(** Whether the real name was stored. *)
Definition set_realname (realname : string) : C bool :=
  onet ← my_network self;
  match onet with
  | None => r ← run_user (updateUser (fun u => Ok (user_with_Realname u realname))); mret (succeeded r)
  | Some o =>
      u ← the_user;
      let record := with_Realname (nw_rec (no_net o)) (if bool_decide (realname = u_Realname u) then "" else realname) in
      match no_conn o with
      | Some uc =>
          if IsEnabled (uc_caps uc) "setname" then
            send_labeled self (no_ref o) (mk_msg "SETNAME" [realname]);;
            store_network_rec record
          else r ← run_user (updateNetwork record false); mret (succeeded r)
      | None => r ← run_user (updateNetwork record false); mret (succeeded r)
      end
  end.

Definition on_client_setname (msg : message) : C unit :=
  l ← cneed msg 1;
  let realname := arg l 0 in
  dc ← self_dc;
  if bool_decide (dc_realname dc = realname)
  then reply (with_prefix (Some (dc_prefix dc)) (mk_msg "SETNAME" [realname]))
  else
    ok ← set_realname realname;
    if negb ok then fail ["SETNAME"; "CANNOT_CHANGE_REALNAME"; "Failed to update realname"]
    else
      onet ← my_network self;
      match onet with
      | None => each_unbound (fun c => run_conn (dc_id c) (fun V _ => dc_updateRealname V))
      | Some _ => mret tt
      end.

(** ** JOIN, PART, KICK *)

(** The label is dropped when local and remote replies may be mixed. *)
Definition drop_label_if_many (l : list string) : C unit := when (1 <? length l)%nat (drop_label self).

Definition join_one (ref : nat) (name key : string) : C unit :=
  o ← obj_at_ref ref;
  match no_conn o with
  | None => panic
  | Some uc =>
      if bool_decide (name = "") || ContainsAny name illegalChanChars
      then numeric "476" [name; "Invalid channel name"]
      else if negb (isChannel uc name) then numeric "403" [name; "Not a channel name"]
      else
        when (negb (Has (uc_channels uc) name))
          (send_labeled self ref (mk_msg "JOIN" (name :: (if nonempty key then [key] else []))));;
        match Get (nw_channels (no_net o)) name with
        | Some ch =>
            when (nonempty key) (modify_obj ref (with_net (update_ch name (fun c => with_Key c key))));;
            let ch := if nonempty key then with_Key ch key else ch in
            _ ← run_up ref (fun EV => attach (EV := EV) name ch); mret tt
        | None =>
            modify_obj ref (with_net (fun net => set_nw_channels (Set_ (nw_channels net) name (newChannel name key false)) net))
        end;;
        store_channel ref name
  end.

Definition on_client_join (msg : message) : C unit :=
  ou ← upstreamForCommand self (Command msg);
  l ← cneed msg 1;
  let keys := match Params msg !! 1%nat with Some k => Split k "," | None => [] end in
  let names := Split (arg l 0) "," in
  drop_label_if_many names;;
  for_each (imap (fun i name => (name, default "" (keys !! i))) names) (fun nk => join_one (no_ref (fst ou)) (fst nk) (snd nk)).

Definition part_one (ref : nat) (reason name : string) : C unit :=
  if EqualFold reason "detach" then
    o ← obj_at_ref ref;
    match Get (nw_channels (no_net o)) name with
    | Some ch => _ ← run_up ref (fun EV => detach (EV := EV) name ch); mret tt
    | None =>
        modify_obj ref (with_net (fun net => set_nw_channels (Set_ (nw_channels net) name (newChannel name "" true)) net))
    end;;
    store_channel ref name
  else
    send_labeled self ref (mk_msg "PART" (name :: (if nonempty reason then [reason] else [])));;
    _ ← run_up ref (fun EV => deleteChannel (EV := EV) name);
    modify_obj ref (with_net (fun net => set_nw_pushTargets (Del (nw_pushTargets net) name) net)).

Definition on_client_part (msg : message) : C unit :=
  ou ← upstreamForCommand self (Command msg);
  l ← cneed msg 1;
  let reason := default "" (Params msg !! 1%nat) in
  let names := Split (arg l 0) "," in
  drop_label_if_many names;;
  for_each names (part_one (no_ref (fst ou)) reason).

(** KICK and INVITE *)
Definition pass_upstream (msg : message) : C unit :=
  ou ← upstreamForCommand self (Command msg);
  send_labeled self (no_ref (fst ou)) msg.

(** ** MODE, TOPIC, LIST, NAMES *)

(** The modes in the order of the iteration. *)
Definition modes_order (m : gmap ascii string) : list (ascii * string) :=
  (fun kv => (char_at (fst kv) 0, snd kv)) <$> map_order (kmap (M2 := gmap string) (fun c => String c "") m).

Definition send_modes (name : string) (ch : upstreamChannel) : C unit :=
  match uch_modes ch with
  | None => mret tt
  | Some modes =>
      let '(modeStr, modeParams) := Format (modes_order modes) in
      numeric "324" (name :: modeStr :: modeParams);;
      when (nonempty (uch_creationTime ch)) (numeric "329" [name; uch_creationTime ch])
  end.

Definition on_client_mode (msg : message) : C unit :=
  l ← cneed msg 1;
  let name := arg l 0 in
  let modeStr := default "" (Params msg !! 1%nat) in
  dc ← self_dc;
  if bool_decide (dc_casemap dc name = dc_nickCM dc) then
    if nonempty modeStr then pass_upstream msg
    else
      ou ← my_upstream self;
      numeric "221" ["+" +:+ match ou with Some (_, uc) => uc_modes uc | None => "" end]
  else
    ou ← upstreamForCommand self (Command msg);
    let '(o, uc) := ou in
    if negb (isChannel uc name) then fail_nick "502" ["Cannot change mode for other users"]
    else if nonempty modeStr then send_labeled self (no_ref o) (mk_msg "MODE" (name :: modeStr :: drop 2 (Params msg)))
    else match Get (uc_channels uc) name with
    | None => send_labeled self (no_ref o) msg
    | Some ch => send_modes name ch
    end.

Definition on_client_topic (msg : message) : C unit :=
  l ← cneed msg 1;
  ou ← upstreamForCommand self (Command msg);
  let '(o, uc) := ou in
  match Params msg !! 1%nat with
  | Some topic => send_labeled self (no_ref o) (mk_msg "TOPIC" [arg l 0; topic])
  | None =>
      match Get (uc_channels uc) (arg l 0) with
      | None => send_labeled self (no_ref o) msg
      | Some ch => on_self self (dc_sendTopic ch)
      end
  end.

Definition on_client_list (msg : message) : C unit :=
  ou ← upstreamForCommand self (Command msg);
  enqueue self (no_ref (fst ou)) msg.

Definition names_one (ref : nat) (name : string) : C unit :=
  o ← obj_at_ref ref;
  match no_conn o with
  | None => panic
  | Some uc =>
      match Get (uc_channels uc) name with
      | Some ch => on_self self (dc_sendNames ch)
      | None => send_labeled self ref (mk_msg "NAMES" [name])
      end
  end.

Definition on_client_names (msg : message) : C unit :=
  ou ← upstreamForCommand self (Command msg);
  match Params msg with
  | [] => numeric "366" ["*"; "End of /NAMES list"]
  | p0 :: _ =>
      let channels := Split p0 "," in
      drop_label_if_many channels;;
      for_each channels (names_one (no_ref (fst ou)))
  end.

(** ** WHO, WHOIS *)

Definition end_of_who (token : string) : message := mk_msg "315" ["*"; token; "End of /WHO list"].

(** The prefixes of a member after the away status and the operator flag. *)
Definition insert_prefixes (flags prefixes : string) : string :=
  match list_find (fun c => byte_in c "GH*" = false) (schars flags) with
  | None => flags +:+ prefixes
  | Some (i, _) => stake i flags +:+ prefixes +:+ sdrop i flags
  end.

(** A cached user; a member that is not in the channel is a nil pointer. *)
Definition cached_info (uc : upstreamConn) (multi : bool) (mask token : string) (uu : upstreamUser) : res derror WHOXInfo :=
  let info channel flags :=
    Whox token channel (uu_Username uu) (uu_Hostname uu) (uu_Server uu) (uu_Nickname uu) flags (uu_Account uu) (uu_Realname uu) in
  if isChannel uc mask then
    match Get (uc_channels uc) mask with
    | None => Panic
    | Some ch =>
        match Get (uch_Members ch) (uu_Nickname uu) with
        | None => Panic
        | Some ms => Ok (info mask (insert_prefixes (uu_Flags uu) (formatMemberPrefix ms multi)))
        end
    end
  else Ok (info "" (uu_Flags uu)).

Definition service_flags (ou : option (netobj * upstreamConn)) (bound : bool) : string :=
  if negb bound then "H*B"
  else match ou with
       | Some (_, uc) =>
           match uc_isupport uc !! "BOT" with
           | Some (Some v) => if (slen v =? 1)%nat then "H*" +:+ v else "H*"
           | _ => "H*"
           end
       | None => "H*"
       end.

Definition on_client_who (msg : message) : C unit :=
  match Params msg with
  | [] => reply (end_of_who "*")
  | mask :: rest =>
      let '(fields, token) := ParseWHOXOptions (default "" (head rest)) in
      dc ← self_dc;
      u ← the_user;
      onet ← my_network self;
      let maskCM := dc_casemap dc mask in
      if negb (is_Some_b onet) && bool_decide (maskCM = dc_nickCM dc) then
        let flags := (if is_Some_b (dc_away dc) then "G" else "H") +:+ (if u_Admin u then "*" else "") in
        reply (GenerateWHOXReply fields
                 (Whox token "" (u_Username u) (dc_hostname dc) cfg_Hostname (dc_nick dc) flags (u_Username u) (dc_realname dc)));;
        reply (end_of_who mask)
      else if bool_decide (maskCM = serviceNickCM) then
        ou ← my_upstream self;
        reply (GenerateWHOXReply fields
                 (Whox token "" (User servicePrefix) (Host servicePrefix) cfg_Hostname serviceNick
                    (service_flags ou (is_Some_b onet)) serviceNick serviceRealname));;
        reply (end_of_who mask)
      else if negb (is_Some_b onet) then reply (end_of_who mask)
      else
        ou ← upstreamForCommand self (Command msg);
        let '(o, uc) := ou in
        match getCachedWHO uc mask fields with
        | Some l =>
            for_each l (fun uu =>
              info ← lift (cached_info uc (IsEnabled (dc_caps dc) "multi-prefix") mask token uu);
              reply (GenerateWHOXReply fields info));;
            reply (end_of_who mask)
        | None => enqueue self (no_ref o) msg
        end
  end.

Definition on_client_whois (msg : message) : C unit :=
  match Params msg with
  | [] => fail_nick "431" ["No nickname given"]
  | p0 :: rest =>
      let mask := default p0 (head rest) in
      let mask := match IndexByte mask "," with Some i => stake i mask | None => mask end in
      dc ← self_dc;
      u ← the_user;
      onet ← my_network self;
      if negb (is_Some_b onet) && bool_decide (dc_casemap dc mask = dc_nickCM dc) then
        numeric "311" [dc_nick dc; u_Username u; dc_hostname dc; "*"; dc_realname dc];;
        numeric "312" [dc_nick dc; cfg_Hostname; "soju"];;
        when (u_Admin u) (numeric "313" [dc_nick dc; "is a bouncer administrator"]);;
        numeric "330" [dc_nick dc; u_Username u; "is logged in as"];;
        numeric "318" [dc_nick dc; "End of /WHOIS list"]
      else if bool_decide (dc_casemap dc mask = serviceNickCM) then
        numeric "311" [serviceNick; User servicePrefix; Host servicePrefix; "*"; serviceRealname];;
        numeric "312" [serviceNick; cfg_Hostname; "soju"];;
        numeric "313" [serviceNick; "is the bouncer service"];;
        numeric "330" [serviceNick; serviceNick; "is logged in as"];;
        numeric "335" [serviceNick; "is a bot"];;
        numeric "318" [serviceNick; "End of /WHOIS list"]
      else
        ou ← upstreamForCommand self (Command msg);
        enqueue self (no_ref (fst ou)) msg
  end.

End Handlers.
