(* ===== verification/ClientMessages.v ===== *)
(** * Messages of registered clients (downstream.go): text, accounts, lists

    PRIVMSG and its kin, AUTHENTICATE and REGISTER for the upstream account,
    AWAY, INFO, MONITOR and METADATA. *)

From stdpp Require Import base list gmap strings.
From Stdlib Require Import ZArith Ascii.
From S2P Require Import Prelude GoStrings GoText Casemapping Xirc Whox Genmsg Sasl Irc Rate MsgStore Database.
From S2P Require Import Handler Session Network Pending Upstream UpstreamHandlers User Downstream Client ClientHandlers.

Local Open Scope Z_scope.

Section Messages.
Context {St : Type} {HSt : Store St} {HH : HistoryStore St} {BC : BareCodec Z}.
Context {MO : MapOrder} {UN : Unicode} {EV : Env} {UE : UserEnv} {SE : SrvEnv} {CE : ClientEnv}.
Notation C := (handler (cst St) derror).
Context (self : Z).
(** [handleServicePRIVMSG] on behalf of the client; [Some] is an error. *)
Context (service : string -> C (option string)).

Notation reply := (reply self).
Notation self_dc := (self_dc self).
Notation fail_nick := (fail_nick self).
Notation numeric := (numeric self).

(** ** PRIVMSG, NOTICE, TAGMSG, REDACT *)

Definition handleNickServPRIVMSG (ref : nat) (uc : upstreamConn) (text : string) : C unit :=
  match parseNickServCredentials text (uc_nick uc) with
  | Some (username, password) => _ ← run_up ref (fun _ => autoSaveSASLPlain username password); mret tt
  | None => mret tt
  end.

Definition broadcast_text (dc : downstreamConn) (name : string) (msg : message) (tags : gmap string string) (params : list string) : C unit :=
  u ← the_user;
  if negb (u_Admin u) then fail_nick "415" [name; "Permission denied to broadcast message to all bouncer users"]
  else
    store ← the_store;
    did (Broadcast (Message (<["time" := user_FormatServerTime store env_now]> tags) (Some servicePrefix) (Command msg) params)).

Definition service_text (dc : downstreamConn) (msg : message) (tags : gmap string string) (params : list string) (text : string) : C unit :=
  store ← the_store;
  when (IsEnabled (dc_caps dc) "echo-message")
    (reply (Message (<["time" := user_FormatServerTime store env_now]> tags) (Some (dc_prefix dc)) (Command msg) params));;
  if bool_decide (Command msg = "PRIVMSG") then
    err ← service text;
    match err with
    | Some e => on_self self (dc_sendServicePRIVMSG ("error: " +:+ e))
    | None => mret tt
    end
  else mret tt.

(** The message that is produced for a server without echo-message. *)
Definition echo_of (uc : upstreamConn) (now : string) (cmd : string) (tags : gmap string string) (params : list string) : message :=
  let tags := <["time" := now]> tags in
  let tags := if nonempty (uc_account uc) then <["account" := uc_account uc]> tags else tags in
  Message tags (Some (Prefix (uc_nick uc) (uc_username uc) (uc_hostname uc))) cmd params.

(** A message to a user or a channel of the network. The tags are those the
    next target gets: the label for the server is set in the shared map. *)
Definition upstream_text (msg : message) (tags : gmap string string) (name text : string) (params : list string)
    : C (gmap string string) :=
  ou ← upstreamForCommand self (Command msg);
  let '(o, uc) := ou in
  let ref := no_ref o in
  let name := TrimLeft name (uc_availableStatusMsg uc) in
  when (bool_decide (Command msg = "PRIVMSG") && bool_decide (nw_casemap (no_net o) name = "nickserv"))
    (handleNickServPRIVMSG ref uc text);;
  let echo := IsEnabled (uc_caps uc) "echo-message" in
  m ← send_labeled_in self echo ref (Message tags None (Command msg) params);
  let tags := Tags m in
  store ← the_store;
  (if echo then mret tt
   else _ ← run_up ref (fun EV => produce (EV := EV) false name
                          (echo_of uc (user_FormatServerTime store env_now) (Command msg) tags params) self);
        mret tt);;
  _ ← run_up ref (fun _ => updateChannelAutoDetach name);
  mret tags.

(** One target. *)
Definition text_one (msg : message) (tags : gmap string string) (name text : string) : C (gmap string string) :=
  let params := name :: tail (Params msg) in
  dc ← self_dc;
  onet ← my_network self;
  let bound := is_Some_b onet in
  if bool_decide (name = "$" +:+ cfg_Hostname) || bool_decide (name = "$*") && negb bound
  then broadcast_text dc name msg tags params;; mret tags
  else if negb bound && bool_decide (dc_casemap dc name = dc_nickCM dc)
  then reply (Message (Tags msg) (Some (dc_prefix dc)) (Command msg) params);; mret tags
  else if bool_decide (dc_casemap dc name = serviceNickCM)
  then service_text dc msg tags params text;; mret tags
  else upstream_text msg tags name text params.

Fixpoint text_loop (msg : message) (tags : gmap string string) (text : string) (names : list string) : C unit :=
  match names with
  | [] => mret tt
  | name :: names' =>
      tags' ← text_one msg tags name text;
      text_loop msg tags' text names'
  end.

Definition on_client_text (msg : message) : C unit :=
  let isText := bool_decide (Command msg = "PRIVMSG") || bool_decide (Command msg = "NOTICE") in
  l ← cneed msg (if isText then 2 else 1)%nat;
  let targets := Split (arg l 0) "," in
  drop_label_if_many self targets;;
  text_loop msg (copyClientTags (Tags msg)) (arg l 1) targets.

(** ** AUTHENTICATE, REGISTER, VERIFY *)

Definition sasl_fail (text : string) : C unit :=
  dc ← self_dc; on_self self (dc_endSASL (Some (mk_msg "904" [dc_nick dc; text]))).

Definition authenticate_plain (ref : nat) (identity username password : string) : C unit :=
  if nonempty identity && negb (bool_decide (identity = username)) then fail_nick "904" ["SASL PLAIN identity not supported"]
  else
    _ ← run_up ref (fun _ => modify_uc (set_uc_saslClient (Some (PlainClient "" username password))));
    enqueue self ref (mk_msg "AUTHENTICATE" ["PLAIN"]).

(** The stored credentials are wiped, the certificate stays. *)
Definition without_plain (r : NetworkRec) : NetworkRec :=
  with_SASL r (MkSASL "" "" "" (s_CertBlob (n_SASL r)) (s_PrivKeyBlob (n_SASL r))).

Definition authenticate_anonymous (o : netobj) : C unit :=
  if nonempty (s_Mechanism (n_SASL (nw_rec (no_net o)))) then
    r ← run_user (updateNetwork (without_plain (nw_rec (no_net o))) false);
    if succeeded r then on_self self (dc_endSASL None) else sasl_fail "Internal server error"
  else on_self self (dc_endSASL None).

Definition on_client_authenticate (msg : message) : C unit :=
  ou ← my_upstream self;
  match ou with
  | None => fail_nick "904" ["Upstream network authentication not supported"]
  | Some (o, uc) =>
      if negb (IsEnabled (uc_caps uc) "sasl") then fail_nick "904" ["Upstream network authentication not supported"]
      else
        oc ← on_self self (dc_handleAuthenticate msg);
        match oc with
        | None => mret tt
        | Some c =>
            if is_Some_b (uc_saslClient uc) then sasl_fail "Another authentication attempt is already in progress"
            else if bool_decide (mechanism c = "PLAIN") then
              match cred c with
              | Some (PlainCred i u p) => authenticate_plain (no_ref o) i u p
              | _ => panic
              end
            else if bool_decide (mechanism c = "ANONYMOUS") then authenticate_anonymous o
            else sasl_fail "Unsupported SASL authentication mechanism"
        end
  end.

Definition on_client_register (msg : message) : C unit :=
  if bool_decide (Command msg = "REGISTER") && (length (Params msg) <? 3)%nat
     || bool_decide (Command msg = "VERIFY") && (length (Params msg) <? 2)%nat
  then raise (newNeedMoreParamsError (Command msg))
  else
    ou ← my_upstream self;
    match ou with
    | Some (o, uc) =>
        if IsEnabled (uc_caps uc) "draft/account-registration" then enqueue self (no_ref o) msg
        else fail [Command msg; "TEMPORARILY_UNAVAILABLE"; "*"; "Upstream network account registration not supported"]
    | None => fail [Command msg; "TEMPORARILY_UNAVAILABLE"; "*"; "Upstream network account registration not supported"]
    end.

(** ** AWAY, INFO *)

Definition on_client_away (msg : message) : C unit :=
  set_self self (set_dc_away (head (Params msg)));;
  reply (generateAwayReply (is_Some_b (head (Params msg))));;
  ou ← my_upstream self;
  match ou with
  | Some (o, _) => _ ← run_up (no_ref o) (fun EV => updateAway (EV := EV)); mret tt
  | None => mret tt
  end.

Definition on_client_info (msg : message) : C unit :=
  onet ← my_network self;
  match onet with
  | None =>
      numeric "371" ["soju <https://soju.im>"];;
      numeric "374" ["End of INFO"]
  | Some o =>
      match no_conn o with
      | None => fail_nick "421" [Command msg; "Disconnected from upstream network"]
      | Some _ => send_labeled self (no_ref o) msg
      end
  end.

(** ** MONITOR *)

Definition monitorLimit : nat := 1000.

Definition is_online (uc : upstreamConn) (target : string) : bool := default false (Get (uc_monitored uc) target).

Definition monitor_one (o : netobj) (uc : upstreamConn) (add : bool) (target : string) : C unit :=
  dc ← self_dc;
  if add then
    if (monitorLimit <=? Len (dc_monitored dc))%nat
    then numeric "734" ["1000"; target; "Bouncer monitor list is full"]
    else
      set_self self (fun dc => set_dc_monitored (Set_ (dc_monitored dc) target tt) dc);;
      if bool_decide (nw_casemap (no_net o) target = serviceNickCM) then numeric "730" [target]
      else when (Has (uc_monitored uc) target) (numeric (if is_online uc target then "730" else "731") [target])
  else set_self self (fun dc => set_dc_monitored (Del (dc_monitored dc) target) dc).

Definition monitor_list (cmd : string -> string) : C unit :=
  dc ← self_dc;
  for_each (iter (dc_monitored dc)) (fun e => numeric (cmd (originalKey e)) [originalKey e]).

Definition monitor_subcommand (o : netobj) (uc : upstreamConn) (msg : message) (subcommand : string) : C unit :=
  let sub := ToUpper subcommand in
  if bool_decide (sub ∈ ["+"; "-"]) then
    l ← cneed msg 2;
    for_each (Split (arg l 1) ",") (monitor_one o uc (bool_decide (subcommand = "+")));;
    _ ← run_up (no_ref o) (fun EV => updateMonitor (EV := EV)); mret tt
  else if bool_decide (sub = "C") then
    set_self self (set_dc_monitored (NewCaseMappingMap (nw_casemap (no_net o))));;
    _ ← run_up (no_ref o) (fun EV => updateMonitor (EV := EV)); mret tt
  else if bool_decide (sub = "L") then
    monitor_list (fun _ => "732");;
    numeric "733" ["End of MONITOR list"]
  else if bool_decide (sub = "S") then
    monitor_list (fun target =>
      if bool_decide (nw_casemap (no_net o) target = serviceNickCM) || is_online uc target then "730" else "731")
  else mret tt.

Definition on_client_monitor (msg : message) : C unit :=
  ou ← my_upstream self;
  match ou with
  | None => raise (newUnknownCommandError (Command msg))
  | Some (o, uc) =>
      if negb (is_Some_b (uc_isupport uc !! "MONITOR")) then raise (newUnknownCommandError (Command msg))
      else
        l ← cneed msg 1;
        monitor_subcommand o uc msg (arg l 0)
  end.

(** ** METADATA *)

(** The flag, the value to report and whether the value is valid. *)
Definition parseMessageTargetMetadataBool (v : option string) : bool * string * bool :=
  match v with
  | None => (false, "0", true)
  | Some v => if bool_decide (v = "1") then (true, "1", true)
              else if bool_decide (v = "0") then (false, "0", true) else (false, "", false)
  end.

(** [mt.Pinned = b] and the like; [None] for another key. *)
Definition set_metadata (k : string) (b : bool) (mt : MessageTargetRec) : option MessageTargetRec :=
  if bool_decide (k = "soju.im/pinned") then Some (MkMessageTarget (mt_ID mt) (mt_Target mt) b (mt_Muted mt) (mt_Blocked mt))
  else if bool_decide (k = "soju.im/muted") then Some (MkMessageTarget (mt_ID mt) (mt_Target mt) (mt_Pinned mt) b (mt_Blocked mt))
  else if bool_decide (k = "soju.im/blocked") then Some (MkMessageTarget (mt_ID mt) (mt_Target mt) (mt_Pinned mt) (mt_Muted mt) b)
  else None.

Definition batch_tags (batchRef : string) : gmap string string := if nonempty batchRef then {["batch" := batchRef]} else ∅.

(** One key; the target may be nil. *)
Definition set_target_key (target : string) (mt : option MessageTargetRec) (batchRef : string) (kv : string * option string)
    : C (option MessageTargetRec) :=
  let '(k, v) := kv in
  let tags := batch_tags batchRef in
  let invalid_key := reply (Message tags None "FAIL" ["METADATA"; "KEY_INVALID"; k; "Invalid key"]) in
  let '(b, mv, ok) := parseMessageTargetMetadataBool v in
  match mt ≫= set_metadata k b with
  | None => invalid_key;; mret mt
  | Some mt' =>
      (if ok then
         reply (Message tags None "761" ["*"; target; k; "*"; mv]);;
         dc ← self_dc;
         match dc_network dc with
         | None => panic
         | Some r => each_client r (fun c => run_conn (dc_id c) (fun _ _ => dc_SendMessage (mk_msg "METADATA" [target; k; "*"; mv])))
         end
       else reply (Message tags None "FAIL" ["METADATA"; "VALUE_INVALID"; "Invalid value"]));;
      mret (Some mt')
  end.

Fixpoint set_target_keys (target : string) (mt : option MessageTargetRec) (batchRef : string) (l : list (string * option string))
    : C (option MessageTargetRec) :=
  match l with
  | [] => mret mt
  | kv :: l' => mt' ← set_target_key target mt batchRef kv; set_target_keys target mt' batchRef l'
  end.

Definition setMessageTargetMetadata (target : string) (mt : option MessageTargetRec) (m : gmap string (option string)) (batchRef : string)
    : C (option MessageTargetRec) := set_target_keys target mt batchRef (map_order m).

(** [dc.sendTargetMetadata(ctx, mt)] *)
Definition dc_sendTargetMetadata (mt : MessageTargetRec) : handler dst derror unit :=
  caps ← get_dc dc_caps;
  if negb (IsEnabled caps "draft/metadata-2") then mret tt
  else dc_SendBatch "metadata" [] ∅ (fun batchRef =>
         subs ← get_dc dc_metadataSubs;
         for_each (map_order (gset_to_gmap tt subs)).*1 (fun k =>
           match getMessageTargetMetadata mt !! k with
           | Some v => dc_SendMessage (Message {["batch" := batchRef]} None "METADATA" [mt_Target mt; k; "*"; v])
           | None => mret tt
           end)).

Definition metadata_list (target : string) (m : gmap string string) : handler dst derror unit :=
  dc_SendBatch "metadata" [] ∅ (fun batchRef =>
    for_each (map_order m) (fun kv =>
      dc_SendMessage (Message {["batch" := batchRef]} None "761" ["*"; target; fst kv; "*"; snd kv]))).

Definition metadata_get (target : string) (m : gmap string string) (keys : list string) : handler dst derror unit :=
  dc_SendBatch "metadata" [] ∅ (fun batchRef =>
    for_each keys (fun k =>
      let k := ToLower k in
      match m !! k with
      | Some v => dc_SendMessage (Message {["batch" := batchRef]} None "761" ["*"; target; k; "*"; v])
      | None => dc_SendMessage (Message {["batch" := batchRef]} None "FAIL" ["METADATA"; "KEY_INVALID"; k; "Invalid key"])
      end)).

Definition store_target (onet : option netobj) (target : string) (mt : option MessageTargetRec) : C unit :=
  match mt, onet with
  | Some mt, Some o =>
      if db_StoreMessageTarget (n_ID (nw_rec (no_net o))) mt then did (StoredMessageTarget (n_ID (nw_rec (no_net o))) mt)
      else fail ["METADATA"; "INTERNAL_ERROR"; target; "Internal error"]
  | Some _, None => panic
  | None, _ => mret tt
  end.

Definition metadata_set (onet : option netobj) (target : string) (mt : option MessageTargetRec) (msg : message) : C unit :=
  l ← cneed msg 3;
  mt' ← setMessageTargetMetadata target mt {[ToLower (arg l 2) := Params msg !! 3%nat]} "";
  store_target onet target mt'.

Definition cleared_metadata : gmap string (option string) := list_to_map ((fun k => (k, None)) <$> metadata_keys).

(** The target is changed inside of the batch. *)
Definition metadata_clear (onet : option netobj) (target : string) (mt : option MessageTargetRec) : C unit :=
  ref ← on_self self next_batch;
  dc ← self_dc;
  when (IsEnabled (dc_caps dc) "batch") (reply (mk_msg "BATCH" ["+" +:+ ref; "metadata"]));;
  mt' ← setMessageTargetMetadata target mt cleared_metadata ref;
  dc ← self_dc;
  when (IsEnabled (dc_caps dc) "batch") (reply (mk_msg "BATCH" ["-" +:+ ref]));;
  store_target onet target mt'.

(** [db.GetMessageTarget] for a target of the network. *)
Definition load_target (onet : option netobj) (target : string) : C (option MessageTargetRec) :=
  match onet with
  | Some o =>
      if bool_decide (target = "*") then mret None
      else match db_GetMessageTarget (n_ID (nw_rec (no_net o))) (nw_casemap (no_net o) target) with
           | None => fail ["METADATA"; "INTERNAL_ERROR"; target; "Internal error"];; mret None
           | Some mt => mret (Some mt)
           end
  | None => mret None
  end.

Definition on_client_metadata (msg : message) : C unit :=
  l ← cneed msg 2;
  let target := arg l 0 in
  let subcommand := arg l 1 in
  handled ← on_view self (fun V => handleMetadataSub V msg);
  if handled : bool then mret tt
  else
    onet ← my_network self;
    mt ← load_target onet target;
    let m := match mt with Some mt => getMessageTargetMetadata mt | None => ∅ end in
    if bool_decide (subcommand = "LIST") then on_self self (metadata_list target m)
    else if bool_decide (subcommand = "GET") then on_self self (metadata_get target m (drop 2 (Params msg)))
    else if bool_decide (subcommand = "SET") then metadata_set onet target mt msg
    else if bool_decide (subcommand = "CLEAR") then metadata_clear onet target mt
    else fail ["METADATA"; "INVALID_PARAMS"; subcommand; "Unknown command"].

End Messages.
