(* ===== verification/ClientHistory.v ===== *)
(** * Messages of registered clients (downstream.go): history

    CHATHISTORY, READ and MARKREAD, SEARCH. *)

From stdpp Require Import base list gmap strings.
From Stdlib Require Import ZArith Ascii.
From S2P Require Import Prelude GoStrings GoText Casemapping Xirc Whox Genmsg Sasl Irc Rate MsgStore Database.
From S2P Require Import Handler Session Network Pending Upstream UpstreamHandlers User Downstream Client ClientHandlers.

Local Open Scope Z_scope.

Definition newChatHistoryError (subcommand target : string) : derror :=
  IrcError (mk_msg "FAIL" ["CHATHISTORY"; "MESSAGE_ERROR"; subcommand; target; "Messages could not be retrieved"]).

Definition searchMaxLimit : Z := 100.

Section History.
Context {St : Type} {HSt : Store St} {HH : HistoryStore St} {BC : BareCodec Z}.
Context {MO : MapOrder} {UN : Unicode} {EV : Env} {UE : UserEnv} {SE : SrvEnv} {CE : ClientEnv}.
Notation C := (handler (cst St) derror).
Notation D := (handler dst derror).
Context (self : Z).

Notation reply := (reply self).
Notation self_dc := (self_dc self).
Notation fail_nick := (fail_nick self).

(** A batch of messages, each tagged with the batch. *)
Definition dc_sendBatchOf (typ : string) (params : list string) (msgs : list message) : D unit :=
  dc_SendBatch typ params ∅ (fun batchRef => for_each msgs (fun msg => dc_SendMessage (with_tag "batch" batchRef msg))).

(** ** CHATHISTORY *)

(** The target, the two bounds and the limit of a request. *)
Record history_request := HistoryRequest {
  hr_target : string;
  hr_bound0 : string;
  hr_bound1 : string;
  hr_limit : string
}.

(** [None]: the request has been answered. *)
Definition history_params (msg : message) (subcommand : string) (bound : bool) : C (option history_request) :=
  if bool_decide (subcommand ∈ ["AFTER"; "BEFORE"; "AROUND"; "LATEST"]) then
    l ← cneed msg 4;
    mret (Some (HistoryRequest (arg l 1) (arg l 2) "" (arg l 3)))
  else if bool_decide (subcommand = "BETWEEN") then
    l ← cneed msg 5;
    mret (Some (HistoryRequest (arg l 1) (arg l 2) (arg l 3) (arg l 4)))
  else if bool_decide (subcommand = "TARGETS") then
    if negb bound then on_self self (dc_sendBatchOf "draft/chathistory-targets" [] []);; mret None
    else
      l ← cneed msg 4;
      mret (Some (HistoryRequest "" (arg l 1) (arg l 2) (arg l 3)))
  else fail ["CHATHISTORY"; "INVALID_PARAMS"; subcommand; "Unknown command"];; mret None.

Definition invalid_param (subcommand param text : string) : derror :=
  IrcError (mk_msg "FAIL" ["CHATHISTORY"; "INVALID_PARAMS"; subcommand; param; text]).

(** The bounds and the limit; a second bound that is not given is zero. *)
Definition history_bounds (subcommand : string) (req : history_request) : res derror (Z * Z * Z) :=
  let b0 := parseChatHistoryBound time_Parse zeroTime (hr_bound0 req) in
  let? b0 := (if bool_decide (subcommand = "LATEST") && bool_decide (hr_bound0 req = "*") then Ok zeroTime
              else if Z.eqb b0 zeroTime then Err (invalid_param subcommand (hr_bound0 req) "Invalid first bound") else Ok b0) in
  let? b1 := (if nonempty (hr_bound1 req) then
                let b1 := parseChatHistoryBound time_Parse zeroTime (hr_bound1 req) in
                if Z.eqb b1 zeroTime then Err (invalid_param subcommand (hr_bound1 req) "Invalid second bound") else Ok b1
              else Ok zeroTime) in
  match Atoi (hr_limit req) with
  | Some limit => if (limit <? 0) || (chatHistoryLimit <? limit) then Err (invalid_param subcommand (hr_limit req) "Invalid limit")
                  else Ok (b0, b1, limit)
  | None => Err (invalid_param subcommand (hr_limit req) "Invalid limit")
  end.

(** AROUND: an error of the store gives an empty history. *)
Definition history_around (st : St) (net : NetworkRec) (target : string) (events : bool) (b0 limit : Z) : list message :=
  let afterLimit := limit / 2 in
  let beforeLimit := limit - afterLimit in
  match st_LoadBeforeTime st b0 zeroTime net target beforeLimit events with
  | None => []
  | Some before =>
      let afterBound := match last before with
                        | Some lastMsg => time_Parse (default "" (Tags lastMsg !! "time"))
                        | None => Some (b0 - second)
                        end in
      match afterBound with
      | None => []
      | Some afterBound =>
          match st_LoadAfterTime st afterBound env_now net target afterLimit events with
          | None => []
          | Some after => before ++ after
          end
      end
  end.

(** The messages of a request other than TARGETS. *)
Definition load_history (st : St) (net : NetworkRec) (subcommand target : string) (events : bool) (b0 b1 limit : Z)
    : option (list message) :=
  if bool_decide (subcommand = "BEFORE") then st_LoadBeforeTime st b0 zeroTime net target limit events
  else if bool_decide (subcommand = "LATEST") then st_LoadBeforeTime st env_now b0 net target limit events
  else if bool_decide (subcommand = "AFTER") then st_LoadAfterTime st b0 env_now net target limit events
  else if bool_decide (subcommand = "AROUND") then Some (history_around st net target events b0 limit)
  else if bool_decide (subcommand = "BETWEEN") then
    if b0 <? b1 then st_LoadAfterTime st b0 b1 net target limit events
    else st_LoadBeforeTime st b0 b1 net target limit events
  else Some [].

Definition send_targets (net : network) (targets : list (string * Z)) : D unit :=
  dc_sendBatchOf "draft/chathistory-targets" []
    ((fun t => mk_msg "CHATHISTORY" ["TARGETS"; fst t; FormatServerTime (snd t)])
     <$> filter (fun t => match Get (nw_channels net) (fst t) with Some ch => negb (ch_Detached ch) | None => true end = true) targets).

Definition answer_history (st : St) (net : network) (subcommand : string) (req : history_request) : C unit :=
  let target := nw_casemap net (hr_target req) in
  b ← lift (history_bounds subcommand req);
  let '(b0, b1, limit) := b in
  dc ← self_dc;
  let events := IsEnabled (dc_caps dc) "draft/event-playback" in
  if bool_decide (subcommand = "TARGETS") then
    match st_ListTargets st (nw_rec net) b0 b1 limit events with
    | None => fail ["CHATHISTORY"; "MESSAGE_ERROR"; subcommand; "Failed to retrieve targets"]
    | Some targets => on_self self (send_targets net targets)
    end
  else
    match load_history st (nw_rec net) subcommand target events b0 b1 limit with
    | None => raise (newChatHistoryError subcommand target)
    | Some history => on_self self (dc_sendBatchOf "chathistory" [target] history)
    end.

Definition on_client_chathistory (msg : message) : C unit :=
  l ← cneed msg 1;
  let subcommand := arg l 0 in
  onet ← my_network self;
  oreq ← history_params msg subcommand (is_Some_b onet);
  match oreq with
  | None => mret tt
  | Some req =>
      dc ← self_dc;
      if bool_decide (dc_casemap dc (hr_target req) = serviceNickCM)
      then on_self self (dc_sendBatchOf "chathistory" [hr_target req] [])
      else
        store ← the_store;
        match store with
        | None => fail_nick "421" ["CHATHISTORY"; "Chat history disabled"]
        | Some st =>
            if negb (st_chathistory st) then fail_nick "421" ["CHATHISTORY"; "Chat history disabled"]
            else match onet with
            | None => fail ["CHATHISTORY"; "INVALID_TARGET"; subcommand; hr_target req; "Cannot fetch chat history on bouncer connection"]
            | Some o => answer_history st (no_net o) subcommand req
            end
        end
  end.

(** ** READ, MARKREAD *)

(** The time of [timestamp=...], not later than now. *)
Definition read_criteria (cmd criteria : string) : res derror Z :=
  match Split2 criteria "=" with
  | (key, Some v) =>
      if negb (bool_decide (key = "timestamp")) then Err (IrcError (mk_msg "FAIL" [cmd; "INVALID_PARAMS"; criteria; "Unknown criteria"]))
      else match time_Parse v with
           | None => Err (IrcError (mk_msg "FAIL" [cmd; "INVALID_PARAMS"; criteria; "Invalid criteria"]))
           | Some t => Ok (if env_now <? t then env_now else t)
           end
  | (_, None) => Err (IrcError (mk_msg "FAIL" [cmd; "INVALID_PARAMS"; criteria; "Unknown criteria"]))
  end.

(** The marker after the message, and whether it moved. *)
Definition update_marker (cmd target criteria : string) (netID : Z) (targetCM : string) (current : Z) : C (Z * bool) :=
  if bool_decide (criteria = "") then mret (current, false)
  else
    t ← lift (read_criteria cmd criteria);
    if current <? t then
      if db_StoreReadReceipt netID targetCM t then did (StoredReadReceipt netID targetCM t);; mret (t, true)
      else fail [cmd; "INTERNAL_ERROR"; target; "Internal error"];; mret (current, false)
    else mret (current, false).

Definition send_marker (target timestampStr : string) : D unit :=
  dc ← get_dc id;
  let cmd := if IsEnabled (dc_caps dc) "draft/read-marker" then "MARKREAD" else "READ" in
  dc_SendMessage (with_prefix (Some (dc_prefix dc)) (mk_msg cmd [target; timestampStr])).

(** A push target that was read is forgotten. *)
Definition read_push (target timestampStr : string) (t : Z) (ref : nat) : C unit :=
  o ← obj_at_ref ref;
  match Get (nw_pushTargets (no_net o)) target with
  | None => mret tt
  | Some pushed =>
      when (negb (t <? pushed)) (modify_obj ref (with_net (fun net => set_nw_pushTargets (Del (nw_pushTargets net) target) net)));;
      did (Did (UNet ref (WebPush (mk_msg "MARKREAD" [target; timestampStr]))))
  end.

(** Every client of the network is told about a marker that moved. *)
Definition tell_marker (target : string) (ref : nat) (t : Z) (broadcast : bool) : C unit :=
  let timestampStr := if Z.eqb t zeroTime then "*" else "timestamp=" +:+ FormatServerTime t in
  each_client ref (fun d =>
    when (broadcast || Z.eqb (dc_id d) self) (run_conn (dc_id d) (fun _ _ => send_marker target timestampStr)));;
  when broadcast (read_push target timestampStr t ref).

Definition on_client_markread (msg : message) : C unit :=
  match Params msg with
  | [] => fail [Command msg; "NEED_MORE_PARAMS"; "Missing parameters"]
  | target :: rest =>
      let criteria := default "" (head rest) in
      dc ← self_dc;
      if bool_decide (dc_casemap dc target = serviceNickCM)
      then reply (with_prefix (Some (dc_prefix dc)) (mk_msg (Command msg) [target; "*"]))
      else
        onet ← my_network self;
        match onet with
        | None => fail [Command msg; "INTERNAL_ERROR"; target; "Cannot set read markers on bouncer connection"]
        | Some o =>
            let net := no_net o in
            let netID := n_ID (nw_rec net) in
            let targetCM := nw_casemap net target in
            match db_GetReadReceipt netID targetCM with
            | None => fail [Command msg; "INTERNAL_ERROR"; target; "Internal error"]
            | Some r =>
                tb ← update_marker (Command msg) target criteria netID targetCM (default zeroTime r);
                tell_marker target (no_ref o) (fst tb) (snd tb)
            end
        end
  end.

(** ** SEARCH *)

Definition search_error (name text : string) : derror := IrcError (mk_msg "FAIL" ["SEARCH"; "INVALID_PARAMS"; name; text]).

(** One attribute: the options, and whether [in] was given. *)
Definition search_attr (onet : option netobj) (acc : SearchMessageOptions * bool) (kv : string * string)
    : res derror (SearchMessageOptions * bool) :=
  let '(o, has_in) := acc in
  let '(name, value) := kv in
  if bool_decide (name ∈ ["before"; "after"]) then
    match time_Parse value with
    | None => Err (search_error name "Invalid criteria")
    | Some t => Ok (if bool_decide (name = "after")
                    then MkSearch t (so_End o) (so_Limit o) (so_From o) (so_In o) (so_Text o)
                    else MkSearch (so_Start o) t (so_Limit o) (so_From o) (so_In o) (so_Text o), has_in)
    end
  else if bool_decide (name = "from") then Ok (MkSearch (so_Start o) (so_End o) (so_Limit o) value (so_In o) (so_Text o), has_in)
  else if bool_decide (name = "in") then
    match onet with
    | None => Err (search_error name "Cannot search on bouncer connection")
    | Some n => Ok (MkSearch (so_Start o) (so_End o) (so_Limit o) (so_From o) (nw_casemap (no_net n) value) (so_Text o), true)
    end
  else if bool_decide (name = "text") then Ok (MkSearch (so_Start o) (so_End o) (so_Limit o) (so_From o) (so_In o) value, has_in)
  else if bool_decide (name = "limit") then
    match Atoi value with
    | Some limit => if limit <=? 0 then Err (search_error name "Invalid limit")
                    else Ok (MkSearch (so_Start o) (so_End o) limit (so_From o) (so_In o) (so_Text o), has_in)
    | None => Err (search_error name "Invalid limit")
    end
  else Ok (o, has_in).

Fixpoint search_attrs (onet : option netobj) (acc : SearchMessageOptions * bool) (l : list (string * string))
    : res derror (SearchMessageOptions * bool) :=
  match l with
  | [] => Ok acc
  | kv :: l' => let? acc' := search_attr onet acc kv in search_attrs onet acc' l'
  end.

(** The options of a search; [in] is mandatory. *)
Definition search_options (onet : option netobj) (attrs : gmap string string) : res derror SearchMessageOptions :=
  let? r := search_attrs onet (MkSearch zeroTime zeroTime searchMaxLimit "" "" "", false) (map_order attrs) in
  let '(o, has_in) := r in
  if negb has_in then Err (search_error "in" "The in parameter is mandatory")
  else Ok (MkSearch (so_Start o) (so_End o) (Z.min (so_Limit o) searchMaxLimit) (so_From o) (so_In o) (so_Text o)).

Definition on_client_search (msg : message) : C unit :=
  store ← the_store;
  match store with
  | None => fail_nick "421" ["SEARCH"; "Unknown command"]
  | Some st =>
      if negb (st_search st) then fail_nick "421" ["SEARCH"; "Unknown command"]
      else
        l ← cneed msg 1;
        onet ← my_network self;
        opts ← lift (search_options onet (ParseTags (arg l 0)));
        match onet with
        | None => panic
        | Some o =>
            match st_Search st (nw_rec (no_net o)) opts with
            | None => fail ["SEARCH"; "INTERNAL_ERROR"; "Messages could not be retrieved"]
            | Some msgs => on_self self (dc_sendBatchOf "soju.im/search" [] msgs)
            end
        end
  end.

End History.
