(* ===== verification/ClientBouncer.v ===== *)
(** * Messages of registered clients (downstream.go): the bouncer itself

    CLIENTCERT, BOUNCER and WEBPUSH, the switch of [handleMessageRegistered]
    and [handleMessage] of a registered client. *)

From stdpp Require Import base list gmap strings.
From Stdlib Require Import ZArith Ascii.
From S2P Require Import Prelude GoStrings GoText Casemapping Xirc Whox Genmsg Sasl Irc Rate MsgStore Database.
From S2P Require Import Handler Session Network Pending Upstream UpstreamHandlers User Downstream Client ClientHandlers.
From S2P Require Import ClientMessages ClientHistory.

Local Open Scope Z_scope.

(** ** Hexadecimal *)

Definition hex_digit (n : N) : ascii := if (n <? 10)%N then ascii_of_N (48 + n) else ascii_of_N (87 + n).

Fixpoint hex_EncodeToString (l : list ascii) : string :=
  match l with
  | [] => ""
  | c :: l' => String (hex_digit (N_of_ascii c / 16)) (String (hex_digit (N_of_ascii c mod 16)) (hex_EncodeToString l'))
  end.

Definition hex_value (c : ascii) : option N :=
  let n := N_of_ascii c in
  if byte_between "0" c "9" then Some (n - 48)%N
  else if byte_between "a" c "f" then Some (n - 87)%N
  else if byte_between "A" c "F" then Some (n - 55)%N else None.

Fixpoint hex_DecodeString (s : string) : option (list ascii) :=
  match s with
  | EmptyString => Some []
  | String a (String b s') => x ← hex_value a; y ← hex_value b; l ← hex_DecodeString s'; Some (ascii_of_N (16 * x + y) :: l)
  | String _ EmptyString => None
  end.

Definition sha512_Size : nat := 64.
Definition webpushCheckSubscriptionDelay : Z := 24 * 3600 * second.
Definition webPushLimit : nat := 25.

Definition findWebPushSubscription (subs : list WebPushSubscription) (endpoint : string) : option WebPushSubscription :=
  head (filter (fun sub => wps_Endpoint sub = endpoint) subs).

Section Bouncer.
Context {St : Type} {HSt : Store St} {HH : HistoryStore St} {BC : BareCodec Z}.
Context {MO : MapOrder} {UN : Unicode} {EV : Env} {UE : UserEnv} {SE : SrvEnv} {CE : ClientEnv}.
Notation C := (handler (cst St) derror).
Notation D := (handler dst derror).
Context (self : Z).
(** [handleServicePRIVMSG] on behalf of the client; [Some] is an error. *)
Context (service : string -> C (option string)).

Notation reply := (reply self).
Notation self_dc := (self_dc self).
Notation fail_nick := (fail_nick self).

(** ** CLIENTCERT *)

Definition cert_line (cert : DeviceCertificate) : message :=
  mk_msg "CLIENTCERT" ["LIST"; ToUpper (hex_EncodeToString (cert_Fingerprint cert));
    tags_String {["time" := time_Format (cert_LastUsed cert); "ip" := cert_LastIP cert; "name" := cert_Label cert]}].

Definition clientcert_create (msg : message) : C unit :=
  l ← cneed msg 2;
  match peer_cert with
  | None => fail ["CLIENTCERT"; "NOCERT"; "CREATE"; "No TLS client certificate is used"]
  | Some pc =>
      u ← the_user;
      let cert := MkDeviceCert (arg l 1) (sha512_Sum512 pc) env_now client_IP in
      if negb (db_CreateDeviceCertificate (u_ID u) cert)
      then fail ["CLIENTCERT"; "INTERNAL_ERROR"; "CREATE"; "Could not create device certificate"]
      else did (CreatedDeviceCert cert);; reply (mk_msg "CLIENTCERT" ["CREATE"])
  end.

(** The fingerprint to delete as sent and as bytes. *)
Definition clientcert_fingerprint (msg : message) : res derror (string * list ascii) :=
  match Params msg !! 1%nat with
  | Some fingerprint =>
      match hex_DecodeString fingerprint with
      | Some h => if (length h =? sha512_Size)%nat then Ok (fingerprint, h)
                  else Err (IrcError (mk_msg "FAIL" ["CLIENTCERT"; "INTERNAL_ERROR"; "DELETE"; "Invalid device certificate fingerprint"]))
      | None => Err (IrcError (mk_msg "FAIL" ["CLIENTCERT"; "INTERNAL_ERROR"; "DELETE"; "Invalid device certificate fingerprint"]))
      end
  | None =>
      match peer_cert with
      | None => Err (IrcError (mk_msg "FAIL" ["CLIENTCERT"; "NOCERT"; "DELETE"; "No TLS client certificate is used"]))
      | Some pc => let h := sha512_Sum512 pc in Ok (ToUpper (hex_EncodeToString h), h)
      end
  end.

Definition clientcert_delete (msg : message) : C unit :=
  fh ← lift (clientcert_fingerprint msg);
  let '(fingerprint, h) := fh in
  u ← the_user;
  if negb (db_DeleteDeviceCertificate (u_ID u) h)
  then fail ["CLIENTCERT"; "INTERNAL_ERROR"; "DELETE"; "Could not delete device certificate"]
  else did (DeletedDeviceCert h);; reply (mk_msg "CLIENTCERT" ["DELETE"; fingerprint]).

Definition on_client_clientcert (msg : message) : C unit :=
  l ← cneed msg 1;
  if negb cfg_ClientCertAuth then raise (newUnknownCommandError (Command msg))
  else
    let sub := ToUpper (arg l 0) in
    if bool_decide (sub = "LIST") then
      u ← the_user;
      match db_ListDeviceCertificates (u_ID u) with
      | None => raise OtherError
      | Some certs => on_self self (dc_sendBatchOf "soju.im/client-cert" [] (cert_line <$> certs))
      end
    else if bool_decide (sub = "CREATE") then clientcert_create msg
    else if bool_decide (sub = "DELETE") then clientcert_delete msg
    else fail ["CLIENTCERT"; "UNKNOWN_COMMAND"; arg l 0; "Unknown subcommand"].

(** ** BOUNCER *)

Definition network_line (s : session St) (o : netobj) : message :=
  mk_msg "BOUNCER" ["NETWORK"; fmt_int (n_ID (nw_rec (no_net o))); tags_String (net_attrs s o)].

Definition bouncer_list : C unit :=
  ss ← gets c_ss;
  on_self self (dc_sendBatchOf "soju.im/bouncer-networks" [] (network_line ss <$> objs ss)).

(** The error of [updateNetworkAttrs] and [parseBouncerNetID]. *)
Definition irc_result {A} (r : res message A) : res derror A :=
  match r with Ok a => Ok a | Err m => Err (IrcError m) | Panic => Panic end.

(** Settings equal to those of the user are not stored. *)
Definition wipe_defaults (u : UserRec) (r : NetworkRec) : NetworkRec :=
  with_ident r (n_Name r) (n_Addr r) (if bool_decide (n_Nick r = u_Username u) then "" else n_Nick r) (n_Username r)
    (if bool_decide (n_Realname r = u_Realname u) then "" else n_Realname r) (n_Pass r).

Definition bouncer_add (msg : message) (subcommand : string) : C unit :=
  l ← cneed msg 2;
  dc ← self_dc;
  u ← the_user;
  record ← lift (irc_result (updateNetworkAttrs url_Parse (with_Nick (NewNetwork "") (dc_nick dc)) (map_order (ParseTags (arg l 1))) subcommand));
  r ← run_user (createNetwork (wipe_defaults u record) true);
  match r with
  | inl e => fail ["BOUNCER"; "UNKNOWN_ERROR"; subcommand; "Failed to create network: " +:+ user_error_text e]
  | inr ref => o ← obj_at_ref ref; reply (mk_msg "BOUNCER" ["ADDNETWORK"; fmt_int (n_ID (nw_rec (no_net o)))])
  end.

Definition invalid_netid (subcommand idStr : string) : C unit :=
  fail ["BOUNCER"; "INVALID_NETID"; subcommand; idStr; "Invalid network ID"].

Definition bouncer_change (msg : message) (subcommand : string) : C unit :=
  l ← cneed msg 3;
  let idStr := arg l 1 in
  id ← lift (irc_result (parseBouncerNetID subcommand idStr));
  onet ← gets (fun s => getNetworkByID (c_ss s) id);
  match onet with
  | None => invalid_netid subcommand idStr
  | Some o =>
      u ← the_user;
      let old := nw_rec (no_net o) in
      record ← lift (irc_result (updateNetworkAttrs url_Parse old (map_order (ParseTags (arg l 2))) subcommand));
      r ← run_user (updateNetwork (wipe_defaults u record) (negb (n_Enabled old)));
      match r with
      | inl e => fail ["BOUNCER"; "UNKNOWN_ERROR"; subcommand; "Failed to update network: " +:+ user_error_text e]
      | inr _ => reply (mk_msg "BOUNCER" ["CHANGENETWORK"; idStr])
      end
  end.

Definition bouncer_delete (msg : message) (subcommand : string) : C unit :=
  l ← cneed msg 2;
  let idStr := arg l 1 in
  id ← lift (irc_result (parseBouncerNetID subcommand idStr));
  onet ← gets (fun s => getNetworkByID (c_ss s) id);
  match onet with
  | None => invalid_netid subcommand idStr
  | Some o =>
      r ← run_user (deleteNetwork (n_ID (nw_rec (no_net o))));
      match r with
      | inl _ => raise OtherError
      | inr _ => reply (mk_msg "BOUNCER" ["DELNETWORK"; idStr])
      end
  end.

Definition on_client_bouncer (msg : message) : C unit :=
  l ← cneed msg 1;
  let subcommand := arg l 0 in
  let sub := ToUpper subcommand in
  if bool_decide (sub = "BIND")
  then fail ["BOUNCER"; "REGISTRATION_IS_COMPLETED"; "BIND"; "Cannot bind to a network after registration"]
  else if bool_decide (sub = "LISTNETWORKS") then bouncer_list
  else if bool_decide (sub = "ADDNETWORK") then bouncer_add msg subcommand
  else if bool_decide (sub = "CHANGENETWORK") then bouncer_change msg subcommand
  else if bool_decide (sub = "DELNETWORK") then bouncer_delete msg subcommand
  else fail ["BOUNCER"; "UNKNOWN_COMMAND"; subcommand; "Unknown subcommand"].

(** ** WEBPUSH *)

Definition network_id (onet : option netobj) : Z := match onet with Some o => n_ID (nw_rec (no_net o)) | None => 0 end.

(** [dc.listWebPushSubscriptions]; an error is reported to the client. *)
Definition list_webpush (subcommand : string) (netID : Z) : C (list WebPushSubscription) :=
  u ← the_user;
  match db_ListWebPushSubscriptions (u_ID u) netID with
  | None => fail ["WEBPUSH"; "INTERNAL_ERROR"; subcommand; "Internal error"];; mret []
  | Some subs => mret subs
  end.

Definition sanityCheckWebPushEndpoint (endpoint : string) : bool :=
  match url_Parse endpoint with Some u => bool_decide (Scheme u = "https") | None => false end.

Definition same_keys (a b : WebPushSubscription) : bool :=
  bool_decide (wps_Auth a = wps_Auth b) && bool_decide (wps_P256DH a = wps_P256DH b) && bool_decide (wps_VAPID a = wps_VAPID b).

(** The subscription is checked with a test message and stored. *)
Definition webpush_check (subcommand : string) (netID : Z) (sub : WebPushSubscription) : C unit :=
  u ← the_user;
  if negb (sanityCheckWebPushEndpoint (wps_Endpoint sub))
     || negb (srv_sendWebPush sub (mk_msg "NOTE" ["WEBPUSH"; "REGISTERED"; "Push notifications enabled"]))
  then fail ["WEBPUSH"; "INVALID_PARAMS"; subcommand; "Invalid endpoint"]
  else if negb (db_StoreWebPushSubscription (u_ID u) netID sub)
  then fail ["WEBPUSH"; "INTERNAL_ERROR"; subcommand; "Internal error"]
  else did (StoredWebPush netID sub).

Definition webpush_register (msg : message) (subcommand : string) : C unit :=
  l ← cneed msg 3;
  let endpoint := arg l 1 in
  let rawKeys := ParseTags (arg l 2) in
  match rawKeys !! "auth", rawKeys !! "p256dh" with
  | Some auth, Some p256dh =>
      onet ← my_network self;
      let netID := network_id onet in
      subs ← list_webpush subcommand netID;
      if (webPushLimit <? length subs)%nat then fail ["WEBPUSH"; "INTERNAL_ERROR"; subcommand; "Too many subscriptions"]
      else
        let old := findWebPushSubscription subs endpoint in
        let newSub := MkWebPush (match old with Some o => wps_ID o | None => 0 end) endpoint zeroTime auth p256dh vapid_Public in
        let updateSub := match old with
                         | Some o => (webpushCheckSubscriptionDelay <? env_now - wps_UpdatedAt o) || negb (same_keys o newSub)
                         | None => true
                         end in
        when updateSub (webpush_check subcommand netID newSub);;
        reply (mk_msg "WEBPUSH" ["REGISTER"; endpoint])
  | _, _ => fail ["WEBPUSH"; "INVALID_PARAMS"; subcommand; "Missing auth or p256dh key"]
  end.

Definition webpush_unregister (msg : message) (subcommand : string) : C unit :=
  l ← cneed msg 2;
  let endpoint := arg l 1 in
  onet ← my_network self;
  subs ← list_webpush subcommand (network_id onet);
  match findWebPushSubscription subs endpoint with
  | None => reply (mk_msg "WEBPUSH" ["UNREGISTER"; endpoint])
  | Some old =>
      if negb (db_DeleteWebPushSubscription (wps_ID old)) then fail ["WEBPUSH"; "INTERNAL_ERROR"; subcommand; "Internal error"]
      else did (DeletedWebPush (wps_ID old));; reply (mk_msg "WEBPUSH" ["UNREGISTER"; endpoint])
  end.

Definition on_client_webpush (msg : message) : C unit :=
  dc ← self_dc;
  if negb (IsEnabled (dc_caps dc) "soju.im/webpush") then raise (newUnknownCommandError (Command msg))
  else
    l ← cneed msg 1;
    let subcommand := arg l 0 in
    if bool_decide (subcommand = "REGISTER") then webpush_register msg subcommand
    else if bool_decide (subcommand = "UNREGISTER") then webpush_unregister msg subcommand
    else fail ["WEBPUSH"; "INVALID_PARAMS"; subcommand; "Unknown command"].

(** ** The switch *)

(** Other commands are passed to the server. *)
Definition on_client_unknown (msg : message) : C unit :=
  onet ← my_network self;
  match onet with
  | None => raise (newUnknownCommandError (Command msg))
  | Some o =>
      match no_conn o with
      | None => raise (IrcError (mk_msg "421" ["*"; Command msg; "Disconnected from upstream network"]))
      | Some _ => send_labeled self (no_ref o) msg
      end
  end.

Definition client_handlers : list (list string * (message -> C unit)) :=
  [(["CAP"], fun msg => on_self self (handleCap msg));
   (["PING"], on_ping self);
   (["PONG"], on_pong self);
   (["USER"], fun _ => fail_nick "462" ["You may not reregister"]);
   (["NICK"], on_client_nick self);
   (["SETNAME"], on_client_setname self);
   (["JOIN"], on_client_join self);
   (["PART"], on_client_part self);
   (["KICK"; "INVITE"], pass_upstream self);
   (["MODE"], on_client_mode self);
   (["TOPIC"], on_client_topic self);
   (["LIST"], on_client_list self);
   (["NAMES"], on_client_names self);
   (["WHO"], on_client_who self);
   (["WHOIS"], on_client_whois self);
   (["PRIVMSG"; "NOTICE"; "TAGMSG"; "REDACT"], on_client_text self service);
   (["AUTHENTICATE"], on_client_authenticate self);
   (["REGISTER"; "VERIFY"], on_client_register self);
   (["AWAY"], on_client_away self);
   (["INFO"], on_client_info self);
   (["MONITOR"], on_client_monitor self);
   (["METADATA"], on_client_metadata self);
   (["CHATHISTORY"], on_client_chathistory self);
   (["READ"; "MARKREAD"], on_client_markread self);
   (["SEARCH"], on_client_search self);
   (["CLIENTCERT"], on_client_clientcert);
   (["BOUNCER"], on_client_bouncer);
   (["WEBPUSH"], on_client_webpush)].

(** The handler of a command. *)
Fixpoint select_handler (cmd : string) (l : list (list string * (message -> C unit))) : message -> C unit :=
  match l with
  | [] => on_client_unknown
  | (cmds, h) :: l' => if bool_decide (cmd ∈ cmds) then h else select_handler cmd l'
  end.

Definition handleMessageRegistered (msg : message) : C unit := select_handler (Command msg) client_handlers msg.

(** [if ircErr, ok := err.(ircError); ok { send it } else if err != nil { return err }] *)
Definition reply_irc_error (m : C unit) : C unit := fun s =>
  match m s with
  | (s', Err (IrcError msg)) => reply (with_prefix (Some env_srvPrefix) msg) s'
  | r => r
  end.

(** [dc.handleMessage] of a registered client. *)
Definition handle_client_message (msg : message) : C unit :=
  dc ← self_dc;
  modify (set_ctx (match Tags msg !! "label" with
                   | Some label => if IsEnabled (dc_caps dc) "labeled-response" then {[self := LabelCtx label "" None]} else ∅
                   | None => ∅
                   end));;
  (if bool_decide (Command msg = "QUIT") then set_self self (set_dc_closed true)
   else if bool_decide (Command msg = "ISUPPORT") then
     if negb (IsEnabled (dc_caps dc) "draft/extended-isupport") then raise (newUnknownCommandError (Command msg))
     else on_view self (fun V =>
       isupport ← get_dc (buildIsupport V);
       sendIsupport isupport;;
       modify_dc (set_dc_isupport isupport))
   else reply_irc_error (handleMessageRegistered msg));;
  on_self self dc_FlushBatch.

End Bouncer.
