(* ===== verification/SessionSound.v ===== *)
(** * The state of a user stays sound (user.go)

    What every method of a user keeps, whatever its outcome: clients keep
    their IDs and are bound to networks that exist, objects carry their
    reference, and the records of the user and of its networks satisfy
    predicates that the changes respect. *)

From stdpp Require Import base list gmap strings.
From Stdlib Require Import ZArith Ascii.
From S2P Require Import Prelude GoStrings GoText Casemapping Xirc Genmsg Irc Rate Database.
From S2P Require Import Handler Session Network Pending Upstream User.

Local Open Scope Z_scope.

(** What the record of the user, those of its networks and the capabilities of
    its clients may be. *)
Record policy := Policy {
  PU : UserRec -> Prop;
  PR : NetworkRec -> Prop;
  PC : CapRegistry -> Prop
}.

Record policy_ok (F : policy) : Prop := {
  po_id : forall r id, PR F r -> PR F (with_ID r id);
  po_reset : forall u r, PR F r -> PR F (reset_defaults u r)
}.

(** The effects that store a record. *)
Definition stored_ok (F : policy) (e : ueffect) : Prop :=
  match e with
  | StoreUserDB u => PU F u
  | StoreNetworkRec r => PR F r
  | _ => True
  end.

(** A client whose network exists. *)
Definition client_ok (F : policy) (heap : gmap nat netobj) (dc : downstreamConn) : Prop :=
  PC F (dc_caps dc) /\ forall r, dc_network dc = Some r -> is_Some (heap !! r).

(** [I] are the IDs of the clients, [L] references that are known to exist. *)
Record sound (F : policy) (I : list Z) (L : list nat) {St} (ss : session St) : Prop := {
  sd_user : PU F (ss_user ss);
  sd_heap : forall r o, ss_heap ss !! r = Some o -> no_ref o = r /\ PR F (nw_rec (no_net o));
  sd_live : Forall (fun r => is_Some (ss_heap ss !! r)) L;
  sd_ids : dc_id <$> ss_downs ss = I;
  sd_downs : Forall (client_ok F (ss_heap ss)) (ss_downs ss);
  sd_eff : Forall (stored_ok F) (ss_eff ss)
}.

(** A method of a network that keeps its record within the policy. *)
Definition keeps_rec (F : policy) {St A} (m : handler (ust St) uerror A) : Prop := keeps (fun t => PR F (nw_rec (su_net t))) m.

Ltac keeps_step :=
  match goal with
  | |- keeps _ (_ ≫= _) => apply keeps_bind; [|intros ?]
  | |- keeps _ (when _ _) => apply keeps_when
  | |- keeps _ (for_each _ _) => apply keeps_for_each; intros ?
  | |- keeps _ (mret _) => apply keeps_ret
  | |- keeps _ (raise _) => apply keeps_raise
  | |- keeps _ panic => apply keeps_panic
  | |- keeps _ (gets _) => apply keeps_gets
  | |- keeps _ (lift _) => apply keeps_lift
  | |- keeps _ (let '(_, _) := ?x in _) => destruct x
  | |- keeps _ (if ?b then _ else _) => destruct b
  | |- keeps _ (match ?x with _ => _ end) => destruct x
  end.

Ltac keeps_rec_auto :=
  unfold keeps_rec in *;
  repeat first
    [ keeps_step
    | match goal with
      | |- keeps _ (modify_net (update_ch _ _)) =>
          apply keeps_modify; intros ? ?; unfold on_net, update_ch; cbn; repeat case_match; assumption
      | |- keeps _ (modify _) => apply keeps_modify; intros ? ?; cbn; assumption
      | |- keeps _ (modify_uc _) => apply keeps_modify; intros ? ?; cbn; assumption
      | |- keeps _ (modify_net _) => apply keeps_modify; intros ? ?; cbn; assumption
      | |- keeps _ (emit _) => apply keeps_modify; intros ? ?; cbn; assumption
      | |- keeps _ (down _ _) => apply keeps_modify; intros ? ?; cbn; assumption
      | |- keeps _ (get_uc _) => apply keeps_gets
      | |- keeps _ (get_net _) => apply keeps_gets
      | |- keeps _ _ => progress unfold forEachDownstream, forEachDownstreamByID, uc_SendMessage
      end ].

Section Networks.
Context {St : Type} {HSt : Store St} {MO : MapOrder} {UN : Unicode} {EV : Env} (F : policy).

Lemma rec_uc_SendMessage msg : keeps_rec F (St := St) (uc_SendMessage msg).
Proof. keeps_rec_auto. Qed.
Lemma rec_updateChannelAutoDetach name : keeps_rec F (St := St) (updateChannelAutoDetach name).
Proof. unfold updateChannelAutoDetach. keeps_rec_auto. Qed.
Lemma rec_detach name ch : keeps_rec F (St := St) (detach name ch).
Proof. unfold detach. keeps_rec_auto. Qed.
Lemma rec_attach name ch : keeps_rec F (St := St) (attach name ch).
Proof. unfold attach, updateChannelAutoDetach. keeps_rec_auto. Qed.
Lemma rec_deleteChannel name : keeps_rec F (St := St) (deleteChannel name).
Proof. unfold deleteChannel. keeps_rec_auto. Qed.
Lemma rec_updateCasemapping cm : keeps_rec F (St := St) (updateCasemapping cm).
Proof. unfold updateCasemapping. keeps_rec_auto. Qed.
Lemma rec_abort : keeps_rec F (St := St) abortPendingCommands.
Proof. unfold abortPendingCommands. keeps_rec_auto. Qed.

End Networks.

Section Users.
Context {St : Type} {HSt : Store St} {MO : MapOrder} {UN : Unicode} {EV : Env} {UE : UserEnv}.
Context (F : policy) (HF : policy_ok F) (I : list Z).
Notation U := (handler (session St) user_error).
Section Known.
Context (L : list nat).
Notation S := (sound F I L (St := St)).
Implicit Type s : session St.

(** ** Primitive changes *)

(** Objects may be added and changed. *)
Lemma sound_heap s h : S s -> (forall r, is_Some (ss_heap s !! r) -> is_Some (h !! r)) ->
  (forall r o, h !! r = Some o -> no_ref o = r /\ PR F (nw_rec (no_net o))) -> S (on_heap (fun _ => h) s).
Proof.
  intros [H1 H2 H3 H4 H5 H6] Hd Hh. split; cbn; try done; [by eapply Forall_impl; [exact H3|cbn; auto]|].
  eapply Forall_impl; [exact H5|]. intros dc [Hx Hn]. split; [done|]. eauto.
Qed.

Lemma sound_obj s ref f : S s -> (forall o, no_ref (f o) = no_ref o /\ (PR F (nw_rec (no_net o)) -> PR F (nw_rec (no_net (f o))))) ->
  S (on_obj ref f s).
Proof.
  intros Hs Hf. apply (sound_heap s (alter f ref (ss_heap s))); [done|intros r; by rewrite lookup_alter_is_Some|].
  intros r o [[<- (o' & Ho & ->)]|[_ Ho]]%lookup_alter_Some; [|by apply (sd_heap _ _ _ _ Hs)].
  destruct (sd_heap _ _ _ _ Hs _ _ Ho), (Hf o'). naive_solver.
Qed.

Lemma sound_eff l s : S s -> Forall (stored_ok F) l -> S (add_eff l s).
Proof. intros [] Hl. split; cbn; try done. by apply Forall_app. Qed.

Lemma sound_on_downs f s : S s -> (forall dc, dc_id (f dc) = dc_id dc) ->
  (forall dc, client_ok F (ss_heap s) dc -> client_ok F (ss_heap s) (f dc)) -> S (on_downs f s).
Proof.
  intros [H1 H2 H3 H4 H5 H6] Hi Hf. split; cbn; try done.
  - rewrite <- list_fmap_compose. rewrite (list_fmap_ext _ dc_id); [done|]. intros i dc _. apply Hi.
  - apply Forall_fmap. eapply Forall_impl; [exact H5|]. exact Hf.
Qed.

Lemma sound_networks l s : S s -> S (set_networks l s).
Proof. intros []. by split. Qed.

Lemma sound_from_ust ref conn (t : ust St) s : S s -> is_Some (ss_heap s !! ref) -> PR F (nw_rec (su_net t)) -> S (from_ust ref conn t s).
Proof.
  intros Hs Hr Ht. assert (Hi : forall r, is_Some (ss_heap s !! r) -> is_Some (<[ref := NetObj ref (su_net t) conn]> (ss_heap s) !! r)).
  { intros r Hs'. rewrite lookup_insert_is_Some'. by right. }
  destruct Hs as [H1 H2 H3 H4 H5 H6]. split; cbn; try done.
  - intros r o [[<- <-]|[_ Ho]]%lookup_insert_Some; [done|by apply H2].
  - eapply Forall_impl; [exact H3|]. cbn. auto.
  - eapply Forall_impl; [exact H5|]. intros dc [Hx Hn]. split; [done|]. eauto.
  - apply Forall_app. split; [done|]. apply Forall_fmap, Forall_true. intros e. by destruct e.
Qed.

(** ** Methods *)

Lemma keeps_run_net {A} ref (m : Env -> handler (ust St) uerror A) : (forall EV, keeps_rec F (m EV)) -> keeps S (run_net ref m).
Proof.
  intros Hm s Hs. unfold run_net. destruct (ss_heap s !! ref) as [o|] eqn:Ho; [|done]. destruct (sd_heap _ _ _ _ Hs _ _ Ho) as [Hr HR].
  specialize (Hm (env_of s) (to_ust s o (default (new_upstreamConn false) (no_conn o)) (bool_decide (is_Some (no_conn o)))) HR).
  destruct (m _ _) as [t r]. cbn in *. by apply sound_from_ust; [done|by eexists|].
Qed.

Lemma keeps_run_closed {A} ref uc (m : Env -> handler (ust St) uerror A) : (forall EV, keeps_rec F (m EV)) -> keeps S (run_closed ref uc m).
Proof.
  intros Hm s Hs. unfold run_closed. destruct (ss_heap s !! ref) as [o|] eqn:Ho; [|done]. destruct (sd_heap _ _ _ _ Hs _ _ Ho) as [Hr HR].
  specialize (Hm (env_of s) (to_ust s o uc false) HR).
  destruct (m _ _) as [t r]. cbn in *. by apply sound_from_ust; [done|by eexists|].
Qed.

Lemma keeps_uemit e : stored_ok F e -> keeps (E := user_error) S (uemit e).
Proof. intros He. apply keeps_modify. intros s Hs. apply sound_eff; [done|]. by repeat constructor. Qed.
Lemma keeps_udown dc call : keeps (E := user_error) S (udown dc call).
Proof. by apply keeps_uemit. Qed.
Lemma keeps_require check : keeps S (require (St := St) check).
Proof. intros s Hs. unfold require, mbind, handler_bind, gets. by destruct (check s). Qed.
Lemma keeps_on_obj ref f : (forall o, no_ref (f o) = no_ref o /\ (PR F (nw_rec (no_net o)) -> PR F (nw_rec (no_net (f o))))) ->
  keeps (E := user_error) S (modify (on_obj ref f)).
Proof. intros Hf. apply keeps_modify. intros s Hs. by apply sound_obj. Qed.

Lemma keeps_notify id attrs : keeps S (notifyBouncerNetworkState (St := St) id attrs).
Proof. unfold notifyBouncerNetworkState, sendBouncer. repeat keeps_step. all: apply keeps_udown. Qed.
Lemma keeps_udown_close dc : keeps S (udown_close (St := St) dc).
Proof.
  unfold udown_close. repeat keeps_step; [|apply keeps_udown]. apply keeps_modify. intros s Hs. apply sound_on_downs; [done| |].
  - intros d. by destruct (_ =? _).
  - intros d [Hd Hn]. destruct (_ =? _); [|done]. done.
Qed.

Lemma keeps_stop ref : keeps S (stop_network (St := St) ref).
Proof. by apply keeps_on_obj. Qed.

Lemma sound_alloc record channels ignores s : PR F record -> S s ->
  sound F I (ss_next s :: L) (Session (ss_user s) (<[ss_next s := NetObj (ss_next s) (newNetwork record channels ignores) None]> (ss_heap s))
    (ss_networks s) (ss_downs s) (ss_store s) (Datatypes.S (ss_next s)) (ss_eff s)).
Proof.
  intros HR Hs. set (h := <[_ := _]> _).
  assert (Hh : S (on_heap (fun _ => h) s)).
  { apply sound_heap; [done|intros r Hr; unfold h; rewrite lookup_insert_is_Some'; by right|].
    intros r o [[<- <-]|[_ Ho]]%lookup_insert_Some; [done|by apply (sd_heap _ _ _ _ Hs)]. }
  destruct Hh as [H1 H2 H3 H4 H5 H6]. split; cbn; try done. apply Forall_cons. split; [|done]. unfold h. rewrite lookup_insert_eq. by eexists.
Qed.

Lemma sound_known r s : sound F I (r :: L) s -> S s.
Proof. intros [H1 H2 [_ H3]%Forall_cons H4 H5 H6]. by split. Qed.

End Known.

(** After the allocation the new reference exists. *)
Lemma keeps_alloc {B} L record channels ignores (k : nat -> U B) : PR F record ->
  (forall ref, keeps (sound F I (ref :: L)) (k ref)) -> keeps (sound F I L) (alloc_network record channels ignores ≫= k).
Proof.
  intros HR Hk s Hs. apply (sound_known L (ss_next s)).
  apply (Hk (ss_next s) (Session (ss_user s) (<[ss_next s := NetObj (ss_next s) (newNetwork record channels ignores) None]> (ss_heap s))
    (ss_networks s) (ss_downs s) (ss_store s) (Datatypes.S (ss_next s)) (ss_eff s))).
  by apply sound_alloc.
Qed.

Lemma keeps_addNetwork L ref : keeps (sound F I L) (addNetwork (St := St) ref).
Proof.
  unfold addNetwork. repeat keeps_step; [|by apply keeps_uemit]. apply keeps_modify. intros s Hs. by apply sound_networks, sound_networks.
Qed.

Lemma keeps_removeNetwork L ref : keeps (sound F I L) (removeNetwork (St := St) ref).
Proof.
  unfold removeNetwork. repeat keeps_step; [apply keeps_stop|apply keeps_udown_close|].
  apply keeps_modify. intros s Hs. by apply sound_networks.
Qed.

Lemma keeps_storeNetwork L {B} record (k : NetworkRec -> U B) : PR F record ->
  (forall r, PR F r -> keeps (sound F I L) (k r)) -> keeps (sound F I L) (storeNetwork record ≫= k).
Proof.
  intros HR Hk s Hs. unfold storeNetwork. destruct (db_StoreNetwork record) as [id|]; [|done].
  set (r := if n_ID record =? 0 then _ else _). assert (Hr : PR F r) by (unfold r; destruct (_ =? _); [by apply (po_id F HF)|done]).
  apply (Hk r Hr (add_eff [StoreNetworkRec r] s)). apply sound_eff; [done|]. by repeat constructor.
Qed.

Lemma keeps_disconnected L ref uc : keeps (sound F I L) (handleUpstreamDisconnected (St := St) ref uc).
Proof.
  unfold handleUpstreamDisconnected. repeat keeps_step; try first [apply keeps_notify|apply keeps_udown|by apply keeps_on_obj].
  apply keeps_run_closed. intros EV'. unfold abortPendingCommands. keeps_rec_auto.
Qed.

Lemma keeps_createNetwork L record lim : PR F record -> keeps (sound F I L) (createNetwork (St := St) record lim).
Proof.
  intros HR. unfold createNetwork. destruct (negb _); [apply keeps_panic|]. apply keeps_bind; [apply keeps_when, keeps_require|]. intros _.
  apply keeps_bind; [apply keeps_require|]. intros _. apply keeps_alloc; [done|]. intros ref. apply keeps_storeNetwork; [done|].
  intros r Hr. repeat keeps_step; [by apply keeps_on_obj|apply keeps_addNetwork|apply keeps_notify].
Qed.

(** The clients of the old object are bound to the new one. *)
Lemma keeps_patch L old ref : ref ∈ L -> keeps (E := user_error) (sound F I L) (modify (patch_downs (St := St) old ref)).
Proof.
  intros Hin. apply keeps_modify. intros s Hs. apply sound_on_downs; [done| |].
  - intros dc. by case_bool_decide.
  - intros dc [Hd Hn]. case_bool_decide; [|done]. split; [done|]. cbn. intros r [= <-].
    pose proof (sd_live _ _ _ _ Hs) as Hl. rewrite Forall_forall in Hl. by apply Hl.
Qed.

Lemma transfer_rec old new : nw_rec (transfer old new) = nw_rec new.
Proof. unfold transfer. by destruct (n_Enabled _). Qed.

Lemma keeps_updateNetwork L record lim : PR F record -> keeps (sound F I L) (updateNetwork (St := St) record lim).
Proof.
  intros HR. unfold updateNetwork. destruct (_ =? _); [apply keeps_panic|]. apply keeps_bind; [apply keeps_when, keeps_require|]. intros _.
  apply keeps_bind; [apply keeps_gets|]. intros u. cbv zeta. apply (po_reset F HF u) in HR.
  apply keeps_bind; [apply keeps_require|]. intros _. apply keeps_bind; [apply keeps_gets|]. intros [net|]; [|apply keeps_panic].
  apply keeps_storeNetwork; [done|]. intros _ _. apply keeps_alloc; [done|]. intros ref.
  repeat keeps_step; first [apply keeps_stop|apply keeps_disconnected|apply keeps_removeNetwork|apply keeps_addNetwork|apply keeps_notify
    |by apply keeps_uemit|by apply keeps_patch; left|idtac].
  - apply keeps_on_obj. intros o. cbn. by rewrite transfer_rec.
  - apply keeps_run_net. intros EV'. apply rec_updateCasemapping.
Qed.

Lemma keeps_deleteNetwork L id : keeps (sound F I L) (deleteNetwork (St := St) id).
Proof.
  unfold deleteNetwork, sendBouncer. repeat keeps_step; first [by apply keeps_uemit|apply keeps_removeNetwork|apply keeps_udown].
Qed.

Lemma keeps_update_all L l err : Forall (PR F) l -> keeps (sound F I L) (update_all (St := St) l err).
Proof.
  intros Hl. revert err. induction Hl as [|r l Hr _ IH]; intros err s Hs; [done|]. cbn.
  pose proof (keeps_updateNetwork L r false Hr s Hs) as H1. destruct (updateNetwork r false s) as [s1 [ref|e|]]; cbn in *; [by apply IH|by apply IH|done].
Qed.

(** The records of the objects that were collected. *)
Lemma collect_rec L u b1 b2 l s : Forall (fun o => PR F (nw_rec (no_net o))) l -> sound F I L s ->
  wpe (fun _ => sound F I L) (collect_updates (St := St) u b1 b2 l) (fun recs s' => sound F I L s' /\ Forall (PR F) recs) s \/
  exists s', collect_updates u b1 b2 l s = (s', Panic) /\ sound F I L s'.
Proof.
  intros Hl. revert s. induction Hl as [|o l Ho _ IH]; intros s Hs; [left; by split|]. cbn [collect_updates].
  assert (Hn : keeps (sound F I L) (needs_update (St := St) u b1 b2 o)).
  { unfold needs_update. repeat keeps_step. apply keeps_run_net. intros EV'. apply rec_uc_SendMessage. }
  specialize (Hn s Hs). unfold wpe, mbind, handler_bind. destruct (needs_update u b1 b2 o s) as [s1 [b|e|]]; cbn in *; [|by left|right; by eexists].
  destruct (IH s1 Hn) as [Hw|(s' & -> & Hs')]; [|right; by eexists]. unfold wpe in Hw.
  destruct (collect_updates u b1 b2 l s1) as [s2 [recs|e|]]; [|by left|done]. left. destruct Hw as [Hs2 Hr]. split; [done|]. destruct b; [by constructor|done].
Qed.

Lemma keeps_collect L u b1 b2 l (k : list NetworkRec -> U unit) : Forall (fun o => PR F (nw_rec (no_net o))) l ->
  (forall recs, Forall (PR F) recs -> keeps (sound F I L) (k recs)) -> keeps (sound F I L) (collect_updates u b1 b2 l ≫= k).
Proof.
  intros Hl Hk s Hs. unfold mbind, handler_bind. destruct (collect_rec L u b1 b2 l s Hl Hs) as [Hw|(s' & -> & Hs')]; [|done].
  unfold wpe in Hw. destruct (collect_updates u b1 b2 l s) as [s1 [recs|e|]]; [|done|done]. destruct Hw. by apply Hk.
Qed.

Lemma sound_objs L (s : session St) : sound F I L s -> Forall (fun o => PR F (nw_rec (no_net o))) (objs s).
Proof.
  intros Hs. apply Forall_forall. intros o. unfold objs. rewrite list_elem_of_omap. intros (r & _ & Ho). by destruct (sd_heap _ _ _ _ Hs r o Ho).
Qed.

Lemma keeps_updateUser L update : (forall u u', PU F u -> update u = Ok u' -> PU F u') -> keeps (sound F I L) (updateUser (St := St) update).
Proof.
  intros Hu s Hs. unfold updateUser. rewrite bind_gets. unfold mbind at 1, handler_bind at 1, lift.
  destruct (update (ss_user s)) as [record|e|] eqn:E; [|done|done]. apply Hu in E; [|apply (sd_user _ _ _ _ Hs)]. cbv zeta.
  destruct (negb (db_StoreUser record)); [done|].
  set (s1 := set_user record (add_eff [StoreUserDB record] s)).
  assert (Hs1 : sound F I L s1).
  { destruct Hs as [H1 H2 H3 H4 H5 H6]. split; cbn; try done. apply Forall_app. split; [done|]. by repeat constructor. }
  match goal with |- sound F I L (fst ((uemit _ ≫= fun _ => modify _ ≫= ?k) s)) =>
    change (sound F I L (fst (k tt s1))) end. cbv beta. rewrite bind_gets.
  generalize (objs s1), (sound_objs L s1 Hs1). intros l Hl. clearbody s1. revert s1 Hs1.
  match goal with |- forall s1, _ -> sound _ _ _ (fst (?m s1)) => change (keeps (sound F I L) m) end.
  apply keeps_bind; [apply keeps_when|intros _].
  { apply keeps_for_each. intros o. repeat keeps_step. apply keeps_run_net. intros EV'. apply rec_uc_SendMessage. }
  apply keeps_bind; [apply keeps_when|intros _].
  { apply keeps_collect; [done|]. intros recs Hr. apply keeps_bind; [by apply keeps_update_all|]. intros e. repeat keeps_step. }
  apply keeps_when. repeat keeps_step. apply keeps_udown_close.
Qed.

Lemma keeps_bump L : (forall u t, PU F u -> PU F (MkUser (u_ID u) (u_Username u) (u_Password u) (u_Nick u) (u_Realname u) (u_Admin u)
    (u_Enabled u) t (u_MaxNetworks u) (u_SourceIP u) (u_CertBlob u) (u_PrivKeyBlob u))) ->
  keeps (sound F I L) (bumpDownstreamInteractionTime (St := St)).
Proof.
  intros Ht s Hs. unfold bumpDownstreamInteractionTime.
  match goal with |- context [updateUser ?f s] => pose proof (keeps_updateUser L f) as H end.
  specialize (H ltac:(intros u u' Hp [= <-]; by apply Ht) s Hs). destruct (updateUser _ s) as [s1 [a|e|]]; done.
Qed.

End Users.
