(* ===== verification/ClientSound.v ===== *)
(** * The state of a user stays sound (downstream.go)

    What every method of a client keeps, whatever its outcome, and from it what
    the handlers of the messages of clients keep. *)

From stdpp Require Import base list gmap strings.
From Stdlib Require Import ZArith Ascii.
From S2P Require Import Prelude GoStrings GoText Casemapping Xirc Whox Genmsg Sasl Irc Rate MsgStore Database.
From S2P Require Import Handler Session Network Pending Upstream UpstreamHandlers User SessionSound Downstream DownstreamCaps Client.
From S2P Require Import ClientHandlers ClientMessages ClientHistory ClientBouncer.

Local Open Scope Z_scope.

(** ** Methods of a connection *)

(** A connection with its ID and network, and capabilities that satisfy [Q]. *)
Definition conn_is (Q : CapRegistry -> Prop) (id : Z) (n : option nat) (d : dst) : Prop :=
  Q (dc_caps (d_dc d)) /\ dc_id (d_dc d) = id /\ dc_network (d_dc d) = n.

Create HintDb conn discriminated.

Ltac keeps_conn :=
  repeat first
    [ keeps_step
    | match goal with
      | |- keeps _ (get_dc _) => apply keeps_gets
      | |- keeps _ (dneed _ _) => apply keeps_lift
      | |- keeps _ (write _) => apply keeps_modify; let H := fresh in intros ? H; exact H
      | |- keeps _ (modify _) => apply keeps_modify; let H := fresh in intros ? H; exact H
      | |- keeps _ (modify_dc _) => apply keeps_modify; let H := fresh in intros ? H; exact H
      | |- keeps _ _ => solve [auto with conn]
      | |- keeps _ _ => progress unfold next_batch, cap_reply, negotiating, get_reg, modify_reg, sendPing, setAuthUsername
      end ].

Section Conn.
Context {MO : MapOrder} {UN : Unicode} {EV : Env} {SE : SrvEnv}.
Context (Q : CapRegistry -> Prop) (id : Z) (n : option nat).
Notation P := (conn_is Q id n).

Lemma conn_SendMessage m : keeps P (dc_SendMessage m).
Proof. unfold dc_SendMessage. keeps_conn. Qed.
Hint Resolve conn_SendMessage : conn.
Lemma conn_FlushBatch : keeps P dc_FlushBatch.
Proof. unfold dc_FlushBatch. keeps_conn. Qed.
Lemma conn_SendBatch typ params tags f : (forall r, keeps P (f r)) -> keeps P (dc_SendBatch typ params tags f).
Proof. intros Hf. unfold dc_SendBatch. keeps_conn. Qed.
Lemma conn_sendBatchOf typ params msgs : keeps P (dc_sendBatchOf typ params msgs).
Proof. apply conn_SendBatch. intros r. keeps_conn. Qed.
Lemma conn_sendMessageWithID m msgID : keeps P (dc_sendMessageWithID m msgID).
Proof. unfold dc_sendMessageWithID. keeps_conn. Qed.
Lemma conn_advance m msgID : keeps P (dc_advanceMessageWithID m msgID).
Proof. unfold dc_advanceMessageWithID. keeps_conn. Qed.
Hint Resolve conn_FlushBatch conn_SendBatch conn_sendBatchOf conn_sendMessageWithID conn_advance : conn.
Lemma conn_sendIsupport m : keeps P (sendIsupport m).
Proof. unfold sendIsupport. keeps_conn. apply conn_SendBatch. intros r. keeps_conn. Qed.
Hint Resolve conn_sendIsupport : conn.
Lemma conn_updateIsupport V : keeps P (dc_updateIsupport V).
Proof. unfold dc_updateIsupport. keeps_conn. Qed.
Lemma conn_updateNick V : keeps P (dc_updateNick V).
Proof. unfold dc_updateNick. keeps_conn. Qed.
Lemma conn_updateHost V : keeps P (dc_updateHost V).
Proof. unfold dc_updateHost. keeps_conn. Qed.
Lemma conn_updateRealname V : keeps P (dc_updateRealname V).
Proof. unfold dc_updateRealname. keeps_conn. Qed.
Lemma conn_updateAccount V : keeps P (dc_updateAccount V).
Proof. unfold dc_updateAccount. keeps_conn. Qed.
Lemma conn_updateCasemapping V : keeps P (dc_updateCasemapping V).
Proof. unfold dc_updateCasemapping. keeps_conn. Qed.
Lemma conn_endSASL m : keeps P (dc_endSASL m).
Proof. unfold dc_endSASL. keeps_conn. Qed.
Lemma conn_sendTopic ch : keeps P (dc_sendTopic ch).
Proof. unfold dc_sendTopic. keeps_conn. Qed.
Lemma conn_sendNames ch : keeps P (dc_sendNames ch).
Proof. unfold dc_sendNames. keeps_conn. Qed.
Hint Resolve conn_updateIsupport conn_updateNick conn_updateHost conn_updateRealname conn_updateAccount conn_updateCasemapping
  conn_endSASL conn_sendTopic conn_sendNames : conn.
Lemma conn_forwardChannel net ch : keeps P (dc_forwardChannel net ch).
Proof. unfold dc_forwardChannel. keeps_conn. Qed.
Lemma conn_handleAuthenticate msg : keeps P (dc_handleAuthenticate msg).
Proof. unfold dc_handleAuthenticate. keeps_conn. Qed.
Lemma conn_handleMetadataSub V msg : keeps P (handleMetadataSub V msg).
Proof. unfold handleMetadataSub, metadata_sub, send_subscribed. keeps_conn. Qed.
Lemma conn_sendServiceNOTICE text : keeps P (dc_sendServiceNOTICE text).
Proof. unfold dc_sendServiceNOTICE. keeps_conn. Qed.
Lemma conn_sendServicePRIVMSG text : keeps P (dc_sendServicePRIVMSG text).
Proof. unfold dc_sendServicePRIVMSG. keeps_conn. Qed.
Hint Resolve conn_forwardChannel conn_handleAuthenticate conn_handleMetadataSub conn_sendServiceNOTICE conn_sendServicePRIVMSG : conn.
Lemma conn_relayDetached V o msg : keeps P (dc_relayDetachedMessage V o msg).
Proof. unfold dc_relayDetachedMessage. keeps_conn. Qed.
Hint Resolve conn_relayDetached : conn.
Lemma conn_backlog {St} {HH : HistoryStore St} V (store : option St) o target msgID : keeps P (dc_sendTargetBacklog V store o target msgID).
Proof. unfold dc_sendTargetBacklog. keeps_conn. apply conn_SendBatch. intros r. unfold backlog_message. keeps_conn. Qed.
Hint Resolve conn_backlog : conn.

(** *** Capabilities *)

Definition place (d : dst) : Prop := dc_id (d_dc d) = id /\ dc_network (d_dc d) = n.

Lemma place_of {A} (m : handler dst derror A) : (forall Q, keeps (conn_is Q id n) m) -> keeps place m.
Proof. intros Hm s Hs. specialize (Hm (fun _ => True) s). destruct Hm; [by split|done]. Qed.

Lemma conn_and {A} (m : handler dst derror A) : keeps (on_caps Q) m -> keeps place m -> keeps P m.
Proof. intros H1 H2 s [Hq Hp]. split; [by apply H1|by apply H2]. Qed.

End Conn.

#[export] Hint Resolve conn_SendMessage conn_FlushBatch conn_sendBatchOf conn_sendMessageWithID conn_advance conn_sendIsupport
  conn_updateIsupport conn_updateNick conn_updateHost conn_updateRealname conn_updateAccount conn_updateCasemapping conn_endSASL
  conn_sendTopic conn_sendNames conn_forwardChannel conn_handleAuthenticate conn_handleMetadataSub conn_sendServiceNOTICE
  conn_sendServicePRIVMSG conn_relayDetached conn_backlog : conn.

Section Caps.
Context {MO : MapOrder} {UN : Unicode} {EV : Env} {SE : SrvEnv} (id : Z) (n : option nat).

Lemma place_SendMessage m : keeps (place id n) (dc_SendMessage m).
Proof. apply place_of. intros Q. apply conn_SendMessage. Qed.
Hint Resolve place_SendMessage : conn.
Lemma place_handleCap msg : keeps (place id n) (handleCap msg).
Proof. unfold handleCap. keeps_conn. Qed.
Lemma place_updateSupportedCaps V : keeps (place id n) (dc_updateSupportedCaps V).
Proof. unfold dc_updateSupportedCaps, setSupportedCap, unsetSupportedCap. keeps_conn. Qed.

End Caps.

(** ** Handlers on the state of the user *)

(** Capabilities change in two places only. *)
Record caps_policy {MO : MapOrder} {UN : Unicode} {EV : Env} {SE : SrvEnv} (F : policy) : Prop := {
  cp_cap : forall msg, keeps (on_caps (PC F)) (handleCap msg);
  cp_update : forall V, keeps (on_caps (PC F)) (dc_updateSupportedCaps V)
}.

(** What was done satisfies [K]: messages to clients do, and stored records
    within the policy do. *)
Record effects_ok (F : policy) (K : ceffect -> Prop) : Prop := {
  ek_wrote : forall id m, K (Wrote id m);
  ek_did : forall e, stored_ok F e -> K (Did e)
}.

Record csound (F : policy) (K : ceffect -> Prop) {St} (s : cst St) : Prop := {
  cs_ss : sound F (dc_id <$> ss_downs (c_ss s)) [] (c_ss s);
  cs_ids : NoDup (dc_id <$> ss_downs (c_ss s));
  cs_fresh : forall dc, c_fresh s = Some dc -> client_ok F (ss_heap (c_ss s)) dc /\ dc_id dc ∉ dc_id <$> ss_downs (c_ss s);
  cs_eff : Forall K (c_eff s)
}.

Section Sound.
Context {St : Type} {HSt : Store St} {HH : HistoryStore St} {BC : BareCodec Z}.
Context {MO : MapOrder} {UN : Unicode} {EV : Env} {UE : UserEnv} {SE : SrvEnv} {CE : ClientEnv}.
Context (F : policy) (HF : policy_ok F) (HC : caps_policy F) (K : ceffect -> Prop) (HK : effects_ok F K).
Notation C := (handler (cst St) derror).
Notation D := (handler dst derror).
Notation S := (csound F K (St := St)).
Implicit Type s : cst St.

(** A method of a client that keeps its ID, its network and the policy. *)
Definition conn_method {A} (m : D A) : Prop := forall id n, keeps (conn_is (PC F) id n) m.

Lemma method_handleCap msg : conn_method (handleCap msg).
Proof. intros id n. apply conn_and; [apply (cp_cap F HC)|apply place_handleCap]. Qed.
Lemma method_updateSupportedCaps V : conn_method (dc_updateSupportedCaps V).
Proof. intros id n. apply conn_and; [apply (cp_update F HC)|apply place_updateSupportedCaps]. Qed.
Hint Resolve method_handleCap method_updateSupportedCaps : conn.

Lemma method_call V store call : conn_method (dc_call (St := St) V store call).
Proof.
  intros id n. induction call; cbn [dc_call]; keeps_conn. all: try apply method_updateSupportedCaps.
  all: apply keeps_modify; intros ? H; exact H.
Qed.

(** Writing back a connection. *)
Lemma sound_put s id dc : S s -> PC F (dc_caps dc) -> dc_id dc = id ->
  (exists dc0, get_conn s id = Some dc0 /\ dc_network dc = dc_network dc0) -> S (put_conn id dc s).
Proof.
  intros [H1 Hnd H2 H3] Hc Hi (dc0 & Hg & Hn). unfold put_conn.
  assert (Hsame : find_conn id (ss_downs (c_ss s)) = Some dc0 -> S (with_ss (on_downs (fun d => if Z.eqb (dc_id d) id then dc else d)) s)).
  { intros Hf. apply head_Some_elem_of, list_elem_of_filter in Hf as [Hid Hin].
    assert (Hok : client_ok F (ss_heap (c_ss s)) dc).
    { split; [done|]. rewrite Hn. pose proof (sd_downs _ _ _ _ H1) as Hd. rewrite Forall_forall in Hd. by apply (Hd _ Hin). }
    assert (Hids : forall d, dc_id (if Z.eqb (dc_id d) id then dc else d) = dc_id d).
    { intros d. destruct (Z.eqb_spec (dc_id d) id); congruence. }
    assert (Hall : dc_id <$> ((fun d => if Z.eqb (dc_id d) id then dc else d) <$> ss_downs (c_ss s)) = dc_id <$> ss_downs (c_ss s)).
    { rewrite <- list_fmap_compose. apply list_fmap_ext. intros i d _. apply Hids. }
    split; cbn; rewrite ?Hall; try done. apply sound_on_downs; [done|exact Hids|]. intros d Hd. by destruct (_ =? _). }
  unfold get_conn in Hg. destruct (c_fresh s) as [f|] eqn:Ef; [|by apply Hsame].
  destruct (Z.eqb_spec (dc_id f) id) as [E|]; [|by apply Hsame]. simplify_eq. destruct (H2 dc0 eq_refl) as [[Hx Hy] Hz].
  split; cbn; [done|done| |done]. intros d [= <-].
  assert (Hd : dc_id dc = dc_id dc0) by congruence. rewrite Hd. split; [|done]. split; [done|]. rewrite Hn. done.
Qed.

Lemma sound_log l s : S s -> Forall K l -> S (log l s).
Proof. intros [] Hl. split; cbn; try done. by apply Forall_app. Qed.
Lemma sound_ctx c s : S s -> S (set_ctx c s).
Proof. intros []. by split. Qed.
(** The part of the user changes; the clients keep their IDs. *)
Lemma sound_ss f s : S s ->
  (forall L, sound F (dc_id <$> ss_downs (c_ss s)) L (c_ss s) -> sound F (dc_id <$> ss_downs (c_ss s)) L (f (c_ss s))) -> S (with_ss f s).
Proof.
  intros [H1 Hnd H2 H3] Hf. pose proof (Hf [] H1) as H1'. pose proof (sd_ids _ _ _ _ H1') as Hi. split; cbn; rewrite ?Hi; try done.
  intros dc Hdc. destruct (H2 dc Hdc) as [[Hx Hy] Hz]. split; [|done]. split; [done|]. intros r Hr.
  assert (Hl : sound F (dc_id <$> ss_downs (c_ss s)) [r] (c_ss s)).
  { destruct H1. split; try done. repeat constructor. by apply Hy. }
  apply Hf in Hl. pose proof (sd_live _ _ _ _ Hl) as Hl'. by apply Forall_cons in Hl' as [? _].
Qed.

Lemma keeps_run_conn {A} id (m : dview -> option St -> D A) : (forall V store, conn_method (m V store)) -> keeps S (run_conn id m).
Proof.
  intros Hm s Hs. unfold run_conn. destruct (get_conn s id) as [dc|] eqn:Hg; [|done].
  assert (Hid : dc_id dc = id).
  { unfold get_conn, find_conn in Hg. destruct (c_fresh s) as [f|]; [destruct (Z.eqb_spec (dc_id f) id); [by simplify_eq|]|];
      by apply head_Some_elem_of, list_elem_of_filter in Hg as [? _]. }
  assert (Hc : PC F (dc_caps dc)).
  { destruct Hs as [H1 Hnd H2 H3]. pose proof (sd_downs _ _ _ _ H1) as Hd. rewrite Forall_forall in Hd. unfold get_conn, find_conn in Hg.
    destruct (c_fresh s) as [f|]; [destruct (Z.eqb (dc_id f) id); [simplify_eq; by destruct (H2 dc eq_refl) as [[? _] _]|]|];
      apply head_Some_elem_of, list_elem_of_filter in Hg as [_ Hin]; by apply (Hd _ Hin). }
  specialize (Hm (view_of (c_ss s) dc) (ss_store (c_ss s)) id (dc_network dc) (DSt dc (c_ctx s !! id) []) (conj Hc (conj Hid eq_refl))).
  destruct (m _ _ _) as [d r]. cbn in *. destruct Hm as (Hm1 & Hm2 & Hm3). apply sound_log.
  - apply sound_ctx, sound_put; [done|done|done|]. by exists dc.
  - apply Forall_fmap, Forall_true. intros m'. apply (ek_wrote F K HK).
Qed.

(** A method of the user. *)
Definition user_method {A} (m : handler (session St) user_error A) : Prop := forall I L, keeps (sound F I L) m.

Lemma keeps_replay e : stored_ok F e -> keeps S (replay e).
Proof.
  intros He s Hs. unfold replay. destruct e; try (apply sound_log; [done|]; apply Forall_singleton; by apply (ek_did F K HK)).
  destruct (get_conn s id); [|done]. apply keeps_run_conn; [|done]. intros V store. apply method_call.
Qed.

Lemma keeps_run_user {A} (m : handler (session St) user_error A) : user_method m -> keeps S (run_user m).
Proof.
  intros Hm s Hs. unfold run_user. set (I := dc_id <$> ss_downs (c_ss s)).
  assert (Hcl : forall L, sound F I L (c_ss s) -> sound F I L (clear_eff (c_ss s))) by (intros L []; by split).
  destruct (m (clear_eff (c_ss s))) as [ss r] eqn:E.
  assert (Hss : forall L, sound F I L (c_ss s) -> sound F I L ss).
  { intros L HL. specialize (Hm I L (clear_eff (c_ss s)) (Hcl L HL)). by rewrite E in Hm. }
  assert (He : Forall (stored_ok F) (ss_eff ss)) by apply (sd_eff _ _ _ _ (Hss [] (cs_ss _ _ _ Hs))).
  assert (Hs' : S (with_ss (fun _ => clear_eff ss) s)).
  { apply sound_ss; [done|]. intros L HL. apply Hss in HL. destruct HL. by split. }
  revert Hs'. generalize (with_ss (fun _ => clear_eff ss) s). clear E Hss Hcl. intros s1.
  match goal with |- _ -> S (fst (?h s1)) => assert (Hk : keeps S h); [|by apply Hk] end.
  apply keeps_bind; [|intros _; repeat keeps_step].
  induction He as [|e l He _ IH]; [apply keeps_ret|]. cbn. apply keeps_bind; [by apply keeps_replay|done].
Qed.

Lemma keeps_did e : K e -> keeps (E := derror) S (did e).
Proof. intros He. apply keeps_modify. intros s Hs. apply sound_log; [done|]. by apply Forall_singleton. Qed.

(** A change of a network object. *)
Definition obj_change (f : netobj -> netobj) : Prop :=
  forall o, no_ref (f o) = no_ref o /\ (PR F (nw_rec (no_net o)) -> PR F (nw_rec (no_net (f o)))).

Lemma keeps_modify_obj ref f : obj_change f -> keeps S (modify_obj ref f).
Proof. intros Hf. apply keeps_modify. intros s Hs. apply sound_ss; [done|]. intros L HL. by apply sound_obj. Qed.

Lemma method_run_net {A} ref (m : Env -> handler (ust St) uerror A) : (forall EV, keeps_rec F (m EV)) -> user_method (run_net ref m).
Proof. intros Hm I L. by apply keeps_run_net. Qed.
Lemma keeps_run_up {A} ref (m : Env -> handler (ust St) uerror A) : (forall EV, keeps_rec F (m EV)) -> keeps S (run_up ref m).
Proof. intros Hm. by apply keeps_run_user, method_run_net. Qed.

Lemma keeps_obj_at ref : keeps S (obj_at_ref ref).
Proof. intros s Hs. unfold obj_at_ref. by destruct (ss_heap (c_ss s) !! ref). Qed.

Lemma keeps_for_each_dc (l : list downstreamConn) (f : downstreamConn -> C unit) : (forall dc, keeps S (f dc)) -> keeps S (for_each l f).
Proof. apply keeps_for_each. Qed.

End Sound.
