(* ===== verification/ServiceFlags.v ===== *)
(** * The bouncer service (service.go): words and flags

    [splitWords], the parts of package flag the service uses, the flag sets of
    networks, channels and users, and the changes they make to a record. *)

From stdpp Require Import base list gmap strings.
From Stdlib Require Import ZArith Ascii.
From S2P Require Import Prelude GoStrings GoText Casemapping Xirc Genmsg Irc Database Handler Session Client ClientHandlers ClientBouncer.

Local Open Scope Z_scope.

(** A double quote. *)
Definition dq : string := String "034" "".

(** What changes in an [eventUserUpdate]. *)
Record user_update := UserUpdate {
  uu_password : option string;
  uu_admin : option bool;
  uu_enabled : option bool;
  uu_maxNetworks : option Z;
  uu_sourceIP : option string
}.

Definition apply_user_update (e : user_update) (u : UserRec) : UserRec :=
  MkUser (u_ID u) (u_Username u) (default (u_Password u) (uu_password e)) (u_Nick u) (u_Realname u)
    (default (u_Admin u) (uu_admin e)) (default (u_Enabled u) (uu_enabled e)) (u_DownstreamInteractedAt u)
    (default (u_MaxNetworks u) (uu_maxNetworks e)) (default (u_SourceIP u) (uu_sourceIP e)) (u_CertBlob u) (u_PrivKeyBlob u).

Definition user_with_Enabled (u : UserRec) (b : bool) : UserRec :=
  apply_user_update (UserUpdate None None (Some b) None None) u.

(** ** Words *)

Definition rune_space : Z := 32.
Definition rune_backslash : Z := 92.
Definition rune_dquote : Z := 34.
Definition rune_squote : Z := 39.

Record split_state := Split_ {
  sw_words : list string;
  sw_lastWord : string;
  sw_escape : bool;
  sw_prev : Z;
  sw_delim : Z
}.

Inductive split_error := ErrUnterminatedQuote | ErrUnterminatedBackslash.

Section Words.
Context {UN : Unicode}.

(** One rune of the loop. *)
Definition split_rune (s : split_state) (r : Z) : split_state :=
  let write := sw_lastWord s +:+ EncodeRune r in
  if sw_escape s then Split_ (sw_words s) write false r (sw_delim s)
  else if r =? rune_backslash then Split_ (sw_words s) (sw_lastWord s) true r (sw_delim s)
  else if (sw_delim s =? rune_space) && IsSpace r then
    if negb (IsSpace (sw_prev s)) then Split_ (sw_words s ++ [sw_lastWord s]) "" false r (sw_delim s)
    else Split_ (sw_words s) (sw_lastWord s) false r (sw_delim s)
  else if r =? sw_delim s then Split_ (sw_words s) (sw_lastWord s) false r rune_space
  else if (r =? rune_dquote) || (r =? rune_squote) then
    if sw_delim s =? rune_space then Split_ (sw_words s) (sw_lastWord s) false r r
    else Split_ (sw_words s) write false r (sw_delim s)
  else Split_ (sw_words s) write false r (sw_delim s).

Definition split_init : split_state := Split_ [] "" false rune_space rune_space.

Definition split_end (s : split_state) : res split_error (list string) :=
  let words := if negb (IsSpace (sw_prev s)) then sw_words s ++ [sw_lastWord s] else sw_words s in
  if negb (sw_delim s =? rune_space) then Err ErrUnterminatedQuote
  else if sw_escape s then Err ErrUnterminatedBackslash
  else Ok words.

Definition splitWords (s : string) : res split_error (list string) := split_end (foldl split_rune split_init (runes s)).

End Words.

Definition split_error_text (e : split_error) : string :=
  match e with
  | ErrUnterminatedQuote => "unterminated quoted string"
  | ErrUnterminatedBackslash => "unterminated backslash sequence"
  end.

(** ** Package flag *)

(** The types of flags: those of the package, and [stringPtrFlag],
    [boolPtrFlag], [intPtrFlag] and [stringSliceFlag], which take any string, a
    boolean, a decimal number and any number of strings. Only a [FBool] needs
    no value. *)
Inductive flag_kind := FString | FBool | FInt | FStringPtr | FBoolPtr | FIntPtr | FSlice.

(** [flag.ErrHelp] and the others with their texts. *)
Inductive flag_error := ErrHelp | ErrFlag (text : string).

Definition ParseBool (s : string) : option bool :=
  if bool_decide (s ∈ ["1"; "t"; "T"; "true"; "TRUE"; "True"]) then Some true
  else if bool_decide (s ∈ ["0"; "f"; "F"; "false"; "FALSE"; "False"]) then Some false else None.

Definition flag_set : Type := list (string * flag_kind).
(** The values that were set, in order. *)
Definition flag_values : Type := list (string * string).

Definition flag_lookup (fs : flag_set) (name : string) : option flag_kind :=
  snd <$> head (filter (fun f => fst f = name) fs).

(** The number of a flag of type int and the texts of number errors are those
    of package strconv. *)
Class FlagEnv := {
  strconv_ParseInt : string -> string + Z;
  strconv_Atoi_error : string -> string
}.

Section Flags.
Context {UN : Unicode} {CE : ClientEnv} {FE : FlagEnv}.

(** [Value.Set]: the text of an error. *)
Definition flag_check (k : flag_kind) (value : string) : option string :=
  match k with
  | FString | FStringPtr | FSlice => None
  | FBool => match ParseBool value with Some _ => None | None => Some "parse error" end
  | FBoolPtr => match ParseBool value with
                | Some _ => None
                | None => Some ("strconv.ParseBool: parsing " +:+ fmt_q value +:+ ": invalid syntax")
                end
  | FInt => match strconv_ParseInt value with inl e => Some e | inr _ => None end
  | FIntPtr => match Atoi value with Some _ => None | None => Some (strconv_Atoi_error value) end
  end.

(** The name of a flag and its value after [=]. *)
Definition flag_cut (s : string) : string * option string :=
  match s with
  | EmptyString => ("", None)
  | String c s' => match Split2 s' "=" with (n, v) => (String c n, v) end
  end.

(** An argument: [None] ends the flags and is kept, [Some None] is [--]. *)
Definition flag_name (s : string) : option (option string) :=
  match s with
  | String "-" (String "-" EmptyString) => Some None
  | String "-" (String "-" name) => Some (Some name)
  | String "-" (String c name) => Some (Some (String c name))
  | _ => None
  end.

Definition bad_syntax (name : string) : bool :=
  match name with
  | EmptyString => true
  | String c _ => bool_decide (c = "-"%char) || bool_decide (c = "="%char)
  end.

Definition flag_undefined (name : string) : flag_error :=
  if bool_decide (name ∈ ["help"; "h"]) then ErrHelp else ErrFlag ("flag provided but not defined: -" +:+ name).
Definition invalid_bool (name value err : string) : flag_error :=
  ErrFlag ("invalid boolean value " +:+ fmt_q value +:+ " for -" +:+ name +:+ ": " +:+ err).
Definition invalid_value (name value err : string) : flag_error :=
  ErrFlag ("invalid value " +:+ fmt_q value +:+ " for flag -" +:+ name +:+ ": " +:+ err).

(** [fs.Parse(args)]: the values that were set and the other arguments. *)
Fixpoint flag_Parse (fs : flag_set) (args : list string) (vals : flag_values) : res flag_error (flag_values * list string) :=
  match args with
  | [] => Ok (vals, [])
  | s :: args' =>
      match flag_name s with
      | None => Ok (vals, args)
      | Some None => Ok (vals, args')
      | Some (Some raw) =>
          if bad_syntax raw then Err (ErrFlag ("bad flag syntax: " +:+ s))
          else
            let '(name, ovalue) := flag_cut raw in
            match flag_lookup fs name with
            | None => Err (flag_undefined name)
            | Some FBool =>
                let value := default "true" ovalue in
                match flag_check FBool value with
                | Some e => Err (invalid_bool name value e)
                | None => flag_Parse fs args' (vals ++ [(name, value)])
                end
            | Some k =>
                match ovalue with
                | Some value =>
                    match flag_check k value with
                    | Some e => Err (invalid_value name value e)
                    | None => flag_Parse fs args' (vals ++ [(name, value)])
                    end
                | None =>
                    match args' with
                    | [] => Err (ErrFlag ("flag needs an argument: -" +:+ name))
                    | value :: args'' =>
                        match flag_check k value with
                        | Some e => Err (invalid_value name value e)
                        | None => flag_Parse fs args'' (vals ++ [(name, value)])
                        end
                    end
                end
            end
      end
  end.

(** The values of a flag, and the last one. *)
Definition flag_all (vals : flag_values) (name : string) : list string := snd <$> filter (fun v => fst v = name) vals.
Definition flag_str (vals : flag_values) (name : string) : option string := last (flag_all vals name).
Definition flag_bool (vals : flag_values) (name : string) : option bool := flag_str vals name ≫= ParseBool.
Definition flag_int (vals : flag_values) (name : string) : option Z := flag_str vals name ≫= Atoi.
Definition flag_Int (vals : flag_values) (name : string) (dflt : Z) : Z :=
  match flag_str vals name with
  | Some v => match strconv_ParseInt v with inr z => z | inl _ => dflt end
  | None => dflt
  end.

(** ** Networks *)

Definition networkFlagSet : flag_set :=
  [("addr", FStringPtr); ("name", FStringPtr); ("nick", FStringPtr); ("username", FStringPtr); ("pass", FStringPtr);
   ("realname", FStringPtr); ("certfp", FStringPtr); ("auto-away", FBoolPtr); ("enabled", FBoolPtr); ("ignore-limit", FBool);
   ("connect-command", FSlice); ("source-ip", FStringPtr); ("tls-insecure", FBoolPtr); ("default-cert", FBoolPtr)].

(** [strings.ReplaceAll(s, c, EmptyString)] for one byte. *)
Definition remove_byte (c : ascii) (s : string) : string := of_chars (filter (fun x => x <> c) (schars s)).

Definition certfp_of (fp : string) : res string string :=
  let certFP := ToLower (remove_byte ":" fp) in
  match hex_DecodeString certFP with
  | None => Err "the certificate fingerprint must be hex-encoded"
  | Some _ =>
      if (slen certFP =? 0)%nat then Ok ""
      else if (slen certFP =? 64)%nat then Ok ("sha-256:" +:+ certFP)
      else if (slen certFP =? 128)%nat then Ok ("sha-512:" +:+ certFP)
      else Err "the certificate fingerprint must be a SHA256 or SHA512 hash"
  end.

(** [irc.ParseMessage] of irc.v4: the message or the text of the error. *)
Context (irc_ParseMessage : string -> string + message).

Definition check_addr (addr : string) : option string :=
  match Split2 addr "://" with
  | (scheme, Some _) =>
      if bool_decide (scheme ∈ ["ircs"; "irc+insecure"; "irc+unix"]) then None
      else Some ("unknown scheme " +:+ fmt_q scheme +:+ " (supported schemes: ircs, irc+insecure, irc+unix)")
  | (_, None) => None
  end.

Fixpoint check_commands (l : list string) : option string :=
  match l with
  | [] => None
  | command :: l' =>
      match irc_ParseMessage command with
      | inl e => Some ("flag -connect-command must be a valid raw irc command string: " +:+ fmt_q command +:+ ": " +:+ e)
      | inr _ => check_commands l'
      end
  end.

Definition connect_commands (old cmds : list string) : res string (list string) :=
  if bool_decide (cmds = []) then Ok old
  else if bool_decide (cmds = [""]) then Ok []
  else if (20 <? length cmds)%nat then Err "too many -connect-command flags supplied"
  else match check_commands cmds with Some e => Err e | None => Ok cmds end.

(** [fs.update(network, isAdmin)] of a network. *)
Definition network_update (vals : flag_values) (n : NetworkRec) (isAdmin : bool) : res string NetworkRec :=
  let str name old := default old (flag_str vals name) in
  let bool name old := default old (flag_bool vals name) in
  let? addr := match flag_str vals "addr" with
               | None => Ok (n_Addr n)
               | Some a => match check_addr a with Some e => Err e | None => Ok a end
               end in
  let? name := match flag_str vals "name" with
               | None => Ok (n_Name n)
               | Some v => if bool_decide (v = "*") then Err ("the network name " +:+ fmt_q v +:+ " is reserved") else Ok v
               end in
  let? certFP := match flag_str vals "certfp" with None => Ok (n_CertFP n) | Some fp => certfp_of fp end in
  let? commands := connect_commands (n_ConnectCommands n) (flag_all vals "connect-command") in
  let? sourceIP := match flag_str vals "source-ip" with
                   | None => Ok (n_SourceIP n)
                   | Some ip => if isAdmin then Ok ip else Err "you must be an admin to set -source-ip"
                   end in
  Ok (MkNetwork (n_ID n) name addr (str "nick" (n_Nick n)) (str "username" (n_Username n)) (str "realname" (n_Realname n))
        (str "pass" (n_Pass n)) commands certFP (n_SASL n) (bool "auto-away" (n_AutoAway n)) (bool "enabled" (n_Enabled n)) sourceIP
        (bool "tls-insecure" (n_TLSInsecure n))
        (match flag_bool vals "default-cert" with Some b => negb b | None => n_NoDefaultCert n end)).

(** ** Channels *)

Definition channelFlagSet : flag_set :=
  [("key", FStringPtr); ("detached", FBoolPtr); ("relay-detached", FStringPtr); ("reattach-on", FStringPtr);
   ("detach-after", FStringPtr); ("detach-on", FStringPtr)].

Definition parseFilter (filter : string) : res string MessageFilter :=
  if bool_decide (filter = "default") then Ok FilterDefault
  else if bool_decide (filter = "none") then Ok FilterNone
  else if bool_decide (filter = "highlight") then Ok FilterHighlight
  else if bool_decide (filter = "message") then Ok FilterMessage
  else Err ("unknown filter: " +:+ fmt_q filter).

(** [time.ParseDuration] *)
Context (time_ParseDuration : string -> option Z).

Definition filter_flag (vals : flag_values) (name : string) (old : MessageFilter) : res string MessageFilter :=
  match flag_str vals name with None => Ok old | Some f => parseFilter f end.

(** [fs.update(channel)]: the record as far as it was changed, and the error. *)
Definition channel_update (vals : flag_values) (c : ChannelRec) : ChannelRec * option string :=
  let set key relay reattach after on :=
    MkChannel (ch_ID c) (ch_Name c) key (ch_Detached c) (ch_DetachedInternalMsgID c) relay reattach after on in
  let key := default (ch_Key c) (flag_str vals "key") in
  match filter_flag vals "relay-detached" (ch_RelayDetached c) with
  | Ok relay =>
      match filter_flag vals "reattach-on" (ch_ReattachOn c) with
      | Ok reattach =>
          match (match flag_str vals "detach-after" with
                 | None => Some (ch_DetachAfter c)
                 | Some d => match time_ParseDuration d with Some t => if t <? 0 then None else Some t | None => None end
                 end) with
          | Some after =>
              match filter_flag vals "detach-on" (ch_DetachOn c) with
              | Ok on => (set key relay reattach after on, None)
              | Err e => (set key relay reattach after (ch_DetachOn c), Some e)
              | Panic => (c, None)
              end
          | None =>
              (set key relay reattach (ch_DetachAfter c) (ch_DetachOn c),
               Some ("unknown duration for -detach-after " +:+ fmt_q (default "" (flag_str vals "detach-after"))
                     +:+ " (duration format: 0, 300s, 22h30m, ...)"))
          end
      | Err e => (set key relay (ch_ReattachOn c) (ch_DetachAfter c) (ch_DetachOn c), Some e)
      | Panic => (c, None)
      end
  | Err e => (set key (ch_RelayDetached c) (ch_ReattachOn c) (ch_DetachAfter c) (ch_DetachOn c), Some e)
  | Panic => (c, None)
  end.

(** ** Users *)

Definition userCreateFlagSet : flag_set :=
  [("username", FString); ("password", FString); ("disable-password", FBool); ("nick", FString); ("realname", FString);
   ("admin", FBool); ("enabled", FBool); ("max-networks", FInt); ("source-ip", FString)].

Definition userUpdateFlagSet : flag_set :=
  [("password", FStringPtr); ("disable-password", FBool); ("nick", FStringPtr); ("realname", FStringPtr);
   ("admin", FBoolPtr); ("enabled", FBoolPtr); ("max-networks", FIntPtr); ("source-ip", FStringPtr)].

Definition popArg (params : list string) : string * list string :=
  match params with
  | p :: rest => if HasPrefix p "-" then ("", params) else (p, rest)
  | [] => ("", params)
  end.

End Flags.
