(* ===== verification/Service.v ===== *)
(** * The bouncer service (service.go, certfp.go)

    The commands a user sends to BouncerServ: the tree of commands, its lookup
    and help, and the handler of each command on the state of the user. *)

From stdpp Require Import base list gmap strings sorting.
From Stdlib Require Import ZArith Ascii.
From S2P Require Import Prelude GoStrings GoText Casemapping Xirc Whox Genmsg Sasl Irc Rate MsgStore Database.
From S2P Require Import Handler Session Network Pending Upstream UpstreamHandlers User Downstream Client ClientHandlers.
From S2P Require Import ClientMessages ClientHistory ClientBouncer ServiceFlags.

Local Open Scope Z_scope.

Definition maxRSABits : Z := 8192.
Definition maxCertKeyFetchSize : nat := 1024 * 1024.

(** ** Commands *)

Inductive service_handler :=
| SvHelp
| SvNetworkCreate | SvNetworkStatus | SvNetworkUpdate | SvNetworkDelete | SvNetworkQuote
| SvCertFPGenerate | SvCertFPFingerprints | SvCertFPImport | SvCertFPRemove
| SvSASLStatus | SvSASLSetPlain | SvSASLSetExternal | SvSASLReset
| SvUserStatus | SvUserCreate | SvUserUpdate | SvUserDelete | SvUserRun
| SvChannelStatus | SvChannelCreate | SvChannelUpdate | SvChannelDelete
| SvIgnoreList | SvIgnoreAdd | SvIgnoreDelete
| SvDeviceCertificateStatus | SvDeviceCertificateCreate | SvDeviceCertificateDelete
| SvServerStatus | SvServerNotice | SvServerDebug.

Inductive serviceCommand :=
| SCommand (usage desc : string) (handle : option service_handler) (children : list (string * serviceCommand)) (admin global : bool).

(** A map from names to commands. *)
Definition serviceCommandSet : Type := list (string * serviceCommand).

Definition sv_usage (c : serviceCommand) : string := match c with SCommand u _ _ _ _ _ => u end.
Definition sv_desc (c : serviceCommand) : string := match c with SCommand _ d _ _ _ _ => d end.
Definition sv_handle (c : serviceCommand) : option service_handler := match c with SCommand _ _ h _ _ _ => h end.
Definition sv_children (c : serviceCommand) : serviceCommandSet := match c with SCommand _ _ _ l _ _ => l end.
Definition sv_admin (c : serviceCommand) : bool := match c with SCommand _ _ _ _ a _ => a end.
Definition sv_global (c : serviceCommand) : bool := match c with SCommand _ _ _ _ _ g => g end.

(** A command of a user, a group of commands, a command for admins. *)
Definition leaf (usage desc : string) (h : service_handler) : serviceCommand := SCommand usage desc (Some h) [] false false.
Definition group (l : serviceCommandSet) : serviceCommand := SCommand "" "" None l false false.
Definition admin_leaf (usage desc : string) (h : service_handler) : serviceCommand := SCommand usage desc (Some h) [] true true.
Definition global_leaf (usage desc : string) (h : service_handler) : serviceCommand := SCommand usage desc (Some h) [] false true.

Definition network_usage : string :=
  " [-name name] [-username username] [-pass pass] [-realname realname] [-certfp fingerprint] [-nick nick] [-auto-away auto-away] [-enabled enabled] [-ignore-limit ignore-limit] [-source-ip ip] [-tls-insecure true|false] [-default-cert true|false] [-connect-command command]...".
Definition channel_usage : string :=
  "<name> [-key key] [-detached true|false] [-relay-detached default|none|highlight|message] [-reattach-on default|none|highlight|message] [-detach-after <duration>] [-detach-on default|none|highlight|message]".
Definition user_usage : string :=
  " [-disable-password] [-admin true|false] [-nick <nick>] [-realname <realname>] [-enabled true|false] [-max-networks <max-networks>] [-source-ip <ip>]".

Definition serviceCommands : serviceCommandSet :=
  [("help", global_leaf "[command]" "print help message" SvHelp);
   ("network", group
     [("create", leaf ("-addr <addr>" +:+ network_usage) "add a new network" SvNetworkCreate);
      ("status", leaf "" "show a list of saved networks and their current status" SvNetworkStatus);
      ("update", leaf ("[name] [-addr addr]" +:+ network_usage) "update a network" SvNetworkUpdate);
      ("delete", leaf "[name]" "delete a network" SvNetworkDelete);
      ("quote", leaf "[name] <command>" "send a raw line to a network" SvNetworkQuote)]);
   ("certfp", group
     [("generate", leaf "[-key-type rsa|ecdsa|ed25519] [-bits N] [-network name | -default]"
         "generate a new self-signed certificate, defaults to using RSA-3072 key" SvCertFPGenerate);
      ("fingerprint", leaf "[-network name | -default]" "show fingerprints of certificate" SvCertFPFingerprints);
      ("import", leaf "[-network name | -default] <https-url-or-path>"
         "import an existing certificate and private key (PEM, concatenated) from an https:// URL, or from a local file (admins only)"
         SvCertFPImport);
      ("remove", leaf "[-network name | -default]"
         "remove a network's certificate (falling back to your default one), or your default certificate" SvCertFPRemove)]);
   ("sasl", group
     [("status", leaf "[-network name]" "show SASL status" SvSASLStatus);
      ("set-plain", leaf "[-network name] <username> <password>" "set SASL PLAIN credentials" SvSASLSetPlain);
      ("set-external", leaf "[-network name]"
         "enable SASL EXTERNAL authentication, using either the network's own certificate or your user's default certificate"
         SvSASLSetExternal);
      ("reset", leaf "[-network name]"
         ("disable SASL authentication and remove stored PLAIN credentials (the client certificate stays, see " +:+ dq
          +:+ "certfp remove" +:+ dq +:+ ")") SvSASLReset)]);
   ("user", SCommand "" "" None
     [("status", admin_leaf "[username]" "show a list of users and their current status" SvUserStatus);
      ("create", admin_leaf ("-username <username> -password <password>" +:+ user_usage) "create a new sake user" SvUserCreate);
      ("update", global_leaf ("[username] [-password <password>]" +:+ user_usage) "update a user" SvUserUpdate);
      ("delete", global_leaf "<username> [confirmation token]" "delete a user" SvUserDelete);
      ("run", admin_leaf "<username> <command>" "run a command as another user" SvUserRun)] false true);
   ("channel", group
     [("status", leaf "[-network name]" "show a list of saved channels and their current status" SvChannelStatus);
      ("create", leaf channel_usage "create a channel" SvChannelCreate);
      ("update", leaf channel_usage "update a channel" SvChannelUpdate);
      ("delete", leaf "<name>" "delete a channel" SvChannelDelete)]);
   ("ignore", group
     [("list", leaf "[-network name]" "show ignored hostmasks for a network" SvIgnoreList);
      ("add", leaf "[-network name] <mask>"
         "(sake) ignore messages from a hostmask (nick!user@host, glob wildcards * and ? allowed, or a bare nick) - still logged, just not relayed live to any client"
         SvIgnoreAdd);
      ("delete", leaf "[-network name] <mask>" "(sake) remove a previously ignored hostmask" SvIgnoreDelete)]);
   ("device-certificate", group
     [("status", leaf "" "show a list of device certificates" SvDeviceCertificateStatus);
      ("create", leaf "-fingerprint <fingerprint> -label <label>" "create a new device certificate" SvDeviceCertificateCreate);
      ("delete", leaf "<fingerprint>" "delete a device certificate" SvDeviceCertificateDelete)]);
   ("server", SCommand "" "" None
     [("status", admin_leaf "" "show server statistics" SvServerStatus);
      ("notice", admin_leaf "<notice>" "broadcast a notice to all connected bouncer users" SvServerNotice);
      ("debug", admin_leaf "true|false" "enable/disable debug logging to stderr (will leak sensitive information)" SvServerDebug)]
     true false)].

(** ** Lookup and help *)

(** The command with a name, or the only one whose name starts with it. *)
Definition find_command {CE : ClientEnv} (cmds : serviceCommandSet) (name : string) : string + serviceCommand :=
  match head (filter (fun c => fst c = name) cmds) with
  | Some (_, c) => inr c
  | None =>
      match filter (fun c => HasPrefix (fst c) name = true) cmds with
      | [] => inl ("command " +:+ fmt_q name +:+ " not found")
      | [(_, c)] => inr c
      | _ => inl ("command " +:+ fmt_q name +:+ " is ambiguous")
      end
  end.

(** [cmds.Get(params)]: the command and its parameters. *)
Fixpoint command_Get {CE : ClientEnv} (cmds : serviceCommandSet) (params : list string) : string + serviceCommand * list string :=
  match params with
  | [] => inl "no command specified"
  | name :: params' =>
      match find_command cmds name with
      | inl e => inl e
      | inr cmd =>
          if bool_decide (params' = []) || bool_decide (length (sv_children cmd) = 0%nat) then inr (cmd, params')
          else command_Get (sv_children cmd) params'
      end
  end.

Definition name_le (a b : string * list string) : Prop := String.le (fst a) (fst b).
#[export] Instance name_le_dec a b : Decision (name_le a b).
Proof. unfold name_le. apply _. Defined.

(** The lines of a set of commands in the order of [Names]. *)
Definition sorted_lines (l : list (string * list string)) : list string := concat (snd <$> merge_sort name_le l).

(** What is listed for a command. *)
Fixpoint command_help (admin global : bool) (prefix : list string) (name : string) (c : serviceCommand) : list string :=
  match c with
  | SCommand _ _ _ children cadmin cglobal =>
      if cadmin && negb admin then []
      else if negb cglobal && global then []
      else
        let words := prefix ++ [name] in
        match children with
        | [] => [Join words " "]
        | _ => sorted_lines ((fun nc => (fst nc, command_help admin global words (fst nc) (snd nc))) <$> children)
        end
  end.

Definition appendServiceCommandSetHelp (cmds : serviceCommandSet) (prefix : list string) (admin global : bool) : list string :=
  sorted_lines ((fun nc => (fst nc, command_help admin global prefix (fst nc) (snd nc))) <$> cmds).

(** ** Context *)

(** [sc_user]: whether [ctx.user] is set; it is then the user of the state. *)
Record serviceContext := SCtx {
  sc_nick : string;
  sc_network : option nat;
  sc_user : bool;
  sc_dc : option Z;
  sc_admin : bool
}.

(** Errors: a text for the client, [flag.ErrHelp], and an error of a method of
    a client. *)
Inductive serr := SText (text : string) | SHelp | SClient (e : derror).

(** The other users ([srv_users] in the order of an iteration), the database,
    certificates and packages of the standard library; an error is [inl] or
    [Some] with its text. *)
Class ServiceEnv := {
  srv_users : list UserRec;
  srv_Stats : Z * Z * Z;
  srv_createUser : UserRec -> option string;
  user_update_result : string -> user_update -> option string;
  user_run_result : string -> list string -> list string * option string;
  user_stop_result : string -> option string;
  db_DeleteUser : Z -> option string;
  db_ListNetworks : Z -> string + list NetworkRec;
  db_Stats : string + (Z * Z * Z);
  db_StoreIgnore : Z -> string -> string + Z;
  db_DeleteIgnore : Z -> option string;
  (** [inl None]: the certificate exists already *)
  db_NewDeviceCertificate : Z -> DeviceCertificate -> option string + unit;
  db_ListDeviceCertificates_error : string;
  db_DeleteDeviceCertificate_error : string;
  bcrypt_hash : string -> string + string;
  sha1_Sum : list ascii -> list ascii;
  sha256_Sum256 : list ascii -> list ascii;
  key_generate : string -> Z -> string + list ascii;
  cert_create : list ascii -> string + list ascii;
  x509_KeyPair : list ascii -> string + list (list ascii) * (string + list ascii);
  http_Get : string -> string + list ascii;
  os_ReadFile : string -> string + list ascii;
  net_ParseIP : string -> bool;
  time_ParseDuration : string -> option Z;
  time_DateTime : Z -> string;
  irc_ParseMessage : string -> string + message;
  unknown_key_error : string
}.

Section Service.
Context {St : Type} {HSt : Store St} {HH : HistoryStore St} {BC : BareCodec Z}.
Context {MO : MapOrder} {UN : Unicode} {EV : Env} {UE : UserEnv} {SE : SrvEnv} {CE : ClientEnv} {FE : FlagEnv} {VE : ServiceEnv}.
Notation C := (handler (cst St) derror).
Notation SV := (handler (cst St) serr).
Implicit Type ctx : serviceContext.

(** A method of the client or the user. *)
Definition lift_c {A} (m : C A) : SV A := fun s =>
  match m s with
  | (s', Ok a) => (s', Ok a)
  | (s', Err e) => (s', Err (SClient e))
  | (s', Panic) => (s', Panic)
  end.

Definition err {A} (text : string) : SV A := raise (SText text).
(** [if err != nil { return err }] *)
Definition no_error (e : option string) : SV unit := match e with Some t => err t | None => mret tt end.
Definition value_or_error {A} (r : string + A) : SV A := match r with inl t => err t | inr a => mret a end.

(** [ctx.print(text)] *)
Definition print ctx (text : string) : SV unit :=
  lift_c (match sc_dc ctx with
          | Some id => run_conn id (fun _ _ => dc_sendServicePRIVMSG text)
          | None => did (Printed text)
          end).
Definition print_all ctx (l : list string) : SV unit := for_each l (print ctx).

Definition svc_user : SV UserRec := lift_c the_user.
Definition svc_obj (ref : nat) : SV netobj := lift_c (obj_at_ref ref).
Definition svc_did (e : ceffect) : SV unit := lift_c (did e).

(** [fs.Parse(params)] *)
Definition parse_flags (fs : flag_set) (params : list string) : SV (flag_values * list string) :=
  match flag_Parse fs params [] with
  | Ok r => mret r
  | Err ErrHelp => raise SHelp
  | Err (ErrFlag t) => err t
  | Panic => panic
  end.

(** Flags without other arguments. *)
Definition only_flags (fs : flag_set) (params : list string) : SV flag_values :=
  r ← parse_flags fs params;
  match snd r with
  | [] => mret (fst r)
  | a :: _ => err ("unexpected argument: " +:+ a)
  end.

(** [ctx.user.getNetwork(name)] or the network of the client. *)
Definition select_network ctx (name missing : string) : SV netobj :=
  if bool_decide (name = "") then
    match sc_network ctx with
    | None => err missing
    | Some r => svc_obj r
    end
  else
    onet ← gets (fun s => getNetwork (c_ss s) name);
    match onet with
    | None => err ("unknown network " +:+ fmt_q name)
    | Some o => mret o
    end.

Definition getNetworkFromArg ctx (params : list string) : SV (netobj * list string) :=
  let '(name, params) := popArg params in
  o ← select_network ctx name "no network selected, a name argument is required";
  mret (o, params).

Definition getNetworkFromFlag ctx (name : string) : SV netobj :=
  select_network ctx name "no network selected, -network is required".

(** ** help *)

Definition available (l : list string) : string := "available commands: " +:+ Join l ", ".

Definition handleServiceHelp ctx (params : list string) : SV unit :=
  match params with
  | [] => print ctx (available (appendServiceCommandSetHelp serviceCommands [] (sc_admin ctx) (negb (sc_user ctx))))
  | _ =>
      r ← value_or_error (command_Get serviceCommands params);
      let '(cmd, rest) := r in
      let words := take (length params - length rest) params in
      match sv_children cmd with
      | [] =>
          print ctx (Join words " " +:+ (if nonempty (sv_usage cmd) then " " +:+ sv_usage cmd else "") +:+ ": " +:+ sv_desc cmd)
      | l => print ctx (available (appendServiceCommandSetHelp l words (sc_admin ctx) (negb (sc_user ctx))))
      end
  end.

(** ** network *)

Definition network_record (vals : flag_values) (n : NetworkRec) (admin : bool) : SV NetworkRec :=
  match network_update irc_ParseMessage vals n admin with
  | Ok r => mret r
  | Err t => err t
  | Panic => panic
  end.

Definition ignore_limit ctx (vals : flag_values) : SV bool :=
  let b := default false (flag_bool vals "ignore-limit") in
  if b && negb (sc_admin ctx) then err "you must be an admin to use the flag -ignore-limit" else mret b.

Definition handleServiceNetworkCreate ctx (params : list string) : SV unit :=
  vals ← only_flags networkFlagSet params;
  match flag_str vals "addr" with
  | None => err "flag -addr is required"
  | Some addr =>
      unlimited ← ignore_limit ctx vals;
      record ← network_record vals (NewNetwork addr) (sc_admin ctx);
      r ← lift_c (run_user (createNetwork record (negb unlimited)));
      match r with
      | inl e => err ("could not create network: " +:+ user_error_text e)
      | inr ref => o ← svc_obj ref; print ctx ("created network " +:+ fmt_q (GetName (nw_rec (no_net o))))
      end
  end.

Definition network_status ctx (o : netobj) : string :=
  let net := no_net o in
  let r := nw_rec net in
  let '(status, details) :=
    match no_conn o with
    | Some uc =>
        (if nonempty (sc_nick ctx) && negb (bool_decide (sc_nick ctx = uc_nick uc)) then "connected as " +:+ uc_nick uc else "connected",
         fmt_int (Z.of_nat (Len (uc_channels uc))) +:+ " channels")
    | None => if n_Enabled r then ("disconnected", default "" (nw_lastError net)) else ("disabled", "")
    end in
  let statuses := status :: (if bool_decide (sc_network ctx = Some (no_ref o)) then ["current"] else []) in
  let name := if bool_decide (GetName r = n_Addr r) then GetName r else GetName r +:+ " (" +:+ n_Addr r +:+ ")" in
  name +:+ " [" +:+ Join statuses ", " +:+ "]" +:+ (if nonempty details then ": " +:+ details else "").

Definition handleServiceNetworkStatus ctx (params : list string) : SV unit :=
  match params with
  | _ :: _ => err "expected no argument"
  | [] =>
      l ← gets (fun s => objs (c_ss s));
      for_each l (fun o => print ctx (network_status ctx o));;
      when (bool_decide (length l = 0%nat))
        (print ctx ("No network configured, add one with " +:+ dq +:+ "network create" +:+ dq +:+ "."))
  end.

Definition handleServiceNetworkUpdate ctx (params : list string) : SV unit :=
  op ← getNetworkFromArg ctx params;
  let '(o, params) := op in
  vals ← only_flags networkFlagSet params;
  unlimited ← ignore_limit ctx vals;
  let old := nw_rec (no_net o) in
  record ← network_record vals old (sc_admin ctx);
  r ← lift_c (run_user (updateNetwork record (negb unlimited && negb (n_Enabled old))));
  match r with
  | inl e => err ("could not update network: " +:+ user_error_text e)
  | inr ref => o' ← svc_obj ref; print ctx ("updated network " +:+ fmt_q (GetName (nw_rec (no_net o'))))
  end.

Definition handleServiceNetworkDelete ctx (params : list string) : SV unit :=
  if negb (length params =? 1)%nat then err "expected exactly one argument"
  else
    op ← getNetworkFromArg ctx params;
    let o := fst op in
    r ← lift_c (run_user (deleteNetwork (n_ID (nw_rec (no_net o)))));
    match r with
    | inl e => err (user_error_text e)
    | inr _ => print ctx ("deleted network " +:+ fmt_q (GetName (nw_rec (no_net o))))
    end.

(** [uc.SendMessage] *)
Definition send_up (ref : nat) (msg : message) : SV unit := _ ← lift_c (run_up ref (fun _ => uc_SendMessage msg)); mret tt.

Definition handleServiceNetworkQuote ctx (params : list string) : SV unit :=
  match last params with
  | None => err "expected one or two arguments"
  | Some raw =>
      if (2 <? length params)%nat then err "expected one or two arguments"
      else
        op ← getNetworkFromArg ctx (take (length params - 1) params);
        let o := fst op in
        let name := fmt_q (GetName (nw_rec (no_net o))) in
        match no_conn o with
        | None => err ("network " +:+ name +:+ " is not currently connected")
        | Some _ =>
            match irc_ParseMessage raw with
            | inl e => err ("failed to parse command " +:+ fmt_q raw +:+ ": " +:+ e)
            | inr m => send_up (no_ref o) m;; print ctx ("sent command to " +:+ name)
            end
        end
  end.

(** ** certfp *)

Definition sendCertfpFingerprints ctx (cert : list ascii) : SV unit :=
  print ctx ("SHA-1 fingerprint: " +:+ hex_EncodeToString (sha1_Sum cert));;
  print ctx ("SHA-256 fingerprint: " +:+ hex_EncodeToString (sha256_Sum256 cert));;
  print ctx ("SHA-512 fingerprint: " +:+ hex_EncodeToString (sha512_Sum512 cert)).

(** [db.StoreNetwork(&net.Network)] of the record of the network. *)
Definition store_net (ref : nat) : SV unit :=
  o ← svc_obj ref;
  ok ← lift_c (store_network_rec (nw_rec (no_net o)));
  if ok : bool then mret tt else err db_error.

Definition modify_sasl (ref : nat) (f : SASLRec -> SASLRec) : SV unit :=
  lift_c (modify_obj ref (with_net (fun net => set_nw_rec (with_SASL (nw_rec net) (f (n_SASL (nw_rec net)))) net))).

Definition with_mechanism (m : string) (x : SASLRec) : SASLRec :=
  MkSASL m (s_PlainUsername x) (s_PlainPassword x) (s_CertBlob x) (s_PrivKeyBlob x).
Definition with_cert (cert key : list ascii) (x : SASLRec) : SASLRec :=
  MkSASL (s_Mechanism x) (s_PlainUsername x) (s_PlainPassword x) cert key.
Definition with_plain (username password : string) (x : SASLRec) : SASLRec :=
  MkSASL (s_Mechanism x) username password (s_CertBlob x) (s_PrivKeyBlob x).

Definition user_with_cert (u : UserRec) (cert key : list ascii) : UserRec :=
  MkUser (u_ID u) (u_Username u) (u_Password u) (u_Nick u) (u_Realname u) (u_Admin u) (u_Enabled u) (u_DownstreamInteractedAt u)
    (u_MaxNetworks u) (u_SourceIP u) cert key.

(** [ctx.user.updateUser(ctx, update)] *)
Definition update_own_user (update : UserRec -> res string UserRec) : SV unit :=
  u ← svc_user;
  r ← lift_c (run_user (updateUser (fun u => match update u with Ok u' => Ok u' | Err t => Err (ErrUpdate t) | Panic => Panic end)));
  match r with
  | inl ErrStoreUser => err ("failed to update user " +:+ fmt_q (u_Username u) +:+ ": " +:+ db_error)
  | inl e => err (user_error_text e)
  | inr _ => mret tt
  end.

Definition exclusive_default : string := "flags -network and -default are mutually exclusive".

Definition storeCertKey ctx (netName : string) (isDefault : bool) (certDER privKeyDER : list ascii) : SV unit :=
  if isDefault then
    if nonempty netName then err exclusive_default
    else update_own_user (fun u => Ok (user_with_cert u certDER privKeyDER))
  else
    o ← getNetworkFromFlag ctx netName;
    modify_sasl (no_ref o) (with_cert certDER privKeyDER);;
    modify_sasl (no_ref o) (fun x => if bool_decide (s_Mechanism x = "") then with_mechanism "EXTERNAL" x else x);;
    store_net (no_ref o).

(** The private key and the certificate. *)
Definition generateCertFP (keyType : string) (bits : Z) : string + list ascii * list ascii :=
  if negb (bool_decide (keyType ∈ ["rsa"; "ecdsa"; "ed25519"])) then inl unknown_key_error
  else match key_generate keyType bits with
       | inl e => inl e
       | inr key => match cert_create key with inl e => inl e | inr cert => inr (key, cert) end
       end.

Definition netFlag : flag_set := [("network", FString)].
Definition certFlags : flag_set := [("network", FString); ("default", FBool)].
Definition flag_network (vals : flag_values) : string := default "" (flag_str vals "network").
Definition flag_default (vals : flag_values) : bool := default false (flag_bool vals "default").

Definition handleServiceCertFPGenerate ctx (params : list string) : SV unit :=
  vals ← only_flags (certFlags ++ [("key-type", FString); ("bits", FInt)]) params;
  let bits := flag_Int vals "bits" 3072 in
  if (bits <=? 0) || (maxRSABits <? bits) then err "invalid value for -bits"
  else
    kc ← value_or_error (generateCertFP (default "rsa" (flag_str vals "key-type")) bits);
    storeCertKey ctx (flag_network vals) (flag_default vals) (snd kc) (fst kc);;
    print ctx "certificate generated";;
    sendCertfpFingerprints ctx (snd kc).

Definition readCertKeyPEM (source : string) : SV (list ascii) :=
  if Contains source "://" then
    if negb (HasPrefix source "https://") then err "only https:// URLs are supported"
    else
      b ← value_or_error (http_Get source);
      if (maxCertKeyFetchSize <? length b)%nat then err "response body too large (max 1048576 bytes)" else mret b
  else
    svc_did (OpenedFile source);;
    match os_ReadFile source with
    | inl e => err ("failed to read file " +:+ fmt_q source +:+ ": " +:+ e)
    | inr b => if (maxCertKeyFetchSize <? length b)%nat then err ("file " +:+ fmt_q source +:+ " too large (max 1048576 bytes)") else mret b
    end.

(** The certificate and the private key. *)
Definition ParseCertKeyPEM (pem : list ascii) : string + list ascii * list ascii :=
  match x509_KeyPair pem with
  | inl e => inl ("failed to parse certificate and private key: " +:+ e)
  | inr ([], _) => inl "no certificate found"
  | inr (_, inl e) => inl ("failed to marshal private key: " +:+ e)
  | inr (cert :: _, inr key) => inr (cert, key)
  end.

Definition handleServiceCertFPImport ctx (params : list string) : SV unit :=
  r ← parse_flags certFlags params;
  let '(vals, args) := r in
  match args with
  | [source] =>
      pem ← (if Contains source "-----BEGIN " then mret (schars source)
             else if negb (Contains source "://") && negb (sc_admin ctx)
             then err "importing from a local file is restricted to admins, use an https:// URL"
             else readCertKeyPEM source);
      ck ← value_or_error (ParseCertKeyPEM pem);
      storeCertKey ctx (flag_network vals) (flag_default vals) (fst ck) (snd ck);;
      print ctx "certificate imported";;
      sendCertfpFingerprints ctx (fst ck)
  | _ => err "expected exactly one argument"
  end.

(** The certificate for a network: its own or that of the user; [[]] is nil. *)
Definition clientCert (u : UserRec) (net : network) : list ascii :=
  let r := nw_rec net in
  if negb (bool_decide (s_CertBlob (n_SASL r) = [])) then s_CertBlob (n_SASL r)
  else if negb (n_NoDefaultCert r) && negb (bool_decide (u_CertBlob u = [])) then u_CertBlob u else [].

Definition handleServiceCertFPRemove ctx (params : list string) : SV unit :=
  vals ← only_flags certFlags params;
  if flag_default vals then
    if nonempty (flag_network vals) then err exclusive_default
    else
      update_own_user (fun u => Ok (user_with_cert u [] []));;
      print ctx "default certificate removed"
  else
    o ← getNetworkFromFlag ctx (flag_network vals);
    modify_sasl (no_ref o) (with_cert [] []);;
    u ← svc_user;
    o ← svc_obj (no_ref o);
    when (bool_decide (s_Mechanism (n_SASL (nw_rec (no_net o))) = "EXTERNAL") && bool_decide (clientCert u (no_net o) = []))
      (modify_sasl (no_ref o) (with_mechanism ""));;
    store_net (no_ref o);;
    print ctx "certificate removed".

Definition handleServiceCertFPFingerprints ctx (params : list string) : SV unit :=
  vals ← only_flags certFlags params;
  u ← svc_user;
  if flag_default vals then
    if nonempty (flag_network vals) then err exclusive_default
    else if bool_decide (u_CertBlob u = []) then err "no default certificate set for your user"
    else sendCertfpFingerprints ctx (u_CertBlob u)
  else
    o ← getNetworkFromFlag ctx (flag_network vals);
    let x := n_SASL (nw_rec (no_net o)) in
    if negb (bool_decide (s_Mechanism x = "EXTERNAL")) then err "CertFP not set up"
    else
      let cert := if bool_decide (s_CertBlob x = []) then u_CertBlob u else s_CertBlob x in
      if bool_decide (cert = []) then err "CertFP not set up" else sendCertfpFingerprints ctx cert.

(** ** sasl *)

Definition sasl_status (x : SASLRec) : list string :=
  if bool_decide (s_Mechanism x = "PLAIN") then ["SASL PLAIN enabled with username " +:+ fmt_q (s_PlainUsername x)]
  else if bool_decide (s_Mechanism x = "EXTERNAL") then
    ["SASL EXTERNAL (CertFP) enabled, using " +:+ (if bool_decide (s_CertBlob x = []) then "your default certificate" else "a per-network certificate")]
  else if bool_decide (s_Mechanism x = "") then ["SASL is disabled"]
  else [].

Definition account_status (oc : option upstreamConn) : string :=
  match oc with
  | Some uc => if nonempty (uc_account uc) then "Authenticated on upstream network with account " +:+ fmt_q (uc_account uc)
               else "Unauthenticated on upstream network"
  | None => "Disconnected from upstream network"
  end.

Definition handleServiceSASLStatus ctx (params : list string) : SV unit :=
  vals ← only_flags netFlag params;
  o ← getNetworkFromFlag ctx (flag_network vals);
  print_all ctx (sasl_status (n_SASL (nw_rec (no_net o))));;
  print ctx (account_status (no_conn o)).

Definition handleServiceSASLSetPlain ctx (params : list string) : SV unit :=
  r ← parse_flags netFlag params;
  match snd r with
  | [username; password] =>
      o ← getNetworkFromFlag ctx (flag_network (fst r));
      modify_sasl (no_ref o) (fun x => with_mechanism "PLAIN" (with_plain username password x));;
      store_net (no_ref o);;
      print ctx "credentials saved"
  | _ => err "expected exactly 2 arguments"
  end.

Definition no_certificate : string :=
  "this network has no certificate of its own and doesn't use your default one (see " +:+ dq +:+ "certfp generate" +:+ dq +:+ ", " +:+ dq
  +:+ "certfp import" +:+ dq +:+ " and " +:+ dq +:+ "network update -default-cert" +:+ dq +:+ ")".

Definition handleServiceSASLSetExternal ctx (params : list string) : SV unit :=
  vals ← only_flags netFlag params;
  o ← getNetworkFromFlag ctx (flag_network vals);
  u ← svc_user;
  if bool_decide (clientCert u (no_net o) = []) then err no_certificate
  else
    modify_sasl (no_ref o) (with_mechanism "EXTERNAL");;
    store_net (no_ref o);;
    print ctx "SASL EXTERNAL enabled".

Definition handleServiceSASLReset ctx (params : list string) : SV unit :=
  vals ← only_flags netFlag params;
  o ← getNetworkFromFlag ctx (flag_network vals);
  modify_sasl (no_ref o) (fun x => with_mechanism "" (with_plain "" "" x));;
  store_net (no_ref o);;
  print ctx "credentials reset".

End Service.
