(* ===== verification/ServiceCommands.v ===== *)
(** * The bouncer service (service.go): users, channels, ignores, certificates
    and the server, and the entry points [handleServiceCommand] and
    [handleServicePRIVMSG] *)

From stdpp Require Import base list gmap strings sorting.
From Stdlib Require Import ZArith Ascii.
From S2P Require Import Prelude GoStrings GoText Casemapping Xirc Whox Genmsg Sasl Irc Rate MsgStore Database.
From S2P Require Import Handler Session Network Pending Upstream UpstreamHandlers User Downstream Client ClientHandlers.
From S2P Require Import ClientMessages ClientHistory ClientBouncer ServiceFlags Service.

Local Open Scope Z_scope.

Definition deviceCertificateDisplayBytes : nat := 6.
(** The users shown by "user status". *)
Definition userStatusLimit : nat := 50.

(** Pairs of digits separated by colons. *)
Fixpoint colons (s : string) : string :=
  match s with
  | String a (String b EmptyString) => s
  | String a (String b s') => String a (String b (String ":" (colons s')))
  | _ => s
  end.

(** [strings.ReplaceAll(name, HASH, EmptyString)] orders the channels. *)
Definition channel_le (a b : ChannelRec) : Prop := String.le (remove_byte "#" (ch_Name a)) (remove_byte "#" (ch_Name b)).
#[export] Instance channel_le_dec a b : Decision (channel_le a b).
Proof. unfold channel_le. apply _. Defined.

Section Commands.
Context {St : Type} {HSt : Store St} {HH : HistoryStore St} {BC : BareCodec Z}.
Context {MO : MapOrder} {UN : Unicode} {EV : Env} {UE : UserEnv} {SE : SrvEnv} {CE : ClientEnv} {FE : FlagEnv} {VE : ServiceEnv}.
Notation C := (handler (cst St) derror).
Notation SV := (handler (cst St) serr).
Implicit Type ctx : serviceContext.

(** ** user *)

Definition srv_getUser (username : string) : option UserRec := head (filter (fun u => u_Username u = username) srv_users).
Definition unknown_username (username : string) : string := "unknown username " +:+ fmt_q username.

Definition user_line (u : UserRec) (networks : nat) : string :=
  let attrs := (if u_Admin u then ["admin"] else []) ++ (if u_Enabled u then [] else ["disabled"]) in
  u_Username u +:+ (if bool_decide (length attrs = 0%nat) then "" else " (" +:+ Join attrs ", " +:+ ")")
  +:+ ": " +:+ fmt_int (Z.of_nat networks) +:+ " networks"
  +:+ (if 0 <=? u_MaxNetworks u then " (" +:+ fmt_int (u_MaxNetworks u) +:+ " max)" else "").

Definition print_user ctx (u : UserRec) : SV unit :=
  match db_ListNetworks (u_ID u) with
  | inl e => err ("could not get networks of user " +:+ fmt_q (u_Username u) +:+ ": " +:+ e)
  | inr networks => print ctx (user_line u (length networks))
  end.

Definition handleUserStatus ctx (params : list string) : SV unit :=
  match params with
  | [] =>
      let users := take userStatusLimit srv_users in
      for_each users (print_user ctx);;
      when (length users <? length srv_users)%nat
        (print ctx ("(" +:+ fmt_int (Z.of_nat (length srv_users - length users)) +:+ " more users omitted)"))
  | [username] =>
      match srv_getUser username with
      | None => err (unknown_username username)
      | Some u => print_user ctx u
      end
  | _ => err "expected 0 or 1 argument"
  end.

Definition new_user (vals : flag_values) (username password : string) : UserRec :=
  MkUser 0 username password (default "" (flag_str vals "nick")) (default "" (flag_str vals "realname"))
    (default false (flag_bool vals "admin")) (default true (flag_bool vals "enabled")) 0
    (flag_Int vals "max-networks" (-1)) (default "" (flag_str vals "source-ip")) [] [].

Definition handleUserCreate ctx (params : list string) : SV unit :=
  vals ← only_flags userCreateFlagSet params;
  let username := default "" (flag_str vals "username") in
  let password := default "" (flag_str vals "password") in
  let disabled := default false (flag_bool vals "disable-password") in
  let sourceIP := default "" (flag_str vals "source-ip") in
  if bool_decide (username = "") then err "flag -username is required"
  else if nonempty password && disabled then err "flags -password and -disable-password are mutually exclusive"
  else if bool_decide (password = "") && negb disabled then err "flag -password is required"
  else if nonempty sourceIP && negb (net_ParseIP sourceIP) then err "flag -source-ip must be a valid IP address"
  else
    hash ← (if disabled then mret "" else value_or_error (bcrypt_hash password));
    let u := new_user vals username hash in
    match srv_createUser u with
    | Some e => err ("could not create user: " +:+ e)
    | None => svc_did (CreatedUser u);; print ctx ("created user " +:+ fmt_q username)
    end.

(** The changes of another user. *)
Definition other_update (vals : flag_values) (hashed : option string) : user_update :=
  UserUpdate hashed (flag_bool vals "admin") (flag_bool vals "enabled") (flag_int vals "max-networks") (flag_str vals "source-ip").

Definition update_other_user ctx (vals : flag_values) (username : string) : SV unit :=
  if negb (sc_admin ctx) then err "you must be an admin to update other users"
  else if is_Some_b (flag_str vals "nick") then err "cannot update -nick of other user"
  else if is_Some_b (flag_str vals "realname") then err "cannot update -realname of other user"
  else
    hashed ← match flag_str vals "password" with
             | None => mret None
             | Some p => h ← value_or_error (bcrypt_hash p); mret (Some h)
             end;
    let hashed := if default false (flag_bool vals "disable-password") then Some "" else hashed in
    match srv_getUser username with
    | None => err (unknown_username username)
    | Some _ =>
        svc_did (UpdatedUser username);;
        no_error (user_update_result username (other_update vals hashed));;
        print ctx ("updated user " +:+ fmt_q username)
    end.

(** The changes of the own user. *)
Definition self_update (vals : flag_values) (u : UserRec) : res string UserRec :=
  let? p := match flag_str vals "password" with
            | None => Ok (u_Password u)
            | Some p => match bcrypt_hash p with inl e => Err e | inr h => Ok h end
            end in
  let p := if default false (flag_bool vals "disable-password") then "" else p in
  Ok (MkUser (u_ID u) (u_Username u) p (default (u_Nick u) (flag_str vals "nick")) (default (u_Realname u) (flag_str vals "realname"))
        (u_Admin u) (u_Enabled u) (u_DownstreamInteractedAt u) (default (u_MaxNetworks u) (flag_int vals "max-networks"))
        (default (u_SourceIP u) (flag_str vals "source-ip")) (u_CertBlob u) (u_PrivKeyBlob u)).

Definition update_self ctx (vals : flag_values) : SV unit :=
  if is_Some_b (flag_bool vals "admin") then err "cannot update -admin of own user"
  else if is_Some_b (flag_bool vals "enabled") then err "cannot update -enabled of own user"
  else if is_Some_b (flag_int vals "max-networks") && negb (sc_admin ctx) then err "cannot update -max-networks of own user"
  else
    update_own_user (self_update vals);;
    u ← svc_user;
    print ctx ("updated user " +:+ fmt_q (u_Username u)).

Definition handleUserUpdate ctx (params : list string) : SV unit :=
  let '(username, params) := popArg params in
  vals ← only_flags userUpdateFlagSet params;
  u ← svc_user;
  let sourceIP := flag_str vals "source-ip" in
  if bool_decide (username = "") && negb (sc_user ctx) then err "cannot determine the user to update"
  else if is_Some_b (flag_str vals "password") && default false (flag_bool vals "disable-password")
  then err "flags -password and -disable-password are mutually exclusive"
  else if match sourceIP with Some ip => nonempty ip && negb (net_ParseIP ip) | None => false end
  then err "flag -source-ip must be a valid IP address"
  else if is_Some_b sourceIP && negb (sc_admin ctx) then err "you must be an admin to set -source-ip"
  else if nonempty username && (negb (sc_user ctx) || negb (bool_decide (username = u_Username u)))
  then update_other_user ctx vals username
  else update_self ctx vals.

(** The token that confirms a deletion. *)
Definition deletion_token (username : string) : string := hex_EncodeToString (take 3 (sha1_Sum (schars username))).

(** [u.stop] waits for the goroutine of the user: on the own user, whose
    goroutine runs the command, the call does not return. *)
Definition handleUserDelete ctx (params : list string) : SV unit :=
  match params with
  | [] => err "expected one or two arguments"
  | username :: rest =>
      if (2 <? length params)%nat then err "expected one or two arguments"
      else
        own ← svc_user;
        let self := sc_user ctx && bool_decide (u_Username own = username) in
        if negb (sc_admin ctx) && negb self then err "only admins may delete other users"
        else match srv_getUser username with
        | None => err (unknown_username username)
        | Some u =>
            match rest with
            | [] => print ctx ("To confirm user deletion, send " +:+ dq +:+ "user delete " +:+ username +:+ " " +:+ deletion_token username +:+ dq)
            | token :: _ =>
                if negb (bool_decide (token = deletion_token username)) then err "provided confirmation token doesn't match user"
                else if self then
                  print ctx ("Goodbye " +:+ username +:+ ", deleting your account. There will be no further confirmation.");;
                  svc_did (StoppedUser username);;
                  panic
                else
                  svc_did (StoppedUser username);;
                  no_error ((fun e => "failed to stop user: " +:+ e) <$> user_stop_result username);;
                  no_error ((fun e => "failed to delete user: " +:+ e) <$> db_DeleteUser (u_ID u));;
                  svc_did (DeletedUser (u_ID u));;
                  print ctx ("deleted user " +:+ fmt_q username)
            end
        end
  end.

(** [again] is [handleServiceCommand]. *)
Definition handleUserRun (again : serviceContext -> list string -> SV unit) ctx (params : list string) : SV unit :=
  match params with
  | username :: ((_ :: _) as words) =>
      own ← svc_user;
      if sc_user ctx && bool_decide (username = u_Username own) then again ctx words
      else match srv_getUser username with
      | None => err (unknown_username username)
      | Some _ =>
          svc_did (RanAs username words);;
          print_all ctx (fst (user_run_result username words));;
          no_error (snd (user_run_result username words))
      end
  | _ => err "expected at least two arguments"
  end.

(** ** channel *)

Definition channel_line (all : bool) (o : netobj) (ch : ChannelRec) : string :=
  let name := ch_Name ch +:+ (if all then "/" +:+ GetName (nw_rec (no_net o)) else "") in
  let status := match no_conn o with
                | Some uc => if Has (uc_channels uc) (ch_Name ch) then "joined" else "parted"
                | None => "disconnected"
                end in
  name +:+ " [" +:+ status +:+ (if ch_Detached ch then ", detached" else "") +:+ "]".

Definition network_channels (o : netobj) : list ChannelRec := merge_sort channel_le (value <$> iter (nw_channels (no_net o))).

Definition handleServiceChannelStatus ctx (params : list string) : SV unit :=
  dflt ← match sc_network ctx with
         | None => mret ""
         | Some r => o ← svc_obj r; mret (GetName (nw_rec (no_net o)))
         end;
  vals ← only_flags netFlag params;
  let networkName := default dflt (flag_str vals "network") in
  let all := bool_decide (networkName = "") in
  nets ← (if all then gets (fun s => objs (c_ss s))
          else
            onet ← gets (fun s => getNetwork (c_ss s) networkName);
            match onet with
            | None => err ("unknown network " +:+ fmt_q networkName)
            | Some o => mret [o]
            end);
  let lines := concat ((fun o => channel_line all o <$> network_channels o) <$> nets) in
  print_all ctx lines;;
  when (bool_decide (length lines = 0%nat)) (print ctx "No channel configured.").

Definition stripNetworkSuffix ctx (name : string) : SV (string * netobj) :=
  match sc_network ctx with
  | Some r => o ← svc_obj r; mret (name, o)
  | None =>
      match Split2 name "/" with
      | (_, None) => err "missing network name"
      | (name', Some netName) =>
          onet ← gets (fun s => head (filter (fun o => netName = GetName (nw_rec (no_net o))) (objs (c_ss s))));
          match onet with
          | None => err ("unknown network " +:+ fmt_q netName)
          | Some o => mret (name', o)
          end
      end
  end.

Definition set_channel (ref : nat) (name : string) (ch : ChannelRec) : SV unit :=
  lift_c (modify_obj ref (with_net (fun net => set_nw_channels (Set_ (nw_channels net) name ch) net))).

(** [db.StoreChannel] of the channel of the network; a new record gets its ID. *)
Definition svc_store_channel (ref : nat) (name what : string) : SV unit :=
  o ← svc_obj ref;
  match Get (nw_channels (no_net o)) name with
  | None => panic
  | Some ch =>
      match db_StoreChannel (n_ID (nw_rec (no_net o))) ch with
      | None => err ("failed to " +:+ what +:+ " channel: " +:+ db_error)
      | Some _ => lift_c (store_channel ref name)
      end
  end.

Definition handleServiceChannelCreate ctx (params : list string) : SV unit :=
  match params with
  | [] => err "expected at least one argument"
  | name :: rest =>
      vals ← only_flags channelFlagSet rest;
      no ← stripNetworkSuffix ctx name;
      let '(name, o) := no in
      let ref := no_ref o in
      if bool_decide (name = "") || ContainsAny name illegalChanChars then err ("invalid channel name: " +:+ name)
      else if match no_conn o with Some uc => negb (isChannel uc name) | None => false end then err ("not a channel name: " +:+ name)
      else if Has (nw_channels (no_net o)) name then err ("channel " +:+ fmt_q name +:+ " already exists")
      else match channel_update time_ParseDuration vals (newChannel name "" false) with
      | (_, Some e) => err e
      | (ch, None) =>
          set_channel ref name ch;;
          svc_store_channel ref name "create";;
          when (is_Some_b (no_conn o))
            (send_up ref (mk_msg "JOIN" (name :: (if nonempty (ch_Key ch) then [ch_Key ch] else []))));;
          print ctx ("created channel " +:+ fmt_q name)
      end
  end.

(** The flag detaches or attaches the channel when it differs. *)
Definition apply_detached (ref : nat) (name : string) (detached : option bool) : SV unit :=
  o ← svc_obj ref;
  match detached, Get (nw_channels (no_net o)) name with
  | Some b, Some ch =>
      if Bool.eqb b (ch_Detached ch) then mret tt
      else if b then _ ← lift_c (run_up ref (fun EV => detach (EV := EV) name ch)); mret tt
      else _ ← lift_c (run_up ref (fun EV => attach (EV := EV) name ch)); mret tt
  | _, _ => mret tt
  end.

Definition handleServiceChannelUpdate ctx (params : list string) : SV unit :=
  match params with
  | [] => err "expected at least one argument"
  | name :: rest =>
      vals ← only_flags channelFlagSet rest;
      no ← stripNetworkSuffix ctx name;
      let '(name, o) := no in
      let ref := no_ref o in
      match Get (nw_channels (no_net o)) name with
      | None => err ("unknown channel " +:+ fmt_q name)
      | Some ch =>
          let '(ch', e) := channel_update time_ParseDuration vals ch in
          lift_c (modify_obj ref (with_net (update_ch name (fun _ => ch'))));;
          no_error e;;
          apply_detached ref name (flag_bool vals "detached");;
          when (is_Some_b (no_conn o)) (_ ← lift_c (run_up ref (fun _ => updateChannelAutoDetach name)); mret tt);;
          svc_store_channel ref name "update";;
          print ctx ("updated channel " +:+ fmt_q name)
      end
  end.

Definition uerror_text (e : user_error) : string :=
  match e with
  | ErrUpstream (ErrUnknownChannel name) => "unknown channel " +:+ fmt_q name
  | e => user_error_text e
  end.

Definition handleServiceChannelDelete ctx (params : list string) : SV unit :=
  match params with
  | [name] =>
      no ← stripNetworkSuffix ctx name;
      let '(name, o) := no in
      r ← lift_c (run_up (no_ref o) (fun EV => deleteChannel (EV := EV) name));
      match r with
      | inl e => err ("failed to delete channel: " +:+ uerror_text e)
      | inr _ =>
          when (match no_conn o with Some uc => Has (uc_channels uc) name | None => false end)
            (send_up (no_ref o) (mk_msg "PART" [name]));;
          print ctx ("deleted channel " +:+ fmt_q name)
      end
  | _ => err "expected exactly one argument"
  end.

(** ** device-certificate *)

Definition cert_status (cert : DeviceCertificate) : string :=
  colons (ToUpper (hex_EncodeToString (take deviceCertificateDisplayBytes (cert_Fingerprint cert))))
  +:+ " [" +:+ cert_LastIP cert +:+ "] [" +:+ cert_Label cert +:+ "] [" +:+ time_DateTime (cert_LastUsed cert) +:+ "]".

Definition handleServiceDeviceCertificateStatus ctx (params : list string) : SV unit :=
  match params with
  | _ :: _ => err "expected no argument"
  | [] =>
      u ← svc_user;
      match db_ListDeviceCertificates (u_ID u) with
      | None => err ("could not get device certificates: " +:+ db_ListDeviceCertificates_error)
      | Some [] => print ctx "No device certificate configured."
      | Some certs =>
          for_each certs (fun cert =>
            if (length (cert_Fingerprint cert) <? deviceCertificateDisplayBytes)%nat then panic else print ctx (cert_status cert))
      end
  end.

(** The fingerprint of the certificate of the client. *)
Definition own_fingerprint ctx : string :=
  match sc_dc ctx, peer_cert with
  | Some _, Some pc => colons (ToUpper (hex_EncodeToString (sha512_Sum512 pc)))
  | _, _ => ""
  end.

Definition handleServiceDeviceCertificateCreate ctx (params : list string) : SV unit :=
  if negb cfg_ClientCertAuth then err "client certification authentication is disabled"
  else
    vals ← only_flags [("fingerprint", FString); ("label", FString)] params;
    let given := default "" (flag_str vals "fingerprint") in
    let fingerprint := if bool_decide (given = "") then own_fingerprint ctx else given in
    let label := default "" (flag_str vals "label") in
    if bool_decide (fingerprint = "") then err "flag -fingerprint is required when no TLS client certificate is used"
    else if bool_decide (label = "") then err "flag -label is required"
    else match hex_DecodeString (remove_byte ":" fingerprint) with
    | None => err "the certificate fingerprint must be hex-encoded SHA-512"
    | Some h =>
        if negb (length h =? sha512_Size)%nat then err "the certificate fingerprint must be hex-encoded SHA-512"
        else
          u ← svc_user;
          let cert := MkDeviceCert label h env_now (if is_Some_b (sc_dc ctx) then client_IP else "") in
          match db_NewDeviceCertificate (u_ID u) cert with
          | inl None => err "this device certificate fingerprint already exists"
          | inl (Some e) => err ("could not create device certificate: " +:+ e)
          | inr _ => svc_did (CreatedDeviceCert cert);; print ctx ("created device certificate " +:+ fmt_q fingerprint)
          end
    end.

Definition handleServiceDeviceCertificateDelete ctx (params : list string) : SV unit :=
  match params with
  | [fingerprint] =>
      match hex_DecodeString (remove_byte ":" fingerprint) with
      | None => err "the certificate fingerprint must be hex-encoded SHA-256"
      | Some h =>
          if (sha512_Size <? length h)%nat || (length h <? deviceCertificateDisplayBytes)%nat
          then err "the certificate fingerprint must be hex-encoded SHA-256"
          else
            u ← svc_user;
            match db_ListDeviceCertificates (u_ID u) with
            | None => err ("could not get device certificate: " +:+ db_ListDeviceCertificates_error)
            | Some certs =>
                match filter (fun c => take (length h) (cert_Fingerprint c) = h) certs with
                | [] => err ("no device certificate found for fingerprint " +:+ fmt_q fingerprint)
                | [c] =>
                    if negb (db_DeleteDeviceCertificate (u_ID u) (cert_Fingerprint c))
                    then err ("could not delete device certificate: " +:+ db_DeleteDeviceCertificate_error)
                    else
                      svc_did (DeletedDeviceCert (cert_Fingerprint c));;
                      print ctx ("deleted device certificate " +:+ fmt_q fingerprint)
                | _ => err "multiple device certificates match this fingerprint prefix; pass the full fingerprint"
                end
            end
      end
  | _ => err "expected exactly one argument"
  end.

(** ** ignore *)

Definition handleServiceIgnoreList ctx (params : list string) : SV unit :=
  vals ← only_flags netFlag params;
  o ← getNetworkFromFlag ctx (flag_network vals);
  match ignoresSnapshot (no_net o) with
  | [] => print ctx "No ignored hostmasks."
  | l => print_all ctx ((fun ig => ig_Mask ig +:+ " (added " +:+ time_DateTime (ig_CreatedAt ig) +:+ ")") <$> l)
  end.

(** A bare nick stands for all its hostmasks. *)
Definition ignore_mask (mask : string) : string := if ContainsAny mask "!@" then mask else mask +:+ "!*@*".

Definition handleServiceIgnoreAdd ctx (params : list string) : SV unit :=
  r ← parse_flags netFlag params;
  match snd r with
  | [arg] =>
      let mask := ignore_mask arg in
      o ← getNetworkFromFlag ctx (flag_network (fst r));
      let ignores := ignoresSnapshot (no_net o) in
      if existsb (fun ig => EqualFold (ig_Mask ig) mask) ignores then err (fmt_q mask +:+ " is already ignored")
      else match db_StoreIgnore (n_ID (nw_rec (no_net o))) mask with
      | inl e => err ("could not add ignore: " +:+ e)
      | inr id =>
          let ig := MkIgnore id mask env_now in
          svc_did (StoredIgnore (n_ID (nw_rec (no_net o))) ig);;
          lift_c (modify_obj (no_ref o) (with_net (fun net => setIgnores (ignoresSnapshot net ++ [ig]) net)));;
          print ctx ("now ignoring " +:+ fmt_q mask)
      end
  | _ => err "expected exactly one argument"
  end.

Definition handleServiceIgnoreDelete ctx (params : list string) : SV unit :=
  r ← parse_flags netFlag params;
  match snd r with
  | [mask] =>
      o ← getNetworkFromFlag ctx (flag_network (fst r));
      let ignores := ignoresSnapshot (no_net o) in
      let matches ig := EqualFold (ig_Mask ig) mask in
      match head (filter (fun ig => matches ig = true) ignores) with
      | None => err ("no ignore entry found for " +:+ fmt_q mask)
      | Some found =>
          no_error ((fun e => "could not delete ignore: " +:+ e) <$> db_DeleteIgnore (ig_ID found));;
          svc_did (DeletedIgnore (ig_ID found));;
          lift_c (modify_obj (no_ref o) (with_net (setIgnores (remove_first matches ignores))));;
          print ctx ("no longer ignoring " +:+ fmt_q mask)
      end
  | _ => err "expected exactly one argument"
  end.

(** ** server *)

Definition handleServiceServerStatus ctx (params : list string) : SV unit :=
  match params with
  | _ :: _ => err "expected no argument"
  | [] =>
      d ← value_or_error db_Stats;
      let '(users, networks, channels) := d in
      let '(srvUsers, downstreams, upstreams) := srv_Stats in
      print ctx (fmt_int srvUsers +:+ "/" +:+ fmt_int users +:+ " users, " +:+ fmt_int downstreams +:+ " downstreams, "
                 +:+ fmt_int upstreams +:+ " upstreams, " +:+ fmt_int networks +:+ " networks, " +:+ fmt_int channels +:+ " channels")
  end.

Definition handleServiceServerNotice ctx (params : list string) : SV unit :=
  match params with
  | [text] =>
      let n := fmt_int (Z.of_nat (length srv_users)) in
      svc_did (Broadcast (with_prefix (Some servicePrefix) (mk_msg "NOTICE" ["$" +:+ cfg_Hostname; text])));;
      print ctx ("sent to " +:+ n +:+ "/" +:+ n +:+ " downstream connections")
  | _ => err "expected exactly one argument"
  end.

Definition handleServiceServerDebug ctx (params : list string) : SV unit :=
  match params with
  | [v] =>
      match ParseBool v with
      | None => err ("strconv.ParseBool: parsing " +:+ fmt_q v +:+ ": invalid syntax")
      | Some b => svc_did (SetDebug b)
      end
  | _ => err "expected exactly one argument"
  end.

(** ** Commands *)

Definition run_handler (again : serviceContext -> list string -> SV unit) (h : service_handler) : serviceContext -> list string -> SV unit :=
  match h with
  | SvHelp => handleServiceHelp
  | SvNetworkCreate => handleServiceNetworkCreate
  | SvNetworkStatus => handleServiceNetworkStatus
  | SvNetworkUpdate => handleServiceNetworkUpdate
  | SvNetworkDelete => handleServiceNetworkDelete
  | SvNetworkQuote => handleServiceNetworkQuote
  | SvCertFPGenerate => handleServiceCertFPGenerate
  | SvCertFPFingerprints => handleServiceCertFPFingerprints
  | SvCertFPImport => handleServiceCertFPImport
  | SvCertFPRemove => handleServiceCertFPRemove
  | SvSASLStatus => handleServiceSASLStatus
  | SvSASLSetPlain => handleServiceSASLSetPlain
  | SvSASLSetExternal => handleServiceSASLSetExternal
  | SvSASLReset => handleServiceSASLReset
  | SvUserStatus => handleUserStatus
  | SvUserCreate => handleUserCreate
  | SvUserUpdate => handleUserUpdate
  | SvUserDelete => handleUserDelete
  | SvUserRun => handleUserRun again
  | SvChannelStatus => handleServiceChannelStatus
  | SvChannelCreate => handleServiceChannelCreate
  | SvChannelUpdate => handleServiceChannelUpdate
  | SvChannelDelete => handleServiceChannelDelete
  | SvIgnoreList => handleServiceIgnoreList
  | SvIgnoreAdd => handleServiceIgnoreAdd
  | SvIgnoreDelete => handleServiceIgnoreDelete
  | SvDeviceCertificateStatus => handleServiceDeviceCertificateStatus
  | SvDeviceCertificateCreate => handleServiceDeviceCertificateCreate
  | SvDeviceCertificateDelete => handleServiceDeviceCertificateDelete
  | SvServerStatus => handleServiceServerStatus
  | SvServerNotice => handleServiceServerNotice
  | SvServerDebug => handleServiceServerDebug
  end.

(** [if err == flag.ErrHelp] *)
Definition help_error (name : string) (m : SV unit) : SV unit := fun s =>
  match m s with
  | (s', Err SHelp) => (s', Err (SText ("unsupported flag (type " +:+ dq +:+ "help " +:+ name +:+ dq +:+ " for a help message)")))
  | r => r
  end.

(** A command that was found. *)
Definition run_command (again : serviceContext -> list string -> SV unit) ctx (words : list string) (cmd : serviceCommand) (params : list string)
    : SV unit :=
  if sv_admin cmd && negb (sc_admin ctx) then err "you must be an admin to use this command"
  else if negb (sv_global cmd) && negb (sc_user ctx) then err "this command must be run as a user (try running with user run)"
  else match sv_handle cmd with
  | None =>
      if bool_decide (length (sv_children cmd) = 0%nat) then err ("command " +:+ fmt_q (default "" (head words)) +:+ " not found")
      else print ctx (available (appendServiceCommandSetHelp (sv_children cmd) words (sc_admin ctx) (negb (sc_user ctx))))
  | Some h => help_error (Join (take (length words - length params) words) " ") (run_handler again h ctx params)
  end.

(** "user run" on the own user handles a shorter command; [fuel] is at least
    the number of words. *)
Fixpoint service_command (fuel : nat) ctx (words : list string) : SV unit :=
  match fuel with
  | O => panic
  | S fuel' =>
      match command_Get serviceCommands words with
      | inl e => err (e +:+ " (type " +:+ dq +:+ "help" +:+ dq +:+ " for a list of commands)")
      | inr (cmd, params) => run_command (service_command fuel') ctx words cmd params
      end
  end.

Definition handleServiceCommand ctx (words : list string) : SV unit := service_command (S (length words)) ctx words.

Definition handleServicePRIVMSG ctx (text : string) : SV unit :=
  match splitWords text with
  | Ok words => handleServiceCommand ctx words
  | Err e => err ("failed to parse command: " +:+ split_error_text e)
  | Panic => panic
  end.

(** The error of a command as a text. *)
Definition service_result (m : SV unit) : C (option string) := fun s =>
  match m s with
  | (s', Ok _) => (s', Ok None)
  | (s', Err (SText t)) => (s', Ok (Some t))
  | (s', Err SHelp) => (s', Ok (Some "flag: help requested"))
  | (s', Err (SClient e)) => (s', Err e)
  | (s', Panic) => (s', Panic)
  end.

(** The context of a client. *)
Definition client_context (self : Z) : C serviceContext :=
  dc ← self_dc self;
  u ← the_user;
  mret (SCtx (dc_nick dc) (dc_network dc) true (Some self) (u_Admin u)).

(** The commands a client sends to the service. *)
Definition client_service (self : Z) (text : string) : C (option string) :=
  ctx ← client_context self;
  service_result (handleServicePRIVMSG ctx text).

End Commands.
