(* ===== verification/ServiceSound.v ===== *)
(** * What the commands of the service keep (service.go)

    The commands of a user keep the state sound; which records they may store
    and what else they may do depends on whether the user is an admin. *)

From stdpp Require Import base list gmap strings.
From Stdlib Require Import ZArith Ascii.
From S2P Require Import Prelude GoStrings GoText Casemapping Xirc Whox Genmsg Sasl Irc Rate MsgStore Database.
From S2P Require Import Handler Session Network Pending Upstream UpstreamHandlers User SessionSound Downstream DownstreamCaps Client.
From S2P Require Import ClientHandlers ClientMessages ClientHistory ClientBouncer ServiceFlags Service ServiceCommands ClientSound.

Local Open Scope Z_scope.

(** A handler that keeps [P] and returns only values that satisfy [Φ]. *)
Definition yields {S E A} (P : S -> Prop) (m : handler S E A) (Φ : A -> Prop) : Prop :=
  forall s, P s -> P (fst (m s)) /\ forall a, snd (m s) = Ok a -> Φ a.

Section Yields.
Context {S E : Type} (P : S -> Prop).

Lemma yields_keeps {A} (m : handler S E A) : keeps P m -> yields P m (fun _ => True).
Proof. intros Hm s Hs. by split; [apply Hm|]. Qed.
Lemma keeps_bind_yields {A B} (m : handler S E A) (k : A -> handler S E B) Φ :
  yields P m Φ -> (forall a, Φ a -> keeps P (k a)) -> keeps P (m ≫= k).
Proof.
  intros Hm Hk s Hs. destruct (Hm s Hs) as [H1 H2]. unfold mbind, handler_bind. destruct (m s) as [s' [a|e|]]; [|done|done].
  cbn in *. by apply Hk; [apply H2|].
Qed.
Lemma yields_bind {A B} (m : handler S E A) (k : A -> handler S E B) Φ Ψ :
  yields P m Φ -> (forall a, Φ a -> yields P (k a) Ψ) -> yields P (m ≫= k) Ψ.
Proof.
  intros Hm Hk s Hs. destruct (Hm s Hs) as [H1 H2]. unfold mbind, handler_bind. destruct (m s) as [s' [a|e|]]; [|done|done].
  cbn in *. by apply Hk; [apply H2|].
Qed.
Lemma yields_ret {A} (a : A) (Φ : A -> Prop) : Φ a -> yields (E := E) P (mret a) Φ.
Proof. intros Ha s Hs. split; [done|]. by intros b [= <-]. Qed.
Lemma yields_raise {A} (e : E) (Φ : A -> Prop) : yields P (raise e) Φ.
Proof. intros s Hs. by split. Qed.

End Yields.

(** What a command may do on behalf of a user that is or is not an admin. *)
Record service_policy {UN : Unicode} {CE : ClientEnv} {FE : FlagEnv} {VE : ServiceEnv} (F : policy) (K : ceffect -> Prop) (admin : bool) : Prop := {
  sp_new : forall addr, PR F (NewNetwork addr);
  sp_network : forall vals n r, PR F n -> network_update irc_ParseMessage vals n admin = Ok r -> PR F r;
  sp_sasl : forall r x, PR F r -> PR F (with_SASL r x);
  sp_cert : forall u cert key, PU F u -> PU F (user_with_cert u cert key);
  sp_self : forall vals u u', PU F u -> (admin = false -> flag_str vals "source-ip" = None /\ flag_int vals "max-networks" = None) ->
    self_update vals u = Ok u' -> PU F u';
  sp_admin : admin = true -> forall e, K e;
  sp_printed : forall text, K (Printed text);
  sp_stored_ignore : forall id ig, K (StoredIgnore id ig);
  sp_deleted_ignore : forall id, K (DeletedIgnore id);
  sp_created_cert : forall cert, K (CreatedDeviceCert cert);
  sp_deleted_cert : forall fp, K (DeletedDeviceCert fp);
  sp_stopped : forall u, PU F u -> K (StoppedUser (u_Username u))
}.

Create HintDb service discriminated.

Section Service.
Context {St : Type} {HSt : Store St} {HH : HistoryStore St} {BC : BareCodec Z}.
Context {MO : MapOrder} {UN : Unicode} {EV : Env} {UE : UserEnv} {SE : SrvEnv} {CE : ClientEnv} {FE : FlagEnv} {VE : ServiceEnv}.
Context (F : policy) (HF : policy_ok F) (HC : caps_policy F) (K : ceffect -> Prop) (HK : effects_ok F K).
Context (ctx : serviceContext) (HP : service_policy F K (sc_admin ctx)).
Notation C := (handler (cst St) derror).
Notation SV := (handler (cst St) serr).
Notation S := (csound F K (St := St)).

Lemma keeps_lift_c {A} (m : C A) : keeps S m -> keeps S (lift_c m).
Proof. intros Hm s Hs. specialize (Hm s Hs). unfold lift_c. by destruct (m s) as [s' [a|e|]]. Qed.

Lemma svc_conn {A} id (m : dview -> option St -> handler dst derror A) : (forall V store, conn_method F (m V store)) -> keeps S (run_conn id m).
Proof. by apply keeps_run_conn. Qed.
Lemma keeps_print text : keeps S (print (St := St) ctx text).
Proof.
  apply keeps_lift_c. destruct (sc_dc ctx); [|by apply keeps_did, (sp_printed F K _ HP)].
  apply svc_conn. intros V store id n. apply conn_sendServicePRIVMSG.
Qed.
Lemma keeps_print_all l : keeps S (print_all (St := St) ctx l).
Proof. apply keeps_for_each. intros x. apply keeps_print. Qed.
Lemma keeps_err {A} text : keeps (A := A) S (err (St := St) text).
Proof. apply keeps_raise. Qed.
Lemma keeps_no_error e : keeps S (no_error (St := St) e).
Proof. destruct e; [apply keeps_err|apply keeps_ret]. Qed.
Lemma keeps_value {A} (r : string + A) : keeps S (value_or_error (St := St) r).
Proof. destruct r; [apply keeps_err|apply keeps_ret]. Qed.
Lemma keeps_flags fs params : keeps S (parse_flags (St := St) fs params).
Proof. unfold parse_flags. destruct (flag_Parse _ _ _) as [r|[|t]|]; [apply keeps_ret|apply keeps_raise|apply keeps_err|apply keeps_panic]. Qed.
Lemma keeps_only_flags fs params : keeps S (only_flags (St := St) fs params).
Proof. unfold only_flags. apply keeps_bind; [apply keeps_flags|]. intros [vals [|a l]]; [apply keeps_ret|apply keeps_err]. Qed.
Lemma keeps_svc_did e : K e -> keeps S (svc_did (St := St) e).
Proof. intros He. apply keeps_lift_c. by apply keeps_did. Qed.
Lemma keeps_svc_run_up {A} ref (m : Env -> handler (ust St) uerror A) : (forall EV, keeps_rec F (m EV)) -> keeps S (lift_c (run_up ref m)).
Proof. intros Hm. apply keeps_lift_c. by apply keeps_run_up. Qed.
Lemma keeps_send_up ref msg : keeps S (send_up (St := St) ref msg).
Proof. unfold send_up. repeat keeps_step. apply keeps_svc_run_up. intros EV'. apply rec_uc_SendMessage. Qed.
Lemma keeps_svc_obj_change ref f : obj_change F f -> keeps S (lift_c (modify_obj (St := St) ref f)).
Proof. intros Hf. apply keeps_lift_c. by apply keeps_modify_obj. Qed.

(** *** Values of the state *)

Definition rec_ok (o : netobj) : Prop := PR F (nw_rec (no_net o)).

Lemma yields_user : yields S (svc_user (St := St)) (PU F).
Proof. intros s Hs. split; [done|]. intros u [= <-]. apply (sd_user _ _ _ _ (cs_ss _ _ _ Hs)). Qed.
Lemma yields_obj ref : yields S (svc_obj (St := St) ref) rec_ok.
Proof.
  intros s Hs. unfold svc_obj, lift_c, obj_at_ref. destruct (ss_heap (c_ss s) !! ref) as [o|] eqn:Ho; [|done]. split; [done|].
  intros o' [= <-]. by destruct (sd_heap _ _ _ _ (cs_ss _ _ _ Hs) _ _ Ho).
Qed.
Lemma yields_objs (f : session St -> option netobj) : (forall ss o, f ss = Some o -> o ∈ objs ss) ->
  yields S (gets (E := serr) (fun s => f (c_ss s))) (fun oo => forall o, oo = Some o -> rec_ok o).
Proof.
  intros Hf s Hs. split; [done|]. intros oo [= <-] o Ho. apply Hf in Ho. unfold objs in Ho. rewrite list_elem_of_omap in Ho.
  destruct Ho as (r & _ & Hr). by destruct (sd_heap _ _ _ _ (cs_ss _ _ _ Hs) _ _ Hr).
Qed.
Lemma getNetwork_objs (ss : session St) name o : getNetwork ss name = Some o -> o ∈ objs ss.
Proof. intros H. by apply head_Some_elem_of, list_elem_of_filter in H as [_ ?]. Qed.

Lemma yields_select name missing : yields S (select_network (St := St) ctx name missing) rec_ok.
Proof.
  unfold select_network. case_bool_decide; [destruct (sc_network ctx); [apply yields_obj|apply yields_raise]|].
  eapply yields_bind; [apply (yields_objs (fun ss => getNetwork ss name)); intros; by eapply getNetwork_objs|].
  intros [o|] Ho; [apply yields_ret; auto|apply yields_raise].
Qed.
Lemma yields_arg params : yields S (getNetworkFromArg (St := St) ctx params) (fun op => rec_ok (fst op)).
Proof.
  unfold getNetworkFromArg. destruct (popArg params) as [name rest]. eapply yields_bind; [apply yields_select|]. intros o Ho. by apply yields_ret.
Qed.
Lemma keeps_select name missing : keeps S (select_network (St := St) ctx name missing).
Proof. intros s Hs. apply (yields_select name missing s Hs). Qed.
Lemma keeps_svc_obj ref : keeps S (svc_obj (St := St) ref).
Proof. intros s Hs. apply (yields_obj ref s Hs). Qed.
Lemma keeps_svc_user : keeps S (svc_user (St := St)).
Proof. intros s Hs. apply (yields_user s Hs). Qed.

Hint Resolve keeps_print keeps_print_all keeps_no_error keeps_value keeps_flags keeps_only_flags keeps_send_up keeps_select
  keeps_svc_obj keeps_svc_user : service.

Ltac keeps_svc :=
  repeat first
    [ keeps_step
    | match goal with
      | |- keeps _ (err _) => apply keeps_err
      | |- keeps _ (svc_did _) => apply keeps_svc_did; first [apply (sp_stored_ignore F K _ HP)|apply (sp_deleted_ignore F K _ HP)
          |apply (sp_created_cert F K _ HP)|apply (sp_deleted_cert F K _ HP)|by apply (sp_admin F K _ HP)]
      | |- keeps _ (lift_c (run_up _ _)) => apply keeps_svc_run_up; intros ?;
          first [apply rec_detach|apply rec_attach|apply rec_deleteChannel|apply rec_updateChannelAutoDetach]
      | |- keeps _ (lift_c (modify_obj _ _)) => apply keeps_svc_obj_change; first [done|intros ?; unfold update_ch; cbn; by repeat case_match]
      | |- keeps _ _ => solve [auto with service]
      | |- keeps _ _ => progress unfold getNetworkFromFlag, getNetworkFromArg
      end ].

(** *** Commands *)

Lemma svc_help params : keeps S (handleServiceHelp (St := St) ctx params).
Proof. unfold handleServiceHelp. keeps_svc. Qed.
Lemma svc_network_status params : keeps S (handleServiceNetworkStatus (St := St) ctx params).
Proof. unfold handleServiceNetworkStatus. keeps_svc. Qed.
Lemma svc_network_quote params : keeps S (handleServiceNetworkQuote (St := St) ctx params).
Proof. unfold handleServiceNetworkQuote. keeps_svc. Qed.
Lemma svc_network_delete params : keeps S (handleServiceNetworkDelete (St := St) ctx params).
Proof.
  unfold handleServiceNetworkDelete. keeps_svc. apply keeps_lift_c, keeps_run_user; [done|done|]. intros I L. apply keeps_deleteNetwork.
Qed.

(** *** Networks, certificates *)

Lemma keeps_network_result {A} (m : handler (session St) user_error A) (k : user_error + A -> SV unit) :
  user_method F m -> (forall r, keeps S (k r)) -> keeps S (r ← lift_c (run_user m); k r).
Proof. intros Hm Hk. apply keeps_bind; [|done]. by apply keeps_lift_c, keeps_run_user. Qed.

Lemma yields_record vals n : PR F n -> yields S (network_record (St := St) vals n (sc_admin ctx)) (PR F).
Proof.
  intros Hn. unfold network_record. destruct (network_update _ _ _ _) as [r|t|] eqn:E; [|apply yields_raise|by intros s Hs; split].
  apply yields_ret. by eapply (sp_network F K _ HP).
Qed.
Lemma keeps_ignore_limit vals : keeps S (ignore_limit (St := St) ctx vals).
Proof. unfold ignore_limit. keeps_svc. Qed.
Hint Resolve keeps_ignore_limit : service.

Lemma svc_network_create params : keeps S (handleServiceNetworkCreate (St := St) ctx params).
Proof.
  unfold handleServiceNetworkCreate. apply keeps_bind; [auto with service|]. intros vals. destruct (flag_str vals "addr") as [addr|]; [|apply keeps_err].
  apply keeps_bind; [auto with service|]. intros b. eapply keeps_bind_yields; [apply yields_record, (sp_new F K _ HP)|]. intros r Hr.
  apply keeps_network_result; [|intros [e|ref]; keeps_svc]. intros I L. by apply keeps_createNetwork.
Qed.
Lemma svc_network_update params : keeps S (handleServiceNetworkUpdate (St := St) ctx params).
Proof.
  unfold handleServiceNetworkUpdate. eapply keeps_bind_yields; [apply yields_arg|]. intros [o rest] Ho. cbn in Ho.
  apply keeps_bind; [auto with service|]. intros vals. apply keeps_bind; [auto with service|]. intros b. cbv zeta.
  eapply keeps_bind_yields; [by apply yields_record|]. intros r Hr.
  apply keeps_network_result; [|intros [e|ref]; keeps_svc]. intros I L. by apply keeps_updateNetwork.
Qed.

Lemma keeps_modify_sasl ref f : keeps S (modify_sasl (St := St) ref f).
Proof. apply keeps_svc_obj_change. intros o. split; [done|]. cbn. apply (sp_sasl F K _ HP). Qed.
Lemma keeps_store_net ref : keeps S (store_net (St := St) ref).
Proof.
  unfold store_net. eapply keeps_bind_yields; [apply yields_obj|]. intros o Ho. apply keeps_bind; [|intros []; keeps_svc].
  apply keeps_lift_c. unfold store_network_rec. repeat keeps_step. by apply keeps_did, (ek_did F K HK).
Qed.
Lemma keeps_own update : (forall u u', PU F u -> update u = Ok u' -> PU F u') -> keeps S (update_own_user (St := St) update).
Proof.
  intros Hu. unfold update_own_user. apply keeps_bind; [auto with service|]. intros u.
  apply keeps_network_result; [|intros [[]|]; keeps_svc]. intros I L. apply keeps_updateUser; [done|]. intros v v' Hv.
  destruct (update v) as [w|t|] eqn:E; [|done|done]. intros [= <-]. by eapply Hu.
Qed.
Lemma keeps_fingerprints cert : keeps S (sendCertfpFingerprints (St := St) ctx cert).
Proof. unfold sendCertfpFingerprints. keeps_svc. Qed.
Hint Resolve keeps_modify_sasl keeps_store_net keeps_fingerprints : service.
Lemma keeps_own_cert cert key : keeps S (update_own_user (St := St) (fun u => Ok (user_with_cert u cert key))).
Proof. apply keeps_own. intros u u' Hu [= <-]. by apply (sp_cert F K _ HP). Qed.
Hint Resolve keeps_own_cert : service.
Lemma keeps_storeCertKey name dflt cert key : keeps S (storeCertKey (St := St) ctx name dflt cert key).
Proof. unfold storeCertKey. keeps_svc. Qed.
Hint Resolve keeps_storeCertKey : service.

Lemma svc_certfp_generate params : keeps S (handleServiceCertFPGenerate (St := St) ctx params).
Proof. unfold handleServiceCertFPGenerate. keeps_svc. Qed.
(** A local file is opened for an admin only. *)
Lemma keeps_read source : Contains source "://" = true \/ sc_admin ctx = true -> keeps S (readCertKeyPEM (St := St) source).
Proof. intros [H|H]; unfold readCertKeyPEM; [rewrite H|]; keeps_svc. Qed.
Lemma svc_certfp_import params : keeps S (handleServiceCertFPImport (St := St) ctx params).
Proof.
  unfold handleServiceCertFPImport. apply keeps_bind; [auto with service|]. intros [vals [|source [|? ?]]]; try apply keeps_err.
  apply keeps_bind; [|intros pem; keeps_svc]. destruct (Contains source "-----BEGIN "); [apply keeps_ret|].
  case_eq (Contains source "://"); intros E; [apply keeps_read; by left|].
  case_eq (sc_admin ctx); intros Ha; [apply keeps_read; by right|apply keeps_err].
Qed.
Lemma svc_certfp_remove params : keeps S (handleServiceCertFPRemove (St := St) ctx params).
Proof. unfold handleServiceCertFPRemove. keeps_svc. Qed.
Lemma svc_certfp_fingerprints params : keeps S (handleServiceCertFPFingerprints (St := St) ctx params).
Proof. unfold handleServiceCertFPFingerprints. keeps_svc. Qed.
Lemma svc_sasl_status params : keeps S (handleServiceSASLStatus (St := St) ctx params).
Proof. unfold handleServiceSASLStatus. keeps_svc. Qed.
Lemma svc_sasl_plain params : keeps S (handleServiceSASLSetPlain (St := St) ctx params).
Proof. unfold handleServiceSASLSetPlain. keeps_svc. Qed.
Lemma svc_sasl_external params : keeps S (handleServiceSASLSetExternal (St := St) ctx params).
Proof. unfold handleServiceSASLSetExternal. keeps_svc. Qed.
Lemma svc_sasl_reset params : keeps S (handleServiceSASLReset (St := St) ctx params).
Proof. unfold handleServiceSASLReset. keeps_svc. Qed.

(** *** Users *)

Lemma keeps_print_user u : keeps S (print_user (St := St) ctx u).
Proof. unfold print_user. keeps_svc. Qed.
Hint Resolve keeps_print_user : service.
Lemma svc_user_status params : keeps S (handleUserStatus (St := St) ctx params).
Proof. unfold handleUserStatus. keeps_svc. Qed.
Lemma svc_user_create params : sc_admin ctx = true -> keeps S (handleUserCreate (St := St) ctx params).
Proof. intros Ha. unfold handleUserCreate. keeps_svc. Qed.
Lemma keeps_other vals username : keeps S (update_other_user (St := St) ctx vals username).
Proof.
  unfold update_other_user. case_eq (sc_admin ctx); intros Ha; cbn [negb]; keeps_svc.
Qed.
Lemma keeps_self vals : (sc_admin ctx = false -> flag_str vals "source-ip" = None) -> keeps S (update_self (St := St) ctx vals).
Proof.
  intros Hip. assert (Ho : (sc_admin ctx = false -> flag_int vals "max-networks" = None) -> keeps S (update_own_user (St := St) (self_update vals))).
  { intros Hm. apply keeps_own. intros u u' Hu. apply (sp_self F K _ HP); auto. }
  unfold update_self. destruct (is_Some_b (flag_bool vals "admin")); [apply keeps_err|]. destruct (is_Some_b (flag_bool vals "enabled")); [apply keeps_err|].
  destruct (flag_int vals "max-networks"); cbn [is_Some_b andb].
  - case_eq (sc_admin ctx); intros Ha; [|apply keeps_err]. cbn [negb]. repeat keeps_step; [apply Ho; congruence|auto with service..].
  - repeat keeps_step; [by apply Ho|auto with service..].
Qed.
Lemma svc_user_update params : keeps S (handleUserUpdate (St := St) ctx params).
Proof.
  unfold handleUserUpdate. destruct (popArg params) as [username rest]. apply keeps_bind; [auto with service|]. intros vals.
  apply keeps_bind; [auto with service|]. intros u. cbv zeta. destruct (_ && _); [apply keeps_err|]. destruct (_ && _); [apply keeps_err|].
  destruct (match flag_str vals "source-ip" with Some _ => _ | None => _ end); [apply keeps_err|].
  pose proof (keeps_self vals) as Hs. pose proof (keeps_other vals username) as Ho.
  destruct (is_Some_b (flag_str vals "source-ip") && negb (sc_admin ctx)) eqn:E; [apply keeps_err|]. destruct (nonempty username && _); [exact Ho|].
  apply Hs. intros Ha. rewrite Ha in E. by destruct (flag_str vals "source-ip").
Qed.
(** Only the own user is stopped for a user that is not an admin. *)
Lemma svc_user_delete params : keeps S (handleUserDelete (St := St) ctx params).
Proof.
  unfold handleUserDelete. destruct params as [|username rest]; [apply keeps_err|]. destruct (2 <? _)%nat; [apply keeps_err|].
  eapply keeps_bind_yields; [apply yields_user|]. intros own Hown. cbv zeta.
  destruct (sc_user ctx && bool_decide (u_Username own = username)) eqn:Eself.
  - apply andb_true_iff in Eself as [_ <-%bool_decide_eq_true]. rewrite andb_false_r. keeps_svc.
    apply keeps_svc_did, (sp_stopped F K _ HP). done.
  - rewrite andb_true_r. case_eq (sc_admin ctx); intros Ha; cbn [negb]; keeps_svc.
Qed.
Lemma svc_user_run again params : sc_admin ctx = true -> (forall words, keeps S (again ctx words)) ->
  keeps S (handleUserRun (St := St) again ctx params).
Proof. intros Ha Hr. unfold handleUserRun. keeps_svc. all: apply Hr. Qed.

(** *** Channels, ignores, device certificates *)

Lemma svc_channel_status params : keeps S (handleServiceChannelStatus (St := St) ctx params).
Proof. unfold handleServiceChannelStatus. keeps_svc. Qed.
Lemma keeps_strip name : keeps S (stripNetworkSuffix (St := St) ctx name).
Proof. unfold stripNetworkSuffix. keeps_svc. Qed.
Lemma keeps_set_channel ref name ch : keeps S (set_channel (St := St) ref name ch).
Proof. unfold set_channel. keeps_svc. Qed.
Lemma keeps_svc_store ref name what : keeps S (svc_store_channel (St := St) ref name what).
Proof.
  unfold svc_store_channel. keeps_svc. apply keeps_lift_c. unfold store_channel. repeat keeps_step; [apply keeps_obj_at|..].
  all: first [by apply keeps_modify_obj; intros x; cbn; unfold update_ch; cbn; repeat case_match|by apply keeps_did, (ek_did F K HK)].
Qed.
Hint Resolve keeps_strip keeps_set_channel keeps_svc_store : service.
Lemma svc_channel_create params : keeps S (handleServiceChannelCreate (St := St) ctx params).
Proof. unfold handleServiceChannelCreate. keeps_svc. Qed.
Lemma keeps_apply_detached ref name b : keeps S (apply_detached (St := St) ref name b).
Proof. unfold apply_detached. keeps_svc. Qed.
Hint Resolve keeps_apply_detached : service.
Lemma svc_channel_update params : keeps S (handleServiceChannelUpdate (St := St) ctx params).
Proof. unfold handleServiceChannelUpdate. keeps_svc. Qed.
Lemma svc_channel_delete params : keeps S (handleServiceChannelDelete (St := St) ctx params).
Proof. unfold handleServiceChannelDelete. keeps_svc. Qed.
Lemma svc_cert_status params : keeps S (handleServiceDeviceCertificateStatus (St := St) ctx params).
Proof. unfold handleServiceDeviceCertificateStatus. keeps_svc. Qed.
Lemma svc_cert_create params : keeps S (handleServiceDeviceCertificateCreate (St := St) ctx params).
Proof. unfold handleServiceDeviceCertificateCreate. keeps_svc. Qed.
Lemma svc_cert_delete params : keeps S (handleServiceDeviceCertificateDelete (St := St) ctx params).
Proof. unfold handleServiceDeviceCertificateDelete. keeps_svc. Qed.
Lemma svc_ignore_list params : keeps S (handleServiceIgnoreList (St := St) ctx params).
Proof. unfold handleServiceIgnoreList. keeps_svc. Qed.
Lemma svc_ignore_add params : keeps S (handleServiceIgnoreAdd (St := St) ctx params).
Proof. unfold handleServiceIgnoreAdd. keeps_svc. Qed.
Lemma svc_ignore_delete params : keeps S (handleServiceIgnoreDelete (St := St) ctx params).
Proof. unfold handleServiceIgnoreDelete. keeps_svc. Qed.
Lemma svc_server params : sc_admin ctx = true -> keeps S (handleServiceServerStatus (St := St) ctx params) /\
  keeps S (handleServiceServerNotice (St := St) ctx params) /\ keeps S (handleServiceServerDebug (St := St) ctx params).
Proof.
  intros Ha. unfold handleServiceServerStatus, handleServiceServerNotice, handleServiceServerDebug. split_and!; keeps_svc.
Qed.

(** *** The tree of commands *)

(** The commands that are for admins only. *)
Definition needs_admin (h : service_handler) : bool :=
  match h with
  | SvUserStatus | SvUserCreate | SvUserRun | SvServerStatus | SvServerNotice | SvServerDebug => true
  | _ => false
  end.

Lemma svc_handler again h params : (needs_admin h = true -> sc_admin ctx = true) -> (forall words, keeps S (again ctx words)) ->
  keeps S (run_handler (St := St) again h ctx params).
Proof.
  intros Ha Hr. destruct h; cbn [run_handler].
  1: apply svc_help.
  1: apply svc_network_create. 1: apply svc_network_status. 1: apply svc_network_update. 1: apply svc_network_delete. 1: apply svc_network_quote.
  1: apply svc_certfp_generate. 1: apply svc_certfp_fingerprints. 1: apply svc_certfp_import. 1: apply svc_certfp_remove.
  1: apply svc_sasl_status. 1: apply svc_sasl_plain. 1: apply svc_sasl_external. 1: apply svc_sasl_reset.
  1: apply svc_user_status. 1: by apply svc_user_create, Ha. 1: apply svc_user_update. 1: apply svc_user_delete. 1: by apply svc_user_run; [apply Ha|].
  1: apply svc_channel_status. 1: apply svc_channel_create. 1: apply svc_channel_update. 1: apply svc_channel_delete.
  1: apply svc_ignore_list. 1: apply svc_ignore_add. 1: apply svc_ignore_delete.
  1: apply svc_cert_status. 1: apply svc_cert_create. 1: apply svc_cert_delete.
  all: by destruct (svc_server params (Ha eq_refl)) as (? & ? & ?).
Qed.

Lemma keeps_help_error name (m : SV unit) : keeps S m -> keeps S (help_error name m).
Proof. intros Hm s Hs. specialize (Hm s Hs). unfold help_error. by destruct (m s) as [s' [a|[]|]]. Qed.

End Service.

(** The commands for admins are marked as such, in a command and below it. *)
Fixpoint marked (c : serviceCommand) : bool :=
  match c with
  | SCommand _ _ h children admin _ =>
      (match h with Some h => negb (needs_admin h) || admin | None => true end) && forallb (fun nc => marked (snd nc)) children
  end.

Lemma marked_Get {CE : ClientEnv} : forall words (cmds : serviceCommandSet) cmd params, Forall (fun nc => marked (snd nc) = true) cmds ->
  command_Get cmds words = inr (cmd, params) -> marked cmd = true.
Proof.
  induction words as [|name words IH]; intros cmds cmd params Hm; [done|]. cbn. destruct (find_command cmds name) as [e|c] eqn:E; [done|].
  assert (Hc : marked c = true).
  { rewrite Forall_forall in Hm. unfold find_command in E. destruct (head _) as [[x c']|] eqn:Eh.
    - simplify_eq. apply head_Some_elem_of, list_elem_of_filter in Eh as [_ Hin]. by apply (Hm _ Hin).
    - destruct (filter (fun c => HasPrefix _ _ = true) cmds) as [|[x c'] [|? ?]] eqn:Ef; simplify_eq.
      assert (Hin : (x, c) ∈ filter (fun c => HasPrefix c.1 name = true) cmds) by (rewrite Ef; left).
      apply list_elem_of_filter in Hin as [_ Hin]. by apply (Hm _ Hin). }
  destruct (_ || _); [by intros [= <- <-]|]. apply IH. destruct c as [us ds h children a g]. cbn in *.
  apply andb_true_iff in Hc as [_ Hc]. apply Forall_forall. rewrite forallb_forall in Hc.
  intros x Hx. apply Hc. by apply list_elem_of_In.
Qed.

Section Commands.
Context {St : Type} {HSt : Store St} {HH : HistoryStore St} {BC : BareCodec Z}.
Context {MO : MapOrder} {UN : Unicode} {EV : Env} {UE : UserEnv} {SE : SrvEnv} {CE : ClientEnv} {FE : FlagEnv} {VE : ServiceEnv}.
Context (F : policy) (HF : policy_ok F) (HC : caps_policy F) (K : ceffect -> Prop) (HK : effects_ok F K).
Notation S := (csound F K (St := St)).

Lemma svc_command fuel ctx words : service_policy F K (sc_admin ctx) -> keeps S (service_command (St := St) fuel ctx words).
Proof.
  intros HP. revert words. induction fuel as [|fuel IH]; intros words; cbn; [apply keeps_panic|].
  destruct (command_Get serviceCommands words) as [e|[cmd params]] eqn:E; [apply keeps_err|].
  apply marked_Get in E; [|by repeat (apply Forall_cons; split; [reflexivity|])]. unfold run_command.
  destruct (sv_admin cmd && negb (sc_admin ctx)) eqn:Ea; [apply keeps_err|]. destruct (_ && negb (sc_user ctx)); [apply keeps_err|].
  destruct cmd as [us ds oh children admin global]. cbn in *. destruct oh as [h|].
  - apply keeps_help_error, svc_handler; auto. intros Hn. rewrite Hn in E. cbn in E.
    destruct admin; [|done]. by destruct (sc_admin ctx).
  - case_bool_decide; [apply keeps_err|]. by apply keeps_print.
Qed.

Lemma svc_privmsg ctx text : service_policy F K (sc_admin ctx) -> keeps S (handleServicePRIVMSG (St := St) ctx text).
Proof.
  intros HP. unfold handleServicePRIVMSG. destruct (splitWords text); [by apply svc_command|apply keeps_err|apply keeps_panic].
Qed.

Lemma keeps_result (m : handler (cst St) serr unit) : keeps S m -> keeps S (service_result m).
Proof. intros Hm s Hs. specialize (Hm s Hs). unfold service_result. by destruct (m s) as [s' [x|[]|]]. Qed.

(** The commands of a client, with the rights of its user. *)
Lemma svc_client self text : (forall u, PU F u -> service_policy F K (u_Admin u)) -> keeps S (client_service (St := St) self text).
Proof.
  intros HP. unfold client_service. eapply keeps_bind_yields with (Φ := fun ctx => service_policy F K (sc_admin ctx)).
  - unfold client_context. eapply yields_bind; [apply yields_keeps, keeps_run_conn; [done|]|].
    { intros V store id n. unfold get_dc. apply keeps_gets. }
    intros dc _. eapply yields_bind; [|intros u Hu; apply yields_ret; cbn; by apply HP].
    intros s Hs. split; [done|]. intros u [= <-]. apply (sd_user _ _ _ _ (cs_ss _ _ _ Hs)).
  - intros ctx Hctx. by apply keeps_result, svc_privmsg.
Qed.
End Commands.
