(* ===== verification/ClientPolicy.v ===== *)
(** * What the messages of a client keep (downstream.go)

    Every message of a registered client keeps the state sound, for a policy on
    the records and the effects that does not depend on what any user may
    change: nicks, real names, passwords, addresses of networks. *)

From stdpp Require Import base list gmap strings.
From Stdlib Require Import ZArith Ascii.
From S2P Require Import Prelude GoStrings GoText Casemapping Xirc Whox Genmsg Sasl Irc Rate MsgStore Database.
From S2P Require Import Handler Session Network Pending Upstream UpstreamHandlers User SessionSound Downstream DownstreamCaps Client.
From S2P Require Import ClientHandlers ClientMessages ClientHistory ClientBouncer ServiceFlags Service ServiceCommands ClientSound ServiceSound.

Local Open Scope Z_scope.

(** What only an admin may change in the record of a user. *)
Definition privileges (u : UserRec) : Z * string * bool * bool * Z * string :=
  (u_ID u, u_Username u, u_Admin u, u_Enabled u, u_MaxNetworks u, u_SourceIP u).

(** What the messages of any client may do besides messages and stored records
    of the user and its networks. *)
Definition client_effect (e : ceffect) : Prop :=
  match e with
  | StoredMessageTarget _ _ | StoredReadReceipt _ _ _ | StoredWebPush _ _ | DeletedWebPush _ | CreatedDeviceCert _ | DeletedDeviceCert _ => True
  | _ => False
  end.

Record client_policy (F : policy) (K : ceffect -> Prop) : Prop := {
  cl_rec : forall r r', PR F r -> n_SourceIP r' = n_SourceIP r -> PR F r';
  cl_new : forall addr, PR F (NewNetwork addr);
  cl_user : forall u u', PU F u -> privileges u' = privileges u -> PU F u';
  cl_effect : forall e, client_effect e -> K e;
  cl_broadcast : forall u msg, PU F u -> u_Admin u = true -> K (Broadcast msg)
}.

Create HintDb recs discriminated.
Create HintDb client discriminated.

Lemma attrs_source {UE : UserEnv} record order sub r : updateNetworkAttrs url_Parse record order sub = Ok r -> n_SourceIP r = n_SourceIP record.
Proof.
  unfold updateNetworkAttrs. intros ([[r1 m] b] & H1 & H2)%res_bind_ok.
  assert (Hl : n_SourceIP r1 = n_SourceIP record).
  { revert H1. generalize (fillNetworkAddrAttrs url_Parse ∅ record), false. revert record. induction order as [|[k s] order IH]; intros r0 m0 b0 H.
    - by injection H as -> _ _.
    - apply res_bind_ok in H as ([[r2 m2] b2] & Hs & H). apply IH in H. rewrite H. unfold attr_step in Hs. by repeat case_bool_decide; simplify_eq. }
  rewrite <- Hl. destruct b; [|by injection H2 as ->]. case_bool_decide; [done|]. by injection H2 as <-.
Qed.

Section Policy.
Context {St : Type} {HSt : Store St} {HH : HistoryStore St} {BC : BareCodec Z}.
Context {MO : MapOrder} {UN : Unicode} {EV : Env} {UE : UserEnv} {SE : SrvEnv} {CE : ClientEnv}.
Context (F : policy) (HF : policy_ok F) (HC : caps_policy F) (K : ceffect -> Prop) (HK : effects_ok F K) (HP : client_policy F K).
Notation C := (handler (cst St) derror).
Notation D := (handler dst derror).
Notation S := (csound F K (St := St)).
Notation method := (conn_method F).

(** ** Methods of a network *)

Lemma rec_labeled label self msg : keeps_rec F (St := St) (SendMessageLabeled label self msg).
Proof. unfold SendMessageLabeled. keeps_rec_auto. Qed.
Lemma rec_sendNext {EV' : Env} cmd : keeps_rec F (St := St) (sendNextPendingCommand cmd).
Proof. unfold sendNextPendingCommand. keeps_rec_auto. apply rec_labeled. Qed.
Lemma rec_enqueue {EV' : Env} label dc msg : keeps_rec F (St := St) (enqueueCommand label dc msg).
Proof. unfold enqueueCommand. keeps_rec_auto. apply rec_sendNext. Qed.
Lemma rec_produce {EV' : Env} b name msg self : keeps_rec F (St := St) (produce b name msg self).
Proof. unfold produce, appendLog. keeps_rec_auto. Qed.
Lemma rec_updateAway {EV' : Env} : keeps_rec F (St := St) updateAway.
Proof. unfold updateAway. keeps_rec_auto. Qed.
Lemma rec_updateMonitor {EV' : Env} : keeps_rec F (St := St) updateMonitor.
Proof. unfold updateMonitor, forget_user. keeps_rec_auto. Qed.
Lemma rec_autoSave u p : keeps_rec F (St := St) (autoSaveSASLPlain u p).
Proof. unfold autoSaveSASLPlain. keeps_rec_auto. apply keeps_modify. intros t Ht. by apply (cl_rec F K HP (nw_rec (su_net t))). Qed.
Lemma rec_modify_uc f : keeps_rec F (St := St) (modify_uc f).
Proof. keeps_rec_auto. Qed.
Hint Resolve rec_labeled rec_enqueue rec_produce rec_updateAway rec_updateMonitor rec_autoSave rec_modify_uc rec_attach rec_detach
  rec_deleteChannel rec_updateChannelAutoDetach : recs.

(** ** Values of the state *)

Notation rec_ok := (rec_ok F).

Lemma pol_conn {A} id (m : dview -> option St -> D A) : (forall V store, method (m V store)) -> keeps S (run_conn id m).
Proof. by apply keeps_run_conn. Qed.
Lemma pol_user {A} (m : handler (session St) user_error A) : user_method F m -> keeps S (run_user m).
Proof. by apply keeps_run_user. Qed.
Lemma pol_obj_change ref f : (forall o, no_ref (f o) = no_ref o /\ n_SourceIP (nw_rec (no_net (f o))) = n_SourceIP (nw_rec (no_net o))) ->
  keeps S (modify_obj ref f).
Proof. intros Hf. apply keeps_modify_obj. intros o. destruct (Hf o). split; [done|]. intros Ho. by apply (cl_rec F K HP (nw_rec (no_net o))). Qed.

Lemma yields_the_user : yields S (the_user (St := St)) (PU F).
Proof. intros s Hs. split; [done|]. intros u [= <-]. apply (sd_user _ _ _ _ (cs_ss _ _ _ Hs)). Qed.
Lemma yields_obj_at ref : yields S (obj_at_ref (St := St) ref) rec_ok.
Proof.
  intros s Hs. unfold obj_at_ref. destruct (ss_heap (c_ss s) !! ref) as [o|] eqn:Ho; [|done]. split; [done|].
  intros o' [= <-]. by destruct (sd_heap _ _ _ _ (cs_ss _ _ _ Hs) _ _ Ho).
Qed.
Lemma yields_byID id : yields S (gets (E := derror) (fun s => getNetworkByID (c_ss s) id)) (fun oo => forall o, oo = Some o -> rec_ok o).
Proof.
  intros s Hs. split; [done|]. intros oo [= <-] o Ho. apply head_Some_elem_of, list_elem_of_filter in Ho as [_ Ho].
  unfold objs in Ho. rewrite list_elem_of_omap in Ho. destruct Ho as (r & _ & Hr). by destruct (sd_heap _ _ _ _ (cs_ss _ _ _ Hs) _ _ Hr).
Qed.
Lemma pol_self_dc self : keeps S (self_dc (St := St) self).
Proof. apply pol_conn. intros V store id n. unfold get_dc. apply keeps_gets. Qed.
Lemma yields_my_network self : yields S (my_network (St := St) self) (fun oo => forall o, oo = Some o -> rec_ok o).
Proof.
  unfold my_network. eapply yields_bind; [apply yields_keeps, pol_self_dc|]. intros dc _. destruct (dc_network dc) as [r|]; [|by apply yields_ret].
  eapply yields_bind; [apply yields_obj_at|]. intros o Ho. apply yields_ret. by intros o' [= <-].
Qed.
Lemma yields_my_upstream self : yields S (my_upstream (St := St) self) (fun ou => forall o uc, ou = Some (o, uc) -> rec_ok o).
Proof.
  unfold my_upstream. eapply yields_bind; [apply yields_my_network|]. intros oo Ho. apply yields_ret. intros o uc H.
  destruct oo as [o1|]; [|done]. cbn in H. destruct (no_conn o1); [|done]. injection H as <- _. by apply Ho.
Qed.
Lemma pol_store r : PR F r -> keeps S (store_network_rec (St := St) r).
Proof. intros Hr. unfold store_network_rec. repeat keeps_step. by apply keeps_did, (ek_did F K HK). Qed.
Lemma pol_update {B} record lim (k : user_error + nat -> C B) : PR F record -> (forall r, keeps S (k r)) ->
  keeps S (r ← run_user (updateNetwork record lim); k r).
Proof. intros Hr Hk. apply keeps_bind; [|done]. apply pol_user. intros I L. by apply keeps_updateNetwork. Qed.
Lemma pol_create {B} record lim (k : user_error + nat -> C B) : PR F record -> (forall r, keeps S (k r)) ->
  keeps S (r ← run_user (createNetwork record lim); k r).
Proof. intros Hr Hk. apply keeps_bind; [|done]. apply pol_user. intros I L. by apply keeps_createNetwork. Qed.
Lemma pol_update_user {B} f (k : user_error + unit -> C B) : (forall u, privileges (f u) = privileges u) -> (forall r, keeps S (k r)) ->
  keeps S (r ← run_user (updateUser (fun u => Ok (f u))); k r).
Proof.
  intros Hf Hk. apply keeps_bind; [|done]. apply pol_user. intros I L. apply keeps_updateUser; [done|].
  intros u u' Hu [= <-]. by apply (cl_user F K HP u).
Qed.

(** ** Messages *)

Lemma pol_cap msg : method (handleCap msg).
Proof. by apply method_handleCap. Qed.

(** A record that was in the state, with the same source address. *)
Ltac pol_rec :=
  solve [ apply (cl_new F K HP)
        | eapply (cl_rec F K HP);
          [ match goal with
            | H : ServiceSound.rec_ok F ?o |- _ => exact H
            | H : forall _, Some _ = Some _ -> ServiceSound.rec_ok F _ |- _ => apply H; reflexivity
            | H : forall _ _, Some _ = Some _ -> ServiceSound.rec_ok F _ |- _ => eapply H; reflexivity
            end
          | reflexivity ] ].

Ltac conn_solve := intros; intros ? ?; keeps_conn; try solve [apply conn_SendBatch; intros; keeps_conn].

Ltac keeps_pol :=
  repeat first
    [ match goal with
      | |- keeps _ (my_network _ ≫= _) => eapply keeps_bind_yields; [apply yields_my_network|intros ? ?]
      | |- keeps _ (my_upstream _ ≫= _) => eapply keeps_bind_yields; [apply yields_my_upstream|intros ? ?]
      | |- keeps _ (obj_at_ref _ ≫= _) => eapply keeps_bind_yields; [apply yields_obj_at|intros ? ?]
      | |- keeps _ (the_user ≫= _) => eapply keeps_bind_yields; [apply yields_the_user|intros ? ?]
      | |- keeps _ (gets (fun s => getNetworkByID (c_ss s) _) ≫= _) => eapply keeps_bind_yields; [apply yields_byID|intros ? ?]
      | |- keeps _ (run_user (updateNetwork _ _) ≫= _) => apply pol_update; [pol_rec|intros ?]
      | |- keeps _ (run_user (updateUser (fun u => Ok (_ u _))) ≫= _) => apply pol_update_user; [done|intros ?]
      end
    | keeps_step
    | match goal with
      | |- keeps _ (run_conn _ _) => apply pol_conn; conn_solve
      | |- keeps _ (on_self _ _) => apply pol_conn; conn_solve
      | |- keeps _ (on_view _ _) => apply pol_conn; conn_solve
      | |- keeps _ (reply _ _) => apply pol_conn; conn_solve
      | |- keeps _ (self_dc _) => apply pol_conn; conn_solve
      | |- keeps _ (set_self _ _) => apply pol_conn; conn_solve
      | |- keeps _ (run_up _ _) => apply keeps_run_up; [done|done|intros ?; solve [auto with recs]]
      | |- keeps _ (run_user (deleteNetwork _)) => apply pol_user; intros ? ?; apply keeps_deleteNetwork
      | |- keeps _ (store_network_rec _) => apply pol_store; pol_rec
      | |- keeps _ (did (Did _)) => by apply keeps_did, (ek_did F K HK)
      | |- keeps _ (did _) => by apply keeps_did, (cl_effect F K HP)
      | |- keeps _ (modify_obj _ _) => apply pol_obj_change; first [done|intros ?; unfold update_ch; cbn; by repeat case_match]
      | |- keeps _ (obj_at_ref _) => apply keeps_obj_at
      | |- keeps _ (modify (set_ctx _)) => apply keeps_modify; intros; by apply sound_ctx
      | |- keeps _ (drop_label _) => apply keeps_modify; intros; by apply sound_ctx
      | |- keeps _ (cneed _ _) => apply keeps_lift
      | |- keeps _ _ => solve [auto with client]
      | |- keeps _ _ => progress unfold the_store, self_label, take_label, upstreamForCommand, send_labeled,
          send_labeled_in, enqueue, fail_nick, fail, numeric, each_client, each_unbound, store_channel, drop_label_if_many
      end ].

Section Client.
Context (self : Z).

Lemma pol_ping msg : keeps S (on_ping self msg).
Proof. unfold on_ping. keeps_pol. Qed.
Lemma pol_pong msg : keeps S (on_pong self msg).
Proof. unfold on_pong, handlePong, ackMsgID. keeps_pol. Qed.
Lemma pol_nick msg : keeps S (on_client_nick self msg).
Proof. unfold on_client_nick, set_nick. keeps_pol. Qed.
Lemma pol_setname msg : keeps S (on_client_setname self msg).
Proof. unfold on_client_setname, set_realname. keeps_pol. Qed.
Lemma pol_join msg : keeps S (on_client_join self msg).
Proof. unfold on_client_join, join_one. keeps_pol. Qed.
Lemma pol_part msg : keeps S (on_client_part self msg).
Proof. unfold on_client_part, part_one. keeps_pol. Qed.
Lemma pol_pass msg : keeps S (pass_upstream self msg).
Proof. unfold pass_upstream. keeps_pol. Qed.
Lemma pol_mode msg : keeps S (on_client_mode self msg).
Proof. unfold on_client_mode, pass_upstream, send_modes. keeps_pol. Qed.
Lemma pol_topic msg : keeps S (on_client_topic self msg).
Proof. unfold on_client_topic. keeps_pol. Qed.
Lemma pol_list msg : keeps S (on_client_list self msg).
Proof. unfold on_client_list. keeps_pol. Qed.
Lemma pol_names msg : keeps S (on_client_names self msg).
Proof. unfold on_client_names, names_one. keeps_pol. Qed.
Lemma pol_who msg : keeps S (on_client_who self msg).
Proof. unfold on_client_who. keeps_pol. Qed.
Lemma pol_whois msg : keeps S (on_client_whois self msg).
Proof. unfold on_client_whois. keeps_pol. Qed.

(** *** Text, accounts, lists *)

(** Only an admin broadcasts. *)
Lemma pol_broadcast dc name msg tags params : keeps S (broadcast_text (St := St) self dc name msg tags params).
Proof.
  unfold broadcast_text. eapply keeps_bind_yields; [apply yields_the_user|]. intros u Hu. destruct (u_Admin u) eqn:Ha; cbn [negb]; keeps_pol.
  apply keeps_did. by eapply (cl_broadcast F K HP).
Qed.
Hint Resolve pol_broadcast : client.
Lemma pol_text service msg : (forall text, keeps S (service text)) -> keeps S (on_client_text self service msg).
Proof.
  intros Hs. assert (Hl : forall text names tags, keeps S (text_loop self service msg tags text names)).
  { intros text names. induction names as [|name names IH]; intros tags; cbn; [apply keeps_ret|]. apply keeps_bind; [|intros ?; apply IH].
    unfold text_one, service_text, upstream_text, handleNickServPRIVMSG. keeps_pol. }
  unfold on_client_text. keeps_pol.
Qed.
Lemma pol_authenticate msg : keeps S (on_client_authenticate self msg).
Proof. unfold on_client_authenticate, authenticate_plain, authenticate_anonymous, sasl_fail. keeps_pol. Qed.
Lemma pol_register msg : keeps S (on_client_register self msg).
Proof. unfold on_client_register. keeps_pol. Qed.
Lemma pol_away msg : keeps S (on_client_away self msg).
Proof. unfold on_client_away. keeps_pol. Qed.
Lemma pol_info msg : keeps S (on_client_info self msg).
Proof. unfold on_client_info. keeps_pol. Qed.
Lemma pol_monitor msg : keeps S (on_client_monitor self msg).
Proof. unfold on_client_monitor, monitor_subcommand, monitor_one, monitor_list. keeps_pol. Qed.

Lemma pol_target_keys target l : forall mt ref, keeps S (set_target_keys self target mt ref l).
Proof.
  induction l as [|kv l IH]; intros mt ref; cbn; [apply keeps_ret|]. apply keeps_bind; [|intros ?; apply IH].
  unfold set_target_key. keeps_pol.
Qed.
Hint Resolve pol_target_keys : client.
Lemma pol_metadata msg : keeps S (on_client_metadata self msg).
Proof.
  unfold on_client_metadata, load_target, metadata_set, metadata_clear, setMessageTargetMetadata, store_target. keeps_pol.
  all: apply pol_conn; intros V store i n; unfold metadata_list, metadata_get; apply conn_SendBatch; intros r; keeps_conn.
Qed.

(** *** History *)

Lemma pol_chathistory msg : keeps S (on_client_chathistory self msg).
Proof. unfold on_client_chathistory, history_params, answer_history, send_targets. keeps_pol. Qed.
Lemma pol_markread msg : keeps S (on_client_markread self msg).
Proof. unfold on_client_markread, update_marker, tell_marker, read_push, send_marker. keeps_pol. Qed.
Lemma pol_search msg : keeps S (on_client_search self msg).
Proof. unfold on_client_search. keeps_pol. Qed.

(** *** The bouncer *)

Lemma pol_clientcert msg : keeps S (on_client_clientcert self msg).
Proof. unfold on_client_clientcert, clientcert_create, clientcert_delete. keeps_pol. Qed.
Lemma pol_bouncer_list : keeps S (bouncer_list self).
Proof. unfold bouncer_list. keeps_pol. Qed.
Hint Resolve pol_bouncer_list : client.
Lemma yields_attrs record order sub : PR F record ->
  yields S (lift (irc_result (updateNetworkAttrs url_Parse record order sub))) (PR F).
Proof.
  intros Hr s Hs. split; [done|]. intros r' H. unfold lift, irc_result in H. cbn in H.
  destruct (updateNetworkAttrs _ _ _ _) as [r|m|] eqn:E; simplify_eq. apply attrs_source in E. by apply (cl_rec F K HP record).
Qed.
Lemma wipe_ok u r : PR F r -> PR F (wipe_defaults u r).
Proof. intros Hr. by apply (cl_rec F K HP r). Qed.
Lemma pol_bouncer_add msg sub : keeps S (bouncer_add (St := St) self msg sub).
Proof.
  unfold bouncer_add. apply keeps_bind; [keeps_pol|]. intros l. apply keeps_bind; [keeps_pol|]. intros dc.
  eapply keeps_bind_yields; [apply yields_the_user|]. intros u Hu. eapply keeps_bind_yields.
  { apply yields_attrs. by apply (cl_rec F K HP (NewNetwork "")); [apply (cl_new F K HP)|]. }
  intros r Hr. apply pol_create; [by apply wipe_ok|]. intros x. keeps_pol.
Qed.
Lemma pol_bouncer_change msg sub : keeps S (bouncer_change (St := St) self msg sub).
Proof.
  unfold bouncer_change. apply keeps_bind; [keeps_pol|]. intros l. cbv zeta. apply keeps_bind; [keeps_pol|]. intros id.
  eapply keeps_bind_yields; [apply yields_byID|]. intros [o|] Ho; [|unfold invalid_netid; keeps_pol].
  eapply keeps_bind_yields; [apply yields_the_user|]. intros u Hu. eapply keeps_bind_yields; [apply yields_attrs, Ho; done|].
  intros r Hr. apply pol_update; [by apply wipe_ok|]. intros x. keeps_pol.
Qed.
Hint Resolve pol_bouncer_add pol_bouncer_change : client.
Lemma pol_bouncer msg : keeps S (on_client_bouncer self msg).
Proof. unfold on_client_bouncer, bouncer_delete, invalid_netid. keeps_pol. Qed.
Lemma pol_webpush msg : keeps S (on_client_webpush self msg).
Proof. unfold on_client_webpush, webpush_register, webpush_unregister, webpush_check, list_webpush. keeps_pol. Qed.
Lemma pol_unknown msg : keeps S (on_client_unknown self msg).
Proof. unfold on_client_unknown. keeps_pol. Qed.

Hint Resolve pol_ping pol_pong pol_nick pol_setname pol_join pol_part pol_pass pol_mode pol_topic pol_list pol_names pol_who
  pol_whois pol_text pol_authenticate pol_register pol_away pol_info pol_monitor pol_metadata pol_chathistory pol_markread
  pol_search pol_clientcert pol_bouncer pol_webpush pol_unknown : client.

Lemma pol_handlers service msg : (forall text, keeps S (service text)) -> keeps S (handleMessageRegistered self service msg).
Proof.
  intros Hs. unfold handleMessageRegistered.
  assert (Hall : Forall (fun h : list string * (message -> C unit) => forall m, keeps S (snd h m)) (client_handlers self service)).
  { unfold client_handlers. repeat (apply Forall_cons; split; [intros m; cbn [snd]|]); [..|apply Forall_nil]; try solve [auto with client]; keeps_pol.
    apply pol_cap. }
  induction Hall as [|[cmds h] l Hh _ IH]; cbn [select_handler]; [apply pol_unknown|]. case_bool_decide; [apply Hh|done].
Qed.

Lemma pol_client_message service msg : (forall text, keeps S (service text)) -> keeps S (handle_client_message self service msg).
Proof.
  intros Hs. unfold handle_client_message. keeps_pol. intros s H. unfold reply_irc_error.
  pose proof (pol_handlers service msg Hs s H) as H1. destruct (handleMessageRegistered self service msg s) as [s1 [x|[m|]|]]; try done.
  cbn in H1. revert s1 H1. change (keeps S (reply self (with_prefix (Some env_srvPrefix) m))). keeps_pol.
Qed.

End Client.
End Policy.
