(* ===== verification/UserLoop.v ===== *)
(** * The event loop of a user (user.go, downstream.go)

    [welcome] of a new client, the initial state of a user and the handling of
    each event of [user.run]. *)

From stdpp Require Import base list gmap strings sorting.
From Stdlib Require Import ZArith Ascii.
From S2P Require Import Prelude GoStrings GoText Casemapping Xirc Whox Genmsg Sasl Irc Rate MsgStore Database.
From S2P Require Import Handler Session Network Pending Upstream UpstreamHandlers User Downstream Client ClientHandlers.
From S2P Require Import ClientMessages ClientHistory ClientBouncer ServiceFlags Service ServiceCommands.

Local Open Scope Z_scope.

(** The events of the loop. The events of an upstream connection name its
    network object; those of a client carry its connection, whose state is that
    of the list of the user when it is in the list (a client that [welcome]
    refused is not, and its messages are handled all the same). A client that was
    refused because the account is disabled has no user, and its messages are not
    events here. *)
Inductive event :=
| EventUpstreamConnected (ref : nat) (uc : upstreamConn)
| EventUpstreamDisconnected (ref : nat)
| EventUpstreamConnectionError (ref : nat) (err : string)
| EventUpstreamError (ref : nat) (err : string)
| EventUpstreamMessage (ref : nat) (msg : message)
| EventChannelDetach (ref : nat) (name : string)
| EventDownstreamConnected (dc : downstreamConn)
| EventDownstreamDisconnected (dc : downstreamConn)
| EventDownstreamMessage (dc : downstreamConn) (msg : message)
| EventBroadcast (msg : message)
| EventUserUpdate (e : user_update)
| EventTryRegainNick (ref : nat) (nick : string)
| EventListSessions
| EventDisconnectSession (id : Z)
| EventUserRun (words : list string) (asUser : bool)
| EventStop.

Section Loop.
Context {St : Type} {HSt : Store St} {HH : HistoryStore St} {BC : BareCodec Z}.
Context {MO : MapOrder} {UN : Unicode} {EV : Env} {UE : UserEnv} {SE : SrvEnv} {CE : ClientEnv} {FE : FlagEnv} {VE : ServiceEnv}.
Notation C := (handler (cst St) derror).
Notation D := (handler dst derror).
Context (cfg_EnableUsersOnAuth : bool).

(** ** Welcoming a client *)

Section Welcome.
Context (self : Z).
Notation reply := (reply self).
Notation self_dc := (self_dc self).

Definition sanityCheckServer (addr : string) : bool := tls_Dial addr.

Definition self_reg : C downstreamRegistration := on_self self (get_reg id).

(** [dc.network = network] *)
Definition bind_network (ref : nat) : C unit := set_self self (set_dc_network (Some ref)).

(** The network is created when the server answers. *)
Definition create_network (r : downstreamRegistration) : C unit :=
  let name := rg_networkName r in
  let addr := if Contains name ":" then name else name +:+ ":6697" in
  let '(nick, _, _) := unmarshalUsername (rg_nick r) in
  if negb (sanityCheckServer addr) then fail_nick self "464" ["Failed to connect to " +:+ fmt_q name]
  else if bool_decide (nick = "") || ContainsAny nick illegalNickChars
  then fail_nick self "432" [rg_nick r; "Nickname contains illegal characters"]
  else if bool_decide (casemapASCII nick = serviceNickCM)
  then fail_nick self "433" [rg_nick r; "Nickname reserved for bouncer service"]
  else
    res ← run_user (createNetwork (with_Nick (NewNetwork name) nick) true);
    match res with
    | inl _ => raise OtherError
    | inr ref => bind_network ref
    end.

Definition loadNetwork : C unit :=
  r ← self_reg;
  if negb (Z.eqb (rg_networkID r) 0) then
    onet ← gets (fun s => getNetworkByID (c_ss s) (rg_networkID r));
    match onet with
    | None => fail ["BOUNCER"; "INVALID_NETID"; fmt_int (rg_networkID r); "Unknown network ID"]
    | Some o => bind_network (no_ref o)
    end
  else if bool_decide (rg_networkName r = "*") then fail_nick self "464" ["Multi-upstream mode is no longer supported"]
  else if bool_decide (rg_networkName r = "") then mret tt
  else
    onet ← gets (fun s => getNetwork (c_ss s) (rg_networkName r));
    match onet with
    | Some o => bind_network (no_ref o)
    | None => create_network r
    end.

(** The nick of the client and the first numerics. *)
Definition welcome_nick (V : dview) : D unit :=
  let nick := match v_upstream V with
              | Some uc => uc_nick uc
              | None => match v_net V with
                        | Some o => GetNick (v_user V) (Some (nw_rec (no_net o)))
                        | None => u_Username (v_user V)
                        end
              end in
  modify_dc (fun dc => set_dc_nickCM (dc_casemap dc nick) (set_dc_nick nick dc));;
  dc_SendMessage (mk_msg "001" [nick; "Welcome to soju, " +:+ nick]);;
  dc_SendMessage (mk_msg "002" [nick; "Your host is " +:+ cfg_Hostname]);;
  dc_SendMessage (mk_msg "004" [nick; cfg_Hostname; "soju"; "aiwroO"; "OovaimnqpsrtklbeI"]).

Definition welcome_modes (V : dview) : D unit :=
  nick ← get_dc dc_nick;
  match v_upstream V with
  | Some uc => dc_SendMessage (mk_msg "221" [nick; "+" +:+ uc_modes uc])
  | None => mret tt
  end;;
  when (negb (is_Some_b (v_net V)) && u_Admin (v_user V)) (dc_SendMessage (mk_msg "221" [nick; "+o"])).

Definition welcome_motd (V : dview) : D unit :=
  if nonempty cfg_MOTD && negb (is_Some_b (v_net V)) then for_each (GenerateMOTD cfg_MOTD) dc_SendMessage
  else
    nick ← get_dc dc_nick;
    dc_SendMessage (mk_msg "422" [nick; if is_Some_b (v_net V) then "Use /motd to read the message of the day" else "No MOTD"]).

(** The messages about the client itself. *)
Definition welcome_state (V : dview) : D unit :=
  modify_dc (set_dc_registration None);;
  dc_updateSupportedCaps V;;
  welcome_nick V;;
  dc_updateIsupport V;;
  welcome_modes V;;
  dc_updateHost V;;
  dc_updateRealname V;;
  dc_updateAccount V;;
  dc_updateCasemapping V;;
  welcome_motd V.

Definition welcome_metadata (V : dview) : D unit :=
  caps ← get_dc dc_caps;
  if negb (IsEnabled caps "draft/metadata-2") then mret tt
  else
    dc_sendBatchOf "metadata" [] [];;
    match v_net V with
    | None => mret tt
    | Some o =>
        match db_ListMessageTargets (n_ID (nw_rec (no_net o))) with
        | None => raise OtherError
        | Some targets => for_each targets dc_sendTargetMetadata
        end
    end.

(** The channels of the network the client is shown. *)
Definition welcome_channel (net : network) (uc : upstreamConn) (ch : upstreamChannel) : D unit :=
  if negb (uch_complete ch) || negb (is_attached net (uch_Name ch)) then mret tt
  else
    dc ← get_dc id;
    let account := if nonempty (uc_account uc) then uc_account uc else "*" in
    dc_SendMessage (with_prefix (Some (dc_prefix dc))
      (mk_msg "JOIN" (uch_Name ch :: (if IsEnabled (dc_caps dc) "extended-join" then [account; uc_realname uc] else []))));;
    dc_forwardChannel net ch.

Definition welcome_channels (V : dview) : D unit :=
  match v_net V with
  | None => mret tt
  | Some o =>
      match no_conn o with
      | None => mret tt
      | Some uc => for_each (iter (uc_channels uc)) (fun e => welcome_channel (no_net o) uc (value e))
      end
  end.

(** The messages of one target since the last delivery. *)
Definition welcome_target (ref : nat) (target : string) : C unit :=
  o ← obj_at_ref ref;
  dc ← self_dc;
  let lastDelivered := ds_LoadID (nw_delivered (no_net o)) target (dc_clientName dc) in
  if bool_decide (lastDelivered = "") then mret tt
  else
    run_conn self (fun V store => dc_sendTargetBacklog V store o target lastDelivered);;
    store ← the_store;
    match store with
    | None => mret tt
    | Some st =>
        match st_LastMsgID st (nw_rec (no_net o)) (nw_casemap (no_net o) target) env_now with
        | None => mret tt
        | Some lastID =>
            modify_obj ref (with_net (fun net => set_nw_delivered (ds_StoreID (nw_delivered net) target (dc_clientName dc) lastID) net))
        end
    end.

(** Whether no other client with the same name is on the network. *)
Definition first_client (dc : downstreamConn) (l : list downstreamConn) : bool :=
  negb (existsb (fun c => negb (Z.eqb (dc_id c) (dc_id dc)) && bool_decide (dc_clientName c = dc_clientName dc)
                          && bool_decide (dc_network c = dc_network dc)) l).

Definition welcome_backlog : C unit :=
  onet ← my_network self;
  dc ← self_dc;
  store ← the_store;
  match onet, store with
  | Some o, Some _ =>
      if IsEnabled (dc_caps dc) "draft/chathistory" then mret tt
      else
        first ← gets (fun s => first_client dc (ss_downs (c_ss s)));
        when first (for_each (ds_ForEachTarget (nw_delivered (no_net o))) (welcome_target (no_ref o)))
  | _, _ => mret tt
  end.

Definition welcome : C unit :=
  dc ← self_dc;
  if negb (dc_registered dc) then panic
  else if dc_hasUser dc then panic
  else
    set_self self (set_dc_hasUser true);;
    loadNetwork;;
    on_view self welcome_state;;
    dc ← self_dc;
    when (IsEnabled (dc_caps dc) "soju.im/bouncer-networks-notify") (bouncer_list self);;
    on_view self welcome_metadata;;
    on_view self welcome_channels;;
    welcome_backlog.

End Welcome.

(** ** Events *)

Definition net_exists (ref : nat) : C (option netobj) := gets (fun s => ss_heap (c_ss s) !! ref).

(** [u.notifyBouncerNetworkState(ctx, net.ID, attrs)] *)
Definition notify_state (ref : nat) (attrs : gmap string string) : C unit :=
  o ← obj_at_ref ref;
  _ ← run_user (notifyBouncerNetworkState (n_ID (nw_rec (no_net o))) attrs); mret tt.

Definition set_lastError (ref : nat) (err : option string) : C unit :=
  modify_obj ref (with_net (set_nw_lastError err)).

(** What a client is told about a new connection. *)
Definition tell_connected (name : string) (V : dview) : D unit :=
  dc_updateSupportedCaps V;;
  caps ← get_dc dc_caps;
  when (negb (IsEnabled caps "soju.im/bouncer-networks")) (dc_sendServiceNOTICE ("connected to " +:+ name));;
  dc_updateNick V;;
  dc_updateHost V;;
  dc_updateRealname V;;
  dc_updateAccount V;;
  dc_updateCasemapping V.

Definition on_upstream_connected (ref : nat) (uc : upstreamConn) : C unit :=
  o ← obj_at_ref ref;
  modify_obj ref (with_conn (Some uc));;
  _ ← run_up ref (fun EV => updateAway (EV := EV));
  _ ← run_up ref (fun EV => updateMonitor (EV := EV));
  each_client ref (fun c => run_conn (dc_id c) (fun V _ => tell_connected (GetName (nw_rec (no_net o))) V));;
  notify_state ref {["state" := "connected"; "error" := ""]};;
  set_lastError ref None.

(** A connection that is gone already is not disconnected again. *)
Definition on_upstream_disconnected (ref : nat) : C unit :=
  o ← obj_at_ref ref;
  match no_conn o with
  | None => mret tt
  | Some uc => _ ← run_user (handleUpstreamDisconnected ref uc); mret tt
  end.

Definition notice_all (ref : nat) (text : string) : C unit :=
  each_client ref (fun c => run_conn (dc_id c) (fun _ _ => dc_sendServiceNOTICE text)).

Definition on_upstream_connection_error (ref : nat) (err : string) : C unit :=
  o ← obj_at_ref ref;
  let net := no_net o in
  when (negb (nw_stopped net) && negb (bool_decide (nw_lastError net = Some err)))
    (notice_all ref ("failed connecting/registering to " +:+ GetName (nw_rec net) +:+ ": " +:+ err));;
  set_lastError ref (Some err);;
  notify_state ref {["error" := err]}.

Definition on_upstream_error (ref : nat) (err : string) : C unit :=
  o ← obj_at_ref ref;
  notice_all ref ("disconnected from " +:+ GetName (nw_rec (no_net o)) +:+ ": " +:+ err);;
  set_lastError ref (Some err);;
  notify_state ref {["error" := err]}.

(** A message on a closed connection is ignored; errors are logged. *)
Definition on_upstream_message (ref : nat) (msg : message) : C unit :=
  o ← obj_at_ref ref;
  match no_conn o with
  | None => mret tt
  | Some _ => _ ← run_up ref (fun EV => handleMessage (EV := EV) msg); mret tt
  end.

Definition on_channel_detach (ref : nat) (name : string) : C unit :=
  o ← obj_at_ref ref;
  match Get (nw_channels (no_net o)) name with
  | None => mret tt
  | Some c =>
      if ch_Detached c then mret tt
      else
        _ ← run_up ref (fun EV => detach (EV := EV) name c);
        store_channel ref name
  end.

(** [u.forEachUpstream] *)
Definition each_upstream (m : Env -> handler (ust St) uerror unit) : C unit :=
  _ ← run_user (forEachUpstream (fun ref => run_net ref m)); mret tt.

Definition bump : C unit := _ ← run_user bumpDownstreamInteractionTime; mret tt.

Definition set_fresh (dc : option downstreamConn) (s : cst St) : cst St := CSt (c_ss s) dc (c_ctx s) (c_eff s).

(** The new client joins the list of the user. *)
Definition add_client (s : cst St) : cst St :=
  match c_fresh s with
  | None => s
  | Some dc =>
      let ss := c_ss s in
      CSt (Session (ss_user ss) (ss_heap ss) (ss_networks ss) (ss_downs ss ++ [dc]) (ss_store ss) (ss_next ss) (ss_eff ss))
        None (c_ctx s) (c_eff s)
  end.

Definition enable_on_auth : C unit :=
  u ← the_user;
  when (negb (u_Enabled u) && cfg_EnableUsersOnAuth)
    (_ ← run_user (updateUser (fun u => Ok (user_with_Enabled u true))); mret tt).

(** The error of [welcome] is sent to the client, which is not added. *)
Definition try_welcome (self : Z) : C bool := fun s =>
  match welcome self s with
  | (s', Ok _) => (s', Ok true)
  | (s', Err (IrcError m)) => (reply self (with_prefix (Some env_srvPrefix) m);; mret false) s'
  | (s', Err OtherError) => (reply self (mk_msg "ERROR" ["Internal server error"]);; mret false) s'
  | (s', Panic) => (s', Panic)
  end.

Definition tell_last_error (self : Z) : C unit :=
  onet ← my_network self;
  match onet with
  | None => mret tt
  | Some o =>
      match nw_lastError (no_net o) with
      | None => mret tt
      | Some err =>
          on_self self (dc_sendServiceNOTICE ("disconnected from " +:+ GetName (nw_rec (no_net o)) +:+ ": " +:+ err))
      end
  end.

Definition on_downstream_connected (dc : downstreamConn) : C unit :=
  let self := dc_id dc in
  modify (set_fresh (Some dc));;
  onet ← my_network self;
  match onet with
  | Some o => set_self self (fun dc => set_dc_monitored (Recase (dc_monitored dc) (nw_casemap (no_net o))) dc)
  | None => mret tt
  end;;
  enable_on_auth;;
  u ← the_user;
  if negb (u_Enabled u) then
    reply self (mk_msg "ERROR" ["This bouncer account is disabled"]);;
    modify (set_fresh None)
  else
    ok ← try_welcome self;
    if negb ok then modify (set_fresh None)
    else
      modify add_client;;
      tell_last_error self;;
      each_upstream (fun EV => updateAway (EV := EV));;
      when (negb (dc_impersonating dc)) bump.

Definition remove_client (id : Z) (ss : session St) : session St :=
  Session (ss_user ss) (ss_heap ss) (ss_networks ss) (remove_first (fun d => Z.eqb (dc_id d) id) (ss_downs ss)) (ss_store ss) (ss_next ss)
    (ss_eff ss).

Definition on_downstream_disconnected (dc : downstreamConn) : C unit :=
  odc ← gets (fun s => find_conn (dc_id dc) (ss_downs (c_ss s)));
  let dc := default dc odc in
  modify (with_ss (remove_client (dc_id dc)));;
  match dc_network dc with
  | Some r => _ ← run_up r (fun EV => storeClientDeliveryReceipts (EV := EV) (dc_clientName dc)); mret tt
  | None => mret tt
  end;;
  each_upstream (fun EV => cancelPendingCommandsByDownstreamID (dc_id dc);; updateAway (EV := EV);; updateMonitor (EV := EV));;
  when (negb (dc_impersonating dc)) bump.

(** [dc.Close()] *)
Definition close_client (id : Z) : C unit := run_conn id (fun _ _ => modify_dc (set_dc_closed true)).

(** [if err := m; err != nil { dc.Close() }] *)
Definition closing_on_error (id : Z) (m : C unit) : C unit := fun s =>
  match m s with
  | (s', Err _) => close_client id s'
  | r => r
  end.

(** [m] with a client that is not in the list of the user. *)
Definition unlisted (dc : downstreamConn) (m : C unit) : C unit := fun s =>
  let '(s', r) := m (set_fresh (Some dc) s) in (set_fresh None s', r).

Definition on_downstream_message (dc : downstreamConn) (msg : message) : C unit :=
  let self := dc_id dc in
  let handle := closing_on_error self (handle_client_message self (client_service self) msg) in
  odc ← gets (fun s => find_conn self (ss_downs (c_ss s)));
  if dc_closed (default dc odc) then mret tt
  else match odc with
       | Some _ => handle
       | None => unlisted dc handle
       end.

Definition all_clients (f : downstreamConn -> C unit) : C unit :=
  dcs ← gets (fun s => ss_downs (c_ss s)); for_each dcs f.

Definition on_user_update (e : user_update) : C unit :=
  _ ← run_user (updateUser (fun u => Ok (apply_user_update e u)));
  when (is_Some_b (uu_password e)) (all_clients (fun dc => close_client (dc_id dc))).

(** The sessions of the user: ID, network, client name and nick. *)
Definition session_of (ss : session St) (dc : downstreamConn) : Z * string * string * string :=
  let netName := match dc_network dc ≫= (fun r => ss_heap ss !! r) with Some o => GetName (nw_rec (no_net o)) | None => "" end in
  (dc_id dc, netName, dc_clientName dc, dc_nick dc).

Definition on_list_sessions : C unit :=
  ss ← gets c_ss;
  did (ListedSessions (session_of ss <$> filter (fun dc => dc_registered dc = true) (ss_downs ss))).

(** A command an admin runs as the user, or the web interface on its behalf. *)
Definition on_user_run (words : list string) (asUser : bool) : C unit :=
  u ← the_user;
  e ← service_result (handleServiceCommand (SCtx "" None true None (negb asUser || u_Admin u)) words);
  did (RunResult e).

Definition on_stop : C unit :=
  all_clients (fun dc => close_client (dc_id dc));;
  l ← gets (fun s => objs (c_ss s));
  for_each l (fun o =>
    _ ← run_user (stop_network (no_ref o));
    for_each (ds_ForEachClient (nw_delivered (no_net o))) (fun client =>
      _ ← run_up (no_ref o) (fun EV => storeClientDeliveryReceipts (EV := EV) client); mret tt)).

Definition handle_event (e : event) : C unit :=
  modify (set_ctx ∅);;
  match e with
  | EventUpstreamConnected ref uc => on_upstream_connected ref uc
  | EventUpstreamDisconnected ref => on_upstream_disconnected ref
  | EventUpstreamConnectionError ref err => on_upstream_connection_error ref err
  | EventUpstreamError ref err => on_upstream_error ref err
  | EventUpstreamMessage ref msg => on_upstream_message ref msg
  | EventChannelDetach ref name => on_channel_detach ref name
  | EventDownstreamConnected dc => on_downstream_connected dc
  | EventDownstreamDisconnected dc => on_downstream_disconnected dc
  | EventDownstreamMessage dc msg => on_downstream_message dc msg
  | EventBroadcast msg => all_clients (fun dc => run_conn (dc_id dc) (fun _ _ => dc_SendMessage msg))
  | EventUserUpdate e => on_user_update e
  | EventTryRegainNick ref nick => _ ← run_up ref (fun EV => tryRegainNick (EV := EV) nick); mret tt
  | EventListSessions => on_list_sessions
  | EventUserRun words asUser => on_user_run words asUser
  | EventDisconnectSession id =>
      odc ← gets (fun s => find_conn id (ss_downs (c_ss s)));
      match odc with Some _ => close_client id | None => mret tt end
  | EventStop => on_stop
  end.

(** [for e := range u.events] *)
Definition run_events (l : list event) : C unit := for_each l handle_event.

(** ** The state at the start of the loop *)

(** A network with its channels, ignores and delivery receipts. *)
Definition start_network (ref : nat) (n : NetworkRec * list ChannelRec * list IgnoreRec * list DeliveryReceipt) : netobj :=
  let '(record, channels, ignores, receipts) := n in
  let net := newNetwork record channels ignores in
  NetObj ref (set_nw_delivered (foldl (fun ds r => ds_StoreID ds (dr_Target r) (dr_Client r) (dr_InternalMsgID r)) (nw_delivered net)
                              (if env_persistent then receipts else [])) net) None.

(** Networks by ID. *)
Definition net_le (a b : NetworkRec * list ChannelRec * list IgnoreRec * list DeliveryReceipt) : Prop :=
  n_ID a.1.1.1 <= n_ID b.1.1.1.
#[export] Instance net_le_dec a b : Decision (net_le a b).
Proof. unfold net_le. apply _. Defined.

(** [nets]: the networks of the database with what was listed for them. *)
Definition start_session (u : UserRec) (store : option St) (nets : list (NetworkRec * list ChannelRec * list IgnoreRec * list DeliveryReceipt))
    : session St :=
  let l := imap (fun i n => (i, start_network i n)) (merge_sort net_le nets) in
  Session u (list_to_map l) (l.*1) [] store (length nets) [].

End Loop.
