(* ===== verification/ClientRun.v ===== *)
(** * Runs of the methods of clients

    What a client is sent by a method that runs without a label, and how such
    a run changes the state of the user. *)

From stdpp Require Import base list gmap strings.
From Stdlib Require Import ZArith Ascii.
From S2P Require Import Prelude GoStrings GoText Casemapping Xirc Whox Genmsg Sasl Irc Rate MsgStore Database.
From S2P Require Import Handler Session Network Pending Upstream UpstreamHandlers User Downstream Client ClientHandlers ClientHistory.

Local Open Scope Z_scope.

(** ** Sending *)

(** A message [SendMessage] can send: [msg.Params[:1]] of a JOIN exists. *)
Definition deliverable (m : message) : Prop := Command m = "JOIN" -> Params m <> [].
#[export] Instance deliverable_dec m : Decision (deliverable m).
Proof. unfold deliverable. apply _. Defined.

Section Send.
Context {MO : MapOrder} {UN : Unicode} {EV : Env} {SE : SrvEnv}.
Notation D := (handler dst derror).

(** What is written for a message to a client with [caps]. *)
Definition prepared (caps : CapRegistry) (m : message) : list message :=
  match dc_prepare caps m with Ok (Some m') => [m'] | _ => [] end.

Lemma prepare_deliverable caps m : deliverable m -> exists om, dc_prepare caps m = Ok om.
Proof.
  intros Hm. unfold dc_prepare. destruct (negb _ && _); [by eexists|]. cbv zeta.
  set (m1 := if IsEnabled caps "message-tags" then m else _).
  assert (H1 : Command m1 = Command m /\ Params m1 = Params m) by (unfold m1; by destruct (IsEnabled _ _)).
  set (m2 := if _ && nonempty _ then _ else m1).
  assert (H2 : Command m2 = Command m /\ Params m2 = Params m) by (unfold m2; by destruct (_ && _)).
  clearbody m2. destruct H2 as [H2 H3].
  assert (Hp : (bool_decide (Command m2 = "JOIN") && negb (IsEnabled caps "extended-join") && bool_decide (Params m2 = [])) = false).
  { rewrite H2, H3. case_bool_decide as Hj; [|done]. rewrite (bool_decide_false (Params m = [])) by (by apply Hm).
    by rewrite andb_false_r. }
  rewrite Hp. destruct (existsb _ _); eexists; reflexivity.
Qed.

(** Without a label the message is written at once. *)
Lemma send_run m s : deliverable m -> has_label s = None ->
  dc_SendMessage m s = (DSt (d_dc s) (d_label s) (d_out s ++ prepared (dc_caps (d_dc s)) m), Ok tt).
Proof.
  intros Hm Hl. unfold dc_SendMessage, get_dc, prepared. rewrite bind_gets.
  destruct (prepare_deliverable (dc_caps (d_dc s)) m Hm) as [om Hp]. rewrite (bind_ok _ _ s s om) by (unfold lift; by rewrite Hp).
  rewrite Hp. destruct om as [m'|]; [|rewrite app_nil_r; by destruct s]. by rewrite bind_gets, Hl.
Qed.

Lemma send_all_run (f : message -> message) msgs s : Forall (fun m => deliverable (f m)) msgs -> has_label s = None ->
  for_each msgs (fun m => dc_SendMessage (f m)) s
  = (DSt (d_dc s) (d_label s) (d_out s ++ concat ((fun m => prepared (dc_caps (d_dc s)) (f m)) <$> msgs)), Ok tt).
Proof.
  intros Hm. revert s. induction Hm as [|m msgs Hm _ IH]; intros s Hl; cbn; [rewrite app_nil_r; by destruct s|].
  rewrite (bind_ok _ _ _ _ _ (send_run _ _ Hm Hl)). rewrite IH by (by destruct s). cbn. by rewrite <- app_assoc.
Qed.

Definition next_ref (dc : downstreamConn) : downstreamConn :=
  set_dc_lastBatchRef ((dc_lastBatchRef dc + 1) mod 2 ^ 64) dc.

(** A batch as the client gets it. *)
Definition batch_of (dc : downstreamConn) (typ : string) (params : list string) (msgs : list message) : list message :=
  let ref := fmt_int (dc_lastBatchRef (next_ref dc)) in
  let limits m := if IsEnabled (dc_caps dc) "batch" then prepared (dc_caps dc) m else [] in
  limits (mk_msg "BATCH" (("+" +:+ ref) :: typ :: params))
  ++ concat ((fun m => prepared (dc_caps dc) (with_tag "batch" ref m)) <$> msgs)
  ++ limits (mk_msg "BATCH" ["-" +:+ ref]).

Lemma sendBatchOf_run typ params msgs s : Forall deliverable msgs -> has_label s = None ->
  dc_sendBatchOf typ params msgs s
  = (DSt (next_ref (d_dc s)) (d_label s) (d_out s ++ batch_of (d_dc s) typ params msgs), Ok tt).
Proof.
  intros Hm Hl. unfold dc_sendBatchOf, dc_SendBatch, batch_of. set (ref := fmt_int _).
  set (s1 := DSt (next_ref (d_dc s)) (d_label s) (d_out s)).
  rewrite (bind_ok _ _ s s1 ref) by (by destruct s as [[] ? ?]). cbv beta. unfold get_dc. rewrite bind_gets.
  assert (Hc : dc_caps (d_dc s1) = dc_caps (d_dc s)) by (by destruct s as [[] ? ?]). rewrite Hc.
  assert (Hl1 : has_label s1 = None) by exact Hl. clearbody ref.
  assert (Hb : forall m s, deliverable m -> has_label s = None ->
    when (IsEnabled (dc_caps (d_dc s)) "batch") (dc_SendMessage m) s
    = (DSt (d_dc s) (d_label s) (d_out s ++ if IsEnabled (dc_caps (d_dc s)) "batch" then prepared (dc_caps (d_dc s)) m else []), Ok tt)).
  { intros m s' Hd Hl'. unfold when. destruct (IsEnabled (dc_caps (d_dc s')) "batch"); [by apply send_run|].
    rewrite app_nil_r. by destruct s'. }
  rewrite <- Hc. rewrite (bind_ok _ _ _ _ _ (Hb (Message ∅ None "BATCH" (("+" +:+ ref) :: typ :: params)) s1 ltac:(done) Hl1)).
  cbv beta. match goal with |- (_ ≫= _) ?t = _ => rewrite (bind_ok _ _ _ _ _ (send_all_run (with_tag "batch" ref) msgs t Hm Hl1)) end. cbv beta. rewrite bind_gets.
  match goal with |- context [when _ (dc_SendMessage ?m) ?t] => rewrite (Hb m t) by done end. cbn [d_dc d_label d_out]. f_equal. f_equal. by rewrite <- !app_assoc.
Qed.

End Send.

(** ** Running a method on the state *)

Section Run.
Context {St : Type} {HSt : Store St} {HH : HistoryStore St} {BC : BareCodec Z}.
Context {MO : MapOrder} {UN : Unicode} {EV : Env} {UE : UserEnv} {SE : SrvEnv} {CE : ClientEnv}.
Notation C := (handler (cst St) derror).
Implicit Type s : cst St.

(** The clients of the user have different IDs. *)
Definition distinct s : Prop := NoDup (dc_id <$> ss_downs (c_ss s)).

Lemma find_conn_elem dc (l : list downstreamConn) : NoDup (dc_id <$> l) -> dc ∈ l -> find_conn (dc_id dc) l = Some dc.
Proof.
  unfold find_conn. induction l as [|d l IH]; intros Hn Hin; [by apply elem_of_nil in Hin|]. cbn in Hn.
  apply NoDup_cons in Hn as [Hd Hn]. rewrite filter_cons. apply elem_of_cons in Hin as [->|Hin]; [by rewrite decide_True|].
  rewrite decide_False; [by apply IH|]. intros E. apply Hd. rewrite E. by apply list_elem_of_fmap_2.
Qed.

Lemma get_conn_client s dc : c_fresh s = None -> distinct s -> dc ∈ ss_downs (c_ss s) -> get_conn s (dc_id dc) = Some dc.
Proof. intros Hf Hd Hin. unfold get_conn. rewrite Hf. by apply find_conn_elem. Qed.

Lemma get_conn_id s id dc : get_conn s id = Some dc -> dc_id dc = id.
Proof.
  unfold get_conn, find_conn. intros H. destruct (c_fresh s) as [f|]; [destruct (Z.eqb_spec (dc_id f) id); [by simplify_eq|]|];
    by apply head_Some_elem_of, list_elem_of_filter in H as [H _].
Qed.

(** Writing back a connection that did not change. *)
Lemma put_conn_same s id dc : distinct s -> get_conn s id = Some dc -> put_conn id dc s = s.
Proof.
  intros Hd H. pose proof (get_conn_id _ _ _ H) as Hid. unfold put_conn.
  assert (Hsame : find_conn id (ss_downs (c_ss s)) = Some dc ->
                  with_ss (on_downs (fun d => if Z.eqb (dc_id d) id then dc else d)) s = s).
  { intros Hf. unfold with_ss, on_downs. destruct s as [[] ? ? ?]; cbn in *. f_equal. f_equal.
    unfold find_conn in Hf. apply head_Some_elem_of, list_elem_of_filter in Hf as [_ Hin].
    assert (Hm : Forall (fun d => (if Z.eqb (dc_id d) id then dc else d) = d) ss_downs).
    { apply Forall_forall. intros d Hd'. destruct (Z.eqb_spec (dc_id d) id) as [E|]; [|done].
      assert (Some dc = Some d); [|congruence]. rewrite <- (find_conn_elem dc ss_downs Hd Hin), <- (find_conn_elem d ss_downs Hd Hd').
      by rewrite Hid, E. }
    clear -Hm. induction Hm as [|d l E _ IH]; [done|]. cbn. by rewrite E, IH. }
  unfold get_conn in H. destruct (c_fresh s) as [f|] eqn:Ef; [|by apply Hsame].
  destruct (Z.eqb_spec (dc_id f) id); [|by apply Hsame]. simplify_eq. destruct s; cbn in *. by subst.
Qed.

(** A method that runs without a label. *)
Lemma run_conn_run {A} id (m : dview -> option St -> handler dst derror A) s dc dc' out r :
  get_conn s id = Some dc -> c_ctx s !! id = None ->
  m (view_of (c_ss s) dc) (ss_store (c_ss s)) (DSt dc None []) = (DSt dc' None out, r) ->
  run_conn id m s = (log (Wrote id <$> out) (put_conn id dc' s), r).
Proof.
  intros Hg Hc Hm. unfold run_conn. rewrite Hg, Hc, Hm. cbn. f_equal. f_equal. unfold set_ctx, put_label.
  rewrite delete_id; [by destruct (put_conn id dc' s) eqn:E; destruct s; unfold put_conn, with_ss in E; cbn in E; repeat case_match; simplify_eq|].
  done.
Qed.

(** One that only sends. *)
Lemma run_conn_sends id (m : dview -> option St -> handler dst derror unit) s dc out r :
  distinct s -> get_conn s id = Some dc -> c_ctx s !! id = None ->
  m (view_of (c_ss s) dc) (ss_store (c_ss s)) (DSt dc None []) = (DSt dc None out, r) ->
  run_conn id m s = (log (Wrote id <$> out) s, r).
Proof. intros Hd Hg Hc Hm. rewrite (run_conn_run id m s dc dc out r) by done. by rewrite (put_conn_same s id dc). Qed.

Lemma log_nil s : log [] s = s.
Proof. destruct s. unfold log. cbn. by rewrite app_nil_r. Qed.
Lemma log_log l1 l2 s : log l2 (log l1 s) = log (l1 ++ l2) s.
Proof. destruct s. unfold log. cbn. by rewrite <- app_assoc. Qed.

(** Reading the own connection and its network. *)
Lemma self_dc_run self s dc : distinct s -> get_conn s self = Some dc -> c_ctx s !! self = None -> self_dc self s = (s, Ok dc).
Proof.
  intros Hd Hg Hc. unfold self_dc, on_self. rewrite (run_conn_run self _ s dc dc [] (Ok dc)) by done.
  by rewrite (put_conn_same s self dc), log_nil.
Qed.

Lemma my_network_run self s dc o : distinct s -> get_conn s self = Some dc -> c_ctx s !! self = None ->
  (dc_network dc = None /\ o = None) \/ (exists r o', dc_network dc = Some r /\ ss_heap (c_ss s) !! r = Some o' /\ o = Some o') ->
  my_network self s = (s, Ok o).
Proof.
  intros Hd Hg Hc Ho. unfold my_network. rewrite (bind_ok _ _ _ _ _ (self_dc_run self s dc Hd Hg Hc)).
  destruct Ho as [[-> ->]|(r & o' & -> & Hr & ->)]; [done|].
  rewrite (bind_ok (obj_at_ref r) _ s s o'); [done|]. unfold obj_at_ref. by rewrite Hr.
Qed.

Lemma reply_run self s dc m : distinct s -> get_conn s self = Some dc -> c_ctx s !! self = None -> deliverable m ->
  reply self m s = (log (Wrote self <$> prepared (dc_caps dc) m) s, Ok tt).
Proof.
  intros Hd Hg Hc Hm. unfold reply, on_self. apply (run_conn_sends self _ s dc); try done. by rewrite send_run.
Qed.

End Run.

(** ** A concrete user *)
Module ClientWitness.
Import PendingWitness UnaryCodec.

(** Times are decimal numbers, and it is 50. *)
#[export] Instance env : Env := {|
  env_user := NewUser "user"; env_downs := []; env_now := 50; env_rand := 0;
  env_srvPrefix := Prefix "bouncer" "" ""; env_messageTarget _ := None; env_DeleteChannel _ := true;
  env_persistent := false; time_Parse := Atoi; FormatServerTime := fmt_int;
  ParsePrefix s := Prefix s "" ""; prefix_String p := Name p;
  sasl_Start _ := Some []; sasl_Next _ _ := None |}.

(** The SASL servers take any response; the marker of every target is 10. *)
#[export] Instance srv : SrvEnv := {|
  cfg_Hostname := "bouncer"; cfg_Title := ""; cfg_IconURL := ""; cfg_IconPath := ""; cfg_HTTPIngress := "";
  cfg_FileUploader := false; cfg_MOTD := ""; cfg_ClientCertAuth := true; cfg_chathistory := true; vapid_Public := "";
  auth_Plain := None; auth_OAuthBearer := None;
  srv_sasl_Next srv := match last (snd srv) with
                       | Some (Some _) => (Some (PlainCred "" "alice" "secret"), Ok ([], true))
                       | _ => (None, Ok ([], false))
                       end;
  peer_cert := None; sha512_Sum512 l := l; db_GetDeviceCertificate _ := None;
  db_GetUsernameByID _ := None; db_StoreDeviceCertificate _ := false; db_GetUser_admin _ := None;
  db_ListMessageTargets _ := None; db_GetReadReceipt _ _ := Some (Some 10); msg_String _ := "" |}.

#[export] Instance users : UserEnv := {|
  db_StoreNetwork r := Some (if Z.eqb (n_ID r) 0 then 1 else n_ID r); db_DeleteNetwork _ := true; db_StoreUser _ := true;
  cfg_MaxUserNetworks := -1; url_Parse s := Some (MkURL "ircs" false "irc.example.org" "" "" "");
  tags_String _ := ""; store_renames := false |}.

#[export] Instance clients : ClientEnv := {|
  db_GetMessageTarget _ _ := None; db_StoreMessageTarget _ _ := true; db_StoreReadReceipt _ _ _ := true;
  db_StoreChannel _ _ := Some 1; db_ListWebPushSubscriptions _ _ := Some []; db_StoreWebPushSubscription _ _ _ := true;
  db_DeleteWebPushSubscription _ := true; srv_sendWebPush _ _ := true; db_ListDeviceCertificates _ := Some [];
  db_CreateDeviceCertificate _ _ := true; db_DeleteDeviceCertificate _ _ := true; client_IP := "127.0.0.1";
  ParseTags _ := ∅; time_Format := fmt_int; tls_Dial _ := true; fmt_q s := s; url_error := ""; db_error := "" |}.

(** A store with five messages for every target. *)
Definition stored : list message :=
  (fun n => Message ∅ (Some (Prefix "bob" "u" "h")) "PRIVMSG" ["#go"; n]) <$> ["1"; "2"; "3"; "4"; "5"].
#[export] Instance appends : Store unit := {| st_LastMsgID _ _ _ _ := Some ""; st_Append st _ _ _ := (st, Some "") |}.
#[export] Instance history : HistoryStore unit := {|
  st_LoadLatestID _ _ _ _ _ := Some []; st_chathistory _ := true;
  st_LoadBeforeTime _ _ _ _ _ limit _ := Some (take (Z.to_nat limit) stored);
  st_LoadAfterTime _ _ _ _ _ limit _ := Some (take (Z.to_nat limit) stored);
  st_ListTargets _ _ _ _ _ _ := Some []; st_search _ := false; st_Search _ _ _ := None; st_fs _ := false |}.
#[export] Existing Instance ascii_unicode.

(** A client that negotiated batches and read markers. *)
Definition me (id : Z) : downstreamConn :=
  set_dc_caps (Caps ∅ {[ "batch"; "message-tags"; "draft/read-marker" ]}) (client id).

(** Two clients on a network that is connected. *)
Definition start : cst unit :=
  CSt (Session (NewUser "user") {[0%nat := NetObj 0 net0 (Some conn0)]} [0%nat] [me 1; me 2] (Some tt) 1%nat []) None ∅ [].

Lemma start_client : distinct start.
Proof. by_eval. Qed.

End ClientWitness.
