(* ===== verification/HistoryProps.v ===== *)
(** * Properties of the history commands of clients (downstream.go)

    CHATHISTORY answers with one batch within the limit, and a read marker
    only moves forward. *)

From stdpp Require Import base list gmap strings.
From Stdlib Require Import ZArith Ascii Lia.
From S2P Require Import Prelude GoStrings GoText Casemapping Xirc Whox Genmsg Sasl Irc Rate MsgStore Database.
From S2P Require Import Handler Session Network Pending Upstream UpstreamHandlers UpstreamSafety User Downstream.
From S2P Require Import Client ClientHandlers ClientHistory ClientRun.

Local Open Scope Z_scope.

Section Props.
Context {St : Type} {HSt : Store St} {HH : HistoryStore St} {BC : BareCodec Z}.
Context {MO : MapOrder} {UN : Unicode} {EV : Env} {UE : UserEnv} {SE : SrvEnv} {CE : ClientEnv}.
Notation C := (handler (cst St) derror).
Implicit Type s : cst St.

(** What a [ChatHistoryStore] promises: at most [limit] messages or targets,
    and the messages are ones that were appended. *)
Record history_store_ok (st : St) : Prop := {
  hs_before : forall t e net target limit events l, 0 <= limit ->
    st_LoadBeforeTime st t e net target limit events = Some l -> Z.of_nat (length l) <= limit /\ Forall deliverable l;
  hs_after : forall t e net target limit events l, 0 <= limit ->
    st_LoadAfterTime st t e net target limit events = Some l -> Z.of_nat (length l) <= limit /\ Forall deliverable l;
  hs_targets : forall net t e limit events l, 0 <= limit ->
    st_ListTargets st net t e limit events = Some l -> Z.of_nat (length l) <= limit
}.

(** The client [self] of the user, without a label. *)
Record client_at (self : Z) (dc : downstreamConn) s : Prop := {
  ca_conn : get_conn s self = Some dc;
  ca_ctx : c_ctx s !! self = None;
  ca_distinct : distinct s;
  ca_net : forall r, dc_network dc = Some r -> is_Some (ss_heap (c_ss s) !! r)
}.

(** ** CHATHISTORY *)

(** What the client is sent: one batch. *)
Definition answered (self : Z) (dc : downstreamConn) (typ : string) (params : list string) (msgs : list message) s : cst St :=
  log (Wrote self <$> batch_of dc typ params msgs) (put_conn self (next_ref dc) s).

(** A reply of the handler: an error that changes nothing, or one batch of at
    most [chatHistoryLimit] messages. *)
Definition one_batch (self : Z) (dc : downstreamConn) (m : C unit) s : Prop :=
  (exists e, m s = (s, Err (IrcError e))) \/
  (exists typ params msgs, Z.of_nat (length msgs) <= chatHistoryLimit /\ m s = (answered self dc typ params msgs s, Ok tt)).

Lemma batch_answer self dc typ params msgs s : client_at self dc s -> Forall deliverable msgs ->
  on_self self (dc_sendBatchOf typ params msgs) s = (answered self dc typ params msgs s, Ok tt).
Proof.
  intros Hc Hm. unfold on_self. apply (run_conn_run self _ s dc); [apply Hc|apply Hc|]. by rewrite sendBatchOf_run.
Qed.

Lemma one_batch_answer self dc typ params msgs s : client_at self dc s -> Forall deliverable msgs ->
  Z.of_nat (length msgs) <= chatHistoryLimit -> one_batch self dc (on_self self (dc_sendBatchOf typ params msgs)) s.
Proof. intros Hc Hm Hl. right. exists typ, params, msgs. split; [done|]. by apply batch_answer. Qed.

Lemma one_batch_raise self dc e s : one_batch self dc (raise (IrcError e)) s.
Proof. left. by eexists. Qed.

Lemma one_batch_step {A} self dc (m : C A) (k : A -> C unit) s a :
  m s = (s, Ok a) -> one_batch self dc (k a) s -> one_batch self dc (m ≫= k) s.
Proof. intros Hm Hk. unfold one_batch. by rewrite (bind_ok _ _ _ _ _ Hm). Qed.

Lemma one_batch_fails {A} self dc (m : C A) (k : A -> C unit) s e : m s = (s, Err (IrcError e)) -> one_batch self dc (m ≫= k) s.
Proof. intros Hm. left. exists e. unfold mbind, handler_bind. by rewrite Hm. Qed.

Lemma cneed_run msg n s :
  (exists l, cneed (St := St) msg n s = (s, Ok l)) \/ (exists e, cneed (St := St) msg n s = (s, Err (IrcError e))).
Proof. unfold cneed, lift, parseMessageParams. destruct (_ <? _)%nat; [right|left]; eexists; reflexivity. Qed.

Lemma fail_nick_raise self dc cmd params s : client_at self dc s -> one_batch self dc (fail_nick self cmd params) s.
Proof.
  intros [Hg Hc Hd _]. left. unfold fail_nick. eexists. by rewrite (bind_ok _ _ _ _ _ (self_dc_run self s dc Hd Hg Hc)).
Qed.

(** AROUND splits the limit between both directions. *)
Lemma around_limit st net target events b0 limit : history_store_ok st -> 0 <= limit ->
  Z.of_nat (length (history_around st net target events b0 limit)) <= limit /\
  Forall deliverable (history_around st net target events b0 limit).
Proof.
  intros Hst Hl. assert (Hh : 0 <= limit / 2 <= limit) by (split; [apply Z.div_pos; lia|apply Z.div_le_upper_bound; lia]).
  unfold history_around. destruct (st_LoadBeforeTime _ _ _ _ _ _ _) as [before|] eqn:Eb; [|by split; [|constructor]].
  apply (hs_before st Hst) in Eb as [Hb Fb]; [|lia]. set (bound := match last before with Some lastMsg => time_Parse (default "" (Tags lastMsg !! "time")) | None => Some (b0 - second) end).
  change (match last before with Some _ => _ | None => _ end) with bound. destruct bound as [a|]; [|by split; [|constructor]].
  destruct (st_LoadAfterTime _ _ _ _ _ _ _) as [after|] eqn:Ea; [|by split; [|constructor]].
  apply (hs_after st Hst) in Ea as [Ha Fa]; [|lia]. rewrite length_app. split; [lia|]. by apply Forall_app.
Qed.

Lemma load_limit st net sub target events b0 b1 limit l : history_store_ok st -> 0 <= limit ->
  load_history st net sub target events b0 b1 limit = Some l -> Z.of_nat (length l) <= limit /\ Forall deliverable l.
Proof.
  intros Hst Hl. pose proof (hs_before st Hst) as Hb. pose proof (hs_after st Hst) as Ha. unfold load_history.
  repeat (case_bool_decide; [try case_match; eauto|]); [|by intros [= <-]; split; [|constructor]].
  intros [= <-]. by apply around_limit.
Qed.

Lemma bounds_ok sub req e : history_bounds sub req = e ->
  match e with Ok (_, _, limit) => 0 <= limit <= chatHistoryLimit | Err (IrcError _) => True | _ => False end.
Proof.
  intros <-. unfold history_bounds. set (b0 := parseChatHistoryBound _ _ (hr_bound0 req)).
  set (b1 := parseChatHistoryBound _ _ (hr_bound1 req)).
  destruct (_ && _); [|destruct (Z.eqb b0 zeroTime); [done|]]; cbn; (destruct (nonempty _); [destruct (Z.eqb b1 zeroTime); [done|]|]);
    cbn; (destruct (Atoi _) as [limit|]; [|done]); destruct ((limit <? 0) || _) eqn:E; try done;
    apply orb_false_iff in E as [H1%Z.ltb_ge H2%Z.ltb_ge]; done.
Qed.

Lemma send_targets_deliverable (net : network) (targets : list (string * Z)) :
  Forall deliverable ((fun t => mk_msg "CHATHISTORY" ["TARGETS"; fst t; FormatServerTime (snd t)]) <$>
    filter (fun t => match Get (nw_channels net) (fst t) with Some ch => negb (ch_Detached ch) | None => true end = true) targets).
Proof. apply Forall_fmap, Forall_true. intros t. done. Qed.

Lemma answer_one_batch self dc st net sub req s : client_at self dc s -> history_store_ok st ->
  one_batch self dc (answer_history self st net sub req) s.
Proof.
  intros Hc Hst. pose proof Hc as [Hg Hx Hd _]. unfold answer_history.
  destruct (history_bounds sub req) as [[[b0 b1] limit]|[e|]|] eqn:Eb;
    pose proof (bounds_ok sub req _ Eb) as Hb; cbn in Hb; try done; [|by apply (one_batch_fails _ _ _ _ _ e)].
  apply (one_batch_step _ _ _ _ _ (b0, b1, limit)); [done|]. eapply one_batch_step; [by apply self_dc_run|].
  case_bool_decide.
  - destruct (st_ListTargets _ _ _ _ _ _) as [targets|] eqn:Et; [|left; by eexists].
    apply (hs_targets st Hst) in Et; [|lia]. apply one_batch_answer; [done|apply send_targets_deliverable|].
    rewrite length_fmap. match goal with |- context [filter ?P ?l] => pose proof (length_filter P l) end.
    lia.
  - destruct (load_history _ _ _ _ _ _ _ _) as [l|] eqn:El; [|left; by eexists].
    apply load_limit in El as [Hl Hl2]; [|done|lia]. apply one_batch_answer; [done|done|lia].
Qed.

Lemma my_network_ok self dc s : client_at self dc s -> exists onet, my_network self s = (s, Ok onet).
Proof.
  intros [Hg Hx Hd Hn]. destruct (dc_network dc) as [r|] eqn:Er; [destruct (Hn r eq_refl) as [o Ho]; exists (Some o)|exists None];
    apply (my_network_run self s dc); try done; [right; eauto|by left].
Qed.

(** The parameters, an error, or an empty list of targets. *)
Lemma history_params_run self dc msg sub b s : client_at self dc s ->
  (exists r, history_params self msg sub b s = (s, Ok (Some r))) \/
  (exists e, history_params self msg sub b s = (s, Err (IrcError e))) \/
  history_params self msg sub b s = (answered self dc "draft/chathistory-targets" [] [] s, Ok None).
Proof.
  intros Hc. unfold history_params.
  assert (Hk : forall n (k : list string -> history_request),
    (exists r, (cneed (St := St) msg n ≫= fun l => mret (Some (k l))) s = (s, Ok (Some r))) \/
    (exists e, (cneed (St := St) msg n ≫= fun l => mret (Some (k l))) s = (s, Err (IrcError e)))).
  { intros n k. destruct (cneed_run msg n s) as [[l Hl]|[e He]]; [left|right]; eexists; unfold mbind, handler_bind;
      [by rewrite Hl|by rewrite He]. }
  repeat (case_bool_decide; [destruct b; cbn [negb]; try solve [destruct (Hk 4%nat (fun l => HistoryRequest (arg l 1) (arg l 2) "" (arg l 3))); tauto
    | destruct (Hk 5%nat (fun l => HistoryRequest (arg l 1) (arg l 2) (arg l 3) (arg l 4))); tauto
    | destruct (Hk 4%nat (fun l => HistoryRequest "" (arg l 1) (arg l 2) (arg l 3))); tauto]|]).
  - right; right. by rewrite (bind_ok _ _ _ _ _ (batch_answer self dc _ _ _ s Hc (Forall_nil_2 _))).
  - right; left. by eexists.
Qed.

(** C15: a CHATHISTORY message of a registered client ends in an error reply that
    changes nothing, or in exactly one batch for that client: at most 1000
    messages or targets, each of them tagged with the batch, and nothing is
    sent to another client, stored or sent to a server; for every subcommand
    and all parameters, provided the store honours its limit argument. *)
Theorem chathistory_one_batch self msg s dc :
  client_at self dc s -> (forall st, ss_store (c_ss s) = Some st -> history_store_ok st) ->
  one_batch self dc (on_client_chathistory self msg) s.
Proof.
  intros Hc Hst. pose proof Hc as [Hg Hx Hd Hn]. unfold on_client_chathistory.
  destruct (cneed_run msg 1 s) as [[l Hl]|[e He]]; [|by eapply one_batch_fails].
  eapply one_batch_step; [done|]. cbv zeta. destruct (my_network_ok self dc s Hc) as [onet Ho].
  eapply one_batch_step; [done|].
  destruct (history_params_run self dc msg (arg l 0) (is_Some_b onet) s Hc) as [[req Hr]|[[e He]|Ht]];
    [|by eapply one_batch_fails|right; eexists _, _, []; split; [|by rewrite (bind_ok _ _ _ _ _ Ht)]; done].
  eapply one_batch_step; [done|]. cbv beta iota. eapply one_batch_step; [by apply self_dc_run|].
  case_bool_decide; [by apply one_batch_answer|]. eapply one_batch_step; [done|]. cbv beta.
  destruct (ss_store (c_ss s)) as [st|] eqn:Es; [|by apply fail_nick_raise]. destruct (st_chathistory st); [|by apply fail_nick_raise].
  destruct onet as [o|]; [|apply one_batch_raise]. by apply answer_one_batch; [|apply Hst].
Qed.

(** ** MARKREAD *)

(** The marker after a request: the latest of the current one and the time of
    the request, which is not in the future. [None]: the request is malformed. *)
Definition marker_after (criteria : string) (current : Z) : option Z :=
  if bool_decide (criteria = "") then Some current
  else match Split2 criteria "=" with
       | (key, Some v) => if bool_decide (key = "timestamp") then Z.max current <$> (Z.min env_now <$> time_Parse v) else None
       | _ => None
       end.

Definition marker_text (t : Z) : string := if Z.eqb t zeroTime then "*" else "timestamp=" +:+ FormatServerTime t.

(** What a client of the network is sent. *)
Definition told (self : Z) (moved : bool) (target text : string) (dc : downstreamConn) : list ceffect :=
  if moved || Z.eqb (dc_id dc) self
  then Wrote (dc_id dc) <$> prepared (dc_caps dc)
         (with_prefix (Some (dc_prefix dc)) (mk_msg (if IsEnabled (dc_caps dc) "draft/read-marker" then "MARKREAD" else "READ") [target; text]))
  else [].

Lemma send_marker_run target text dc :
  send_marker target text (DSt dc None [])
  = (DSt dc None (prepared (dc_caps dc) (with_prefix (Some (dc_prefix dc))
       (mk_msg (if IsEnabled (dc_caps dc) "draft/read-marker" then "MARKREAD" else "READ") [target; text]))), Ok tt).
Proof.
  unfold send_marker, get_dc. rewrite bind_gets. cbn [d_dc]. unfold id. rewrite send_run; [done| |done].
  unfold deliverable. by destruct (IsEnabled _ "draft/read-marker").
Qed.

Lemma tell_all_run self moved target text l s :
  c_fresh s = None -> c_ctx s = ∅ -> distinct s -> (forall d, d ∈ l -> d ∈ ss_downs (c_ss s)) ->
  for_each l (fun d => when (moved || Z.eqb (dc_id d) self) (run_conn (dc_id d) (fun _ _ => send_marker target text))) s
  = (log (concat (told self moved target text <$> l)) s, Ok tt).
Proof.
  intros Hf Hx Hd. revert s Hf Hx Hd. induction l as [|d l IH]; intros s Hf Hx Hd Hin; [by rewrite log_nil|]. cbn [for_each].
  assert (H1 : when (moved || Z.eqb (dc_id d) self) (run_conn (dc_id d) (fun _ _ => send_marker target text)) s
               = (log (told self moved target text d) s, Ok tt)).
  { unfold told, when. destruct (moved || _); [|by rewrite log_nil].
    apply (run_conn_sends _ _ s d); [done| |by rewrite Hx|apply send_marker_run].
    apply get_conn_client; [done|done|]. apply Hin. by left. }
  rewrite (bind_ok _ _ _ _ _ H1), IH; [|by destruct s..|].
  - by rewrite log_log.
  - intros d' Hd'. cbn. apply Hin. by right.
Qed.

(** The notification of the push targets. *)
Definition push_effects (moved : bool) (target text : string) (o : netobj) : list ceffect :=
  if moved && is_Some_b (Get (nw_pushTargets (no_net o)) target)
  then [Did (UNet (no_ref o) (WebPush (mk_msg "MARKREAD" [target; text])))] else [].

Lemma read_push_run target text t s o : ss_heap (c_ss s) !! no_ref o = Some o ->
  exists s', read_push target text t (no_ref o) s = (s', Ok tt) /\ c_eff s' = c_eff s ++ push_effects true target text o /\
             ss_downs (c_ss s') = ss_downs (c_ss s).
Proof.
  intros Ho. unfold read_push, push_effects. rewrite (bind_ok (obj_at_ref (no_ref o)) _ s s o) by (unfold obj_at_ref; by rewrite Ho).
  destruct (Get _ _) as [p|]; cbn [is_Some_b andb]; [|exists s; by rewrite app_nil_r].
  unfold when. destruct (negb _); eexists; split; try reflexivity; done.
Qed.

Lemma update_marker_run cmd target criteria netID targetCM cur s :
  match marker_after criteria cur with
  | None => exists e, update_marker cmd target criteria netID targetCM cur s = (s, Err (IrcError e))
  | Some t =>
      if (cur <? t) && negb (db_StoreReadReceipt netID targetCM t)
      then exists e, update_marker cmd target criteria netID targetCM cur s = (s, Err (IrcError e))
      else ((cur <? t) = true -> t <= env_now) /\
           update_marker cmd target criteria netID targetCM cur s
           = (log (if cur <? t then [StoredReadReceipt netID targetCM t] else []) s, Ok (t, cur <? t))
  end.
Proof.
  unfold marker_after, update_marker, read_criteria. case_bool_decide; [by rewrite Z.ltb_irrefl, log_nil|].
  destruct (Split2 criteria "=") as [key [v|]]; [|by eexists]. case_bool_decide; cbn [negb]; [|by eexists].
  destruct (time_Parse v) as [t|]; cbn; [|by eexists]. rewrite bind_lift.
  rewrite (Z.min_comm env_now t). set (t' := if env_now <? t then env_now else t).
  assert (Ht : t' = Z.min t env_now) by (unfold t'; destruct (Z.ltb_spec env_now t); lia). rewrite <- Ht.
  destruct (Z.ltb_spec cur t') as [Hlt|Hge].
  - rewrite Z.max_r by lia. rewrite (proj2 (Z.ltb_lt cur t') Hlt). cbn [andb]. destruct (db_StoreReadReceipt _ _ _); cbn [negb]; [|by eexists].
    split; [lia|done].
  - rewrite Z.max_l by lia. rewrite Z.ltb_irrefl. cbn [andb]. by rewrite log_nil.
Qed.

Lemma tell_marker_run self target t moved s o :
  c_fresh s = None -> c_ctx s = ∅ -> distinct s -> ss_heap (c_ss s) !! no_ref o = Some o ->
  exists s', tell_marker self target (no_ref o) t moved s = (s', Ok tt) /\
    c_eff s' = c_eff s ++ concat (told self moved target (marker_text t) <$> filter (fun d => dc_network d = Some (no_ref o)) (ss_downs (c_ss s)))
               ++ push_effects moved target (marker_text t) o.
Proof.
  intros Hf Hx Hd Ho. unfold tell_marker. fold (marker_text t). unfold each_client.
  set (l := filter _ (ss_downs (c_ss s))). set (s1 := log (concat (told self moved target (marker_text t) <$> l)) s).
  rewrite (bind_ok _ _ s s1 tt).
  - destruct moved; cbn [when]; [|exists s1; split; [done|]; cbn; by rewrite app_nil_r].
    destruct (read_push_run target (marker_text t) t s1 o) as (s' & -> & He & _); [by destruct s|]. exists s'. split; [done|].
    rewrite He. cbn. by rewrite <- app_assoc.
  - rewrite bind_gets. apply tell_all_run; try done. intros d Hd'. by apply list_elem_of_filter in Hd' as [_ ?].
Qed.

(** C16: MARKREAD (and READ) moves the read marker of a target only forward and
    never past the present: the marker becomes the latest of the stored one and
    the minimum of the time in the request and now. When it moves, it is stored
    once and every client of the network (and no other client) is told; when it
    does not, nothing is stored and only the client that asked is told the
    current marker. A malformed request, or a failure of the database, is
    answered with an error and changes nothing. *)
Theorem markread_forward self msg target rest s dc o current :
  client_at self dc s -> c_fresh s = None -> c_ctx s = ∅ -> Params msg = target :: rest ->
  dc_network dc = Some (no_ref o) -> ss_heap (c_ss s) !! no_ref o = Some o -> dc_casemap dc target <> serviceNickCM ->
  db_GetReadReceipt (n_ID (nw_rec (no_net o))) (nw_casemap (no_net o) target) = Some current ->
  let netID := n_ID (nw_rec (no_net o)) in
  let targetCM := nw_casemap (no_net o) target in
  let current := default zeroTime current in
  match marker_after (default "" (head rest)) current with
  | None => exists e, on_client_markread self msg s = (s, Err (IrcError e))
  | Some t =>
      let moved := current <? t in
      if moved && negb (db_StoreReadReceipt netID targetCM t)
      then exists e, on_client_markread self msg s = (s, Err (IrcError e))
      else (moved = true -> t <= env_now) /\
           exists s', on_client_markread self msg s = (s', Ok tt) /\
             c_eff s' = c_eff s ++ (if moved then [StoredReadReceipt netID targetCM t] else [])
                        ++ concat (told self moved target (marker_text t) <$> filter (fun d => dc_network d = Some (no_ref o)) (ss_downs (c_ss s)))
                        ++ push_effects moved target (marker_text t) o
  end.
Proof.
  intros Hc Hf Hx Hp Hn Ho Hs Hdb netID targetCM cur. pose proof Hc as [Hg Hx' Hd _].
  pose proof (update_marker_run (Command msg) target (default "" (head rest)) netID targetCM cur s) as Hu.
  assert (Hrun : on_client_markread self msg s
    = (update_marker (Command msg) target (default "" (head rest)) netID targetCM cur ≫=
       fun tb => tell_marker self target (no_ref o) (fst tb) (snd tb)) s).
  { unfold on_client_markread. rewrite Hp. rewrite (bind_ok _ _ _ _ _ (self_dc_run self s dc Hd Hg Hx')).
    rewrite bool_decide_false by done.
    rewrite (bind_ok _ _ _ _ _ (my_network_run self s dc (Some o) Hd Hg Hx' (or_intror (ex_intro _ _ (ex_intro _ o (conj Hn (conj Ho eq_refl))))))).
    by rewrite Hdb. }
  rewrite Hrun. revert Hu. destruct (marker_after _ cur) as [t|]; [|intros [e He]; exists e; unfold mbind, handler_bind; by rewrite He].
  cbv zeta. destruct (_ && _); [intros [e He]; exists e; unfold mbind, handler_bind; by rewrite He|]. intros [Ht Hu].
  split; [done|]. rewrite (bind_ok _ _ _ _ _ Hu). set (s1 := log _ s). cbn [fst snd].
  destruct (tell_marker_run self target t (cur <? t) s1 o) as (s' & -> & He); [by destruct s..|]. exists s'. split; [done|].
  rewrite He. cbn. by rewrite <- app_assoc.
Qed.

End Props.

(** ** Concrete runs *)
Module HistoryWitness.
Import PendingWitness UnaryCodec ClientWitness.

Lemma start_at id : id = 1 \/ id = 2 -> client_at id (me id) start.
Proof.
  intros H. split; [by destruct H as [->| ->]|done|apply start_client|].
  intros r. cbn. intros [= <-]. by eexists.
Qed.

Lemma history_ok : history_store_ok tt.
Proof.
  assert (Hs : Forall deliverable stored) by (apply (bool_decide_unpack _); vm_compute; exact I).
  split; cbn; intros.
  1,2: simplify_eq; split; [rewrite length_take; lia|by apply Forall_take].
  simplify_eq. cbn. lia.
Qed.

(** Three messages before and two after. *)
Definition request : message := mk_msg "CHATHISTORY" ["AROUND"; "#go"; "timestamp=20"; "5"].

Lemma chathistory_one_batch_witness : one_batch 1 (me 1) (on_client_chathistory 1 request) start.
Proof.
  apply (chathistory_one_batch 1 request start (me 1)); [apply start_at; by left|]. intros st _. destruct st. apply history_ok.
Defined.

Definition mark : message := mk_msg "MARKREAD" ["#go"; "timestamp=40"].

Lemma markread_forward_witness :
  exists s', on_client_markread 1 mark start = (s', Ok tt) /\ head (c_eff s') = Some (StoredReadReceipt 0 "#go" 40) /\ length (c_eff s') = 3%nat.
Proof.
  destruct (markread_forward 1 mark "#go" ["timestamp=40"] start (me 1) (NetObj 0 net0 (Some conn0)) (Some 10)
    (start_at 1 (or_introl eq_refl)) eq_refl eq_refl eq_refl eq_refl eq_refl ltac:(by_eval) eq_refl) as (_ & s' & H1 & H2).
  exists s'. split; [exact H1|]. rewrite H2. split; vm_compute; reflexivity.
Defined.

End HistoryWitness.
