(* ===== verification/BouncerProps.v ===== *)
(** * Device certificates (downstream.go)

    A fingerprint that CLIENTCERT LIST shows is the one CLIENTCERT DELETE takes. *)

From stdpp Require Import base list gmap strings.
From Stdlib Require Import ZArith Ascii Lia.
From S2P Require Import Prelude GoStrings GoText Casemapping Xirc Whox Genmsg Sasl Irc Rate MsgStore Database.
From S2P Require Import Handler Session PathMatch Network Pending Upstream UpstreamHandlers User Downstream Client ClientHandlers.
From S2P Require Import ClientMessages ClientHistory ClientBouncer ClientRun.

Local Open Scope Z_scope.

(** ** Upper case of ASCII strings *)

Section Upper.
Context {UN : Unicode}.

Definition upper (c : ascii) : ascii := ascii_of_N (Z.to_N (runeToUpper (byteZ c))).

Lemma runes_ascii c s : is_ascii c -> runes (String c s) = byteZ c :: runes s.
Proof.
  intros Hc. unfold runes. cbn [slen]. change (slen (String c s)) with (S (slen s)). cbn [runes_fuel].
  by rewrite DecodeRune_ascii.
Qed.

Lemma ToUpper_ascii c s : is_ascii c -> ToUpper (String c s) = String (upper c) (ToUpper s).
Proof.
  intros Hc. unfold ToUpper, Map. rewrite runes_ascii by done. cbn [foldr].
  assert (E : (runeToUpper (byteZ c) <? 0) = false /\ EncodeRune (runeToUpper (byteZ c)) = String (upper c) "").
  { unfold upper. unfold is_ascii in Hc. unfold runeToUpper. rewrite (proj2 (Z.ltb_lt _ _) Hc). clear UN.
    revert Hc. destruct c as [[] [] [] [] [] [] [] []]; intros Hc; try (vm_compute in Hc; discriminate Hc); vm_compute; by split. }
  destruct E as [-> ->]. done.
Qed.

End Upper.

Section Certs.
Context {UN : Unicode} {SE : SrvEnv}.

Lemma hex_nibble c : let h := hex_digit (N_of_ascii c / 16) in let l := hex_digit (N_of_ascii c mod 16) in
  is_ascii h /\ is_ascii l /\ hex_value (upper h) = Some (N_of_ascii c / 16)%N /\ hex_value (upper l) = Some (N_of_ascii c mod 16)%N /\
  ascii_of_N (16 * (N_of_ascii c / 16) + N_of_ascii c mod 16) = c.
Proof. destruct c as [[] [] [] [] [] [] [] []]; vm_compute; repeat split. Qed.

Lemma hex_upper l : hex_DecodeString (ToUpper (hex_EncodeToString l)) = Some l.
Proof.
  induction l as [|c l IH]; [done|]. cbn [hex_EncodeToString]. destruct (hex_nibble c) as (H1 & H2 & H3 & H4 & H5).
  rewrite !ToUpper_ascii by done. cbn [hex_DecodeString]. rewrite H3, H4. cbn. rewrite IH. cbn. by rewrite H5.
Qed.

(** C20: the fingerprint of a device certificate that CLIENTCERT LIST shows (upper
    case hexadecimal digits) is accepted by CLIENTCERT DELETE and names the same
    certificate: the bytes that are deleted are those that were listed, for every
    SHA-512 fingerprint. *)
Theorem clientcert_roundtrip {CE : ClientEnv} {UE : UserEnv} {EV : Env} cert msg fp attrs rest :
  length (cert_Fingerprint cert) = sha512_Size -> Params (cert_line cert) = ["LIST"; fp; attrs] -> Params msg = "DELETE" :: fp :: rest ->
  clientcert_fingerprint msg = Ok (fp, cert_Fingerprint cert).
Proof.
  intros Hl Hc Hm. cbn in Hc. injection Hc as <- _. unfold clientcert_fingerprint. rewrite Hm. cbn. rewrite hex_upper, Hl. done.
Qed.

End Certs.

Module CertWitness.
Import ClientWitness.

Definition cert : DeviceCertificate := MkDeviceCert "laptop" (repeat "171"%char 64) 0 "127.0.0.1".

Lemma clientcert_roundtrip_witness :
  exists fp, clientcert_fingerprint (mk_msg "CLIENTCERT" ["DELETE"; fp]) = Ok (fp, cert_Fingerprint cert).
Proof.
  eexists. eapply (clientcert_roundtrip cert); [by_eval|reflexivity|reflexivity].
Defined.

End CertWitness.
