(* ===== verification/ServiceProps.v ===== *)
(** * Properties of the bouncer service (service.go)

    Words that are quoted are read back; commands end; help lists what a user
    may run; and a user that is not an admin only changes what is its own. *)

From stdpp Require Import base list gmap strings sorting.
From Stdlib Require Import ZArith Ascii Lia.
From S2P Require Import Prelude GoStrings GoText Casemapping Xirc Whox Genmsg Sasl Irc Rate MsgStore Database.
From S2P Require Import Handler Session PathMatch Network Pending Upstream UpstreamHandlers User UserNetworks SessionSound Downstream DownstreamCaps Client ClientHandlers.
From S2P Require Import ClientMessages ClientHistory ClientBouncer ClientSound ServiceFlags Service ServiceCommands ServiceSound ClientPolicy ClientRun BouncerProps.

Local Open Scope Z_scope.

(** ** Words *)

Section Words.
Context {UN : Unicode}.

(** A word in double quotes. *)
Definition escape_char (c : ascii) : string :=
  if bool_decide (c = "034"%char) || bool_decide (c = "\"%char) then String "\" (String c "") else String c "".
Fixpoint escape (s : string) : string :=
  match s with EmptyString => "" | String c s' => escape_char c +:+ escape s' end.
Definition quote (w : string) : string := String "034" (escape w +:+ String "034" "").

Definition ascii_string (s : string) : Prop := Forall is_ascii (schars s).

Lemma runes_bytes s : ascii_string s -> runes s = byteZ <$> schars s.
Proof.
  induction s as [|c s IH]; intros Hs; [done|]. apply Forall_cons in Hs as [Hc Hs]. rewrite runes_ascii by done. cbn. by rewrite IH.
Qed.

Lemma ascii_app a b : ascii_string a -> ascii_string b -> ascii_string (a +:+ b).
Proof. unfold ascii_string. rewrite schars_app. intros. by apply Forall_app. Qed.

Lemma escape_ascii w : ascii_string w -> ascii_string (escape w).
Proof.
  induction w as [|c w IH]; intros Hw; [done|]. apply Forall_cons in Hw as [Hc Hw]. apply ascii_app; [|by apply IH].
  unfold escape_char. destruct (_ || _); repeat constructor; done.
Qed.

Lemma quote_ascii w : ascii_string w -> ascii_string (quote w).
Proof.
  intros Hw. unfold quote. change (ascii_string (String "034" "" +:+ (escape w +:+ String "034" ""))).
  apply ascii_app; [by repeat constructor|]. apply ascii_app; [by apply escape_ascii|by repeat constructor].
Qed.

(** The runes of an escaped character inside of quotes. *)
Lemma split_escaped st c : is_ascii c -> sw_escape st = false -> sw_delim st = rune_dquote ->
  exists p, foldl split_rune st (byteZ <$> schars (escape_char c))
            = Split_ (sw_words st) (sw_lastWord st +:+ String c "") false p rune_dquote.
Proof.
  intros Hc He Hd. destruct st as [ws w e p d]; cbn in *; subst. unfold escape_char.
  destruct (bool_decide (c = "034"%char) || bool_decide (c = "\"%char)) eqn:E.
  - exists (byteZ c). transitivity (Split_ ws (w +:+ EncodeRune (byteZ c)) false (byteZ c) rune_dquote); [reflexivity|].
    by rewrite EncodeRune_ascii.
  - apply orb_false_iff in E as [E1%bool_decide_eq_false E2%bool_decide_eq_false]. exists (byteZ c).
    change (split_rune (Split_ ws w false p rune_dquote) (byteZ c) = Split_ ws (w +:+ String c "") false (byteZ c) rune_dquote).
    unfold split_rune. cbn [sw_escape sw_delim sw_lastWord sw_words]. rewrite EncodeRune_ascii by done.
    assert (H1 : (byteZ c =? rune_backslash) = false).
    { apply Z.eqb_neq. intros H. apply E2. destruct c as [[] [] [] [] [] [] [] []]; vm_compute in H; congruence. }
    assert (H2 : (byteZ c =? rune_dquote) = false).
    { apply Z.eqb_neq. intros H. apply E1. destruct c as [[] [] [] [] [] [] [] []]; vm_compute in H; congruence. }
    rewrite H1, H2. cbn [rune_dquote rune_space Z.eqb andb orb]. by destruct (byteZ c =? rune_squote).
Qed.

Lemma split_word w : ascii_string w -> forall st, sw_escape st = false -> sw_delim st = rune_dquote ->
  exists p, foldl split_rune st (byteZ <$> schars (escape w)) = Split_ (sw_words st) (sw_lastWord st +:+ w) false p rune_dquote.
Proof.
  induction w as [|c w IH]; intros Hw st He Hd.
  - exists (sw_prev st). cbn. rewrite sapp_nil_r. destruct st; cbn in *; by subst.
  - apply Forall_cons in Hw as [Hc Hw]. cbn [escape]. rewrite schars_app, fmap_app, foldl_app.
    destruct (split_escaped st c Hc He Hd) as [p ->]. destruct (IH Hw (Split_ (sw_words st) (sw_lastWord st +:+ String c "") false p rune_dquote) eq_refl eq_refl) as [p' ->].
    exists p'. cbn. by rewrite <- sapp_assoc.
Qed.

Lemma split_quote w ws p : ascii_string w ->
  foldl split_rune (Split_ ws "" false p rune_space) (byteZ <$> schars (quote w)) = Split_ ws w false rune_dquote rune_space.
Proof.
  intros Hw. unfold quote. cbn [schars String.list_ascii_of_string fmap list_fmap foldl].
  change (String.list_ascii_of_string ?x) with (schars x). rewrite schars_app, fmap_app, foldl_app.
  change (split_rune (Split_ ws "" false p rune_space) (byteZ "034")) with (Split_ ws "" false rune_dquote rune_dquote).
  destruct (split_word w Hw (Split_ ws "" false rune_dquote rune_dquote) eq_refl eq_refl) as [p' ->]. done.
Qed.

Lemma split_all w words : Forall ascii_string (w :: words) -> forall ws p,
  foldl split_rune (Split_ ws "" false p rune_space) (byteZ <$> schars (Join (quote <$> w :: words) " "))
  = Split_ (ws ++ removelast (w :: words)) (List.last (w :: words) "") false rune_dquote rune_space.
Proof.
  revert w. induction words as [|w' words IH]; intros w Hw ws p; apply Forall_cons in Hw as [Hw Hws].
  - change (Join (quote <$> [w]) " ") with (quote w). cbn [removelast List.last]. rewrite app_nil_r. by apply split_quote.
  - rewrite (fmap_cons quote w (w' :: words)), Join_cons by done. rewrite !schars_app, !fmap_app, !foldl_app, split_quote by done.
    change (foldl split_rune (Split_ ws w false rune_dquote rune_space) (byteZ <$> schars " "))
      with (Split_ (ws ++ [w]) "" false rune_space rune_space).
    rewrite (IH w' Hws). change (removelast (w :: w' :: words)) with (w :: removelast (w' :: words)).
    rewrite <- app_assoc. done.
Qed.

Lemma Join_ascii l : Forall ascii_string l -> ascii_string (Join l " ").
Proof.
  induction 1 as [|w l Hw Hl IH]; [by apply Forall_nil|]. destruct l as [|w' l]; [done|]. rewrite Join_cons by done.
  apply ascii_app; [done|]. apply ascii_app; [by repeat constructor|done].
Qed.

(** C18: any list of ASCII words (empty ones, and words with spaces, quotes and
    backslashes) can be sent to the service: quoting each of them, with a
    backslash before quotes and backslashes, and joining them with spaces gives
    a text that splitWords reads back as exactly these words. *)
Theorem splitWords_roundtrip words : Forall ascii_string words -> splitWords (Join (quote <$> words) " ") = Ok words.
Proof.
  intros Hw. unfold splitWords. rewrite runes_bytes.
  2: { apply Join_ascii, Forall_fmap. eapply Forall_impl; [done|]. intros w. apply quote_ascii. }
  destruct words as [|w words]; [done|]. unfold split_init. rewrite split_all by done. unfold split_end. cbn [sw_prev sw_words sw_lastWord sw_delim sw_escape].
  change (IsSpace rune_dquote) with false. cbn [negb app]. change (negb (rune_space =? rune_space)) with false. cbv iota.
  f_equal. change ([] ++ removelast (w :: words)) with (removelast (w :: words)). symmetry. by apply app_removelast_last.
Qed.

End Words.

(** ** Commands end *)

Section Termination.
Context {St : Type} {HSt : Store St} {HH : HistoryStore St} {BC : BareCodec Z}.
Context {MO : MapOrder} {UN : Unicode} {EV : Env} {UE : UserEnv} {SE : SrvEnv} {CE : ClientEnv} {FE : FlagEnv} {VE : ServiceEnv}.
Notation SV := (handler (cst St) serr).

(** A command takes at least one word. *)
Lemma Get_shorter words : forall cmds cmd params, command_Get cmds words = inr (cmd, params) -> (length params < length words)%nat.
Proof.
  induction words as [|name words IH]; intros cmds cmd params; cbn; [done|]. destruct (find_command cmds name) as [e|c]; [done|].
  destruct (_ || _); [intros [= <- <-]; lia|]. intros H. apply IH in H. lia.
Qed.

Lemma help_error_ext name (m m' : SV unit) s : m s = m' s -> help_error name m s = help_error name m' s.
Proof. intros H. unfold help_error. by rewrite H. Qed.

(** Only "user run" calls [handleServiceCommand], on fewer words. *)
Lemma run_handler_ext (f g : serviceContext -> list string -> SV unit) h ctx params s :
  (forall words s, (length words < length params)%nat -> f ctx words s = g ctx words s) ->
  run_handler f h ctx params s = run_handler g h ctx params s.
Proof.
  intros H. destruct h; try reflexivity. cbn. unfold handleUserRun. destruct params as [|u [|w words]]; try reflexivity.
  unfold mbind, handler_bind. destruct (svc_user s) as [s1 [own|e|]]; try reflexivity.
  destruct (_ && _); [|reflexivity]. apply H. cbn. lia.
Qed.

Lemma service_command_fuel : forall n m ctx words (s : cst St), (length words < n)%nat -> (length words < m)%nat ->
  service_command n ctx words s = service_command m ctx words s.
Proof.
  induction n as [|n IH]; intros [|m] ctx words s Hn Hm; try lia. cbn.
  destruct (command_Get serviceCommands words) as [e|[cmd params]] eqn:E; [reflexivity|]. apply Get_shorter in E.
  unfold run_command. destruct (_ && _); [reflexivity|]. destruct (_ && _); [reflexivity|]. destruct (sv_handle cmd) as [h|]; [|reflexivity].
  apply help_error_ext, run_handler_ext. intros words' s' Hw. apply IH; lia.
Qed.


End Termination.

(** ** Help *)

(** The commands with their words. *)
Fixpoint command_paths (prefix : list string) (name : string) (c : serviceCommand) : list (list string * serviceCommand) :=
  match c with
  | SCommand _ _ _ children _ _ =>
      match children with
      | [] => [(prefix ++ [name], c)]
      | _ => concat ((fun nc => command_paths (prefix ++ [name]) (fst nc) (snd nc)) <$> children)
      end
  end.
Definition all_commands : list (list string * serviceCommand) :=
  concat ((fun nc => command_paths [] (fst nc) (snd nc)) <$> serviceCommands).

Definition permitted (admin : bool) (c : serviceCommand) : bool := negb (sv_admin c) || admin.

Section Help.
Context {CE : ClientEnv}.


End Help.

(** ** Users that are not admins *)

(** Objects carry their reference, clients have different IDs and are bound to
    networks that exist. *)
Definition any_policy : policy := Policy (fun _ => True) (fun _ => True) (fun _ => True).
Definition well_formed {St} (s : cst St) : Prop := csound any_policy (fun _ => True) s.

(** The source addresses of the networks of the user, and the default. *)
Definition source_ips {St} (s : cst St) (ip : string) : Prop :=
  ip = "" \/ exists r o, ss_heap (c_ss s) !! r = Some o /\ ip = n_SourceIP (nw_rec (no_net o)).

(** What is done on behalf of [u]: stored records of the user and its networks
    keep what is for admins; nothing is done to other users or to the server,
    and no file is opened. *)
Definition confined (u : UserRec) (ips : string -> Prop) (e : ceffect) : Prop :=
  match e with
  | Did (StoreUserDB u') => privileges u' = privileges u
  | Did (StoreNetworkRec r) => ips (n_SourceIP r)
  | StoppedUser name => name = u_Username u
  | CreatedUser _ | UpdatedUser _ | RanAs _ _ | DeletedUser _ | OpenedFile _ | Broadcast _ | SetDebug _ => False
  | _ => True
  end.

Definition confined_policy (u : UserRec) (ips : string -> Prop) : policy :=
  Policy (fun u' => privileges u' = privileges u) (fun r => ips (n_SourceIP r)) (fun _ => True).

Section Confined.
Context {St : Type} {HSt : Store St} {HH : HistoryStore St} {BC : BareCodec Z}.
Context {MO : MapOrder} {UN : Unicode} {EV : Env} {UE : UserEnv} {SE : SrvEnv} {CE : ClientEnv} {FE : FlagEnv} {VE : ServiceEnv}.

Lemma network_source vals n r : network_update irc_ParseMessage vals n false = Ok r -> n_SourceIP r = n_SourceIP n.
Proof.
  unfold network_update. intros H. repeat (apply res_bind_ok in H as (? & ? & H)). injection H as <-. cbn.
  by destruct (flag_str vals "source-ip"); simplify_eq.
Qed.

Lemma self_privileges vals u u' : flag_str vals "source-ip" = None /\ flag_int vals "max-networks" = None ->
  self_update vals u = Ok u' -> privileges u' = privileges u.
Proof.
  intros [H1 H2] H. unfold self_update in H. rewrite H1, H2 in H. apply res_bind_ok in H as (p & _ & H). by injection H as <-.
Qed.

Lemma confined_service u (ips : string -> Prop) : ips "" -> u_Admin u = false ->
  service_policy (confined_policy u ips) (confined u ips) false.
Proof.
  intros Hi Ha. split; cbn; try done.
  - intros vals n r Hn H. by rewrite (network_source vals n r H).
  - intros vals v v' Hv Hf H. rewrite <- Hv. by apply (self_privileges vals); [apply Hf|].
  - intros v Hv. by inversion Hv.
Qed.

Lemma confined_client u (ips : string -> Prop) : ips "" -> u_Admin u = false -> client_policy (confined_policy u ips) (confined u ips).
Proof.
  intros Hi Ha. split; cbn; try done.
  - intros r r' Hr ->. done.
  - intros v v' Hv ->. done.
  - by intros [].
  - intros v msg Hv Hadm. injection Hv. congruence.
Qed.

Lemma csound_mono (F F' : policy) (K K' : ceffect -> Prop) (s : cst St) : (forall c, PC F c -> PC F' c) -> Forall K' (c_eff s) ->
  PU F' (ss_user (c_ss s)) -> (forall r o, ss_heap (c_ss s) !! r = Some o -> PR F' (nw_rec (no_net o))) -> Forall (stored_ok F') (ss_eff (c_ss s)) ->
  csound F K s -> csound F' K' s.
Proof.
  intros Hc He Hu Hr Hs [[H1 H2 H3 H4 H5 H6] Hi Hf Hk]. split; [|done| |done].
  - split; try done.
    + intros r o Ho. split; [by apply (H2 r)|by eapply Hr].
    + eapply Forall_impl; [exact H5|]. intros dc [Hp Hn]. by split; [apply Hc|].
  - intros dc Hdc. destruct (Hf dc Hdc) as [[Hp Hn] Hx]. by split; [split; [apply Hc|]|].
Qed.

(** C6: whatever message a registered client of a user that is not an admin
    sends, to a server, to the bouncer or to its service, and whatever the
    outcome, the handler is confined to what is the user's own: the account keeps
    its name, its rights, its limit of networks and its source address, in memory
    and in every record of the user that is stored; no network gets a source
    address the user did not have; no other user is created, updated, deleted,
    stopped or acted for; nothing is broadcast, no debugging is switched and no
    local file is opened. The state stays well formed: clients keep distinct IDs
    and are bound to networks that exist. *)
Theorem client_confined self msg (s : cst St) :
  well_formed s -> c_eff s = [] -> ss_eff (c_ss s) = [] -> u_Admin (ss_user (c_ss s)) = false ->
  let s' := fst (handle_client_message self (client_service self) msg s) in
  well_formed s' /\
  privileges (ss_user (c_ss s')) = privileges (ss_user (c_ss s)) /\
  (forall r o, ss_heap (c_ss s') !! r = Some o -> source_ips s (n_SourceIP (nw_rec (no_net o)))) /\
  Forall (confined (ss_user (c_ss s)) (source_ips s)) (c_eff s').
Proof.
  intros Hs He Hl Ha. set (u := ss_user (c_ss s)) in *. set (ips := source_ips s). assert (Hi : ips "") by (by left).
  assert (H : csound (confined_policy u ips) (confined u ips) (fst (handle_client_message self (client_service self) msg s))).
  { apply pol_client_message; [by split|by split|by split|by apply confined_client| |].
    - intros text. apply svc_client; [by split|by split|by split|]. intros v Hv. cbn in Hv.
      replace (u_Admin v) with false by (injection Hv; congruence). by apply confined_service.
    - eapply csound_mono; [..|exact Hs]; [done|by rewrite He|done| |by rewrite Hl]. intros r o Ho. right. by exists r, o. }
  split_and!; [|apply (cs_ss _ _ _ H)| |apply H].
  { eapply csound_mono; [..|exact H]; try done; by apply Forall_true; intros []. }
  intros r o Ho. by destruct (sd_heap _ _ _ _ (cs_ss _ _ _ H) r o Ho).
Qed.

End Confined.

(** ** Witnesses *)

Module ServiceWitness.
Import PendingWitness UnaryCodec ClientWitness.

(** Integers are decimal; there are two users, and every call succeeds. *)
#[export] Instance flags : FlagEnv := {|
  strconv_ParseInt s := match Atoi s with Some n => inr n | None => inl "parse error" end; strconv_Atoi_error _ := "parse error" |}.
#[export] Instance service : ServiceEnv := {|
  srv_users := [NewUser "user"; NewUser "other"]; srv_Stats := (2, 2, 1); srv_createUser _ := None; user_update_result _ _ := None;
  user_run_result _ _ := ([], None); user_stop_result _ := None; db_DeleteUser _ := None; db_ListNetworks _ := inr [];
  db_Stats := inr (2, 1, 0); db_StoreIgnore _ _ := inr 1; db_DeleteIgnore _ := None; db_NewDeviceCertificate _ _ := inr tt;
  db_ListDeviceCertificates_error := ""; db_DeleteDeviceCertificate_error := ""; bcrypt_hash p := inr ("hash of " +:+ p);
  sha1_Sum l := take 20 l; sha256_Sum256 l := take 32 l; key_generate _ _ := inr []; cert_create key := inr key; x509_KeyPair _ := inl "no PEM";
  http_Get _ := inl "no network"; os_ReadFile _ := inl "no file"; net_ParseIP _ := true; time_ParseDuration := Atoi;
  time_DateTime := fmt_int; irc_ParseMessage s := inr (mk_msg s []); unknown_key_error := "unknown key type" |}.

Lemma start_well_formed : well_formed start.
Proof.
  split; [split|..].
  - done.
  - intros r o Ho. cbn [start c_ss ss_heap] in Ho. by apply lookup_singleton_Some in Ho as [<- <-].
  - done.
  - done.
  - repeat constructor; intros r [= <-]; by eexists.
  - by repeat constructor.
  - by apply (bool_decide_unpack _); vm_compute.
  - done.
  - by repeat constructor.
Qed.

(** A user that is not an admin may not use "user create", which the service
    answers with an error, and changes its own nick. *)
Definition command (text : string) : message := mk_msg "PRIVMSG" ["BouncerServ"; text].
Definition refused : message := command "user create -username eve -password x".
Definition nick_change : message := command "user update -nick me2".
Definition handled (msg : message) : cst unit * res derror unit := handle_client_message 1 (client_service 1) msg start.

Lemma client_confined_witness :
  (snd (handled refused) = Ok tt /\ length (c_eff (fst (handled refused))) = 1%nat) /\
  u_Nick (ss_user (c_ss (fst (handled nick_change)))) = "me2" /\
  Forall (confined (NewUser "user") (source_ips start)) (c_eff (fst (handled nick_change))) /\
  well_formed (fst (handled refused)).
Proof.
  pose proof (client_confined 1 nick_change start start_well_formed eq_refl eq_refl eq_refl) as (_ & _ & _ & H1).
  pose proof (client_confined 1 refused start start_well_formed eq_refl eq_refl eq_refl) as (H2 & _).
  split_and!; [vm_compute; reflexivity..|exact H1|exact H2].
Defined.

(** Words with a space, a quote and a backslash, and an empty one. *)
Lemma splitWords_roundtrip_witness :
  Forall ascii_string ["set"; "a b"; dq +:+ "\"; ""] /\
  splitWords (Join (quote <$> ["set"; "a b"; dq +:+ "\"; ""]) " ") = Ok ["set"; "a b"; dq +:+ "\"; ""].
Proof.
  assert (H : Forall ascii_string ["set"; "a b"; dq +:+ "\"; ""]) by (by repeat constructor).
  split; [exact H|]. apply (splitWords_roundtrip _ H).
Defined.


End ServiceWitness.
