(* ===== verification/LoopProps.v ===== *)
(** * Runs of the event loop of a user (user.go)

    Two sequences of events that end the loop of the user with a panic. *)

From stdpp Require Import base list gmap strings.
From Stdlib Require Import ZArith Ascii.
From S2P Require Import Prelude GoStrings GoText Casemapping Xirc Whox Base64 Genmsg Sasl Irc Rate MsgStore Database.
From S2P Require Import Handler Session Network Pending Upstream UpstreamHandlers User Downstream Client ClientHandlers.
From S2P Require Import ClientMessages ClientHistory ClientBouncer ServiceFlags Service ServiceCommands UserLoop ClientRun ServiceProps.

Local Open Scope Z_scope.

Module LoopWitness.
Import PendingWitness UnaryCodec ClientWitness ServiceWitness.

Definition run (l : list event) (s : cst unit) : cst unit * res derror unit := run_events false l s.

(** ** A user with one network and a saved channel that is detached *)

Definition detached : ChannelRec := newChannel "#go" "" true.
Definition user0 : UserRec := user_with_Enabled (NewUser "user") true.
Definition initial : cst unit :=
  CSt (start_session user0 (Some tt) [(with_ID (NewNetwork "irc.example.org") 1, [detached], [], [])]) None ∅ [].

(** A client that is logged in and asks for the network. *)
Definition login (id : Z) : downstreamConn :=
  set_dc_registration (Some (DReg "me" "user" "" "irc.example.org" 0 false "user"))
    (set_dc_hasUser false (set_dc_network None (client id))).

Definition server (cmd : string) (params : list string) : message := Message ∅ (Some (Prefix "me" "u" "h")) cmd params.

Definition join_events : list event :=
  [EventDownstreamConnected (login 1); EventUpstreamConnected 0 conn0; EventUpstreamMessage 0 (server "JOIN" ["#go"])].

(** The end of the names of the channel. *)
Definition names_events : list event :=
  [EventUpstreamMessage 0 (server "353" ["me"; "="; "#go"; "@me bob"]); EventUpstreamMessage 0 (server "366" ["me"; "#go"; "End"])].
Definition client_join : event := EventDownstreamMessage (client 1) (mk_msg "JOIN" ["#go"]).

(** ** A client that restarts its authentication with the server *)

Definition sasl_conn : upstreamConn := set_uc_caps (Caps {["sasl" := "PLAIN"]} {[ "sasl" ]}) conn0.
Definition sasl_start : cst unit :=
  CSt (Session user0 {[0%nat := NetObj 0 net0 (Some sasl_conn)]} [0%nat]
         [set_dc_caps (Caps {["sasl" := "PLAIN"]} {[ "sasl" ]}) (client 1)] (Some tt) 1%nat []) None ∅ [].

Definition auth (arg : string) : event := EventDownstreamMessage (client 1) (mk_msg "AUTHENTICATE" [arg]).
Definition credentials : string := "AGFsaWNlAHNlY3JldA==".
(** The client sends its credentials, which are passed to the server, and aborts. *)
Definition aborted : list event := [auth "PLAIN"; auth credentials; auth "*"].
Definition success : event := EventUpstreamMessage 0 (server "903" ["me"; "SASL authentication successful"]).

End LoopWitness.

(** ** Panics *)


