(* ===== verification/LoopSound.v ===== *)
(** * Invariants of the event loop of a user (user.go)

    Every event keeps the state of the user sound: the clients have different
    IDs, are bound to networks that exist and have only enabled what they were
    offered. *)

From stdpp Require Import base list gmap strings.
From Stdlib Require Import ZArith Ascii.
From S2P Require Import Prelude GoStrings GoText Casemapping Xirc Whox Genmsg Sasl Irc Rate MsgStore Database.
From S2P Require Import Handler Session Network Pending Upstream UpstreamHandlers User SessionSound Downstream DownstreamCaps Client.
From S2P Require Import ClientHandlers ClientMessages ClientHistory ClientBouncer ServiceFlags Service ServiceCommands UserLoop ClientSound ServiceSound ClientPolicy ClientRun ServiceProps LoopProps.

Local Open Scope Z_scope.

(** Any records; clients keep the invariant of capabilities. *)
Definition loop_policy : policy := Policy (fun _ => True) (fun _ => True) caps_ok.
Definition any_effect (e : ceffect) : Prop := True.

Create HintDb loop discriminated.

Section Loop.
Context {St : Type} {HSt : Store St} {HH : HistoryStore St} {BC : BareCodec Z}.
Context {MO : MapOrder} {UN : Unicode} {EV : Env} {UE : UserEnv} {SE : SrvEnv} {CE : ClientEnv} {FE : FlagEnv} {VE : ServiceEnv}.
Notation C := (handler (cst St) derror).
Notation D := (handler dst derror).
Notation SV := (handler (cst St) serr).
Notation S := (csound loop_policy any_effect (St := St)).
Notation method := (conn_method loop_policy).

Lemma loop_policy_ok : policy_ok loop_policy.
Proof. by split. Qed.
Lemma loop_caps : caps_policy loop_policy.
Proof. split; [apply caps_handleCap|apply caps_updateSupportedCaps]. Qed.
Lemma loop_effects : effects_ok loop_policy any_effect.
Proof. by split. Qed.

Lemma any_rec {A} (m : handler (ust St) uerror A) : keeps_rec loop_policy m.
Proof. done. Qed.

Lemma loop_conn {A} id (m : dview -> option St -> D A) : (forall V store, method (m V store)) -> keeps S (run_conn id m).
Proof. apply keeps_run_conn, loop_effects. Qed.
Lemma loop_user {A} (m : handler (session St) user_error A) : user_method loop_policy m -> keeps S (run_user m).
Proof. apply keeps_run_user; [apply loop_caps|apply loop_effects]. Qed.
Lemma loop_up {A} ref (m : Env -> handler (ust St) uerror A) : keeps S (run_up ref m).
Proof. apply keeps_run_up; [apply loop_caps|apply loop_effects|]. intros EV'. apply any_rec. Qed.
Lemma loop_did e : keeps (E := derror) S (did e).
Proof. by apply keeps_did. Qed.
Lemma loop_obj ref f : (forall o, no_ref (f o) = no_ref o) -> keeps S (modify_obj ref f).
Proof. intros Hf. apply keeps_modify_obj. intros o. split; [apply Hf|done]. Qed.
Lemma loop_obj_at ref : keeps S (obj_at_ref ref).
Proof. apply keeps_obj_at. Qed.

Lemma loop_create record lim : user_method loop_policy (createNetwork (St := St) record lim).
Proof. intros I L. by apply keeps_createNetwork; [apply loop_policy_ok|]. Qed.
Lemma loop_update record lim : user_method loop_policy (updateNetwork (St := St) record lim).
Proof. intros I L. by apply keeps_updateNetwork; [apply loop_policy_ok|]. Qed.
Lemma loop_delete id : user_method loop_policy (deleteNetwork (St := St) id).
Proof. intros I L. apply keeps_deleteNetwork. Qed.
Lemma loop_update_user f : user_method loop_policy (updateUser (St := St) f).
Proof. intros I L. by apply keeps_updateUser; [apply loop_policy_ok|]. Qed.

Lemma loop_cap msg : method (handleCap msg).
Proof. apply method_handleCap, loop_caps. Qed.
Lemma loop_caps_update V : method (dc_updateSupportedCaps V).
Proof. apply method_updateSupportedCaps, loop_caps. Qed.

(** Methods of a connection. *)
Ltac conn_solve := intros; intros ? ?; keeps_conn; try solve [apply conn_SendBatch; intros; keeps_conn].

Ltac keeps_loop :=
  repeat first
    [ keeps_step
    | match goal with
      | |- keeps _ (run_conn _ _) => apply loop_conn; conn_solve
      | |- keeps _ (on_self _ _) => apply loop_conn; conn_solve
      | |- keeps _ (on_view _ _) => apply loop_conn; conn_solve
      | |- keeps _ (reply _ _) => apply loop_conn; conn_solve
      | |- keeps _ (self_dc _) => apply loop_conn; conn_solve
      | |- keeps _ (set_self _ _) => apply loop_conn; conn_solve
      | |- keeps _ (run_up _ _) => apply loop_up
      | |- keeps _ (run_user (createNetwork _ _)) => apply loop_user, loop_create
      | |- keeps _ (run_user (updateNetwork _ _)) => apply loop_user, loop_update
      | |- keeps _ (run_user (deleteNetwork _)) => apply loop_user, loop_delete
      | |- keeps _ (run_user (updateUser _)) => apply loop_user, loop_update_user
      | |- keeps _ (did _) => apply loop_did
      | |- keeps _ (modify_obj _ _) => apply loop_obj; done
      | |- keeps _ (obj_at_ref _) => apply loop_obj_at
      | |- keeps _ (modify (set_ctx _)) => apply keeps_modify; intros; by apply sound_ctx
      | |- keeps _ (drop_label _) => apply keeps_modify; intros; by apply sound_ctx
      | |- keeps _ (cneed _ _) => apply keeps_lift
      | |- keeps _ _ => solve [auto with loop]
      | |- keeps _ _ => progress unfold the_user, the_store, self_label, take_label, my_network, my_upstream, upstreamForCommand, send_labeled,
          send_labeled_in, enqueue, fail_nick, fail, numeric, each_client, each_unbound, store_network_rec, store_channel, drop_label_if_many
      end ].

Section Client.
Context (self : Z).

(** *** Messages *)

Lemma loop_client_policy : client_policy loop_policy any_effect.
Proof. by split. Qed.
Lemma loop_bouncer_list : keeps S (bouncer_list (St := St) self).
Proof. apply pol_bouncer_list, loop_effects. Qed.
Lemma loop_client_message service msg : (forall text, keeps S (service text)) -> keeps S (handle_client_message self service msg).
Proof. apply pol_client_message; [apply loop_policy_ok|apply loop_caps|apply loop_effects|apply loop_client_policy]. Qed.
Hint Resolve loop_bouncer_list : loop.

(** *** The service *)

Lemma loop_service_policy admin : service_policy loop_policy any_effect admin.
Proof. by split. Qed.
Lemma loop_service text : keeps S (client_service (St := St) self text).
Proof. apply svc_client; [apply loop_policy_ok|apply loop_caps|apply loop_effects|]. intros u _. apply loop_service_policy. Qed.
Lemma loop_command ctx words : keeps S (handleServiceCommand (St := St) ctx words).
Proof. apply svc_command; [apply loop_policy_ok|apply loop_caps|apply loop_effects|]. apply loop_service_policy. Qed.

(** *** Welcoming a client *)

(** The object at [ref] exists. *)
Definition live (ref : nat) (s : cst St) : Prop := is_Some (ss_heap (c_ss s) !! ref).

Lemma sound_bind s ref : S s -> live ref s -> S (fst (bind_network self ref s)).
Proof.
  intros Hs Hl. unfold bind_network, set_self, on_self, run_conn. destruct (get_conn s self) as [dc|] eqn:Hg; [|done]. cbn.
  destruct Hs as [H1 Hnd H2 H3]. pose proof (sd_downs _ _ _ _ H1) as Hd. rewrite Forall_forall in Hd.
  apply sound_log; [|done]. apply sound_ctx. unfold put_conn. unfold get_conn, find_conn in Hg.
  assert (Hdown : head (filter (fun d => dc_id d = self) (ss_downs (c_ss s))) = Some dc ->
    S (with_ss (on_downs (fun d => if Z.eqb (dc_id d) self then set_dc_network (Some ref) dc else d)) s)).
  { intros H. apply head_Some_elem_of, list_elem_of_filter in H as [Hid Hin]. apply sound_ss; [by split|]. intros L HL.
    apply sound_on_downs; [done| |].
    - intros d. destruct (Z.eqb_spec (dc_id d) self); [by cbn; congruence|done].
    - intros d Hok. destruct (_ =? _); [|done]. split; [apply (Hd _ Hin)|]. by intros r [= <-]. }
  destruct (c_fresh s) as [f|] eqn:Ef; [|by apply Hdown]. destruct (Z.eqb_spec (dc_id f) self); [|by apply Hdown].
  simplify_eq. destruct (H2 dc eq_refl) as [[Hx Hy] Hz]. split; cbn; try done. intros d [= <-]. split; [|done]. split; [done|]. by intros r [= <-].
Qed.

Lemma found_live (s : cst St) o : S s -> o ∈ objs (c_ss s) -> live (no_ref o) s.
Proof.
  intros Hs Ho. unfold objs in Ho. apply list_elem_of_omap in Ho as (r & _ & Hr). unfold live.
  destruct (sd_heap _ _ _ _ (cs_ss _ _ _ Hs) _ _ Hr) as [<- _]. by eexists.
Qed.

(** Calls on clients keep the objects. *)
Lemma heap_replay h e : keeps (fun s : cst St => ss_heap (c_ss s) = h) (replay e).
Proof.
  intros s Hs. unfold replay, did, modify, log. destruct e; try done. destruct (get_conn s id) eqn:Hg; [|done].
  unfold run_conn. rewrite Hg. destruct (dc_call _ _ _ _) as [dd r]. cbn. unfold put_conn.
  destruct (c_fresh s); [destruct (_ =? _)|]; done.
Qed.

Lemma run_user_live (m : handler (session St) user_error nat) s :
  (forall ss ss' ref, m ss = (ss', Ok ref) -> is_Some (ss_heap ss' !! ref)) ->
  forall s' ref, run_user m s = (s', Ok (inr ref)) -> live ref s'.
Proof.
  intros Hm s' ref. unfold run_user. destruct (m (clear_eff (c_ss s))) as [ss r] eqn:E. unfold mbind, handler_bind.
  pose proof (keeps_for_each (fun s : cst St => ss_heap (c_ss s) = ss_heap ss) (ss_eff ss) replay (fun e => heap_replay (ss_heap ss) e)
    (with_ss (fun _ => clear_eff ss) s) eq_refl) as Hh.
  destruct (for_each _ _ _) as [s1 [x|e|]]; [|done|done]. cbn in Hh. destruct r as [a'|e|]; [|done|done]. intros [= <- <-].
  unfold live. rewrite Hh. by eapply Hm.
Qed.

Lemma create_live record lim (ss ss' : session St) ref : createNetwork record lim ss = (ss', Ok ref) -> is_Some (ss_heap ss' !! ref).
Proof.
  unfold createNetwork. destruct (negb _); [done|].
  intros (s1 & [] & _ & H)%bind_inv. apply bind_inv in H as (s2 & [] & _ & H). apply bind_inv in H as (s3 & r3 & _ & H).
  apply bind_inv in H as (s4 & r4 & _ & H). apply bind_inv in H as (s5 & [] & _ & H). apply bind_inv in H as (s6 & [] & _ & H).
  rewrite bind_gets in H. destruct (ss_heap (id s6) !! r3) as [o|] eqn:Eo; [|done].
  apply bind_inv in H as (s7 & [] & Hn & H). injection H as <- <-.
  assert (Hk : keeps (fun s => ss_heap s = ss_heap s6) (notifyBouncerNetworkState (St := St) (n_ID r4) (net_attrs (id s6) o))).
  { unfold notifyBouncerNetworkState, sendBouncer. repeat keeps_step; apply keeps_modify; by intros. }
  specialize (Hk s6 eq_refl). rewrite Hn in Hk. cbn in Hk. rewrite Hk. by eexists.
Qed.

Lemma loop_found (f : session St -> option netobj) (k : C unit) : (forall ss o, f ss = Some o -> o ∈ objs ss) -> keeps S k ->
  keeps S (onet ← gets (fun s => f (c_ss s)); match onet with None => k | Some o => bind_network self (no_ref o) end).
Proof.
  intros Hf Hk s Hs. rewrite bind_gets. destruct (f (c_ss s)) as [o|] eqn:E; [|by apply Hk].
  apply sound_bind; [done|]. apply found_live; [done|]. by apply Hf.
Qed.
Lemma loop_create_network r : keeps S (create_network (St := St) self r).
Proof.
  unfold create_network. cbv zeta. destruct (unmarshalUsername _) as [[nick x] y]. repeat (destruct (bool_decide _ || _) || case_bool_decide || destruct (negb _)).
  all: try solve [unfold fail_nick; keeps_loop].
  all: intros s Hs; pose proof (loop_user _ (loop_create (with_Nick (NewNetwork (rg_networkName r)) nick) true) s Hs) as H1;
    pose proof (run_user_live _ s (fun ss ss' ref => create_live (with_Nick (NewNetwork (rg_networkName r)) nick) true ss ss' ref)) as H2;
    unfold mbind, handler_bind; destruct (run_user _ s) as [s1 [[e|ref]|e|]]; try done; apply sound_bind; [done|by apply H2].
Qed.
Lemma byID_objs (ss : session St) id o : getNetworkByID ss id = Some o -> o ∈ objs ss.
Proof. intros H. by apply head_Some_elem_of, list_elem_of_filter in H as [_ ?]. Qed.
Lemma loop_loadNetwork : keeps S (loadNetwork (St := St) self).
Proof.
  unfold loadNetwork. apply keeps_bind; [unfold self_reg; keeps_loop|]. intros r. destruct (negb _).
  - apply (loop_found (fun ss => getNetworkByID ss (rg_networkID r))); [intros ss o; apply byID_objs|unfold fail; keeps_loop].
  - case_bool_decide; [unfold fail_nick; keeps_loop|]. case_bool_decide; [keeps_loop|].
    apply (loop_found (fun ss => getNetwork ss (rg_networkName r))); [intros ss o; apply getNetwork_objs|apply loop_create_network].
Qed.

Lemma method_welcome_state V : method (welcome_state V).
Proof.
  intros i n. unfold welcome_state, welcome_nick, welcome_modes, welcome_motd. keeps_conn. all: try apply loop_caps_update.
Qed.
Lemma method_welcome_metadata V : method (welcome_metadata V).
Proof. intros i n. unfold welcome_metadata, dc_sendTargetMetadata. keeps_conn; try solve [apply conn_SendBatch; intros; keeps_conn]. Qed.
Lemma method_welcome_channels V : method (welcome_channels V).
Proof. intros i n. unfold welcome_channels, welcome_channel. keeps_conn. Qed.
Lemma loop_welcome_backlog : keeps S (welcome_backlog (St := St) self).
Proof. unfold welcome_backlog, welcome_target. keeps_loop. match goal with |- keeps _ (match ?x with _ => _ end _) => destruct x end; keeps_loop. Qed.
Lemma loop_welcome : keeps S (welcome (St := St) self).
Proof.
  unfold welcome. repeat keeps_step; try solve [keeps_loop].
  - apply loop_loadNetwork.
  - apply loop_conn. intros V store. apply method_welcome_state.
  - apply loop_conn. intros V store. apply method_welcome_metadata.
  - apply loop_conn. intros V store. apply method_welcome_channels.
  - apply loop_welcome_backlog.
Qed.
Lemma loop_try_welcome : keeps S (try_welcome (St := St) self).
Proof.
  intros s Hs. unfold try_welcome. pose proof (loop_welcome s Hs) as H. destruct (welcome self s) as [s' [x|[m|]|]]; cbn in H; try done.
  all: revert s' H; match goal with |- forall s', _ -> S (fst (?h s')) => change (keeps S h) end; keeps_loop.
Qed.

End Client.

(** ** Events *)

Lemma loop_notify ref attrs : keeps S (notify_state (St := St) ref attrs).
Proof. unfold notify_state. keeps_loop. apply loop_user. intros I L. apply keeps_notify. Qed.
Hint Resolve loop_notify : loop.

Lemma method_tell_connected name V : method (tell_connected name V).
Proof. intros i n. unfold tell_connected. keeps_conn. apply loop_caps_update. Qed.
Lemma loop_upstream_connected ref uc : keeps S (on_upstream_connected (St := St) ref uc).
Proof. unfold on_upstream_connected, each_client, set_lastError. keeps_loop. apply method_tell_connected. Qed.
Lemma loop_upstream_disconnected ref : keeps S (on_upstream_disconnected (St := St) ref).
Proof. unfold on_upstream_disconnected. keeps_loop. apply loop_user. intros I L. apply keeps_disconnected. Qed.
Lemma loop_upstream_errors ref err : keeps S (on_upstream_connection_error (St := St) ref err) /\ keeps S (on_upstream_error (St := St) ref err).
Proof. unfold on_upstream_connection_error, on_upstream_error, notice_all, set_lastError. split; keeps_loop. Qed.
Lemma loop_upstream_message ref msg : keeps S (on_upstream_message (St := St) ref msg).
Proof. unfold on_upstream_message. keeps_loop. Qed.
Lemma loop_channel_detach ref name : keeps S (on_channel_detach (St := St) ref name).
Proof. unfold on_channel_detach. keeps_loop. Qed.
Lemma loop_each_upstream m : keeps S (each_upstream (St := St) m).
Proof.
  unfold each_upstream. keeps_loop. apply loop_user. intros I L. unfold forEachUpstream. repeat keeps_step.
  apply keeps_run_net. intros EV'. apply any_rec.
Qed.
Lemma loop_bump : keeps S (bump (St := St)).
Proof. unfold bump. keeps_loop. apply loop_user. intros I L. by apply keeps_bump; [apply loop_policy_ok|]. Qed.
Hint Resolve loop_each_upstream loop_bump : loop.

Lemma sound_no_fresh s : S s -> S (set_fresh None s).
Proof. intros []. by split. Qed.
Lemma sound_add_client s : S s -> S (add_client s).
Proof.
  intros Hs. unfold add_client. destruct (c_fresh s) as [dc|] eqn:Ef; [|done]. destruct Hs as [H1 Hnd H2 H3].
  destruct (H2 dc Ef) as [Hok Hid]. split; cbn; [|rewrite fmap_app; apply NoDup_app; split_and!; [done| |apply NoDup_singleton]|done|done].
  - destruct H1 as [Ha Hb Hc Hd He Hf]. split; cbn; try done. apply Forall_app. by split; [|apply Forall_singleton].
  - intros i Hi ->%list_elem_of_singleton. done.
Qed.
Lemma sound_remove_client id s : S s -> S (with_ss (remove_client id) s).
Proof.
  intros [H1 Hnd H2 H3]. assert (Hsub : sublist (remove_first (fun d => Z.eqb (dc_id d) id) (ss_downs (c_ss s))) (ss_downs (c_ss s)))
    by apply remove_first_sublist.
  split; cbn; [|eapply sublist_NoDup; [exact Hnd|by apply fmap_sublist]| |done].
  - destruct H1 as [Ha Hb Hc Hd He Hf]. split; cbn; try done. apply Forall_forall. intros d Hin. rewrite Forall_forall in He. apply He. by eapply elem_of_sublist.
  - intros dc Hdc. destruct (H2 dc Hdc) as [Hok Hid]. split; [done|]. intros Hin. apply Hid. by eapply elem_of_sublist; [|apply fmap_sublist].
Qed.

(** What is known of a client when it is handed to the user. *)
Definition event_ok (s : cst St) (e : event) : Prop :=
  match e with
  | EventDownstreamConnected dc =>
      dc_id dc ∉ dc_id <$> ss_downs (c_ss s) /\ caps_ok (dc_caps dc) /\ dc_network dc = None
  | EventDownstreamMessage dc _ => dc_id dc ∉ dc_id <$> ss_downs (c_ss s) -> client_ok loop_policy (ss_heap (c_ss s)) dc
  | _ => True
  end.

Lemma loop_connected cfg dc s : S s -> event_ok s (EventDownstreamConnected dc) -> S (fst (on_downstream_connected cfg dc s)).
Proof.
  intros Hs (Hid & Hc & Hn). unfold on_downstream_connected. cbv zeta. rewrite bind_modify.
  assert (H1 : S (set_fresh (Some dc) s)).
  { destruct Hs as [H1 Hnd H2 H3]. split; cbn; try done. intros d [= <-]. split; [|done]. split; [done|]. by rewrite Hn. }
  revert H1. generalize (set_fresh (Some dc) s). match goal with |- forall s1, _ -> S (fst (?h s1)) => change (keeps S h) end.
  unfold enable_on_auth. keeps_loop. all: try (apply keeps_modify; first [apply sound_no_fresh|apply sound_add_client]).
  all: first [apply loop_try_welcome|unfold tell_last_error; keeps_loop].
Qed.
Lemma loop_disconnected dc : keeps S (on_downstream_disconnected (St := St) dc).
Proof. unfold on_downstream_disconnected. keeps_loop. apply keeps_modify. intros s. apply sound_remove_client. Qed.
Lemma loop_handle self msg : keeps S (closing_on_error self (handle_client_message self (client_service self) msg) (St := St)).
Proof.
  intros s Hs. unfold closing_on_error. pose proof (loop_client_message self (client_service self) msg (loop_service self) s Hs) as H.
  destruct (handle_client_message _ _ _ s) as [s' [x|e|]]; try done. revert s' H.
  change (keeps S (close_client (St := St) self)). unfold close_client. keeps_loop.
Qed.
Lemma find_conn_none id (l : list downstreamConn) : find_conn id l = None -> id ∉ dc_id <$> l.
Proof.
  unfold find_conn. intros H%head_None Hin. apply list_elem_of_fmap in Hin as (dc & -> & Hin).
  assert (Hf : dc ∈ filter (fun d => dc_id d = dc_id dc) l) by (by apply list_elem_of_filter). rewrite H in Hf. by apply elem_of_nil in Hf.
Qed.
Lemma loop_message dc msg s : S s -> event_ok s (EventDownstreamMessage dc msg) -> S (fst (on_downstream_message dc msg s)).
Proof.
  intros Hs He. unfold on_downstream_message. cbv zeta. rewrite bind_gets. destruct (dc_closed _); [done|].
  destruct (find_conn (dc_id dc) (ss_downs (c_ss s))) as [d|] eqn:Ef; [by apply loop_handle|]. apply find_conn_none in Ef.
  unfold unlisted. assert (H1 : S (set_fresh (Some dc) s)).
  { destruct Hs as [H1 Hnd H2 H3]. split; cbn; try done. intros d [= <-]. by split; [apply He|]. }
  apply (loop_handle (dc_id dc) msg) in H1. destruct (closing_on_error _ _ _) as [s' r]. by apply sound_no_fresh.
Qed.
Lemma loop_user_update e : keeps S (on_user_update (St := St) e).
Proof. unfold on_user_update, all_clients, close_client. keeps_loop. Qed.
Lemma loop_user_run words asUser : keeps S (on_user_run (St := St) words asUser).
Proof. unfold on_user_run. keeps_loop. apply keeps_result, loop_command. Qed.
Lemma loop_stop : keeps S (on_stop (St := St)).
Proof. unfold on_stop, all_clients, close_client. keeps_loop. apply loop_user. intros I L. apply keeps_stop. Qed.

Lemma sound_event cfg e s : S s -> event_ok s e -> S (fst (handle_event cfg e s)).
Proof.
  intros Hs He. unfold handle_event. rewrite bind_modify. apply (sound_ctx _ _ ∅) in Hs. revert Hs He.
  assert (Hk : forall h : C unit, keeps S h -> S (set_ctx ∅ s) -> event_ok s e -> S (fst (h (set_ctx ∅ s)))) by auto.
  destruct e; [apply Hk|apply Hk|apply Hk|apply Hk|apply Hk|apply Hk|clear Hk; intros Hs He; by apply loop_connected
    |apply Hk|clear Hk; intros Hs He; by apply loop_message|apply Hk..].
  - apply loop_upstream_connected.
  - apply loop_upstream_disconnected.
  - apply loop_upstream_errors.
  - apply loop_upstream_errors.
  - apply loop_upstream_message.
  - apply loop_channel_detach.
  - apply loop_disconnected.
  - unfold all_clients. keeps_loop.
  - apply loop_user_update.
  - keeps_loop.
  - unfold on_list_sessions. keeps_loop.
  - unfold close_client. keeps_loop.
  - apply loop_user_run.
  - apply loop_stop.
Qed.

(** ** Reachable states *)

(** The states of the loop: the one that is loaded, and the one after an event,
    whatever its outcome. *)
Inductive reachable (cfg : bool) : cst St -> Prop :=
| Reach_start u store nets : reachable cfg (CSt (start_session u store nets) None ∅ [])
| Reach_event s e : reachable cfg s -> event_ok s e -> reachable cfg (fst (handle_event cfg e s)).

Lemma sound_start u store nets : S (CSt (start_session u store nets) None ∅ []).
Proof.
  split; cbn; [|apply NoDup_nil_2|done|done]. split; cbn; try done. intros r o Ho. split; [|done]. apply elem_of_list_to_map_2 in Ho.
  apply elem_of_lookup_imap in Ho as (i & n & [= -> ->] & _). by destruct n as [[[record channels] ignores] receipts].
Qed.

Lemma reachable_sound cfg s : reachable cfg s -> S s.
Proof. induction 1 as [u store nets|s e _ IH He]; [apply sound_start|by apply sound_event]. Qed.

(** C5: in every state the event loop of a user reaches (from what it loads at
    its start, by any events in any order, whatever their outcome) the clients of
    the user have different IDs; a client has only enabled capabilities that it
    was offered, was offered cap-notify, and has not enabled
    soju.im/account-required; the network it is bound to exists, and is the one
    with that reference. The events that connect a client hand over one with a
    new ID, with this property of its capabilities (registration gives it) and
    without network; a message of a client that is not in the list comes from one
    with the same properties. *)
Theorem loop_invariant cfg s : reachable cfg s ->
  NoDup (dc_id <$> ss_downs (c_ss s)) /\
  Forall (fun dc => caps_ok (dc_caps dc) /\
                    forall r, dc_network dc = Some r -> exists o, ss_heap (c_ss s) !! r = Some o /\ no_ref o = r) (ss_downs (c_ss s)).
Proof.
  intros Hs%reachable_sound. split; [apply Hs|]. eapply Forall_impl; [apply (sd_downs _ _ _ _ (cs_ss _ _ _ Hs))|].
  intros dc [Hc Hn]. split; [done|]. intros r Hr. destruct (Hn r Hr) as [o Ho]. exists o. split; [done|].
  by destruct (sd_heap _ _ _ _ (cs_ss _ _ _ Hs) r o Ho).
Qed.
End Loop.

Module SoundWitness.
Import PendingWitness UnaryCodec ClientWitness ServiceWitness LoopWitness.

(** Two clients log in, and the first joins a channel of the network. *)
Definition joining (id : Z) : downstreamConn := set_dc_caps (dc_caps (newDownstreamConn id "")) (login id).
Definition s1 : cst unit := fst (handle_event false (EventDownstreamConnected (joining 1)) initial).
Definition s2 : cst unit := fst (handle_event false (EventDownstreamConnected (joining 2)) s1).
Definition s3 : cst unit := fst (handle_event false client_join s2).

Lemma loop_invariant_witness :
  (dc_id <$> ss_downs (c_ss s3) = [1; 2] /\ dc_network <$> ss_downs (c_ss s3) = [Some 0%nat; Some 0%nat]) /\
  NoDup (dc_id <$> ss_downs (c_ss s3)).
Proof.
  split; [vm_compute; auto|]. apply (loop_invariant false).
  apply Reach_event; [|intros Hn; exfalso; apply Hn; by apply (bool_decide_unpack _); vm_compute].
  apply Reach_event; [apply Reach_event; [apply Reach_start|]|]; (split; [|split; [apply caps_ok_new|reflexivity]]).
  all: by apply (bool_decide_unpack _); vm_compute.
Defined.

End SoundWitness.
